(* ===== verification/_CoqProject ===== *)
-Q . S2P
Prelude.v
Arena.v
RateLimiter.v
Double.v
Cache.v
Redis.v
HttpParser.v
Firewall.v
JsonText.v
Gateway.v
ModelHealth.v
PromptRouter.v
Observability.v
RouteTable.v
Router.v
Connections.v
Io.v
Stream.v
RequestParser.v
Moderation.v
Plugin.v
Tls.v
TlsContext.v
Http2.v
Sessions.v
Server.v
Handler.v
Lifecycle.v
Config.v
Tokenizer.v
Stats.v
Utils.v
Optimizer.v
EventLoop.v
Boot.v
Main.v
Recovery.v
Run.v
