(* ===== verification/Prelude.v ===== *)
(** * NeuroHTTP (AIONIC): a verification library

    NeuroHTTP is an HTTP server in C that answers chat requests with AI models.

    ** The program and how its parts interact

    - [main] ([src/main.c]) reads the configuration ([src/config.c]), starts the parts
      in a fixed order, runs the main loop and stops the parts in the opposite order.
    - The event loop ([src/iouring_engine.c]) accepts connections and calls back the
      server ([src/server.c]), which gives each connection to a worker.
    - A worker reads a request from its connection, directly, over TLS ([src/tls.c]) or
      as frames of HTTP/2 ([src/http2.c]), and collects its bytes; the incremental parser
      ([src/http_parser.c]) or the one-shot parser ([src/parser.c]) finds its method,
      target, headers and body.
    - The plugins ([src/plugin.c]), the firewall ([src/firewall.c]), the moderation of
      contents ([src/ai/content_moderation.c]) and the rate limiter
      ([src/ratelimiter.c]) decide whether it may go on.
    - The HTTP router ([src/router.c]) chooses a handler; the chat handler asks the
      response cache ([src/cache.c]) and then the prompt router
      ([src/ai/prompt_router.c]), which picks a model by its health and score, builds the
      payload (with [src/ai/ai_gateway.c]), calls it with retries and reports the call to
      the metrics ([src/observability.c]).
    - The answer goes back whole or as a stream ([src/stream.c]).
    - Beside that: the tokenizer ([src/ai/tokenizer.c]), statistics of the models
      ([src/ai/stats.c]), the optimizer ([src/optimizer.c]), utilities ([src/utils.c]) and
      the arenas, slabs and pools of memory ([src/arena.c]).

    ** The files

    Each file models one part: its data as records and inductive types with the
    names of the source, one definition for each operation (the whole function,
    with its guards and early returns), and then its invariant, lemmas and
    properties.  A field or function keeps its C name.

    Shared:
    - [Prelude] (this file): faults, machine integers, C strings, the functions
      of the C library that the source uses, a small heap, the interface
      [Component], tactics and shared lemmas.
    - [Double]: IEEE double and single arithmetic (the standard library's
      [SpecFloat]) with the order facts the sort of the models needs.
    - [Io]: sockets and the clock: the monad of programs that write to descriptors.

    Parts of a request:
    - [Arena]: [src/arena.c].
    - [RateLimiter]: [src/ratelimiter.c].
    - [Cache]: [src/cache.c] as built without the client of Redis; [Redis]: the same
      operations in the build with it, over any server.
    - [HttpParser]: [src/http_parser.c]; [step] is one pass of the state machine.
    - [RequestParser]: the request parser of [src/parser.c].
    - [Firewall]: [src/firewall.c], with the mutex and the text of its files.
    - [Moderation]: [src/ai/content_moderation.c], over any regular expressions.
    - [Plugin]: [src/plugin.c], over any shared objects.
    - [JsonText]: the four routines that write and read JSON strings, in
      [src/parser.c] and [src/ai/prompt_router.c].
    - [Gateway]: [src/ai/ai_gateway.c].
    - [ModelHealth]: the health of a model and the circuit breaker of
      [src/ai/prompt_router.c]; [PromptRouter]: the rest of that file.
    - [Observability]: [src/observability.c].
    - [RouteTable] and [Router]: the table of routes, and the responses, handlers
      and dispatch of [src/router.c].
    - [Stream]: [src/stream.c].
    - [Tls] and [TlsContext]: connections and contexts of [src/tls.c], over any OpenSSL;
      [Http2]: [src/http2.c], over any nghttp2;
      [Sessions]: the interfaces [TlsLayer] and [H2Layer] that the server uses, and their
      instances by [Tls] and [Http2].

    The server:
    - [Connections]: the table of connections, the buffer of a request, base64 and
      the tests on a request of [src/server.c].
    - [Server]: [server_handle_request]; [Handler]: what it guarantees.
    - [Lifecycle]: the callbacks, the events of a worker, the reaper, the drain and the
      stop, as steps of a transition system.
    - [EventLoop]: [src/iouring_engine.c].
    - [Boot]: [server_init], [server_start] and [server_cleanup].
    - [Config]: [src/config.c].
    - [Tokenizer], [Stats], [Utils], [Optimizer]: the files of these names.
    - [Main]: [src/main.c]; [Recovery]: what a start leaves, and stopping it; [Run]: the
      signals, the main loop and a whole run.

    ** How the code is translated

    An operation that may leave an object, use a freed, null or uninitialised
    pointer, divide by zero or lock a mutex twice returns [res]: [Fault] says
    which.  An operation that cannot is a plain function.  One that also writes to
    sockets or waits for them is in the monad [M] of [Io].  State is passed
    explicitly; a global structure is an argument and a result.  The answers of
    [malloc] and of system calls, the clock, files, the network and the environment are
    arguments, so that the theorems hold for all of them.  Integers are [Z] with the wrap of
    their type written out ([u16], [u32], [u64], [i32]); a C string is the list of its
    bytes; bytes in a buffer are a list with its bound checked where the source
    relies on it; a pointer that may dangle is a [ptr].  The CRC in assembly is a parameter
    of the tables that hash with it: what is proved of them holds for every hash function.
    OpenSSL, nghttp2, the regular expressions and the shared objects are parameters too.

    Threads are the steps that they take: what is done under a mutex, or one callback or
    event each.  [Lifecycle] lets them come in any order, and the joins of [server_stop] wait for threads that
    were created or not and end or not.  [RateLimiter] has two steps for a call, because the clock is read before
    the mutex is taken.

    A loop that is not structural has fuel: the tables probe at most their
    capacity, the scans of text at most its length, the retries at most
    [max_retries + 1] times ([retries_bounded] shows that this is enough), the
    growth of a request's buffer 48 doublings from 64 kilobytes, the drain one pass for
    each 100 milliseconds of its timeout.  Loops that end only by what the outside answers
    ([send], [accept4], the main loop) run over the list of the answers and wait
    when it is used up.

    ** What is shown

    - Safety and invariants: the firewall, as long as [strdup] succeeds, and the cache never
      fault in any state the operations of [firewall_op] and [cache_op] reach (through the
      interface [Component]); the parser's slices lie in what was read; arenas give out
      disjoint blocks, slabs never give out a live object, pools do not leak; the handler
      writes to no descriptor but its client's; the table of connections stays sound
      through accepts, requests, reaper and drain; a context of TLS asks for what is
      configured and gives back what it holds; the open shared objects are those of
      the plugins; the event loop gives back what it took; the parts that are marked as
      started are cleaned up after a start that fails, under the conditions of [Recovery.boot_ok], and a whole
      run of [main] without clients ends with the memory and the TLS objects of the server given back,
      whatever signals and reloads come, under those of [Run.run_ok]; runs of the optimizer
      keep it within its limits.
    - Refinement: the rate limiter's chains, the blacklist, the table of
      connections, the reaper, the table of routes, of providers and of statistics, the
      moderation engine and the submission ring answer like the map, set, list or queue
      they stand for.
    - Functional behaviour: a request is read, parsed, routed and answered; lookup after
      insertion in the cache, putting a request together from reads, the circuit breaker
      opening and closing, the order and the choice of models, the answer to a chat, the
      data that waits for a socket, the configuration that counts.
    - Equivalence: feeding a request in pieces or whole, replacing text.
    - Round trips: requests (both parsers), configurations, prompts and answers as JSON,
      base64, chunked streams, tokens.
    - Bounds: the rate that the limiter lets through whatever the interleaving of its calls, responses in their blocks, escaping,
      numbers as text.
    - Termination and liveness: retries, sends with a deadline, the drain, the main loop at
      a signal.
    - Errors: the defects that modelling the source showed are theorems too, for every
      input that meets them.

    ** What is not modelled

    - The assembly ([src/asm]) and the three example plugins.
    - Printing: the banner, log lines and the text of statistics on the standard output.
    - [drop_privileges] and the self-test of the CRC in [main], which change no state.
    - Interleavings inside an operation, other than between the two steps of the rate limiter: each callback, event
      and pass of the reaper is one step.  This is coarser than the program: most of them hold a mutex for their
      shared state, but the worker closes a descriptor ([src/server.c], line 362) before it takes one to
      remove the connection, and counters and flags are read and written without one.
    - The kernel: what it does with a submission is said only as far as which entry it finds
      ([EventLoop.entries_read]). *)

From stdpp Require Export base tactics numbers list option gmap strings.
From Stdlib Require Export ZArith Lia Sorted.
From Stdlib Require Import Ascii.

Open Scope Z_scope.

(** ** Faults: what C leaves undefined

    A function of the source that can leave an object's bounds, follow a null
    or freed pointer, divide by zero, read memory never written, block on a
    mutex it already holds or loop for ever is translated to the [res] monad; every
    other function stays a plain function. *)

Inductive fault : Set :=
| OutOfBounds
| UseAfterFree
| NullDeref
| DivideByZero
| Uninitialised
| Deadlock
| Diverges.

Inductive res (A : Type) : Type :=
| Ok (a : A)
| Fault (f : fault).
Arguments Ok {A} a.
Arguments Fault {A} f.

#[export] Instance res_ret : MRet res := @Ok.
#[export] Instance res_bind : MBind res :=
  fun A B k m => match m with Ok a => k a | Fault f => Fault f end.
#[export] Instance res_fmap : FMap res :=
  fun A B f m => match m with Ok a => Ok (f a) | Fault e => Fault e end.

#[export] Instance fault_eq_dec : EqDecision fault.
Proof. solve_decision. Defined.

(** [res_sat P m]: the computation does not fault and its result satisfies
    [P]. *)
Definition res_sat {A} (P : A -> Prop) (m : res A) : Prop :=
  match m with Ok a => P a | Fault _ => False end.

(** No fault. *)
Definition safe {A} (m : res A) : Prop := exists a, m = Ok a.

(** ** Machine integers, kept at their width *)

Definition u64 (z : Z) : Z := z mod 2 ^ 64.
Definition u32 (z : Z) : Z := z mod 2 ^ 32.
Definition i32 (z : Z) : Z := (z + 2 ^ 31) mod 2 ^ 32 - 2 ^ 31.
Definition INT_MAX : Z := 2 ^ 31 - 1.
Definition SIZE_MAX : Z := 2 ^ 64 - 1.

(** ** Lists with integer indices *)

Definition zlen {A} (l : list A) : Z := Z.of_nat (length l).

Definition znth {A} (l : list A) (i : Z) : option A :=
  if i <? 0 then None else l !! Z.to_nat i.

Definition zset {A} (l : list A) (i : Z) (x : A) : list A :=
  if i <? 0 then l else <[Z.to_nat i := x]> l.

(** The first index whose element satisfies a test. *)
Fixpoint find_index {A} (p : A -> bool) (l : list A) : option nat :=
  match l with
  | [] => None
  | x :: l' => if p x then Some 0%nat else S <$> find_index p l'
  end.

(** How many elements satisfy a test. *)
Fixpoint countb {A} (p : A -> bool) (l : list A) : Z :=
  match l with
  | [] => 0
  | x :: l' => (if p x then 1 else 0) + countb p l'
  end.

(** [a[i] = a[n-1]; n--], the unordered removal the source uses. *)
Definition swap_remove {A} (i : nat) (l : list A) : list A :=
  match last l with
  | Some z => removelast (<[i := z]> l)
  | None => l
  end.

(** ** C strings

    A [char *] is the list of its bytes before the terminating NUL, each byte
    an integer of [0, 255]. *)

Abbreviation cstr := (list Z) (only parsing).

(** A string literal of the source. *)
Fixpoint lit (s : string) : list Z :=
  match s with
  | EmptyString => []
  | String a s' => Z.of_N (N_of_ascii a) :: lit s'
  end.

(** The characters the parsers test for. *)
Abbreviation c_TAB := 9 (only parsing).
Abbreviation c_LF := 10 (only parsing).
Abbreviation c_CR := 13 (only parsing).
Abbreviation c_SP := 32 (only parsing).
Abbreviation c_QUOTE := 34 (only parsing).
Abbreviation c_COMMA := 44 (only parsing).
Abbreviation c_DOT := 46 (only parsing).
Abbreviation c_SLASH := 47 (only parsing).
Abbreviation c_COLON := 58 (only parsing).
Abbreviation c_EQUALS := 61 (only parsing).
Abbreviation c_QMARK := 63 (only parsing).
Abbreviation c_LBRACKET := 91 (only parsing).
Abbreviation c_BACKSLASH := 92 (only parsing).
Abbreviation c_RBRACKET := 93 (only parsing).

(** A string literal with its quotation marks written as apostrophes. *)
Definition qlit (s : string) : list Z := map (fun c => if c =? 39 then c_QUOTE else c) (lit s).

Definition is_byte (c : Z) : Prop := 0 <= c < 256.
Definition is_cstr (s : list Z) : Prop := Forall (fun c => 0 < c < 256) s.

Definition strlen (s : list Z) : Z := zlen s.

(** [strcmp(a, b) == 0] *)
Definition streq (a b : list Z) : bool := bool_decide (a = b).

(** [strncmp(s, p, strlen(p)) == 0] *)
Fixpoint prefixb (p s : list Z) : bool :=
  match p, s with
  | [], _ => true
  | c :: p', d :: s' => (c =? d) && prefixb p' s'
  | _ :: _, [] => false
  end.

(** [strstr]: the offset of the first occurrence. *)
Fixpoint strstr (h n : list Z) : option nat :=
  if prefixb n h then Some 0%nat
  else match h with
       | [] => None
       | _ :: h' => S <$> strstr h' n
       end.

Definition contains (h n : list Z) : bool :=
  match strstr h n with Some _ => true | None => false end.

(** [strchr] and [memchr]: the offset of the first occurrence of a byte. *)
Definition strchr (s : list Z) (c : Z) : option nat := find_index (Z.eqb c) s.

(** [strrchr]: the offset of the last occurrence. *)
Definition strrchr (s : list Z) (c : Z) : option nat :=
  (fun k => length s - S k)%nat <$> find_index (Z.eqb c) (rev s).

(** The character classes of the C locale. *)
Definition isdigit (c : Z) : bool := (48 <=? c) && (c <=? 57).
Definition isupper (c : Z) : bool := (65 <=? c) && (c <=? 90).
Definition islower (c : Z) : bool := (97 <=? c) && (c <=? 122).
Definition isalpha (c : Z) : bool := isupper c || islower c.
Definition isalnum (c : Z) : bool := isalpha c || isdigit c.
Definition isspace (c : Z) : bool := (c =? 32) || ((9 <=? c) && (c <=? 13)).
Definition ispunct (c : Z) : bool :=
  (33 <=? c) && (c <=? 126) && negb (isalnum c).
Definition tolower (c : Z) : Z := if isupper c then c + 32 else c.

(** [strncpy(dst, src, n)] into a zeroed buffer of [n + 1] bytes, or followed
    by [dst[n] = 0]: the string [dst] then holds. *)
Definition strncpy (n : nat) (s : list Z) : list Z := take n s.
Arguments strncpy : simpl never.

(** The C string at the start of a buffer. *)
Fixpoint cstring (buf : list Z) : list Z :=
  match buf with
  | [] => []
  | c :: buf' => if c =? 0 then [] else c :: cstring buf'
  end.

(** [strtol] and its family in base 10: blanks, a sign, digits.  The sum of the
    digits is exact; each function then clamps it to its type. *)
Fixpoint skip_spaces (s : list Z) : list Z :=
  match s with
  | c :: s' => if isspace c then skip_spaces s' else s
  | [] => []
  end.

Fixpoint digits (acc : Z) (s : list Z) : Z :=
  match s with
  | c :: s' => if isdigit c then digits (10 * acc + (c - 48)) s' else acc
  | [] => acc
  end.

Definition signed_digits (s : list Z) : bool * Z :=
  match skip_spaces s with
  | c :: s' =>
      if c =? 45 then (true, digits 0 s')
      else if c =? 43 then (false, digits 0 s')
      else (false, digits 0 (c :: s'))
  | [] => (false, 0)
  end.

Definition strtoull (s : list Z) : Z :=
  let '(neg, n) := signed_digits s in
  if n >? SIZE_MAX then SIZE_MAX else u64 (if neg then - n else n).

(** [strtol] on a 64-bit [long]. *)
Definition strtol (s : list Z) : Z :=
  let '(neg, n) := signed_digits s in
  if neg then (if n >? 2 ^ 63 then - 2 ^ 63 else - n)
  else (if n >? 2 ^ 63 - 1 then 2 ^ 63 - 1 else n).

(** [atoi]: [(int) strtol(s, NULL, 10)]. *)
Definition atoi (s : list Z) : Z := i32 (strtol s).

(** What precedes the first byte [c]. *)
Fixpoint until (c : Z) (s : list Z) : list Z :=
  match s with
  | [] => []
  | x :: s' => if x =? c then [] else x :: until c s'
  end.

(** [printf("%d")] and its family: decimal digits, most significant first. *)
Fixpoint dec_digits (fuel : nat) (n : Z) (acc : list Z) : list Z :=
  match fuel with
  | O => acc
  | S fuel' =>
      if n <? 10 then (48 + n) :: acc else dec_digits fuel' (n / 10) ((48 + n mod 10) :: acc)
  end.

Definition dec_nat (n : Z) : list Z := dec_digits (S (Z.to_nat (Z.log2 n))) n [].
Definition dec (n : Z) : list Z := if n <? 0 then 45 :: dec_nat (- n) else dec_nat n.

(** The pieces that [strtok] cuts at the bytes that satisfy [sep]: [cur] is the
    piece begun. *)
Fixpoint tokens (sep : Z -> bool) (s cur : list Z) : list (list Z) :=
  match s with
  | [] => if decide (cur = []) then [] else [cur]
  | c :: s' =>
      if sep c then (if decide (cur = []) then tokens sep s' [] else cur :: tokens sep s' [])
      else tokens sep s' (cur ++ [c])
  end.

(** [sscanf], conversion by conversion: the field read and what is left. *)

(** [%[^c]]: at least one byte other than [c]. *)
Definition scan_field (c : Z) (s : list Z) : option (list Z * list Z) :=
  match until c s with [] => None | f => Some (f, drop (length f) s) end.

(** A byte of the format that is not a blank. *)
Definition scan_char (c : Z) (s : list Z) : option (list Z) :=
  match s with x :: s' => if x =? c then Some s' else None | [] => None end.

Fixpoint skip_digits (s : list Z) : list Z :=
  match s with c :: s' => if isdigit c then skip_digits s' else s | [] => [] end.

Definition starts_with_digit (s : list Z) : bool :=
  match s with c :: _ => isdigit c | [] => false end.

(** [%ld]: blanks, a sign, at least one digit. *)
Definition scan_long (s : list Z) : option (Z * list Z) :=
  let t := skip_spaces s in
  let u := match t with c :: t' => if (c =? 45) || (c =? 43) then t' else t | [] => [] end in
  if starts_with_digit u then Some (strtol t, skip_digits u) else None.

(** [%d] *)
Definition scan_int (s : list Z) : option (Z * list Z) :=
  (fun '(v, r) => (i32 v, r)) <$> scan_long s.

(** [fgets] on a stream: the next line with its newline, or [room] bytes. *)
Fixpoint fgets (room : nat) (s : list Z) : list Z * list Z :=
  match room, s with
  | O, _ | _, [] => ([], s)
  | S room', c :: s' =>
      if c =? c_LF then ([c], s') else let '(l, r) := fgets room' s' in (c :: l, r)
  end.

Fixpoint fgets_all (room fuel : nat) (s : list Z) : list (list Z) :=
  match fuel, s with
  | O, _ | _, [] => []
  | S fuel', _ => let '(l, r) := fgets room s in l :: fgets_all room fuel' r
  end.

(** The successive values of [line] after
    [while (fgets(line, room + 1, f)) line[strcspn(line, "\n")] = 0;]. *)
Definition file_lines (room : nat) (s : list Z) : list (list Z) :=
  map (fun l => until c_LF (cstring l)) (fgets_all room (length s) s).

(** ** The heap, for the functions that own memory

    [answers i] is what the [i]-th call of the allocator returns ([None] is
    NULL); [live] lists the blocks not yet freed. *)

Record heap := mkHeap { answers : nat -> option Z; ncalls : nat; live : list Z }.

Definition malloc (h : heap) : option Z * heap :=
  match answers h (ncalls h) with
  | Some p => (Some p, mkHeap (answers h) (S (ncalls h)) (p :: live h))
  | None => (None, mkHeap (answers h) (S (ncalls h)) (live h))
  end.

Fixpoint remove_one (p : Z) (l : list Z) : option (list Z) :=
  match l with
  | [] => None
  | q :: l' => if p =? q then Some l' else cons q <$> remove_one p l'
  end.

Definition mfree (p : Z) (h : heap) : res heap :=
  match remove_one p (live h) with
  | Some l => Ok (mkHeap (answers h) (ncalls h) l)
  | None => Fault UseAfterFree
  end.

(** A pointer to owned data: NULL, live, or freed and not reset. *)
Inductive ptr (A : Type) : Type :=
| PNull
| PLive (a : A)
| PFreed.
Arguments PNull {A}.
Arguments PLive {A} a.
Arguments PFreed {A}.

(** Freeing an owner's block: NULL is passed over, and what is freed cannot be freed again. *)
Definition free_owned {A} (p : ptr A) : res (ptr A) :=
  match p with PNull => Ok PNull | PLive _ => Ok PFreed | PFreed => Fault UseAfterFree end.

Definition ptr_map {A} (f : A -> A) (p : ptr A) : ptr A :=
  match p with PLive a => PLive (f a) | _ => p end.

(** ** Mutexes

    Taking a mutex twice blocks for ever; using it before it is made or after it
    is destroyed is undefined. *)

Inductive mutex_state := Uninit | Unlocked | Locked | Destroyed.

Definition mutex_lock (m : mutex_state) : res mutex_state :=
  match m with
  | Unlocked => Ok Locked
  | Locked => Fault Deadlock
  | Uninit => Fault Uninitialised
  | Destroyed => Fault UseAfterFree
  end.

(** [while (cap < needed) cap *= 2;] on a [size_t].  After 64 doublings the
    capacity is 0 and stays there: [None] is a loop that never ends. *)
Fixpoint double_cap (fuel : nat) (cap needed : Z) : option Z :=
  if needed <=? cap then Some cap
  else match fuel with O => None | S fuel' => double_cap fuel' (u64 (cap * 2)) needed end.

(** ** Automation *)

Create HintDb cdb.
Create Rewrite HintDb cdb.

(** Split the boolean tests of the goal and the context. *)
Ltac btests :=
  repeat match goal with
  | H : (_ && _)%bool = true |- _ => apply andb_true_iff in H as [? ?]
  | H : (_ || _)%bool = false |- _ => apply orb_false_iff in H as [? ?]
  | H : (?a <? ?b) = true |- _ => apply Z.ltb_lt in H
  | H : (?a <? ?b) = false |- _ => apply Z.ltb_ge in H
  | H : (?a <=? ?b) = true |- _ => apply Z.leb_le in H
  | H : (?a <=? ?b) = false |- _ => apply Z.leb_gt in H
  | H : (?a =? ?b) = true |- _ => apply Z.eqb_eq in H
  | H : (?a =? ?b) = false |- _ => apply Z.eqb_neq in H
  | H : bool_decide _ = true |- _ => apply bool_decide_eq_true_1 in H
  | H : bool_decide _ = false |- _ => apply bool_decide_eq_false_1 in H
  | H : negb _ = true |- _ => apply negb_true_iff in H
  | H : negb _ = false |- _ => apply negb_false_iff in H
  end.

(** Case analysis on the first test that blocks the goal, or a hypothesis. *)
Ltac csplit :=
  match goal with
  | |- context [if ?b then _ else _] => destruct b eqn:?
  | |- context [match ?x with _ => _ end] => destruct x eqn:?
  end.
Ltac csplit_in H :=
  match type of H with
  | context [if ?b then _ else _] => destruct b eqn:?
  | context [match ?x with _ => _ end] => destruct x eqn:?
  end.

(** [lia] with the equations of division and modulo. *)
Ltac zdlia := Z.to_euclidean_division_equations; lia.

(** ** Lemmas: faults *)

Lemma bind_Ok {A B} (m : res A) (k : A -> res B) b :
  m ≫= k = Ok b -> exists a, m = Ok a /\ k a = Ok b.
Proof. destruct m; naive_solver. Qed.

Lemma res_sat_fmap {A B} (f : A -> B) (P : B -> Prop) (m : res A) :
  res_sat (fun a => P (f a)) m -> res_sat P (f <$> m).
Proof. by destruct m. Qed.

Ltac res_inv :=
  repeat match goal with
  | H : mbind _ _ = Ok _ |- _ => apply bind_Ok in H as (? & ? & ?)
  | H : Ok _ = Ok _ |- _ => injection H as H
  | H : Fault _ = Ok _ |- _ => discriminate H
  | H : Ok _ = Fault _ |- _ => discriminate H
  end.

(** ** Lemmas: machine integers *)

Lemma u64_range z : 0 <= u64 z < 2 ^ 64.
Proof. apply Z.mod_pos_bound. lia. Qed.

Lemma u64_small z : 0 <= z < 2 ^ 64 -> u64 z = z.
Proof. apply Z.mod_small. Qed.

Lemma u32_range z : 0 <= u32 z < 2 ^ 32.
Proof. apply Z.mod_pos_bound. lia. Qed.

Lemma u32_small z : 0 <= z < 2 ^ 32 -> u32 z = z.
Proof. apply Z.mod_small. Qed.

Lemma i32_range z : - 2 ^ 31 <= i32 z <= INT_MAX.
Proof. unfold i32, INT_MAX. zdlia. Qed.

Lemma i32_small z : - 2 ^ 31 <= z <= INT_MAX -> i32 z = z.
Proof. unfold i32, INT_MAX. intros. rewrite Z.mod_small; lia. Qed.

Lemma u64_idem_add a b : u64 (u64 a + b) = u64 (a + b).
Proof. apply Z.add_mod_idemp_l. lia. Qed.

(** Clearing the low bits rounds down to a multiple of the power of two. *)
Lemma ldiff_pow2 x k : 0 <= k -> Z.ldiff x (2 ^ k - 1) = x - x mod 2 ^ k.
Proof.
  intros Hk. replace (2 ^ k - 1) with (Z.ones k) by (rewrite Z.ones_equiv; lia).
  rewrite Z.ldiff_ones_r, Z.shiftl_mul_pow2, Z.shiftr_div_pow2 by done.
  pose proof (Z.div_mod x (2 ^ k)) as Hd.
  assert (2 ^ k <> 0) by (apply Z.pow_nonzero; lia). lia.
Qed.

(** Rounding up to a multiple of a power of two, as the allocators do. *)
Lemma round_up_bounds x k :
  0 <= k -> x <= Z.ldiff (x + (2 ^ k - 1)) (2 ^ k - 1) < x + 2 ^ k.
Proof.
  intros Hk. rewrite ldiff_pow2 by done.
  pose proof (Z.mod_pos_bound (x + (2 ^ k - 1)) (2 ^ k)).
  assert (0 < 2 ^ k) by (apply Z.pow_pos_nonneg; lia). lia.
Qed.

Lemma round_up_divide x k : 0 <= k -> (2 ^ k | Z.ldiff x (2 ^ k - 1)).
Proof.
  intros Hk. rewrite ldiff_pow2 by done.
  assert (2 ^ k <> 0) by (apply Z.pow_nonzero; lia).
  exists (x / 2 ^ k). pose proof (Z.div_mod x (2 ^ k)). lia.
Qed.

(** Two offsets below the modulus that give the same residue are equal. *)
Lemma mod_offset_inj x d j n :
  0 <= d < n -> 0 <= j < n -> (x + d) mod n = (x + j) mod n -> d = j.
Proof.
  intros Hd Hj Heq. pose proof (Z.div_mod (x + d) n). pose proof (Z.div_mod (x + j) n).
  assert (d - j = n * ((x + d) / n - (x + j) / n)) as Hq by lia.
  destruct (Z.lt_trichotomy ((x + d) / n) ((x + j) / n)) as [?|[?|?]]; nia.
Qed.

#[export] Hint Resolve u64_range u32_range i32_range : cdb.
#[export] Hint Rewrite u64_idem_add : cdb.

(** ** Lemmas: lists *)

Lemma zlen_nonneg {A} (l : list A) : 0 <= zlen l.
Proof. unfold zlen. lia. Qed.

Lemma zlen_app {A} (l k : list A) : zlen (l ++ k) = zlen l + zlen k.
Proof. unfold zlen. rewrite length_app. lia. Qed.

Lemma zlen_cons {A} (x : A) l : zlen (x :: l) = zlen l + 1.
Proof. unfold zlen. simpl. lia. Qed.

Lemma zlen_snoc {A} (l : list A) x : zlen (l ++ [x]) = zlen l + 1.
Proof. unfold zlen. rewrite length_app. simpl. lia. Qed.

Lemma take_zlen {A} (l : list A) : take (Z.to_nat (zlen l)) l = l.
Proof. unfold zlen. rewrite Nat2Z.id. by apply take_ge. Qed.

Lemma take_zlen_take {A} k (l : list A) : take (Z.to_nat (zlen (take k l))) l = take k l.
Proof.
  unfold zlen. rewrite Nat2Z.id, length_take. destruct (decide (k <= length l)%nat).
  - by rewrite Nat.min_l by lia.
  - rewrite Nat.min_r by lia. by rewrite !take_ge by lia.
Qed.

Lemma take_zlen_app {A} (l k : list A) : take (Z.to_nat (zlen l)) (l ++ k) = l.
Proof. unfold zlen. rewrite Nat2Z.id. apply take_app_length. Qed.

Lemma drop_past {A} (l : list A) x k : drop (S (length l)) (l ++ x :: k) = k.
Proof. induction l; [done|assumption]. Qed.

Lemma length_omap_le {A B} (f : A -> option B) (l : list A) : (length (omap f l) <= length l)%nat.
Proof. induction l as [|x l IH]; [done|]. csimpl. destruct (f x); simpl; lia. Qed.

Lemma znth_Some {A} (l : list A) i : 0 <= i < zlen l -> exists x, znth l i = Some x.
Proof.
  intros Hi. unfold znth, zlen in *. destruct (Z.ltb_spec i 0); [lia|].
  apply lookup_lt_is_Some_2. lia.
Qed.

Lemma znth_range {A} (l : list A) i x : znth l i = Some x -> 0 <= i < zlen l.
Proof.
  unfold znth, zlen. destruct (Z.ltb_spec i 0); [done|]. intros Hl%lookup_lt_Some. lia.
Qed.

Lemma znth_zset_eq {A} (l : list A) i x : 0 <= i < zlen l -> znth (zset l i x) i = Some x.
Proof.
  unfold znth, zset, zlen. destruct (Z.ltb_spec i 0); [lia|]. intros.
  apply list_lookup_insert_eq. lia.
Qed.

Lemma znth_zset_ne {A} (l : list A) i j x : i <> j -> znth (zset l i x) j = znth l j.
Proof.
  unfold znth, zset. intros. destruct (Z.ltb_spec j 0), (Z.ltb_spec i 0); try done.
  apply list_lookup_insert_ne. lia.
Qed.

Lemma zlen_zset {A} (l : list A) i x : zlen (zset l i x) = zlen l.
Proof. unfold zlen, zset. destruct (i <? 0); [done|]. by rewrite length_insert. Qed.

Lemma Forall_zset {A} (P : A -> Prop) l i x : Forall P l -> P x -> Forall P (zset l i x).
Proof. unfold zset. intros. destruct (i <? 0); [done|]. by apply Forall_insert. Qed.

Lemma znth_cons {A} (x : A) l i : 0 <= i -> znth (x :: l) (i + 1) = znth l i.
Proof.
  unfold znth. intros. destruct (Z.ltb_spec (i + 1) 0), (Z.ltb_spec i 0); try lia.
  by replace (Z.to_nat (i + 1)) with (S (Z.to_nat i)) by lia.
Qed.

Lemma Forall_znth {A} (P : A -> Prop) l i x : Forall P l -> znth l i = Some x -> P x.
Proof.
  unfold znth. intros H Hi. destruct (i <? 0); [done|]. exact (Forall_lookup_1 _ _ _ _ H Hi).
Qed.

Lemma countb_zset {A} (p : A -> bool) l i x y :
  znth l i = Some x ->
  countb p (zset l i y) = countb p l - (if p x then 1 else 0) + (if p y then 1 else 0).
Proof.
  unfold znth, zset. destruct (Z.ltb_spec i 0); [done|]. generalize (Z.to_nat i). clear.
  induction l as [|z l IH]; intros [|n] Hn; simplify_eq/=; [lia|]. rewrite (IH n Hn). lia.
Qed.

Lemma countb_bounds {A} (p : A -> bool) l : 0 <= countb p l <= zlen l.
Proof. induction l as [|x l IH]; [done|]. rewrite zlen_cons. simpl. destruct (p x); lia. Qed.

Lemma countb_all {A} (p : A -> bool) l : Forall (fun x => p x = true) l -> countb p l = zlen l.
Proof.
  induction 1 as [|x l Hx Hl IH]; [done|]. rewrite zlen_cons. simpl. rewrite Hx, IH. lia.
Qed.

Lemma countb_zero {A} (p : A -> bool) l i x : countb p l = 0 -> znth l i = Some x -> p x = false.
Proof.
  unfold znth. destruct (i <? 0); [done|]. generalize (Z.to_nat i). clear i.
  induction l as [|y l IH]; intros [|n] Hc Hi; simplify_eq/=;
    pose proof (countb_bounds p l).
  - destruct (p x); [lia|done].
  - apply (IH n); [destruct (p y); lia|done].
Qed.

Lemma fmap_alter_same {A B} (g : A -> B) (f : A -> A) (l : list A) (i : nat) :
  (forall x, g (f x) = g x) -> g <$> alter f i l = g <$> l.
Proof. intros Hf. revert i. induction l as [|x l IH]; intros [|i]; csimpl; by rewrite ?Hf, ?IH. Qed.

Lemma find_index_alter {A} (p : A -> bool) (f : A -> A) (l : list A) (i : nat) :
  (forall x, p (f x) = p x) -> find_index p (alter f i l) = find_index p l.
Proof.
  intros Hf. revert i. induction l as [|x l IH]; intros [|i]; csimpl; [done|done| |].
  - by rewrite Hf.
  - by rewrite IH.
Qed.

Lemma find_index_Some {A} (p : A -> bool) l i :
  find_index p l = Some i ->
  exists x, l !! i = Some x /\ p x = true
    /\ forall j y, (j < i)%nat -> l !! j = Some y -> p y = false.
Proof.
  revert i. induction l as [|x l IH]; intros i Hf; simpl in Hf; [done|].
  destruct (p x) eqn:Hp; simplify_eq.
  - exists x. split_and!; auto. intros; lia.
  - destruct (find_index p l) as [j|] eqn:Hl; simplify_eq/=.
    destruct (IH j eq_refl) as (y & Hy & Hpy & Hbefore).
    exists y. split_and!; auto. intros [|k] z Hk Hz; simplify_eq/=; auto.
    apply (Hbefore k); auto; lia.
Qed.

Lemma find_index_None {A} (p : A -> bool) l :
  find_index p l = None <-> Forall (fun x => p x = false) l.
Proof.
  induction l as [|x l IH]; simpl; [split; auto|].
  destruct (p x) eqn:Hp.
  - split; [done|]. intros Hf. inversion Hf; congruence.
  - rewrite fmap_None, IH. split; [auto|]. by inversion 1.
Qed.

(** An element put at the end of a list that has none like it. *)
Lemma find_index_last {A} (p : A -> bool) l x :
  p x = true -> Forall (fun y => p y = false) l -> find_index p (l ++ [x]) = Some (length l).
Proof. intros Hx. induction 1 as [|y l Hy _ IH]; cbn; [by rewrite Hx|]. by rewrite Hy, IH. Qed.

Lemma delete_last {A} (l : list A) x : delete (length l) (l ++ [x]) = l.
Proof. induction l as [|y l IH]; [done|]. cbn [length app]. change (delete (S ?n) (y :: ?k)) with (y :: delete n k). by rewrite IH. Qed.

Lemma swap_remove_perm {A} (i : nat) (l : list A) x :
  l !! i = Some x -> l ≡ₚ x :: swap_remove i l.
Proof.
  intros Hi. unfold swap_remove.
  destruct (exists_last (l := l)) as (k & z & ->). { by intros ->. }
  rewrite last_snoc. destruct (decide (i = length k)) as [->|Hne].
  - pose proof Hi as Hz. rewrite list_lookup_middle in Hz by done. simplify_eq.
    rewrite (list_insert_id _ _ _ Hi), removelast_last.
    symmetry. apply Permutation_cons_append.
  - assert (i < length k)%nat as Hlt.
    { apply lookup_lt_Some in Hi. rewrite length_app in Hi. simpl in Hi. lia. }
    rewrite lookup_app_l in Hi by done.
    rewrite insert_app_l, removelast_last by done.
    rewrite <- (take_drop_middle k i x Hi) at 1.
    rewrite insert_take_drop by done. simpl.
    rewrite <- !app_assoc. simpl.
    transitivity (x :: take i k ++ drop (S i) k ++ [z]).
    + symmetry. apply Permutation_middle.
    + apply perm_skip, Permutation_app_head. symmetry. apply Permutation_cons_append.
Qed.

Lemma length_swap_remove {A} (i : nat) (l : list A) x :
  l !! i = Some x -> S (length (swap_remove i l)) = length l.
Proof. intros Hi%swap_remove_perm%Permutation_length. simpl in Hi. lia. Qed.

(** ** Lemmas: strings *)

Lemma streq_true a b : streq a b = true <-> a = b.
Proof. apply bool_decide_eq_true. Qed.

Lemma streq_refl a : streq a a = true.
Proof. by apply streq_true. Qed.

Lemma streq_false a b : streq a b = false <-> a <> b.
Proof. apply bool_decide_eq_false. Qed.

Lemma prefixb_spec p s : prefixb p s = true <-> exists r, s = p ++ r.
Proof.
  revert s. induction p as [|c p IH]; intros s; simpl.
  - split; [intros _; by exists s | done].
  - destruct s as [|d s].
    + split; [done|]. by intros [r Hr].
    + rewrite andb_true_iff, Z.eqb_eq, IH. split.
      * intros [-> [r ->]]. by exists r.
      * intros [r Hr]. simplify_eq. eauto.
Qed.

Lemma prefixb_app p r : prefixb p (p ++ r) = true.
Proof. apply prefixb_spec. eauto. Qed.

Lemma strstr_None h n :
  strstr h n = None <-> forall a b, h <> a ++ n ++ b.
Proof.
  induction h as [|c h IH]; simpl.
  - destruct n as [|d n]; simpl.
    + split; [done|]. intros H. by destruct (H [] []).
    + split; [|done]. by intros _ [|] b.
  - destruct (prefixb n (c :: h)) eqn:Hp.
    + split; [done|]. intros H. apply prefixb_spec in Hp as [r Hr].
      by destruct (H [] r).
    + rewrite fmap_None, IH. split.
      * intros H [|e a] b Heq; simplify_eq/=.
        -- rewrite Heq, prefixb_app in Hp. done.
        -- by apply (H a b).
      * intros H a b ->. by apply (H (c :: a) b).
Qed.

Lemma contains_spec h n : contains h n = true <-> exists a b, h = a ++ n ++ b.
Proof.
  unfold contains. destruct (strstr h n) eqn:Hs; split; try done.
  - intros _. revert n0 Hs. induction h as [|c h IH]; intros k Hs; simpl in Hs.
    + destruct (prefixb n []) eqn:Hp; simplify_eq.
      apply prefixb_spec in Hp as [r Hr]. by exists [], r.
    + destruct (prefixb n (c :: h)) eqn:Hp; simplify_eq.
      * apply prefixb_spec in Hp as [r Hr]. by exists [], r.
      * destruct (strstr h n) eqn:Hh; simplify_eq/=.
        destruct (IH _ eq_refl) as (a & b & ->). by exists (c :: a), b.
  - intros (a & b & Hab). rewrite strstr_None in Hs. by destruct (Hs a b).
Qed.

Lemma strchr_app s c t : Forall (fun d => d <> c) s -> strchr (s ++ c :: t) c = Some (length s).
Proof.
  unfold strchr. induction 1 as [|d s Hd _ IH]; simpl; [by rewrite Z.eqb_refl|].
  destruct (Z.eqb_spec c d); [congruence|]. by rewrite IH.
Qed.

Lemma strchr_absent s c : Forall (fun d => d <> c) s -> strchr s c = None.
Proof.
  intros Hs. apply find_index_None. eapply Forall_impl; [exact Hs|]. intros d Hd. apply Z.eqb_neq. congruence.
Qed.

(** A text without zeros before its terminator is the string read back. *)
Lemma cstring_app s t : Forall (fun c => c <> 0) s -> cstring (s ++ 0 :: t) = s.
Proof.
  induction 1 as [|c s Hc _ IH]; [done|]. simpl. destruct (Z.eqb_spec c 0); [done|]. by rewrite IH.
Qed.

Lemma cstring_past h x : Forall (fun c => c <> 0) h -> cstring (h ++ x) = h ++ cstring x.
Proof. induction 1 as [|c h Hc _ IH]; [done|]. cbn. destruct (Z.eqb_spec c 0); [done|]. by rewrite IH. Qed.

Lemma cstring_clean s : Forall (fun c => c <> 0) s -> cstring s = s.
Proof. induction 1 as [|c s Hc _ IH]; [done|]. simpl. destruct (Z.eqb_spec c 0); [done|]. by rewrite IH. Qed.

Lemma isupper_spec c : isupper c = true <-> 65 <= c <= 90.
Proof. unfold isupper. rewrite andb_true_iff, !Z.leb_le. done. Qed.

Lemma tolower_idem c : tolower (tolower c) = tolower c.
Proof.
  unfold tolower. destruct (isupper c) eqn:Hu; [|by rewrite Hu].
  apply isupper_spec in Hu. destruct (isupper (c + 32)) eqn:Hv; [|done].
  apply isupper_spec in Hv. lia.
Qed.

#[export] Hint Resolve streq_refl prefixb_app : cdb.
#[export] Hint Rewrite @zlen_app @zlen_cons streq_refl prefixb_app tolower_idem : cdb.

(** ** Lemmas: the heap *)

Lemma remove_one_perm p l l' : remove_one p l = Some l' -> l ≡ₚ p :: l'.
Proof.
  revert l'. induction l as [|q l IH]; intros l' H; simpl in H; [done|].
  destruct (Z.eqb_spec p q) as [->|]; simplify_eq; [done|].
  destruct (remove_one p l) as [k|] eqn:Hk; simplify_eq/=.
  rewrite (IH k eq_refl). apply Permutation_swap.
Qed.

Lemma remove_one_in p l : p ∈ l -> is_Some (remove_one p l).
Proof.
  induction l as [|q l IH]; intros Hin; [by inversion Hin|]. simpl.
  destruct (Z.eqb_spec p q) as [->|Hne]; [eauto|].
  inversion Hin; subst; [done|]. destruct IH as [k ->]; eauto.
Qed.

(** Freeing a live block succeeds and removes exactly it. *)
Lemma mfree_live p h :
  p ∈ live h -> exists h', mfree p h = Ok h' /\ live h ≡ₚ p :: live h'
    /\ answers h' = answers h /\ ncalls h' = ncalls h.
Proof.
  intros Hin. destruct (remove_one_in _ _ Hin) as [l Hl].
  unfold mfree. rewrite Hl. eexists. split_and!; [done|by apply remove_one_perm|done..].
Qed.

Lemma malloc_live h o h' :
  malloc h = (o, h') ->
  live h' = (match o with Some p => [p] | None => [] end) ++ live h
  /\ (forall p, o = Some p -> exists i, answers h i = Some p) /\ answers h' = answers h.
Proof.
  unfold malloc. destruct (answers h (ncalls h)) eqn:Ha; intros [= <- <-]; simpl;
    split_and!; try done. intros ? [= ->]. eauto.
Qed.

Lemma mfree_owned p h l :
  live h ≡ₚ p :: l -> exists h', mfree p h = Ok h' /\ live h' ≡ₚ l /\ answers h' = answers h.
Proof.
  intros Hl. destruct (mfree_live p h) as (h' & Hf & Hp & Ha & _). { rewrite Hl. set_solver. }
  exists h'. split_and!; try done. rewrite Hl in Hp. by apply (inj (cons p)) in Hp.
Qed.

Lemma cstring_length s : (length (cstring s) <= length s)%nat.
Proof. induction s as [|c s IH]; [done|]. simpl. destruct (c =? 0); simpl; lia. Qed.

(** ** Lemmas: growing blocks *)

Lemma double_cap_ge fuel cap needed c : double_cap fuel cap needed = Some c -> needed <= c.
Proof.
  revert cap. induction fuel as [|fuel IH]; intros cap; cbn [double_cap]; destruct (Z.leb_spec needed cap);
    try done; try (intros [= <-]; lia).
  apply IH.
Qed.

Lemma double_cap_enough fuel cap needed :
  0 < cap -> needed <= 2 ^ 63 -> needed <= cap * 2 ^ Z.of_nat fuel -> exists c, double_cap fuel cap needed = Some c.
Proof.
  revert cap. induction fuel as [|fuel IH]; intros cap Hc Hm Hn; cbn [double_cap];
    destruct (Z.leb_spec needed cap); try (by eexists).
  - change (2 ^ Z.of_nat 0) with 1 in Hn. lia.
  - apply IH; rewrite ?u64_small; try lia.
    replace (2 ^ Z.of_nat (S fuel)) with (2 * 2 ^ Z.of_nat fuel) in Hn
      by (rewrite <- Z.pow_succ_r by lia; f_equal; lia). lia.
Qed.

(** From any positive size 63 doublings reach every half of the address space. *)
Lemma double_cap_total cap needed :
  0 < cap -> needed <= 2 ^ 63 -> exists c, double_cap 64 cap needed = Some c.
Proof.
  intros Hc Hn. apply double_cap_enough; try done. change (2 ^ Z.of_nat 64) with (2 ^ 63 * 2). lia.
Qed.

(** From zero the loop never ends. *)
Lemma double_cap_zero fuel needed : 0 < needed -> double_cap fuel 0 needed = None.
Proof. intros Hn. induction fuel as [|fuel IH]; cbn [double_cap]; destruct (Z.leb_spec needed 0); lia || done. Qed.

(** The size found is at most twice what is needed, if anything was added. *)
Lemma double_cap_le fuel cap needed c :
  0 < cap < 2 ^ 62 -> needed <= 2 ^ 62 -> double_cap fuel cap needed = Some c -> c <= Z.max cap (2 * needed).
Proof.
  revert cap. induction fuel as [|fuel IH]; intros cap Hc Hn; cbn [double_cap]; destruct (Z.leb_spec needed cap);
    try done; try (intros [= <-]; lia).
  rewrite u64_small by lia. intros Hd.
  destruct (decide (needed <= cap * 2)) as [Hle|Hgt].
  - destruct fuel; cbn [double_cap] in Hd; (destruct (Z.leb_spec needed (cap * 2)); [|lia]); injection Hd as <-; lia.
  - apply IH in Hd; lia.
Qed.

Arguments double_cap : simpl never.

(** ** Lemmas: decimal digits *)

Lemma dec_digits_length fuel n acc j :
  (j < fuel)%nat -> 10 ^ Z.of_nat j <= n < 10 ^ Z.of_nat (S j) ->
  length (dec_digits fuel n acc) = (S j + length acc)%nat.
Proof.
  revert n acc j. induction fuel as [|fuel IH]; intros n acc j Hf Hn; [lia|]. cbn [dec_digits].
  destruct j as [|j].
  - destruct (Z.ltb_spec n 10); [done|]. change (10 ^ Z.of_nat 1) with 10 in Hn. lia.
  - assert (10 ^ Z.of_nat (S j) = 10 * 10 ^ Z.of_nat j) as E1 by (rewrite <- Z.pow_succ_r by lia; f_equal; lia).
    assert (10 ^ Z.of_nat (S (S j)) = 10 * 10 ^ Z.of_nat (S j)) as E2
      by (rewrite <- Z.pow_succ_r by lia; f_equal; lia).
    assert (0 < 10 ^ Z.of_nat j) by (apply Z.pow_pos_nonneg; lia).
    destruct (Z.ltb_spec n 10); [lia|].
    rewrite (IH _ _ j); [simpl; lia|lia|].
    split; [apply Z.div_le_lower_bound; lia|apply Z.div_lt_upper_bound; lia].
Qed.

(** A number of [j + 1] digits is printed with [j + 1] bytes. *)
Lemma dec_length n j : 10 ^ Z.of_nat j <= n < 10 ^ Z.of_nat (S j) -> zlen (dec n) = Z.of_nat (S j).
Proof.
  intros Hn. assert (0 < 10 ^ Z.of_nat j) by (apply Z.pow_pos_nonneg; lia).
  unfold dec, dec_nat. destruct (Z.ltb_spec n 0); [lia|]. unfold zlen.
  rewrite (dec_digits_length _ _ _ j); [simpl; lia| |done].
  assert (Z.of_nat j <= Z.log2 n); [|lia].
  apply Z.log2_le_pow2; [lia|]. transitivity (10 ^ Z.of_nat j); [apply Z.pow_le_mono_l; lia|lia].
Qed.

Lemma dec_length_le n k : 0 <= n < 10 ^ Z.of_nat (S k) -> 1 <= zlen (dec n) <= Z.of_nat (S k).
Proof.
  induction k as [|k IH]; intros Hn.
  - destruct (decide (n = 0)) as [->|]; [vm_compute; split; discriminate|].
    rewrite (dec_length n 0); [lia|]. change (10 ^ Z.of_nat 0) with 1. lia.
  - destruct (decide (n < 10 ^ Z.of_nat (S k))) as [Hlt|Hge].
    + assert (1 <= zlen (dec n) <= Z.of_nat (S k)) by (apply IH; lia). lia.
    + rewrite (dec_length n (S k)); lia.
Qed.

(** ** Decimal numbers are read back *)

Lemma digits_app s c acc : Forall (fun c => isdigit c = true) s ->
  digits acc (s ++ [c]) = if isdigit c then 10 * digits acc s + (c - 48) else digits acc s.
Proof.
  intros Hs. revert acc. induction s as [|d s IH]; intros acc; simpl; [done|].
  apply Forall_cons in Hs as [-> Hs]. by apply IH.
Qed.

Lemma digits_stop s t acc : Forall (fun c => isdigit c = true) s -> starts_with_digit t = false ->
  digits acc (s ++ t) = digits acc s /\ skip_digits (s ++ t) = t.
Proof.
  intros Hs Ht. revert acc. induction s as [|d s IH]; intros acc; simpl.
  - destruct t as [|c t]; [done|]. simpl in Ht |- *. by rewrite Ht.
  - apply Forall_cons in Hs as [-> Hs]. by apply IH.
Qed.

Lemma dec_digits_acc fuel n acc : dec_digits fuel n acc = dec_digits fuel n [] ++ acc.
Proof.
  revert n acc. induction fuel as [|fuel IH]; intros n acc; simpl; [done|].
  destruct (n <? 10); [done|]. rewrite IH, (IH _ [_]), <- app_assoc. done.
Qed.

Lemma dec_digits_value fuel n : 0 <= n -> n < 10 ^ Z.of_nat fuel ->
  Forall (fun c => isdigit c = true) (dec_digits fuel n [])
  /\ digits 0 (dec_digits fuel n []) = n /\ (fuel <> O -> dec_digits fuel n [] <> []).
Proof.
  assert (D : forall k, 0 <= k < 10 -> isdigit (48 + k) = true) by (intros; unfold isdigit; lia).
  revert n. induction fuel as [|fuel IH]; intros n H0 Hn.
  { change (10 ^ Z.of_nat 0) with 1 in Hn. assert (n = 0) as -> by lia. by split; [constructor|]. }
  cbn [dec_digits]. destruct (Z.ltb_spec n 10).
  - split; [constructor; [apply D; lia|constructor]|]. split; [|done].
    simpl. rewrite D by lia. lia.
  - rewrite Nat2Z.inj_succ, Z.pow_succ_r in Hn by lia.
    destruct (IH (n / 10)) as (F & V & _); [by apply Z.div_pos|apply Z.div_lt_upper_bound; lia|].
    rewrite dec_digits_acc. pose proof (Z.mod_pos_bound n 10 ltac:(lia)).
    split; [apply Forall_app; split; [done|constructor; [apply D; lia|constructor]]|].
    split; [|by destruct (dec_digits fuel (n / 10) [])].
    rewrite digits_app, V, D by (done || lia). pose proof (Z.div_mod n 10 ltac:(lia)). lia.
Qed.

Lemma dec_nat_value n : 0 <= n ->
  Forall (fun c => isdigit c = true) (dec_nat n) /\ digits 0 (dec_nat n) = n /\ dec_nat n <> [].
Proof.
  intros Hn. unfold dec_nat. destruct (dec_digits_value (S (Z.to_nat (Z.log2 n))) n) as (F & V & N); [done| |auto].
  rewrite Nat2Z.inj_succ, Z2Nat.id by apply Z.log2_nonneg.
  destruct (Z.eq_dec n 0) as [->|]; [done|].
  apply Z.lt_le_trans with (2 ^ Z.succ (Z.log2 n)); [apply Z.log2_spec; lia|].
  apply Z.pow_le_mono_l. lia.
Qed.

Lemma skip_spaces_nonblank c s : isspace c = false -> skip_spaces (c :: s) = c :: s.
Proof. simpl. by intros ->. Qed.

Lemma isdigit_not_space c : isdigit c = true -> isspace c = false /\ (c =? 45) = false /\ (c =? 43) = false.
Proof. unfold isdigit, isspace. destruct (Z.eqb_spec c 45), (Z.eqb_spec c 43), (Z.eqb_spec c 32); lia. Qed.

(** What [printf("%d")] writes, [strtol] reads. *)
Lemma scan_long_dec n t : 0 <= n < 2 ^ 63 -> starts_with_digit t = false -> scan_long (dec n ++ t) = Some (n, t).
Proof.
  intros Hn Ht. unfold dec. destruct (Z.ltb_spec n 0); [lia|].
  destruct (dec_nat_value n) as (F & V & N); [lia|].
  destruct (dec_nat n) as [|c s] eqn:E; [done|].
  pose proof F as [Hc _]%Forall_cons. destruct (isdigit_not_space c Hc) as (Hb & H1 & H2).
  destruct (digits_stop (c :: s) t 0 F Ht) as [D1 D2].
  unfold scan_long. rewrite <- app_comm_cons in *. rewrite skip_spaces_nonblank, H1, H2 by done. simpl orb. cbv iota.
  unfold starts_with_digit at 1. rewrite Hc, D2. unfold strtol, signed_digits.
  rewrite skip_spaces_nonblank, H1, H2, D1, V by done. cbv iota beta.
  by rewrite Z.gtb_ltb, (proj2 (Z.ltb_ge _ _)) by lia.
Qed.

(** ** Components

    What a part of the server promises to the rest: an invariant that every call
    it allows keeps, without a fault. *)

Class Component (S Op : Type) := {
  run_op : Op -> S -> res S;
  allowed : Op -> S -> Prop;
  invariant : S -> Prop;
  invariant_kept : forall o s, invariant s -> allowed o s -> res_sat invariant (run_op o s)
}.

(** One allowed call. *)
Inductive component_step {S Op} `{Component S Op} : S -> S -> Prop :=
| component_call o s s' : allowed o s -> run_op o s = Ok s' -> component_step s s'.

Section Component.
Context {S Op : Type} `{Component S Op}.

Lemma component_reachable s0 s : invariant s0 -> rtc component_step s0 s -> invariant s.
Proof.
  intros Hinv Hsteps. induction Hsteps as [|s1 s2 s3 [o s s' Ho He] _ IH]; [done|]. apply IH.
  pose proof (invariant_kept o s Hinv Ho) as Hs. by rewrite He in Hs.
Qed.

Lemma component_safe s0 s o :
  invariant s0 -> rtc component_step s0 s -> allowed o s -> exists s', run_op o s = Ok s' /\ invariant s'.
Proof.
  intros Hinv Hsteps Ho. pose proof (invariant_kept o s (component_reachable _ _ Hinv Hsteps) Ho) as Hs.
  destruct (run_op o s) as [s'|]; [by exists s'|done].
Qed.
End Component.

(** Two components side by side, their calls interleaved. *)
#[export] Instance component_pair {S1 Op1 S2 Op2} `{C1 : Component S1 Op1, C2 : Component S2 Op2}
  : Component (S1 * S2) (Op1 + Op2).
Proof.
  refine {|
    run_op o s :=
      match o with
      | inl o => (fun x => (x, s.2)) <$> run_op o s.1
      | inr o => (fun x => (s.1, x)) <$> run_op o s.2
      end;
    allowed o s := match o with inl o => allowed o s.1 | inr o => allowed o s.2 end;
    invariant s := invariant s.1 /\ invariant s.2 |}.
  intros [o|o] [s1 s2] [H1 H2] Ho; simpl in *; apply res_sat_fmap.
  - pose proof (invariant_kept o s1 H1 Ho) as Hs. by destruct (run_op o s1).
  - pose proof (invariant_kept o s2 H2 Ho) as Hs. by destruct (run_op o s2).
Defined.
