(* ===== verification/Arena.v ===== *)
(** * Memory arenas: [src/arena.c]

    The bump allocator ([Arena]), the fixed-size object pool ([Slab]) and the
    per-thread pool of arenas ([ArenaPool]).  [malloc], [calloc] and [free] are
    those of the prelude's heap; addresses are integers. *)

From S2P Require Import Prelude.

(** ** Data *)

Record Arena := mkArena {
  self : Z;            (* the block holding the struct itself *)
  buf : Z;
  capacity : Z;
  offset : Z;
  owns_buffer : bool
}.

Record Slab := mkSlab {
  slab_self : Z;
  object_size : Z;
  object_count : Z;
  free_count : Z;
  memory : Z;
  free_list_self : Z;
  free_list : list Z
}.

Record ArenaPool := mkArenaPool {
  pool_self : Z;
  arenas_self : Z;
  arenas : list Arena;
  count : Z;
  arena_size : Z
}.

(** ** The bump allocator *)

Definition arena_create (cap : Z) (h : heap) : res (option Arena * heap) :=
  match malloc h with
  | (None, h1) => Ok (None, h1)
  | (Some a, h1) =>
      match malloc h1 with
      | (None, h2) => h3 ← mfree a h2; Ok (None, h3)
      | (Some b, h2) => Ok (Some (mkArena a b cap 0 true), h2)
      end
  end.

Definition set_offset (a : Arena) (o : Z) : Arena :=
  mkArena (self a) (buf a) (capacity a) o (owns_buffer a).

Definition arena_alloc (a : Arena) (size : Z) : option Z * Arena :=
  let aligned := Z.ldiff (u64 (size + 7)) 7 in
  if u64 (offset a + aligned) >? capacity a then (None, a)
  else (Some (buf a + offset a), set_offset a (u64 (offset a + aligned))).

Definition arena_alloc_aligned (a : Arena) (size alignment : Z) : option Z * Arena :=
  let mask := u64 (alignment - 1) in
  let current := u64 (buf a + offset a) in
  let aligned_offset := Z.ldiff (u64 (current + mask)) mask in
  let aligned_pos := u64 (aligned_offset - buf a) in
  if u64 (aligned_pos + size) >? capacity a then (None, a)
  else (Some (buf a + aligned_pos), set_offset a (u64 (aligned_pos + size))).

Definition arena_reset (a : Arena) : Arena := set_offset a 0.

Definition arena_destroy (a : option Arena) (h : heap) : res heap :=
  match a with
  | None => Ok h
  | Some a =>
      h1 ← (if owns_buffer a && negb (buf a =? 0) then mfree (buf a) h else Ok h);
      mfree (self a) h1
  end.

Definition arena_used (a : Arena) : Z := offset a.
Definition arena_remaining (a : Arena) : Z := u64 (capacity a - offset a).

(** ** The slab *)

Definition slab_create (obj_size obj_count : Z) (h : heap) : res (option Slab * heap) :=
  match malloc h with
  | (None, h1) => Ok (None, h1)
  | (Some s, h1) =>
      match malloc h1 with
      | (None, h2) => h3 ← mfree s h2; Ok (None, h3)
      | (Some m, h2) =>
          match malloc h2 with
          | (None, h3) => h4 ← mfree m h3; h5 ← mfree s h4; Ok (None, h5)
          | (Some f, h3) =>
              Ok (Some (mkSlab s (Z.ldiff (u64 (obj_size + 63)) 63) obj_count obj_count m f
                          (i32 <$> seqZ 0 obj_count)), h3)
          end
      end
  end.

Definition slab_alloc (s : Slab) : res (option Z * Slab) :=
  if free_count s =? 0 then Ok (None, s)
  else
    let fc := free_count s - 1 in
    match znth (free_list s) fc with
    | None => Fault OutOfBounds
    | Some idx =>
        Ok (Some (memory s + u64 (idx * object_size s)),
            mkSlab (slab_self s) (object_size s) (object_count s) fc (memory s)
              (free_list_self s) (free_list s))
    end.

Definition slab_free (s : Slab) (obj : Z) : res Slab :=
  if free_count s >=? object_count s then Ok s
  else if object_size s =? 0 then Fault DivideByZero
  else
    let idx := i32 (Z.quot (obj - memory s) (object_size s)) in
    if zlen (free_list s) <=? free_count s then Fault OutOfBounds
    else Ok (mkSlab (slab_self s) (object_size s) (object_count s) (free_count s + 1)
               (memory s) (free_list_self s) (zset (free_list s) (free_count s) idx)).

Definition slab_destroy (s : option Slab) (h : heap) : res heap :=
  match s with
  | None => Ok h
  | Some s => h1 ← mfree (memory s) h; h2 ← mfree (free_list_self s) h1; mfree (slab_self s) h2
  end.

(** ** The pool of arenas *)

Fixpoint destroy_all (l : list Arena) (h : heap) : res heap :=
  match l with
  | [] => Ok h
  | a :: l' => h1 ← arena_destroy (Some a) h; destroy_all l' h1
  end.

(** The loop that creates [n] arenas; the first failure stops it. *)
Fixpoint pool_fill (n : nat) (size : Z) (acc : list Arena) (h : heap)
  : res (bool * list Arena * heap) :=
  match n with
  | O => Ok (true, acc, h)
  | S n' =>
      '(oa, h1) ← arena_create size h;
      match oa with
      | None => Ok (false, acc, h1)
      | Some a => pool_fill n' size (acc ++ [a]) h1
      end
  end.

Definition arenapool_create (size thread_count : Z) (h : heap) : res (option ArenaPool * heap) :=
  match malloc h with
  | (None, h1) => Ok (None, h1)
  | (Some p, h1) =>
      let n := if thread_count >? 0 then thread_count else 1 in
      match malloc h1 with
      | (None, h2) => h3 ← mfree p h2; Ok (None, h3)
      | (Some v, h2) =>
          '(done, l, h3) ← pool_fill (Z.to_nat n) size [] h2;
          if (done : bool) then Ok (Some (mkArenaPool p v l n size), h3)
          else
            h4 ← destroy_all l h3;
            h5 ← mfree v h4;
            h6 ← mfree p h5;
            Ok (None, h6)
      end
  end.

(** [self] is [pthread_self()]. *)
Definition arenapool_get (pool : ArenaPool) (thread : Z) : option Arena :=
  znth (arenas pool) (i32 (u64 thread mod count pool)).

Definition arenapool_reset_all (pool : ArenaPool) : ArenaPool :=
  mkArenaPool (pool_self pool) (arenas_self pool) (arena_reset <$> arenas pool)
    (count pool) (arena_size pool).

Definition arenapool_destroy (pool : option ArenaPool) (h : heap) : res heap :=
  match pool with
  | None => Ok h
  | Some pool =>
      h1 ← destroy_all (arenas pool) h;
      h2 ← mfree (arenas_self pool) h1;
      mfree (pool_self pool) h2
  end.

(** ** Specification vocabulary *)

(** An arena whose buffer lies in the lower half of the address space. *)
Definition arena_ok (a : Arena) : Prop :=
  0 <= offset a <= capacity a /\ 0 <= buf a /\ buf a + capacity a < 2 ^ 63.

(** A request: [arena_alloc] or [arena_alloc_aligned]. *)
Inductive request := Plain (size : Z) | Aligned (size alignment : Z).

Definition request_size (r : request) : Z :=
  match r with Plain s | Aligned s _ => s end.

Definition request_ok (r : request) : Prop :=
  0 <= request_size r < 2 ^ 62 /\
  match r with
  | Plain _ => True
  | Aligned _ al => exists k, 0 <= k < 62 /\ al = 2 ^ k
  end.

Definition serve (a : Arena) (r : request) : option Z * Arena :=
  match r with
  | Plain s => arena_alloc a s
  | Aligned s al => arena_alloc_aligned a s al
  end.

(** The blocks (address and size) a sequence of requests obtains. *)
Fixpoint serve_all (a : Arena) (rs : list request) : list (Z * Z) * Arena :=
  match rs with
  | [] => ([], a)
  | r :: rs' =>
      let '(p, a') := serve a r in
      let '(bs, a'') := serve_all a' rs' in
      (match p with Some q => (q, request_size r) :: bs | None => bs end, a'')
  end.

(** The first block ends before the second starts. *)
Definition before (b1 b2 : Z * Z) : Prop := b1.1 + b1.2 <= b2.1.

Definition blocks_of (a : Arena) : list Z := [buf a; self a].

(** What a slab and the objects it has handed out have in common. *)
Definition slab_inv (s : Slab) (objs : list Z) : Prop :=
  0 < object_size s /\ 0 <= memory s /\ zlen (free_list s) = object_count s
  /\ object_count s <= INT_MAX /\ object_count s * object_size s < 2 ^ 63
  /\ 0 <= free_count s <= object_count s
  /\ exists idxs, objs = (fun i => memory s + i * object_size s) <$> idxs
       /\ take (Z.to_nat (free_count s)) (free_list s) ++ idxs ≡ₚ seqZ 0 (object_count s).

(** The steps of a client that only frees what it was given. *)
Inductive slab_step : Slab * list Z -> Slab * list Z -> Prop :=
| step_alloc s s' p l : slab_alloc s = Ok (Some p, s') -> slab_step (s, l) (s', p :: l)
| step_full s s' l : slab_alloc s = Ok (None, s') -> slab_step (s, l) (s', l)
| step_free s s' p l l' :
    remove_one p l = Some l' -> slab_free s p = Ok s' -> slab_step (s, l) (s', l').

(** ** Lemmas: the bump allocator *)

Lemma arena_alloc_eq a size :
  arena_ok a -> 0 <= size < 2 ^ 62 ->
  arena_alloc a size =
    let n := Z.ldiff (size + 7) 7 in
    if offset a + n >? capacity a then (None, a)
    else (Some (buf a + offset a), set_offset a (offset a + n)).
Proof.
  intros (Ho & Hb & Hc) Hs. unfold arena_alloc. rewrite (u64_small (size + 7)) by lia.
  pose proof (round_up_bounds size 3 ltac:(lia)) as Hr. change (2 ^ 3 - 1) with 7 in Hr.
  simpl. rewrite u64_small by lia. done.
Qed.

Lemma arena_alloc_aligned_eq a size k :
  arena_ok a -> 0 <= size < 2 ^ 62 -> 0 <= k < 62 ->
  arena_alloc_aligned a size (2 ^ k) =
    let p := Z.ldiff (buf a + offset a + (2 ^ k - 1)) (2 ^ k - 1) - buf a in
    if p + size >? capacity a then (None, a)
    else (Some (buf a + p), set_offset a (p + size)).
Proof.
  intros (Ho & Hb & Hc) Hs Hk. unfold arena_alloc_aligned.
  assert (0 < 2 ^ k <= 2 ^ 61) as Hp.
  { split; [apply Z.pow_pos_nonneg; lia|]. apply Z.pow_le_mono_r; lia. }
  rewrite (u64_small (2 ^ k - 1)), (u64_small (buf a + offset a)) by lia.
  rewrite (u64_small (buf a + offset a + (2 ^ k - 1))) by lia.
  pose proof (round_up_bounds (buf a + offset a) k ltac:(lia)) as Hr.
  set (r := Z.ldiff _ _) in *. cbv zeta.
  rewrite (u64_small (r - buf a)), u64_small by lia. done.
Qed.

(** One request: what is returned lies in the unused part of the buffer, which
    shrinks past it. *)
Lemma serve_spec a r p a' :
  arena_ok a -> request_ok r -> serve a r = (p, a') ->
  arena_ok a' /\ buf a' = buf a /\ capacity a' = capacity a /\ offset a <= offset a' /\
  match p with
  | None => a' = a
  | Some q => buf a + offset a <= q /\ q + request_size r <= buf a' + offset a'
  end.
Proof.
  intros Ha (Hs & Hr) Hserve. pose proof Ha as (Ho & Hb & Hc).
  destruct r as [size|size al]; simpl in *.
  - rewrite arena_alloc_eq in Hserve by done. cbv zeta in Hserve.
    pose proof (round_up_bounds size 3 ltac:(lia)) as Hu. change (2 ^ 3 - 1) with 7 in Hu.
    destruct (Z.gtb_spec (offset a + Z.ldiff (size + 7) 7) (capacity a)); simplify_eq.
    + split_and!; auto; lia.
    + unfold arena_ok; simpl. split_and!; auto; lia.
  - destruct Hr as (k & Hk & ->). rewrite arena_alloc_aligned_eq in Hserve by done.
    cbv zeta in Hserve. pose proof (round_up_bounds (buf a + offset a) k ltac:(lia)) as Hu.
    set (r := Z.ldiff _ _) in *.
    destruct (Z.gtb_spec (r - buf a + size) (capacity a)); simplify_eq.
    + split_and!; auto; lia.
    + unfold arena_ok; simpl. split_and!; auto; lia.
Qed.

Lemma serve_all_spec rs a bs a' :
  arena_ok a -> Forall request_ok rs -> serve_all a rs = (bs, a') ->
  StronglySorted before bs /\
  Forall (fun b => buf a + offset a <= b.1 /\ b.1 + b.2 <= buf a + capacity a) bs.
Proof.
  revert a bs a'. induction rs as [|r rs IH]; intros a bs a' Ha Hrs Hserve; simpl in Hserve.
  { simplify_eq. split; constructor. }
  inversion Hrs as [|?? Hr Hrs']; subst.
  destruct (serve a r) as [p a1] eqn:Hp.
  destruct (serve_all a1 rs) as [bs1 a2] eqn:Hall.
  destruct (serve_spec _ _ _ _ Ha Hr Hp) as (Ha1 & Hbuf & Hcap & Hoff & Hblock).
  destruct (IH _ _ _ Ha1 Hrs' Hall) as [Hsorted Hin]. rewrite Hbuf, Hcap in Hin.
  assert (Forall (fun b => buf a + offset a <= b.1 /\ b.1 + b.2 <= buf a + capacity a) bs1)
    as Hin'. { eapply Forall_impl; [exact Hin|]. simpl. lia. }
  destruct p as [q|]; simplify_eq; [|by split].
  destruct Hblock as [Hq1 Hq2]. destruct Ha1 as (Ho1 & _).
  split; constructor; auto; simpl.
  - eapply Forall_impl; [exact Hin|]. unfold before; simpl. lia.
  - lia.
Qed.

(** ** Lemmas: the slab *)

Lemma slab_obj_index s i :
  0 < object_size s -> 0 <= i -> i <= INT_MAX ->
  i32 (Z.quot (memory s + i * object_size s - memory s) (object_size s)) = i.
Proof.
  intros Hs Hi Hm. replace (memory s + _ - memory s) with (i * object_size s) by lia.
  rewrite Z.quot_mul by lia. apply i32_small. unfold INT_MAX in *. lia.
Qed.

Lemma slab_inv_lengths s objs :
  slab_inv s objs -> free_count s + zlen objs = object_count s /\ 0 <= object_count s.
Proof.
  intros (Hs & Hm & Hl & Hc & Hb & Hf & idxs & -> & Hp).
  apply Permutation_length in Hp. unfold zlen in *.
  rewrite length_app, length_take, length_seqZ in Hp. rewrite length_fmap. lia.
Qed.

Lemma slab_inv_in_range s objs :
  slab_inv s objs -> NoDup objs /\
  Forall (fun p => exists i, 0 <= i < object_count s /\ p = memory s + i * object_size s) objs.
Proof.
  intros (Hs & Hm & Hl & Hc & Hb & Hf & idxs & -> & Hp).
  assert (NoDup (take (Z.to_nat (free_count s)) (free_list s) ++ idxs)) as Hnd.
  { rewrite Hp. apply NoDup_seqZ. }
  apply NoDup_app in Hnd as (_ & _ & Hnd). split.
  - apply NoDup_fmap_2; [|done]. intros i j Hij. nia.
  - apply Forall_forall. intros p (i & -> & Hi)%list_elem_of_fmap.
    exists i. split; [|done].
    assert (i ∈ seqZ 0 (object_count s)) as Hin; [|by rewrite elem_of_seqZ in Hin].
    rewrite <- Hp. apply elem_of_app. by right.
Qed.

Lemma slab_alloc_inv s objs :
  slab_inv s objs ->
  (free_count s = 0 /\ slab_alloc s = Ok (None, s)) \/
  exists p s', slab_alloc s = Ok (Some p, s') /\ slab_inv s' (p :: objs) /\
    object_count s' = object_count s /\ free_count s' = free_count s - 1.
Proof.
  intros Hinv. pose proof (slab_inv_lengths _ _ Hinv) as [Hlen _].
  destruct Hinv as (Hs & Hm & Hl & Hc & Hb & Hf & idxs & -> & Hp).
  unfold slab_alloc. destruct (Z.eqb_spec (free_count s) 0) as [Hz|Hz]; [by left|right].
  unfold znth, zlen in *. destruct (Z.ltb_spec (free_count s - 1) 0); [lia|].
  destruct (lookup_lt_is_Some_2 (free_list s) (Z.to_nat (free_count s - 1))) as [i Hi]; [lia|].
  rewrite Hi. do 2 eexists. split; [done|].
  replace (Z.to_nat (free_count s)) with (S (Z.to_nat (free_count s - 1))) in Hp by lia.
  rewrite (take_S_r _ _ _ Hi) in Hp.
  assert (i ∈ seqZ 0 (object_count s)) as Hin.
  { rewrite <- Hp, !elem_of_app. left. right. by apply list_elem_of_singleton. }
  apply elem_of_seqZ in Hin.
  assert (u64 (i * object_size s) = i * object_size s) as Hu by (apply u64_small; nia).
  split; [|done]. unfold slab_inv; simpl. split_and!; try lia; try done.
  exists (i :: idxs). split; [by rewrite Hu|]. by rewrite <- app_assoc in Hp.
Qed.

Lemma slab_free_inv s p objs objs' :
  slab_inv s objs -> remove_one p objs = Some objs' ->
  exists s', slab_free s p = Ok s' /\ slab_inv s' objs' /\ object_count s' = object_count s.
Proof.
  intros Hinv Hrem. pose proof (slab_inv_lengths _ _ Hinv) as [Hlen _].
  destruct (slab_inv_in_range _ _ Hinv) as [_ Hrange].
  destruct Hinv as (Hs & Hm & Hl & Hc & Hb & Hf & idxs & -> & Hp).
  pose proof (remove_one_perm _ _ _ Hrem) as Hperm.
  assert (exists i idxs', idxs ≡ₚ i :: idxs' /\ p = memory s + i * object_size s
            /\ objs' = (fun i => memory s + i * object_size s) <$> idxs') as
    (i & idxs' & Hidx & -> & ->).
  { clear -Hrem. revert objs' Hrem. induction idxs as [|j idxs IH]; intros objs' Hrem; [done|].
    simpl in Hrem. destruct (Z.eqb_spec p (memory s + j * object_size s)) as [->|]; simplify_eq.
    - by exists j, idxs.
    - destruct (remove_one p _) as [k|] eqn:Hk; simplify_eq/=.
      destruct (IH _ eq_refl) as (i & l & Hl & -> & ->). exists i, (j :: l).
      split_and!; [|done..]. rewrite Hl. apply Permutation_swap. }
  assert (0 <= i < object_count s) as Hi.
  { apply (elem_of_seqZ 0 (object_count s) i). rewrite <- Hp, Hidx.
    apply elem_of_app. right. by left. }
  assert (free_count s < object_count s) as Hroom.
  { apply Permutation_length in Hperm. unfold zlen in Hlen. simpl in Hperm. lia. }
  unfold slab_free. destruct (Z.geb_spec (free_count s) (object_count s)); [lia|].
  destruct (Z.eqb_spec (object_size s) 0); [lia|].
  destruct (Z.leb_spec (zlen (free_list s)) (free_count s)); [lia|].
  eexists. split; [done|]. split; [|done].
  unfold slab_inv; simpl. rewrite slab_obj_index by lia.
  unfold zset, zlen in *. destruct (Z.ltb_spec (free_count s) 0); [lia|].
  rewrite length_insert. split_and!; try lia; try done.
  exists idxs'. split; [done|].
  replace (Z.to_nat (free_count s + 1)) with (S (Z.to_nat (free_count s))) by lia.
  rewrite (take_S_r _ _ i) by (apply list_lookup_insert_eq; lia).
  rewrite take_insert_ge by lia. rewrite <- Hp, Hidx, <- app_assoc. done.
Qed.

Lemma slab_step_inv st st' :
  slab_step st st' -> slab_inv st.1 st.2 ->
  slab_inv st'.1 st'.2 /\ object_count st'.1 = object_count st.1.
Proof.
  intros Hstep Hinv. destruct Hstep as [s s' p l Ha|s s' l Ha|s s' p l l' Hr Hf]; simpl in *.
  - destruct (slab_alloc_inv _ _ Hinv) as [[_ Heq]|(q & s1 & Heq & H1 & H2 & _)];
      rewrite Heq in Ha; by simplify_eq.
  - destruct (slab_alloc_inv _ _ Hinv) as [[_ Heq]|(q & s1 & Heq & _)];
      rewrite Heq in Ha; by simplify_eq.
  - destruct (slab_free_inv _ _ _ _ Hinv Hr) as (s1 & Heq & H1 & H2).
    rewrite Heq in Hf. by simplify_eq.
Qed.

Lemma slab_create_inv size n h s h' :
  0 < size <= 2 ^ 62 -> 0 <= n <= INT_MAX -> n * (size + 63) < 2 ^ 63 ->
  (forall i p, answers h i = Some p -> 0 <= p) ->
  slab_create size n h = Ok (Some s, h') ->
  slab_inv s [] /\ object_count s = n /\ size <= object_size s < size + 64.
Proof.
  intros Hsize Hn Hb Haddr Hc. unfold slab_create in Hc.
  destruct (malloc h) as [[a|] h1] eqn:H1; [apply malloc_live in H1 as (_ & _ & Ha1)|done].
  destruct (malloc h1) as [[b|] h2] eqn:H2; [apply malloc_live in H2 as (_ & Hm & _)|by res_inv].
  destruct (malloc h2) as [[f|] h3]; [|by res_inv]. simplify_eq.
  destruct (Hm b eq_refl) as [j Hj]. rewrite Ha1 in Hj. apply Haddr in Hj.
  rewrite (u64_small (size + 63)) by lia.
  pose proof (round_up_bounds size 6 ltac:(lia)) as Hr. change (2 ^ 6 - 1) with 63 in Hr.
  assert (i32 <$> seqZ 0 n = seqZ 0 n) as Hfl.
  { rewrite <- (list_fmap_id (seqZ 0 n)) at 2. apply list_fmap_ext. intros i x Hx.
    apply lookup_seqZ in Hx as [-> Hx]. apply i32_small.
    unfold id, INT_MAX in *. lia. }
  split; [|done]. unfold slab_inv; simpl. rewrite Hfl. unfold zlen.
  rewrite length_seqZ.
  pose proof (Z.mul_le_mono_nonneg_l (Z.ldiff (size + 63) 63) (size + 63) n ltac:(lia) ltac:(lia)).
  split_and!; try lia.
  exists []. split; [done|]. rewrite app_nil_r, take_ge; [done|]. rewrite length_seqZ. lia.
Qed.

(** ** Lemmas: ownership of the heap blocks *)

Lemma arena_create_spec cap h :
  exists oa h', arena_create cap h = Ok (oa, h')
    /\ live h' ≡ₚ (match oa with Some a => blocks_of a | None => [] end) ++ live h
    /\ answers h' = answers h
    /\ match oa with
       | Some a => owns_buffer a = true /\ capacity a = cap /\ offset a = 0
                   /\ exists i, answers h i = Some (buf a)
       | None => True
       end.
Proof.
  unfold arena_create. destruct (malloc h) as [[a|] h1] eqn:H1;
    apply malloc_live in H1 as (Hl1 & _ & Ha1); simpl in Hl1.
  2:{ do 2 eexists. split_and!; try done. by rewrite Hl1. }
  destruct (malloc h1) as [[b|] h2] eqn:H2;
    apply malloc_live in H2 as (Hl2 & Hb & Ha2); simpl in Hl2.
  - do 2 eexists. split; [done|]. simpl. rewrite Hl2, Hl1. split_and!; try done; [congruence|].
    destruct (Hb b eq_refl) as [i Hi]. exists i. congruence.
  - destruct (mfree_owned a h2 (live h)) as (h3 & Hf & Hl3 & Ha3); [by rewrite Hl2, Hl1|].
    rewrite Hf. simpl. do 2 eexists. split_and!; try done. congruence.
Qed.

Lemma arena_destroy_spec a h l :
  owns_buffer a = true -> buf a <> 0 -> live h ≡ₚ blocks_of a ++ l ->
  exists h', arena_destroy (Some a) h = Ok h' /\ live h' ≡ₚ l /\ answers h' = answers h.
Proof.
  intros Ho Hb Hl. unfold arena_destroy. rewrite Ho, (proj2 (Z.eqb_neq _ _)) by done. simpl.
  destruct (mfree_owned _ _ _ Hl) as (h1 & -> & Hl1 & Ha1). simpl.
  destruct (mfree_owned _ _ _ Hl1) as (h2 & -> & Hl2 & Ha2).
  exists h2. split_and!; try done. congruence.
Qed.

Lemma destroy_all_spec as_ h l :
  Forall (fun a => owns_buffer a = true /\ buf a <> 0) as_ ->
  live h ≡ₚ (as_ ≫= blocks_of) ++ l ->
  exists h', destroy_all as_ h = Ok h' /\ live h' ≡ₚ l /\ answers h' = answers h.
Proof.
  intros Hall. revert h. induction Hall as [|a as_ [Ho Hb] Hall IH]; intros h Hl; [by exists h|].
  cbn [destroy_all]. cbn [mbind list_bind] in Hl. rewrite <- app_assoc in Hl.
  destruct (arena_destroy_spec a h _ Ho Hb Hl) as (h1 & -> & Hl1 & Ha1). cbn [mbind res_bind].
  destruct (IH _ Hl1) as (h2 & -> & Hl2 & Ha2). exists h2. split_and!; congruence || done.
Qed.

Lemma pool_fill_spec n size acc h :
  (forall i, answers h i <> Some 0) ->
  Forall (fun a => owns_buffer a = true /\ buf a <> 0) acc ->
  exists done l h', pool_fill n size acc h = Ok (done, acc ++ l, h')
    /\ live h' ≡ₚ (l ≫= blocks_of) ++ live h /\ answers h' = answers h
    /\ Forall (fun a => owns_buffer a = true /\ buf a <> 0) (acc ++ l)
    /\ (done = true -> length l = n).
Proof.
  revert acc h. induction n as [|n IH]; intros acc h Hnz Hacc; cbn [pool_fill].
  { exists true, [], h. rewrite app_nil_r. split_and!; done. }
  destruct (arena_create_spec size h) as (oa & h1 & -> & Hl1 & Ha1 & Hoa). cbn [mbind res_bind].
  destruct oa as [a|].
  - destruct Hoa as (Ho & _ & _ & i & Hi).
    destruct (IH (acc ++ [a]) h1) as (d & l & h2 & -> & Hl2 & Ha2 & Hf & Hd).
    { by rewrite Ha1. }
    { apply Forall_app. split; [done|]. constructor; [|done]. split; [done|].
      intros Hz. apply (Hnz i). congruence. }
    exists d, (a :: l), h2. rewrite <- app_assoc in *. split_and!; try done.
    + rewrite Hl2, Hl1.
      change ((a :: l) ≫= blocks_of) with (blocks_of a ++ (l ≫= blocks_of)).
      rewrite !app_assoc. apply Permutation_app_tail, Permutation_app_comm.
    + congruence.
    + intros ->. simpl. by rewrite Hd.
  - exists false, [], h1. rewrite app_nil_r. split_and!; done.
Qed.

(** ** Properties *)

(** C31: whatever mix of plain and aligned requests a client makes, each of less than 2^62 bytes and with an
    alignment that is a power of two below 2^62, from an arena whose buffer ends below 2^63,
    the blocks [arena_alloc] and [arena_alloc_aligned] hand out follow one
    another inside the buffer, so no two overlap.  (Without these bounds the sizes wrap: [arena_alloc_wraps].) *)
Theorem arena_blocks_disjoint a rs bs a' :
  arena_ok a -> Forall request_ok rs -> serve_all a rs = (bs, a') ->
  StronglySorted before bs /\
  Forall (fun b => buf a + offset a <= b.1 /\ b.1 + b.2 <= buf a + capacity a) bs.
Proof. apply serve_all_spec. Qed.

Definition arena_demo : Arena := mkArena 1 4096 64 0 true.

Lemma arena_blocks_disjoint_witness :
  serve_all arena_demo [Plain 3; Aligned 10 16; Plain 60; Plain 8]
    = ([(4096, 3); (4112, 10); (4122, 8)], mkArena 1 4096 64 34 true) /\
  StronglySorted before [(4096, 3); (4112, 10); (4122, 8)].
Proof.
  split; [reflexivity|].
  apply (arena_blocks_disjoint arena_demo [Plain 3; Aligned 10 16; Plain 60; Plain 8] _
           (mkArena 1 4096 64 34 true)).
  - unfold arena_ok; simpl; lia.
  - repeat constructor; simpl; try lia. exists 4. split; [lia|reflexivity].
  - reflexivity.
Defined.

(** A request within 7 bytes of [SIZE_MAX] wraps when it is rounded up: the
    arena reports success without reserving anything, so the next request gets
    the same address. *)
Theorem arena_alloc_wraps a size n :
  arena_ok a -> 2 ^ 64 - 7 <= size <= SIZE_MAX -> 0 <= n < 2 ^ 62 -> offset a + n + 7 <= capacity a ->
  arena_alloc a size = (Some (buf a + offset a), a)
  /\ fst (arena_alloc (snd (arena_alloc a size)) n) = Some (buf a + offset a).
Proof.
  intros Ha Hs Hn Hroom. pose proof Ha as (Ho & Hb & Hc).
  assert (arena_alloc a size = (Some (buf a + offset a), a)) as Heq.
  { unfold arena_alloc, SIZE_MAX in *.
    assert (u64 (size + 7) = size + 7 - 2 ^ 64) as ->.
    { unfold u64. rewrite <- (Z.mod_add _ (-1)) by lia. apply Z.mod_small. lia. }
    change 7 with (2 ^ 3 - 1). rewrite ldiff_pow2, (Z.mod_small _ (2 ^ 3)) by lia.
    rewrite Z.sub_diag, Z.add_0_r, u64_small by lia.
    destruct (Z.gtb_spec (offset a) (capacity a)); [lia|]. by destruct a. }
  split; [done|]. rewrite Heq. simpl. rewrite arena_alloc_eq by done. cbv zeta.
  pose proof (round_up_bounds n 3 ltac:(lia)) as Hr. change (2 ^ 3 - 1) with 7 in Hr.
  destruct (Z.gtb_spec (offset a + Z.ldiff (n + 7) 7) (capacity a)); [lia|done].
Qed.

Lemma arena_alloc_wraps_witness :
  fst (arena_alloc (snd (arena_alloc arena_demo SIZE_MAX)) 16) = Some 4096.
Proof.
  apply (arena_alloc_wraps arena_demo SIZE_MAX 16);
    unfold arena_ok, SIZE_MAX; simpl; lia.
Defined.

(** A slab used by a client that only frees what it was given never hands
    out a live object: in every reachable state the live objects are distinct
    slots of the slab, they and the free list account for all the objects, and
    the next [slab_alloc] does not fault, fails exactly when every object is
    live, and otherwise returns an object that is not live. *)
Theorem slab_no_double_allocation size n h s0 h' s objs :
  0 < size <= 2 ^ 62 -> 0 <= n <= INT_MAX -> n * (size + 63) < 2 ^ 63 ->
  (forall i p, answers h i = Some p -> 0 <= p) ->
  slab_create size n h = Ok (Some s0, h') ->
  rtc slab_step (s0, []) (s, objs) ->
  NoDup objs
  /\ Forall (fun p => exists i, 0 <= i < n /\ p = memory s + i * object_size s) objs
  /\ free_count s + zlen objs = n
  /\ exists o s', slab_alloc s = Ok (o, s')
       /\ match o with None => zlen objs = n | Some p => p ∉ objs end.
Proof.
  intros Hs Hn Hb Haddr Hc Hsteps.
  destruct (slab_create_inv _ _ _ _ _ Hs Hn Hb Haddr Hc) as (Hinv & Hcount & _).
  assert (slab_inv s objs /\ object_count s = n) as [Hi Hcn].
  { apply (rtc_ind_r (fun st => slab_inv st.1 st.2 /\ object_count st.1 = n) (s0, [])
             ltac:(done)) in Hsteps; [done|].
    intros st st' _ Hst [H1 H2]. destruct (slab_step_inv _ _ Hst H1). split; [done|congruence]. }
  destruct (slab_inv_in_range _ _ Hi) as [Hnd Hr]. rewrite Hcn in Hr.
  destruct (slab_inv_lengths _ _ Hi) as [Hl _]. split_and!; try done; [congruence|].
  destruct (slab_alloc_inv _ _ Hi) as [[Hz Heq]|(p & s' & Heq & Hi' & _)]; rewrite Heq.
  - do 2 eexists. split; [done|]. simpl. lia.
  - do 2 eexists. split; [done|]. simpl.
    apply slab_inv_in_range in Hi' as [Hnd' _]. by apply NoDup_cons in Hnd' as [? _].
Qed.

Definition demo_heap : heap := mkHeap (fun i => Some (1024 * Z.of_nat (S i))) 0 [].

Definition demo_slab (fc : Z) : Slab := mkSlab 1024 64 3 fc 2048 3072 [0; 1; 2].

Lemma slab_no_double_allocation_witness :
  exists o s', slab_alloc (demo_slab 1) = Ok (o, s')
    /\ match o with None => zlen [2112; 2176] = 3 | Some p => p ∉ [2112; 2176] end.
Proof.
  apply (slab_no_double_allocation 40 3 demo_heap (demo_slab 3) (mkHeap (answers demo_heap) 3
           [3072; 2048; 1024]) (demo_slab 1) [2112; 2176]); try (unfold INT_MAX; lia).
  - intros i p [= <-]. lia.
  - reflexivity.
  - eapply rtc_l; [by apply (step_alloc _ (demo_slab 2) 2176)|].
    eapply rtc_l; [by apply (step_alloc _ (demo_slab 1) 2112)|]. apply rtc_refl.
Defined.

(** Creating a pool of arenas never leaks and never frees twice: when any
    allocation fails, everything already allocated has been freed; when the
    pool is created it has the requested number of arenas (at least one), and
    destroying it returns the heap to what it was. *)
Theorem arenapool_no_leak size n h :
  (forall i, answers h i <> Some 0) ->
  exists o h', arenapool_create size n h = Ok (o, h') /\
  match o with
  | None => live h' ≡ₚ live h
  | Some pool => zlen (arenas pool) = count pool /\ count pool = Z.max 1 n
      /\ exists h'', arenapool_destroy (Some pool) h' = Ok h'' /\ live h'' ≡ₚ live h
  end.
Proof.
  intros Hnz. unfold arenapool_create.
  destruct (malloc h) as [[p|] h1] eqn:H1; apply malloc_live in H1 as (Hl1 & _ & Ha1).
  2:{ exists None, h1. split; [done|]. by rewrite Hl1. }
  destruct (malloc h1) as [[v|] h2] eqn:H2; apply malloc_live in H2 as (Hl2 & _ & Ha2).
  2:{ destruct (mfree_owned p h2 (live h)) as (h3 & -> & Hl3 & _); [by rewrite Hl2, Hl1|].
      by do 2 eexists. }
  set (k := if n >? 0 then n else 1).
  assert (k = Z.max 1 n) as Hk by (unfold k; destruct (Z.gtb_spec n 0); lia).
  destruct (pool_fill_spec (Z.to_nat k) size [] h2) as (d & l & h3 & -> & Hl3 & Ha3 & Hall & Hd);
    [congruence|done|].
  rewrite Hl2, Hl1 in Hl3. simpl in *. destruct d; cbn [mbind res_bind].
  - do 2 eexists. split; [done|]. simpl. unfold zlen. rewrite Hd by done. split_and!; [lia|lia|].
    destruct (destroy_all_spec _ _ _ Hall Hl3) as (h4 & -> & Hl4 & _). cbn [mbind res_bind].
    destruct (mfree_owned _ _ _ Hl4) as (h5 & -> & Hl5 & _). cbn [mbind res_bind].
    destruct (mfree_owned _ _ _ Hl5) as (h6 & -> & Hl6 & _). eauto.
  - destruct (destroy_all_spec _ _ _ Hall Hl3) as (h4 & -> & Hl4 & _). cbn [mbind res_bind].
    destruct (mfree_owned _ _ _ Hl4) as (h5 & -> & Hl5 & _). cbn [mbind res_bind].
    destruct (mfree_owned _ _ _ Hl5) as (h6 & -> & Hl6 & _). cbn [mbind res_bind]. eauto.
Qed.

Lemma arenapool_no_leak_witness :
  exists o h', arenapool_create 256 2 demo_heap = Ok (o, h') /\
  match o with
  | None => live h' ≡ₚ live demo_heap
  | Some pool => zlen (arenas pool) = count pool /\ count pool = Z.max 1 2
      /\ exists h'', arenapool_destroy (Some pool) h' = Ok h'' /\ live h'' ≡ₚ live demo_heap
  end.
Proof. apply (arenapool_no_leak 256 2 demo_heap). by intros i [=]. Defined.
