(* ===== verification/RateLimiter.v ===== *)
(** * The token-bucket rate limiter: [src/ratelimiter.c]

    A hash table of chains of buckets, one bucket per client key.  The answer of
    [calloc] is an argument of the call that uses it.  A call reads the clock ([now_ms])
    first and takes the mutex afterwards: what it does under the mutex is one step, to
    which the reading is an argument, and between the two steps of a call any steps of other calls
    may come ([interleave]), so the readings need not reach the buckets in order. *)

From S2P Require Import Prelude.

(** ** Data *)

Record TokenBucketConfig := mkConfig {
  tokens_per_sec : Z;
  bucket_size : Z;
  window_ms : Z;
  max_requests_per_window : Z;
  max_concurrent : Z
}.

Record BucketEntry := mkEntry {
  key : list Z;
  tokens : Z;
  last_fill : Z;
  window_start : Z;
  window_count : Z;
  active : bool
}.

(** A bucket absent from [buckets] is an empty chain (a NULL head). *)
Record RateLimiter := mkRateLimiter {
  buckets : gmap Z (list BucketEntry);
  config : TokenBucketConfig
}.

Definition RATE_HASH_SIZE : Z := 65536.
Definition KEY_MAX : nat := 127.   (* sizeof(e->key) - 1 *)

(** ** Operations *)

(** FNV-1a *)
Definition hash_key (k : list Z) : Z :=
  fold_left (fun h c => u64 (Z.lxor h c * 1099511628211)) k 14695981039346656037.

Definition default_to (v d : Z) : Z := if v =? 0 then d else v.

Definition ratelimiter_create (cfg : TokenBucketConfig) (calloc_ok : bool) : option RateLimiter :=
  if negb calloc_ok then None
  else
    let tps := default_to (tokens_per_sec cfg) 100 in
    Some (mkRateLimiter ∅
            (mkConfig tps (default_to (bucket_size cfg) tps) (default_to (window_ms cfg) 1000)
               (default_to (max_requests_per_window cfg) 1000)
               (default_to (max_concurrent cfg) 1024))).

Definition chain (rl : RateLimiter) (k : list Z) : list BucketEntry :=
  default [] (buckets rl !! (hash_key k mod RATE_HASH_SIZE)).

Definition set_chain (rl : RateLimiter) (k : list Z) (l : list BucketEntry) : RateLimiter :=
  mkRateLimiter (<[hash_key k mod RATE_HASH_SIZE := l]> (buckets rl)) (config rl).

Definition entry_matches (k : list Z) (e : BucketEntry) : bool := active e && streq (key e) k.

(** Refill by the elapsed time, and restart the request window when it is
    over. *)
Definition refill (cfg : TokenBucketConfig) (e : BucketEntry) (now : Z) : BucketEntry :=
  let elapsed := u64 (now - last_fill e) in
  let tokens_to_add := u64 (elapsed * tokens_per_sec cfg) / 1000 in
  let '(tk, lf) :=
    if tokens_to_add >? 0 then
      let t := u64 (tokens e + tokens_to_add) in
      (if t >? bucket_size cfg then bucket_size cfg else t, now)
    else (tokens e, last_fill e) in
  let '(ws, wc) :=
    if u64 (now - window_start e) >? window_ms cfg then (now, 0)
    else (window_start e, window_count e) in
  mkEntry (key e) tk lf ws wc (active e).

Definition spend (cfg : TokenBucketConfig) (e : BucketEntry) (cost now : Z) : bool * BucketEntry :=
  let e := refill cfg e now in
  if cost >? tokens e then (false, e)
  else if window_count e >=? max_requests_per_window cfg then (false, e)
  else (true, mkEntry (key e) (u64 (tokens e - cost)) (last_fill e) (window_start e)
                (u64 (window_count e + 1)) (active e)).

Definition new_entry (cfg : TokenBucketConfig) (k : list Z) (cost now : Z) : BucketEntry :=
  mkEntry (strncpy KEY_MAX k) (u64 (bucket_size cfg - cost)) now now 1 true.

(** What is done under the mutex, with the clock as it was read before; [true] is the return
    value 1. *)
Definition allow_locked (rl : RateLimiter) (k : list Z) (cost now : Z) (calloc_ok : bool) : bool * RateLimiter :=
  let l := chain rl k in
  match find_index (entry_matches k) l with
  | None =>
      if cost >? bucket_size (config rl) then (false, rl)
      else if negb calloc_ok then (false, rl)
      else (true, set_chain rl k (new_entry (config rl) k cost now :: l))
  | Some i =>
      match l !! i with
      | Some e =>
          let '(ok, e') := spend (config rl) e cost now in
          (ok, set_chain rl k (<[i := e']> l))
      | None => (false, rl)
      end
  end.

(** A call that no other comes between. *)
Definition ratelimiter_allow_n (rl : option RateLimiter) (k : option (list Z))
    (cost now : Z) (calloc_ok : bool) : bool * option RateLimiter :=
  match rl, k with
  | Some rl, Some k => let '(ok, rl) := allow_locked rl k cost now calloc_ok in (ok, Some rl)
  | _, _ => (false, rl)
  end.

Definition ratelimiter_allow (rl : option RateLimiter) (k : option (list Z)) (now : Z)
    (calloc_ok : bool) : bool * option RateLimiter :=
  ratelimiter_allow_n rl k 1 now calloc_ok.

Definition ratelimiter_set_config (rl : option RateLimiter) (cfg : TokenBucketConfig)
  : option RateLimiter :=
  (fun rl => mkRateLimiter (buckets rl) cfg) <$> rl.

(** The chains are freed with it. *)
Definition ratelimiter_destroy (rl : ptr RateLimiter) : res (ptr RateLimiter) := free_owned rl.

(** ** Specification: a map from keys to buckets *)

Definition entry_of (rl : RateLimiter) (k : list Z) : option BucketEntry :=
  i ← find_index (entry_matches k) (chain rl k); chain rl k !! i.

(** The specification's state maps each key to its own bucket. *)
Definition spec_allow (cfg : TokenBucketConfig) (k : list Z) (o : option BucketEntry)
    (cost now : Z) (calloc_ok : bool) : bool * option BucketEntry :=
  match o with
  | Some e => let '(ok, e') := spend cfg e cost now in (ok, Some e')
  | None =>
      if cost >? bucket_size cfg then (false, None)
      else if negb calloc_ok then (false, None)
      else (true, Some (new_entry cfg k cost now))
  end.

(** A call: the key, the cost, the reading of the clock and the allocator's answer. *)
Definition event : Type := list Z * Z * Z * bool.

(** The calls in the order in which they take the mutex. *)
Fixpoint serve (rl : RateLimiter) (evs : list event) : list bool * RateLimiter :=
  match evs with
  | [] => ([], rl)
  | (k, cost, now, ok) :: evs' =>
      let '(v, rl) := allow_locked rl k cost now ok in
      let '(vs, rl) := serve rl evs' in
      (v :: vs, rl)
  end.

(** ** Calls of several threads

    The two steps of the call of a thread. *)
Inductive step :=
| Reads_clock (thread : nat) (k : list Z) (cost now : Z)
| Takes_mutex (thread : nat) (calloc_ok : bool).

(** The calls that have read the clock and wait for the mutex. *)
Definition waiting : Type := gmap nat (list Z * Z * Z).

Fixpoint interleave (steps : list step) (w : waiting) (rl : RateLimiter) : list bool * RateLimiter :=
  match steps with
  | [] => ([], rl)
  | Reads_clock n k cost now :: steps' => interleave steps' (<[n := (k, cost, now)]> w) rl
  | Takes_mutex n ok :: steps' =>
      match w !! n with
      | Some (k, cost, now) =>
          let '(v, rl) := allow_locked rl k cost now ok in
          let '(vs, rl) := interleave steps' (delete n w) rl in
          (v :: vs, rl)
      | None => interleave steps' w rl
      end
  end.

(** The calls of these steps, in the order in which they take the mutex. *)
Fixpoint mutex_order (steps : list step) (w : waiting) : list event :=
  match steps with
  | [] => []
  | Reads_clock n k cost now :: steps' => mutex_order steps' (<[n := (k, cost, now)]> w)
  | Takes_mutex n ok :: steps' =>
      match w !! n with
      | Some (k, cost, now) => (k, cost, now, ok) :: mutex_order steps' (delete n w)
      | None => mutex_order steps' w
      end
  end.

(** How many calls come to the mutex after one that read the clock later; [last] is the latest
    reading so far. *)
Fixpoint overtaken (last : Z) (evs : list event) : Z :=
  match evs with
  | [] => 0
  | (_, _, now, _) :: evs' => (if now <? last then 1 else 0) + overtaken (Z.max last now) evs'
  end.

Fixpoint spec_serve (cfg : TokenBucketConfig) (m : gmap (list Z) BucketEntry)
    (evs : list event) : list bool * gmap (list Z) BucketEntry :=
  match evs with
  | [] => ([], m)
  | (k, cost, now, ok) :: evs' =>
      let '(v, o) := spec_allow cfg k (m !! k) cost now ok in
      let '(vs, m') := spec_serve cfg (partial_alter (fun _ => o) k m) evs' in
      (v :: vs, m')
  end.

(** The table [rl] represents the map [m]. *)
Definition represents (rl : RateLimiter) (m : gmap (list Z) BucketEntry) : Prop :=
  forall k, entry_of rl k = m !! k.

(** The total cost of the calls for [k] that were allowed. *)
Fixpoint admitted (k : list Z) (evs : list event) (vs : list bool) : Z :=
  match evs, vs with
  | (k', cost, _, _) :: evs', v :: vs' =>
      (if v && streq k' k then cost else 0) + admitted k evs' vs'
  | _, _ => 0
  end.

(** ** Lemmas *)

Lemma entry_matches_key k e : entry_matches k e = true -> key e = k /\ active e = true.
Proof. unfold entry_matches. rewrite andb_true_iff, streq_true. tauto. Qed.

Lemma spend_key cfg e cost now :
  key (spend cfg e cost now).2 = key e /\ active (spend cfg e cost now).2 = active e.
Proof. unfold spend, refill. repeat csplit; simplify_eq/=; done. Qed.

Lemma spend_matches cfg e cost now k :
  entry_matches k (spend cfg e cost now).2 = entry_matches k e.
Proof. unfold entry_matches. by destruct (spend_key cfg e cost now) as [-> ->]. Qed.

Lemma find_index_insert {A} (p : A -> bool) l i x y :
  l !! i = Some x -> p y = p x -> find_index p (<[i := y]> l) = find_index p l.
Proof.
  revert i. induction l as [|z l IH]; intros [|i] Hi Hp; simplify_eq/=; [by rewrite Hp|].
  by rewrite (IH i).
Qed.

Lemma chain_set_chain rl k k' l :
  chain (set_chain rl k l) k' =
    if decide (hash_key k mod RATE_HASH_SIZE = hash_key k' mod RATE_HASH_SIZE) then l
    else chain rl k'.
Proof.
  unfold chain, set_chain; simpl. case_decide as Hd.
  - by rewrite Hd, lookup_insert_eq.
  - by rewrite lookup_insert_ne.
Qed.

(** The hash table refines the map, one call at a time. *)
Lemma allow_refines rl k cost now ok :
  (length k <= KEY_MAX)%nat ->
  exists rl', allow_locked rl k cost now ok
      = ((spec_allow (config rl) k (entry_of rl k) cost now ok).1, rl')
    /\ config rl' = config rl
    /\ entry_of rl' k = (spec_allow (config rl) k (entry_of rl k) cost now ok).2
    /\ forall k', k' <> k -> entry_of rl' k' = entry_of rl k'.
Proof.
  intros Hlen. unfold allow_locked, entry_of.
  destruct (find_index (entry_matches k) (chain rl k)) as [i|] eqn:Hf; simpl.
  - apply find_index_Some in Hf as Hi. destruct Hi as (e & He & Hm & _). rewrite He.
    pose proof (spend_matches (config rl) e cost now) as Hsame. simpl.
    destruct (spend (config rl) e cost now) as [v e'] eqn:Ha; simpl in *.
    eexists. split; [done|]. split; [done|]. rewrite !chain_set_chain, decide_True by done.
    assert (i < length (chain rl k))%nat by (by eapply lookup_lt_Some).
    rewrite (find_index_insert _ _ _ _ _ He (Hsame k)), Hf. simpl.
    rewrite list_lookup_insert_eq by done. split; [done|].
    intros k' Hk'. rewrite chain_set_chain. case_decide as Hd; [|done].
    assert (chain rl k' = chain rl k) as -> by (unfold chain; by rewrite Hd).
    rewrite (find_index_insert _ _ _ _ _ He (Hsame k')).
    destruct (find_index (entry_matches k') (chain rl k)) as [j|] eqn:Hj; [simpl|done].
    apply find_index_Some in Hj as (e2 & He2 & Hm2 & _).
    apply entry_matches_key in Hm as [Hm _]. apply entry_matches_key in Hm2 as [Hm2 _].
    rewrite list_lookup_insert_ne; [done|]. intros ->. congruence.
  - destruct (Z.gtb_spec cost (bucket_size (config rl))).
    { exists rl. rewrite Hf. done. }
    destruct ok; simpl; [|exists rl; by rewrite Hf].
    eexists. split; [done|]. split; [done|]. rewrite !chain_set_chain, decide_True by done.
    assert (strncpy KEY_MAX k = k) as Hk by (by apply take_ge).
    assert (entry_matches k (new_entry (config rl) k cost now) = true) as Hm.
    { change (streq (strncpy KEY_MAX k) k = true). by rewrite Hk, streq_refl. }
    simpl. rewrite Hm. split; [done|]. intros k' Hk'. rewrite chain_set_chain.
    case_decide as Hd; [|done].
    assert (chain rl k' = chain rl k) as -> by (unfold chain; by rewrite Hd).
    assert (entry_matches k' (new_entry (config rl) k cost now) = false) as Hm'.
    { change (streq (strncpy KEY_MAX k) k' = false). rewrite Hk. by apply streq_false. }
    cbn [find_index]. rewrite Hm'. by destruct (find_index (entry_matches k') (chain rl k)).
Qed.

Lemma interleave_serve steps : forall w rl, interleave steps w rl = serve rl (mutex_order steps w).
Proof.
  induction steps as [|[n k cost now|n ok] steps IH]; intros w rl; cbn [interleave mutex_order]; [done|apply IH|].
  destruct (w !! n) as [[[k cost] now]|]; cbn [serve]; [|apply IH]. destruct (allow_locked rl k cost now ok) as [v rl']. by rewrite IH.
Qed.

(** One full bucket and what the clock pays in between [t0] and [t1]. *)
Definition allowance (cfg : TokenBucketConfig) (t0 t1 : Z) : Z := 1000 * bucket_size cfg + tokens_per_sec cfg * (t1 - t0).

(** The bucket's potential: what was spent plus what is left never exceeds the bucket size
    plus what the clock has paid in since [t0], and one allowance for each of [n] calls
    that came late. *)
Definition potential (cfg : TokenBucketConfig) (t0 t1 n spent : Z) (e : BucketEntry) : Prop :=
  0 <= tokens e <= bucket_size cfg /\ t0 <= last_fill e <= t1 /\
  1000 * (spent + tokens e) <= n * allowance cfg t0 t1 + allowance cfg t0 (last_fill e).

Definition config_ok (cfg : TokenBucketConfig) : Prop :=
  0 <= tokens_per_sec cfg /\ 0 <= bucket_size cfg < 2 ^ 62.

(** The readings of the clock, and what the rate pays between them, are far from 2^64. *)
Definition span_ok (cfg : TokenBucketConfig) (t0 t1 : Z) : Prop :=
  0 <= t0 <= t1 /\ t1 < 2 ^ 64 /\ tokens_per_sec cfg * (t1 - t0) < 2 ^ 62.

Lemma allowance_nonneg cfg t0 t : config_ok cfg -> t0 <= t -> 0 <= allowance cfg t0 t.
Proof. unfold config_ok, allowance. nia. Qed.

Lemma allowance_mono cfg t0 t t' : config_ok cfg -> t <= t' -> allowance cfg t0 t <= allowance cfg t0 t'.
Proof. unfold config_ok, allowance. nia. Qed.

Lemma potential_late cfg t0 t1 n n' spent e :
  config_ok cfg -> t0 <= t1 -> n <= n' -> potential cfg t0 t1 n spent e -> potential cfg t0 t1 n' spent e.
Proof. intros Hc Ht Hn (H1 & H2 & H3). split_and!; [lia..|]. pose proof (allowance_nonneg cfg t0 t1 Hc Ht). nia. Qed.

(** A call in time. *)
Lemma refill_potential cfg t0 t1 n spent e now :
  config_ok cfg -> span_ok cfg t0 t1 -> potential cfg t0 t1 n spent e -> last_fill e <= now <= t1 ->
  potential cfg t0 t1 n spent (refill cfg e now) /\ last_fill (refill cfg e now) <= now.
Proof.
  intros (Htps & Hbs) (Ht & Ht1 & Hb) (Htok & Hlf & Hpot) Hnow.
  unfold refill, potential, allowance in *. rewrite (u64_small (now - last_fill e)) by lia.
  assert (0 <= (now - last_fill e) * tokens_per_sec cfg < 2 ^ 62) as Hprod by nia.
  rewrite (u64_small (_ * _)) by lia.
  set (add := (now - last_fill e) * tokens_per_sec cfg / 1000).
  assert (0 <= add /\ 1000 * add <= (now - last_fill e) * tokens_per_sec cfg) as [Ha Ha'].
  { unfold add. split; [apply Z.div_pos; lia|apply Z.mul_div_le; lia]. }
  set (X := n * _) in *. clearbody X.
  destruct (u64 (now - window_start e) >? window_ms cfg);
    (destruct (Z.gtb_spec add 0); simpl; [|split_and!; lia]);
    rewrite u64_small by lia;
    (destruct (Z.gtb_spec (tokens e + add) (bucket_size cfg)); simpl; split_and!; nia).
Qed.

(** A call that comes late: at most one bucket is filled. *)
Lemma refill_late cfg t0 t1 n spent e now :
  config_ok cfg -> span_ok cfg t0 t1 -> potential cfg t0 t1 n spent e -> t0 <= now < last_fill e ->
  potential cfg t0 t1 (n + 1) spent (refill cfg e now) /\ last_fill (refill cfg e now) <= last_fill e.
Proof.
  intros Hc (Ht & Ht1 & Hb) (Htok & Hlf & Hpot) Hnow. pose proof Hc as [Htps Hbs].
  pose proof (allowance_nonneg cfg t0 t1 Hc ltac:(lia)) as Hn. pose proof (allowance_mono cfg t0 (last_fill e) t1 Hc ltac:(lia)) as Hm.
  pose proof (allowance_nonneg cfg t0 now Hc ltac:(lia)) as Hn'.
  unfold refill, potential in *. set (add := u64 (u64 (now - last_fill e) * tokens_per_sec cfg) / 1000).
  assert (0 <= add < 2 ^ 62) as Ha.
  { unfold add. pose proof (u64_range (u64 (now - last_fill e) * tokens_per_sec cfg)).
    split; [apply Z.div_pos; lia|apply Z.div_lt_upper_bound; lia]. }
  assert (1000 * bucket_size cfg <= allowance cfg t0 now) by (unfold allowance; nia).
  destruct (u64 (now - window_start e) >? window_ms cfg);
    (destruct (Z.gtb_spec add 0); simpl; [|split_and!; nia]);
    rewrite u64_small by lia;
    (destruct (Z.gtb_spec (tokens e + add) (bucket_size cfg)); simpl; split_and!; try lia; nia).
Qed.

Lemma spend_potential cfg t0 t1 n spent e cost last now v e' :
  config_ok cfg -> span_ok cfg t0 t1 -> potential cfg t0 t1 n spent e -> last_fill e <= last -> t0 <= now <= t1 -> 0 <= cost ->
  spend cfg e cost now = (v, e') ->
  potential cfg t0 t1 (n + if now <? last then 1 else 0) (spent + if v then cost else 0) e' /\ last_fill e' <= Z.max last now.
Proof.
  intros Hc Hspan Hp Hlast Hnow Hcost Ha.
  assert (potential cfg t0 t1 (n + if now <? last then 1 else 0) spent (refill cfg e now) /\ last_fill (refill cfg e now) <= Z.max last now) as [Hp' Hl].
  { destruct (decide (last_fill e <= now)) as [Hin|Hlate].
    - destruct (refill_potential _ _ _ _ _ _ _ Hc Hspan Hp (conj Hin (proj2 Hnow))) as [Hp' Hl]. split; [|lia].
      eapply potential_late; [done|apply Hspan| |exact Hp']. destruct (now <? last); lia.
    - destruct (refill_late cfg t0 t1 n spent e now Hc Hspan Hp ltac:(lia)) as [Hp' Hl]. split; [|lia].
      by rewrite (proj2 (Z.ltb_lt now last)) by lia. }
  set (m := n + _) in *. clearbody m.
  unfold spend in Ha. destruct Hc as [_ Hbs]. unfold potential in *.
  destruct (Z.gtb_spec cost (tokens (refill cfg e now))); simplify_eq; [split_and!; lia|].
  destruct (window_count _ >=? _); simplify_eq; [split_and!; lia|].
  simpl. rewrite u64_small by lia. split_and!; lia.
Qed.

Definition event_ok (t0 t1 : Z) (ev : event) : Prop :=
  let '(k, cost, now, _) := ev in (length k <= KEY_MAX)%nat /\ 0 <= cost /\ t0 <= now <= t1.

(** The potential of the bucket of a key, if it has one yet. *)
Definition potential_opt (cfg : TokenBucketConfig) (t0 t1 n last spent : Z) (o : option BucketEntry)
  : Prop :=
  match o with
  | Some e => potential cfg t0 t1 n spent e /\ last_fill e <= last
  | None => spent = 0
  end.

Lemma potential_opt_late cfg t0 t1 n n' last last' spent o :
  config_ok cfg -> t0 <= t1 -> n <= n' -> last <= last' -> potential_opt cfg t0 t1 n last spent o -> potential_opt cfg t0 t1 n' last' spent o.
Proof. intros Hc Ht Hn Hl. destruct o as [e|]; [|done]. intros [Hp He]. split; [by eapply potential_late|lia]. Qed.

Lemma spec_allow_potential cfg k t0 t1 n last spent o cost now ok :
  config_ok cfg -> span_ok cfg t0 t1 -> t0 <= now <= t1 -> 0 <= n -> 0 <= cost ->
  potential_opt cfg t0 t1 n last spent o ->
  let r := spec_allow cfg k o cost now ok in
  potential_opt cfg t0 t1 (n + if now <? last then 1 else 0) (Z.max last now) (spent + if r.1 then cost else 0) r.2.
Proof.
  intros Hc Hspan Hnow Hn Hcost Ho. destruct o as [e|]; simpl.
  - destruct Ho as [Hp Hl]. destruct (spend cfg e cost now) as [v e'] eqn:Ha. simpl.
    eapply spend_potential; eauto.
  - pose proof Hc as [? ?]. simpl in Ho. destruct (Z.gtb_spec cost (bucket_size cfg)); simpl; [lia|].
    destruct ok; simpl; [|lia]. unfold potential, new_entry; simpl. rewrite u64_small by lia.
    pose proof (allowance_nonneg cfg t0 t1 Hc ltac:(unfold span_ok in Hspan; lia)).
    assert (1000 * bucket_size cfg <= allowance cfg t0 now) by (unfold allowance; nia).
    split_and!; try lia. destruct (now <? last); nia.
Qed.

Lemma serve_potential cfg k t0 t1 evs : forall rl n last spent,
  config rl = cfg -> config_ok cfg -> span_ok cfg t0 t1 -> 0 <= n ->
  Forall (event_ok t0 t1) evs ->
  potential_opt cfg t0 t1 n last spent (entry_of rl k) ->
  let r := serve rl evs in
  exists last', potential_opt cfg t0 t1 (n + overtaken last evs) last' (spent + admitted k evs r.1) (entry_of r.2 k).
Proof.
  intros rl n last spent Hcfg Hc Hspan Hn Hevs. revert rl n last spent Hcfg Hn.
  induction Hevs as [|[[[k' cost] now] ok] evs (Hlen & Hcost & Hnow) Hevs IH]; intros rl n last spent Hcfg Hn Hst.
  { exists last. simpl. by rewrite !Z.add_0_r. }
  destruct (allow_refines rl k' cost now ok Hlen) as (rl' & Hrun & Hcfg' & Hself & Hother).
  cbn [serve overtaken]. rewrite Hrun. cbv iota.
  set (v := (spec_allow _ _ _ _ _ _).1) in *. set (late := if now <? last then 1 else 0).
  assert (0 <= late) as Hlate by (unfold late; destruct (now <? last); lia).
  assert (potential_opt (config rl) t0 t1 (n + late) (Z.max last now) (spent + if v && streq k' k then cost else 0)
            (entry_of rl' k)) as Hst'.
  { destruct (streq k' k) eqn:Hk; [apply streq_true in Hk; subst k'|apply streq_false in Hk].
    - rewrite Hself, andb_true_r. apply spec_allow_potential; try done; by rewrite Hcfg.
    - rewrite andb_false_r, Z.add_0_r, Hother by done.
      eapply potential_opt_late; [by rewrite Hcfg|apply Hspan| | |rewrite Hcfg; exact Hst]; lia. }
  rewrite Hcfg in Hst'. destruct (IH rl' (n + late) _ _ ltac:(congruence) ltac:(lia) Hst') as [last' Hend].
  exists last'. cbv zeta in *. destruct (serve rl' evs) as [vs rl'']. cbn [fst snd admitted] in *.
  by rewrite !Z.add_assoc in *.
Qed.

(** ** Properties *)

(** The hash table of chains refines a map from client keys to token buckets
    (each created on the client's first call, refilled by the elapsed time, and
    charged when its tokens and its window allow the call): a table that
    represents a map gives, for any sequence of calls of any clients, the
    answers of the map, and represents the resulting map. *)
Theorem ratelimiter_refines_map rl m evs :
  represents rl m -> Forall (fun ev => (length ev.1.1.1 <= KEY_MAX)%nat) evs ->
  (serve rl evs).1 = (spec_serve (config rl) m evs).1
  /\ represents (serve rl evs).2 (spec_serve (config rl) m evs).2.
Proof.
  intros Hrep Hevs. revert rl m Hrep.
  induction Hevs as [|[[[k cost] now] ok] evs Hlen Hevs IH]; intros rl m Hrep; [done|].
  cbn [serve spec_serve].
  destruct (allow_refines rl k cost now ok Hlen) as (rl' & -> & Hcfg & Hself & Hother).
  rewrite Hrep in *. destruct (spec_allow (config rl) k (m !! k) cost now ok) as [v o].
  cbn [fst snd] in *. destruct (IH rl' (partial_alter (fun _ => o) k m)) as [H1 H2].
  { intros k'. destruct (decide (k' = k)) as [->|Hne].
    - by rewrite Hself, lookup_partial_alter_eq.
    - by rewrite Hother, lookup_partial_alter_ne. }
  rewrite Hcfg in *. destruct (serve rl' evs), (spec_serve _ _ evs). simpl in *. by subst.
Qed.

Definition demo_config : TokenBucketConfig := mkConfig 10 5 1000 100 8.
Definition demo_limiter : RateLimiter := mkRateLimiter ∅ demo_config.
Definition demo_key : list Z := lit "10.0.0.1".

(** C30: the rate limit of several threads.  Each call reads the clock and then takes the
    mutex; the steps of all calls, of whatever clients with keys of at most 127 bytes and costs that are not negative, are interleaved
    in any way, and all readings lie between [t0] and [t1]; the bucket is below 2^62, and so is the rate times this span.  The cost
    admitted for a key that had no bucket is at most the bucket size plus
    [tokens_per_sec] for each second from [t0] to [t1] - and once more this amount for every call
    that comes to the mutex after one that read the clock later: such a call finds a negative time elapsed, which as an
    unsigned number fills the bucket ([overtaken_call_refills]).  With one thread, or calls
    that do not overtake each other, the limit is the one that is configured. *)
Theorem ratelimiter_rate_bound rl k t0 t1 steps :
  let calls := mutex_order steps ∅ in
  config_ok (config rl) -> span_ok (config rl) t0 t1 -> Forall (event_ok t0 t1) calls -> entry_of rl k = None ->
  1000 * admitted k calls (interleave steps ∅ rl).1
    <= (1 + overtaken t0 calls) * (1000 * bucket_size (config rl) + tokens_per_sec (config rl) * (t1 - t0)).
Proof.
  intros calls Hc Hspan Hevs Hnone. rewrite interleave_serve. fold calls.
  destruct (serve_potential (config rl) k t0 t1 calls rl 0 t0 0 eq_refl Hc Hspan ltac:(lia) Hevs) as [last H].
  { by rewrite Hnone. }
  pose proof (allowance_nonneg (config rl) t0 t1 Hc ltac:(unfold span_ok in Hspan; lia)) as Hn.
  assert (forall last, 0 <= overtaken last calls) as Hover.
  { clear. intros last. revert last. induction calls as [|[[[k c] now] ok] l IH]; intros last; cbn [overtaken]; [done|].
    specialize (IH (Z.max last now)). destruct (now <? last); lia. }
  specialize (Hover t0). change (1000 * _ + _) with (allowance (config rl) t0 t1).
  rewrite !Z.add_0_l in H. destruct (entry_of (serve rl calls).2 k) as [e|]; unfold potential_opt in H.
  - destruct H as [(Htok & Hlf & Hpot) _]. pose proof (allowance_mono (config rl) t0 (last_fill e) t1 Hc ltac:(lia)). nia.
  - nia.
Qed.

(** The clock is read before the mutex is taken (as the first thing of a call), so a call may
    find a bucket that was filled after its reading.  The time elapsed is then negative, and its unsigned value pays in more
    than any bucket holds: the bucket is full again. *)
Theorem overtaken_call_refills cfg e now :
  1 <= tokens_per_sec cfg -> 0 <= bucket_size cfg < 2 ^ 53 -> 0 <= tokens e <= bucket_size cfg ->
  0 <= now < last_fill e -> (last_fill e - now) * tokens_per_sec cfg <= 2 ^ 63 ->
  tokens (refill cfg e now) = bucket_size cfg.
Proof.
  intros Ht Hb Htok Hnow Hd. unfold refill.
  assert (u64 (u64 (now - last_fill e) * tokens_per_sec cfg) = 2 ^ 64 - (last_fill e - now) * tokens_per_sec cfg) as ->.
  { unfold u64. rewrite Z.mul_mod_idemp_l by lia. symmetry. apply (Z.mod_unique_pos _ _ (-1)); nia. }
  set (add := (2 ^ 64 - _) / 1000).
  assert (2 ^ 53 <= add < 2 ^ 62) as Ha.
  { unfold add. split; [apply Z.div_le_lower_bound; lia|apply Z.div_lt_upper_bound; nia]. }
  clearbody add. destruct (Z.gtb_spec add 0); [|lia]. rewrite (u64_small (tokens e + add)) by lia.
  destruct (Z.gtb_spec (tokens e + add) (bucket_size cfg)); [|lia]. by destruct (u64 (now - window_start e) >? window_ms cfg).
Qed.

Definition demo_events : list event :=
  [(demo_key, 3, 100, true); (demo_key, 3, 150, true); (lit "10.0.0.2", 5, 160, true);
   (demo_key, 3, 300, true); (demo_key, 3, 320, true)].

Lemma ratelimiter_refines_map_witness :
  (serve demo_limiter demo_events).1 = (spec_serve demo_config ∅ demo_events).1
  /\ represents (serve demo_limiter demo_events).2 (spec_serve demo_config ∅ demo_events).2.
Proof.
  apply (ratelimiter_refines_map demo_limiter ∅ demo_events); [done|].
  repeat constructor; vm_compute; lia.
Defined.

(** Two calls of a thread, and one of another that reads the clock before the first and
    takes the mutex between them: the second call of the first thread finds a full bucket. *)
Definition demo_steps : list step :=
  [Reads_clock 2 demo_key 0 100; Reads_clock 1 demo_key 5 110; Takes_mutex 1 true; Takes_mutex 2 true;
   Reads_clock 1 demo_key 5 120; Takes_mutex 1 true; Reads_clock 1 demo_key 5 130; Takes_mutex 1 true].

Lemma ratelimiter_rate_bound_witness :
  (interleave demo_steps ∅ demo_limiter).1 = [true; true; true; false]
  /\ 1000 * admitted demo_key (mutex_order demo_steps ∅) (interleave demo_steps ∅ demo_limiter).1
       <= (1 + overtaken 100 (mutex_order demo_steps ∅)) * (1000 * 5 + 10 * (130 - 100)).
Proof.
  split; [vm_compute; reflexivity|].
  apply (ratelimiter_rate_bound demo_limiter demo_key 100 130 demo_steps).
  - unfold config_ok; simpl; lia.
  - unfold span_ok; simpl; lia.
  - vm_compute mutex_order. repeat constructor; simpl; lia.
  - reflexivity.
Defined.

Lemma overtaken_call_refills_witness : tokens (refill demo_config (mkEntry demo_key 0 110 110 1 true) 100) = 5.
Proof. apply (overtaken_call_refills demo_config (mkEntry demo_key 0 110 110 1 true) 100); simpl; lia. Defined.

(** No entry of the table has a key longer than its buffer. *)
Definition keys_fit (rl : RateLimiter) : Prop :=
  forall i l, buckets rl !! i = Some l -> Forall (fun e => (length (key e) <= KEY_MAX)%nat) l.

Lemma allow_keys_fit rl k cost now ok v rl' :
  keys_fit rl -> allow_locked rl k cost now ok = (v, rl') -> keys_fit rl'.
Proof.
  intros Hfit Ha.
  assert (Forall (fun e => (length (key e) <= KEY_MAX)%nat) (chain rl k)) as Hchain.
  { unfold chain. destruct (buckets rl !! _) as [l|] eqn:Hl; [by eapply Hfit|constructor]. }
  assert (forall l, Forall (fun e => (length (key e) <= KEY_MAX)%nat) l ->
            keys_fit (set_chain rl k l)) as Hset.
  { intros l Hl i l' Hi. simpl in Hi. apply lookup_insert_Some in Hi as [[_ <-]|[_ Hi]];
      [done|by eapply Hfit]. }
  unfold allow_locked in Ha.
  destruct (find_index _ _) as [i|]; [destruct (chain rl k !! i) as [e|] eqn:He|];
    repeat csplit_in Ha; simplify_eq; try done.
  - apply Hset, Forall_insert; [done|].
    pose proof (spend_key (config rl) e cost now) as Hk.
    rewrite Heqp in Hk. destruct Hk as [Hk _]. simpl in Hk. rewrite Hk.
    exact (Forall_lookup_1 _ _ _ _ Hchain He).
  - apply Hset. constructor; [|done]. change (length (take KEY_MAX k) <= KEY_MAX)%nat.
    rewrite length_take. lia.
Qed.

(** A key of 128 bytes or more is stored truncated and never found again, so
    its client is never limited: every one of its calls, however many and
    however close, is allowed (the cost fitting one full bucket). *)
Theorem long_keys_never_limited rl k cost now n :
  keys_fit rl -> (KEY_MAX < length k)%nat -> cost <= bucket_size (config rl) ->
  (serve rl (replicate n (k, cost, now, true))).1 = replicate n true.
Proof.
  intros Hfit Hlen Hcost. revert rl Hfit Hcost. induction n as [|n IH]; intros rl Hfit Hcost; [done|].
  cbn [replicate serve].
  destruct (allow_locked rl k cost now true) as [v o] eqn:Ha.
  pose proof Ha as Ha'. unfold allow_locked in Ha.
  destruct (find_index (entry_matches k) (chain rl k)) as [i|] eqn:Hf.
  { apply find_index_Some in Hf as (e & He & Hm & _). apply entry_matches_key in Hm as [Hk _].
    unfold chain in He. destruct (buckets rl !! _) as [l|] eqn:Hl; [|done].
    apply Hfit in Hl. eapply Forall_lookup_1 in Hl; [|exact He]. simpl in Hl. rewrite Hk in Hl. lia. }
  destruct (Z.gtb_spec cost (bucket_size (config rl))); [lia|]. simpl in Ha. simplify_eq.
  apply allow_keys_fit in Ha'; [|done]. simpl.
  specialize (IH (set_chain rl k (new_entry (config rl) k cost now :: chain rl k)) Ha' Hcost).
  destruct (serve _ _) as [vs rl'']. simpl in *. by rewrite IH.
Qed.

Lemma long_keys_never_limited_witness :
  (serve demo_limiter (replicate 7 (replicate 128 97, 5, 0, true))).1 = replicate 7 true.
Proof.
  apply (long_keys_never_limited demo_limiter (replicate 128 97) 5 0 7).
  - intros i l Hl. inversion Hl.
  - vm_compute. lia.
  - simpl. lia.
Defined.
