(* ===== verification/Double.v ===== *)
(** * Binary floating point

    The [double] and [float] arithmetic the source uses, computed exactly with
    the Standard Library's specification of IEEE 754 ([SpecFloat]): 53 and 24
    bits of precision, rounding to nearest, ties to even.  No axiom is
    involved, so every definition on top of it evaluates. *)

From S2P Require Import Prelude.
From Stdlib Require Export SpecFloat.

Definition double : Set := spec_float.

(** An integer converted to [double]. *)
Definition d_of_Z (z : Z) : double := binary_normalize 53 1024 z 0 false.

(** The double [m * 2 ^ e] (rounded when [m] has more than 53 bits). *)
Definition d_lit (m e : Z) : double := binary_normalize 53 1024 m e false.

Definition dadd : double -> double -> double := SFadd 53 1024.
Definition dsub : double -> double -> double := SFsub 53 1024.
Definition dmul : double -> double -> double := SFmul 53 1024.
Definition ddiv : double -> double -> double := SFdiv 53 1024.

Definition dltb (a b : double) : bool :=
  match SFcompare a b with Some Lt => true | _ => false end.
Definition dgtb (a b : double) : bool := dltb b a.
Definition deqb (a b : double) : bool :=
  match SFcompare a b with Some Eq => true | _ => false end.
Definition dleb (a b : double) : bool := dltb a b || deqb a b.
Definition dgeb (a b : double) : bool := dleb b a.

(** [(int)x]: truncation toward zero; [None] when [x] is not finite or the
    result does not fit an [int] (undefined behaviour). *)
Definition d_to_int (d : double) : option Z :=
  match d with
  | S754_zero _ => Some 0
  | S754_finite s m e =>
      let v := if 0 <=? e then Z.pos m * 2 ^ e else Z.pos m / 2 ^ (- e) in
      let z := if s then - v else v in
      if (- 2 ^ 31 <=? z) && (z <=? INT_MAX) then Some z else None
  | _ => None
  end.

(** A decimal literal [n / 10 ^ k] with [n] and [10 ^ k] below [2 ^ 53]: both
    convert exactly, so the quotient is the literal correctly rounded. *)
Definition d_dec (n : Z) (k : Z) : double := ddiv (d_of_Z n) (d_of_Z (10 ^ k)).

(** [float] (24 bits), for the one literal the source writes with [f]. *)
Definition f_of_Z (z : Z) : double := binary_normalize 24 128 z 0 false.
Definition f_dec (n : Z) (k : Z) : double := SFdiv 24 128 (f_of_Z n) (f_of_Z (10 ^ k)).
Definition fmul : double -> double -> double := SFmul 24 128.

(** A [double] converted to [float]. *)
Definition f_of_d (d : double) : double :=
  match d with
  | S754_finite s m e => binary_normalize 24 128 (if s then Z.neg m else Z.pos m) e s
  | _ => d
  end.

(** [printf("%.2f")] of a finite number: hundredths, rounded to nearest, ties to
    even, then the decimal point. *)
Definition hundredths (d : double) : Z :=
  match d with
  | S754_finite s m e =>
      let n := Z.pos m * 100 in
      let v :=
        if 0 <=? e then n * 2 ^ e
        else
          let q := n / 2 ^ (- e) in
          let twice := 2 * (n mod 2 ^ (- e)) in
          if (twice >? 2 ^ (- e)) || ((twice =? 2 ^ (- e)) && Z.odd q) then q + 1 else q in
      if s then - v else v
  | _ => 0
  end.

Definition fixed2 (d : double) : list Z :=
  let h := Z.abs (hundredths d) in
  (match d with S754_finite true _ _ | S754_zero true => [45] | _ => [] end)
  ++ dec (h / 100) ++ [c_DOT; 48 + h mod 100 / 10; 48 + h mod 10].

(** The literals of the source. *)
Definition d_0_5 : double := d_lit 1 (-1).
Definition d_0_7 : double := d_lit 6305039478318694 (-53).
Definition d_0_8 : double := d_lit 7205759403792794 (-53).
Definition d_0_9 : double := d_lit 8106479329266893 (-53).
Definition d_0_95 : double := d_lit 8556839292003942 (-53).
Definition d_1_2 : double := d_lit 5404319552844595 (-52).
Definition d_1_5 : double := d_lit 3 (-1).

(** ** Reading: [strtod] and [atof] in the C locale *)

(** The double nearest to [n / d]: far more bits of the quotient than the result
    has, and one more that says whether there is a rest. *)
Definition round_ratio (n d : Z) : double :=
  let k := Z.log2 d + 1200 in
  let rest := if n * 2 ^ k mod d =? 0 then 0 else 1 in
  binary_normalize 53 1024 (2 * (n * 2 ^ k / d) + rest) (- k - 1) false.

Definition digit_value (base c : Z) : option Z :=
  let v := if isdigit c then c - 48
           else if (97 <=? tolower c) && (tolower c <=? 102) then tolower c - 87 else 16 in
  if v <? base then Some v else None.

(** Digits in [base]: their value, how many there are, and what is left. *)
Fixpoint mantissa (base : Z) (s : list Z) (m n : Z) : Z * Z * list Z :=
  match s with
  | [] => (m, n, [])
  | c :: s' =>
      match digit_value base c with
      | Some v => mantissa base s' (base * m + v) (n + 1)
      | None => (m, n, s)
      end
  end.

(** Digits with an optional point among them: their value without the point, the
    number of digits after it, and what is left. *)
Definition number (base : Z) (s : list Z) : option (Z * Z * list Z) :=
  let '(m, a, r) := mantissa base s 0 0 in
  match r with
  | c :: r' =>
      if c =? c_DOT then
        let '(m, b, r'') := mantissa base r' m 0 in
        if a + b =? 0 then None else Some (m, b, r'')
      else if a =? 0 then None else Some (m, 0, r)
  | [] => if a =? 0 then None else Some (m, 0, r)
  end.

Definition sign (s : list Z) : bool * list Z :=
  match s with
  | c :: s' => if c =? 45 then (true, s') else if c =? 43 then (false, s') else (false, s)
  | [] => (false, s)
  end.

(** An exponent, if there is one: [marker] is 'e' or 'p'. *)
Definition exponent (marker : Z) (s : list Z) : Z * list Z :=
  match s with
  | c :: s' =>
      let '(neg, u) := sign s' in
      if (tolower c =? marker) && starts_with_digit u
      then ((if neg then - digits 0 u else digits 0 u), skip_digits u) else (0, s)
  | [] => (0, s)
  end.

(** [w] at the start of [s], in any mix of case. *)
Definition word_at (w : string) (s : list Z) : bool := prefixb (lit w) (map tolower (take (String.length w) s)).

(** "nan" may be followed by letters and digits in parentheses. *)
Definition nan_tail (s : list Z) : list Z :=
  match s with
  | 40 :: s' =>
      match find_index (fun c => negb (isalnum c || (c =? 95))) s' with
      | Some k => match drop k s' with 41 :: r => r | _ => s end
      | None => s
      end
  | _ => s
  end.

(** The value and what is left; [None] if there is no number. *)
Definition strtod (s : list Z) : option (double * list Z) :=
  let '(neg, u) := sign (skip_spaces s) in
  let signed (d : double) : double := if neg then SFopp d else d in
  let decimal :=
    match number 10 u with
    | None => None
    | Some (m, k, r) =>
        let '(e, r) := exponent 101 r in
        Some (signed (if 0 <=? e - k then round_ratio (m * 10 ^ (e - k)) 1 else round_ratio m (10 ^ (k - e))), r)
    end in
  if word_at "infinity" u then Some (signed (S754_infinity false), drop 8 u)
  else if word_at "inf" u then Some (signed (S754_infinity false), drop 3 u)
  else if word_at "nan" u then Some (S754_nan, nan_tail (drop 3 u))
  else if word_at "0x" u then
    match number 16 (drop 2 u) with
    | Some (m, k, r) =>
        let '(e, r) := exponent 112 r in
        Some (signed (binary_normalize 53 1024 m (e - 4 * k) false), r)
    | None => decimal
    end
  else decimal.

Definition atof (s : list Z) : double :=
  match strtod s with Some (d, _) => d | None => S754_zero false end.

Example atof_decimal : atof (lit "0.7|2") = d_0_7 /\ atof (lit " 95e-2") = d_0_95 /\ atof (lit "1.2") = d_1_2
  /\ atof (lit "+.5") = d_0_5 /\ atof (lit "0x1.8p0") = d_1_5 /\ atof (lit "x") = S754_zero false
  /\ strtod (lit "3.e,") = Some (d_of_Z 3, lit "e,") /\ strtod (lit "-0x,") = Some (S754_zero true, lit "x,").
Proof. by vm_compute. Qed.

(** ** The order on doubles *)

Definition not_nan (d : double) : Prop := d <> S754_nan.

Lemma dltb_irrefl a : dltb a a = false.
Proof.
  unfold dltb, SFcompare. destruct a as [[]|[]| |s m e]; try done.
  rewrite Z.compare_refl. change (Pos.compare_cont Eq m m) with (Pos.compare m m).
  rewrite Pos.compare_refl. by destruct s.
Qed.

(** Where a number stands in the order: sign class, exponent, mantissa. *)
Definition dkey (d : double) : Z * Z * Z :=
  match d with
  | S754_infinity true | S754_nan => (-2, 0, 0)
  | S754_finite true m e => (-1, - e, - Z.pos m)
  | S754_zero _ => (0, 0, 0)
  | S754_finite false m e => (1, e, Z.pos m)
  | S754_infinity false => (2, 0, 0)
  end.

Definition key_lt (a b : Z * Z * Z) : Prop :=
  let '(a1, a2, a3) := a in let '(b1, b2, b3) := b in
  a1 < b1 \/ (a1 = b1 /\ (a2 < b2 \/ (a2 = b2 /\ a3 < b3))).

Lemma dltb_key a b : not_nan a -> not_nan b -> dltb a b = true <-> key_lt (dkey a) (dkey b).
Proof.
  unfold dltb, SFcompare, not_nan.
  destruct a as [sa|[]| |sa m e], b as [sb|[]| |sb n f]; intros Ha Hb; try done;
    try destruct sa; try destruct sb; simpl; try (split; [done|lia]); try (split; [lia|done]).
  - destruct (Z.compare_spec e f); simpl;
      [change (Pos.compare_cont Eq m n) with (Pos.compare m n); destruct (Pos.compare_spec m n)| |];
      simpl; split; try done; lia.
  - destruct (Z.compare_spec e f); simpl;
      [change (Pos.compare_cont Eq m n) with (Pos.compare m n); destruct (Pos.compare_spec m n)| |];
      simpl; split; try done; lia.
Qed.

(** Not-greater is transitive and total on numbers. *)
Lemma dgtb_trans a b c :
  not_nan a -> not_nan b -> not_nan c -> dgtb a b = false -> dgtb b c = false -> dgtb a c = false.
Proof.
  unfold dgtb. intros Ha Hb Hc. rewrite <- !not_true_iff_false, !dltb_key by done.
  destruct (dkey a) as [[? ?] ?], (dkey b) as [[? ?] ?], (dkey c) as [[? ?] ?]. simpl. lia.
Qed.

Lemma dgtb_asym a b : not_nan a -> not_nan b -> dgtb a b = true -> dgtb b a = false.
Proof.
  unfold dgtb. intros Ha Hb. rewrite <- not_true_iff_false, !dltb_key by done.
  destruct (dkey a) as [[? ?] ?], (dkey b) as [[? ?] ?]. simpl. lia.
Qed.
