(* ===== verification/Cache.v ===== *)
(** * The response cache: [src/cache.c]

    An open-addressing hash table with linear probing.  A slot's [key] and
    [value] are pointers that may be NULL, live, or dangling (freed and not
    reset).  [crc32_asm] (src/asm/crc32.s) is a parameter: the theorems hold for
    every hash function.  The build with [HIREDIS_FOUND]
    is in [Redis]. *)

From S2P Require Import Prelude Double.

(** ** Data *)

Record CacheEntry := mkCacheEntry {
  key : ptr (list Z);
  value : ptr (list Z);
  value_size : Z;
  timestamp : Z;
  ttl : Z;
  access_count : Z
}.

Record Cache := mkCache {
  entries : list CacheEntry;
  entry_count : Z;
  entry_capacity : Z;
  capacity : Z;
  default_ttl : Z;
  hits : Z;
  misses : Z
}.

Inductive CacheBackend := CACHE_BACKEND_MEMORY | CACHE_BACKEND_REDIS.

Definition empty_entry : CacheEntry := mkCacheEntry PNull PNull 0 0 0 0.

(** The outcome of a call that returns an [int]. *)
Definition answer : Type := Z * Cache.

Definition set_entries (c : Cache) (es : list CacheEntry) (n : Z) : Cache :=
  mkCache es n (entry_capacity c) (capacity c) (default_ttl c) (hits c) (misses c).
Definition count_hit (c : Cache) : Cache :=
  mkCache (entries c) (entry_count c) (entry_capacity c) (capacity c) (default_ttl c)
    (hits c + 1) (misses c).
Definition count_miss (c : Cache) : Cache :=
  mkCache (entries c) (entry_count c) (entry_capacity c) (capacity c) (default_ttl c)
    (hits c) (misses c + 1).

(** ** Prompt normalisation and similarity *)

Definition is_blank (c : Z) : bool :=
  (c =? c_SP) || (c =? c_LF) || (c =? c_TAB) || (c =? c_CR).

(** The loop of [normalize_prompt]; [room] is what is left of [out_size - 1]. *)
Fixpoint norm_loop (s : list Z) (room : nat) (last_space : bool) : list Z :=
  match s, room with
  | [], _ | _, O => []
  | c0 :: s', S room' =>
      let c := tolower c0 in
      if is_blank c then
        if last_space then norm_loop s' room true else c_SP :: norm_loop s' room' true
      else if ispunct c then norm_loop s' room last_space
      else c :: norm_loop s' room' false
  end.

(** [if (j > 0 && out[j-1] == ' ') j--;] *)
Definition drop_last_space (s : list Z) : list Z :=
  match last s with
  | Some c => if c =? c_SP then removelast s else s
  | None => s
  end.

Definition normalize_prompt (s : list Z) (out_size : Z) : list Z :=
  drop_last_space (norm_loop s (Z.to_nat (out_size - 1)) false).

(** The trigrams of [a] that occur in [b], counted once per position of [a]. *)
Definition gram_at (s : list Z) (i : nat) : list Z := take 3 (drop i s).

Definition gram_count (s : list Z) : nat :=
  if (3 <? strlen s) then (length s - 3 + 1)%nat else 1%nat.

Definition gram_in (g : list Z) (b : list Z) : bool :=
  existsb (fun j => (Z.of_nat j + 3 <=? strlen b) && streq g (gram_at b j)) (seq 0 (gram_count b)).

Definition overlap (a b : list Z) : Z :=
  zlen (filter (fun i => Is_true ((Z.of_nat i + 3 <=? strlen a) && gram_in (gram_at a i) b))
          (seq 0 (gram_count a))).

Definition compute_similarity (a b : list Z) : double :=
  if (strlen a =? 0) || (strlen b =? 0) then d_of_Z 0
  else
    let norm_a := normalize_prompt a 1024 in
    let norm_b := normalize_prompt b 1024 in
    if streq norm_a norm_b then d_of_Z 1
    else
      let total := Z.of_nat (gram_count norm_a) + Z.of_nat (gram_count norm_b) in
      let ov := overlap norm_a norm_b in
      if total =? 0 then d_of_Z 0
      else ddiv (d_of_Z ov) (d_of_Z (if total - ov >? 0 then total - ov else total)).

(** ** The table *)

Section Table.
Variable crc32_asm : list Z -> Z.

Definition cache_hash (k : list Z) : Z := u32 (crc32_asm k).

(** The probe of [find_entry] from offset [i], [n] slots at most. *)
Fixpoint probe (es : list CacheEntry) (cap index : Z) (k : list Z) (n : nat) (i : Z)
  : res (option Z) :=
  match n with
  | O => Ok None
  | S n' =>
      let ci := (index + i) mod cap in
      match znth es ci with
      | None => Fault OutOfBounds
      | Some e =>
          match key e with
          | PNull => Ok None
          | PFreed => Fault UseAfterFree
          | PLive k' => if streq k' k then Ok (Some ci) else probe es cap index k n' (i + 1)
          end
      end
  end.

Definition find_entry (k : list Z) (c : Cache) : res (option Z) :=
  if entry_count c =? 0 then Ok None
  else if entry_capacity c =? 0 then Fault DivideByZero
  else
    probe (entries c) (entry_capacity c) (cache_hash k mod entry_capacity c) k
      (Z.to_nat (entry_capacity c)) 0.

(** The first slot with a NULL key, which is what [add_entry] looks for. *)
Fixpoint find_free (es : list CacheEntry) (cap index : Z) (n : nat) (i : Z) : res (option Z) :=
  match n with
  | O => Ok None
  | S n' =>
      let ci := (index + i) mod cap in
      match znth es ci with
      | None => Fault OutOfBounds
      | Some e =>
          match key e with
          | PNull => Ok (Some ci)
          | _ => find_free es cap index n' (i + 1)
          end
      end
  end.

(** [None] is the NULL return. *)
Definition add_entry (k v : list Z) (v_size v_ttl now : Z) (strdup_ok malloc_ok : bool) (c : Cache)
  : res (option Z * Cache) :=
  if entry_capacity c =? 0 then Fault DivideByZero
  else
    slot ← find_free (entries c) (entry_capacity c) (cache_hash k mod entry_capacity c)
             (Z.to_nat (entry_capacity c)) 0;
    match slot with
    | None => Ok (None, c)
    | Some ci =>
        if negb strdup_ok then Ok (None, c)
        else if negb malloc_ok then
          match znth (entries c) ci with
          | None => Fault OutOfBounds
          | Some e =>
              Ok (None, set_entries c
                   (zset (entries c) ci
                      (mkCacheEntry PFreed PNull (value_size e) (timestamp e) (ttl e)
                         (access_count e))) (entry_count c))
          end
        else if zlen v <? v_size then Fault OutOfBounds
        else
          Ok (Some ci,
              set_entries c
                (zset (entries c) ci
                   (mkCacheEntry (PLive k) (PLive (take (Z.to_nat v_size) v)) v_size now
                      (if v_ttl >? 0 then v_ttl else default_ttl c) 0))
                (entry_count c + 1))
    end.

Definition cache_init (size ttl0 : Z) (calloc_ok mutex_ok : bool) : option Cache :=
  if negb calloc_ok then None
  else if negb mutex_ok then None
  else Some (mkCache (replicate (Z.to_nat size) empty_entry) 0 size size ttl0 0 0).

Definition cache_init_redis : Z * CacheBackend := (-1, CACHE_BACKEND_MEMORY).

Definition cache_set (k v : option (list Z)) (v_size v_ttl now : Z) (strdup_ok malloc_ok : bool)
    (c : Cache) : res answer :=
  match k, v with
  | Some k, Some v =>
      if v_size =? 0 then Ok (-1, c)
      else
        existing ← find_entry k c;
        let c1 :=
          match existing with
          | None => c
          | Some i =>
              match znth (entries c) i with
              | None => c
              | Some e =>
                  set_entries c
                    (zset (entries c) i
                       (mkCacheEntry PFreed PFreed (value_size e) (timestamp e) (ttl e)
                          (access_count e))) (entry_count c - 1)
              end
          end in
        '(slot, c2) ← add_entry k v v_size v_ttl now strdup_ok malloc_ok c1;
        Ok (match slot with Some _ => 0 | None => -1 end, c2)
  | _, _ => Ok (-1, c)
  end.

(** The bytes the copy writes to the caller's buffer. *)
Definition copy_value (e : CacheEntry) (buf_size : Z) : res (list Z) :=
  match value e with
  | PNull => Fault NullDeref
  | PFreed => Fault UseAfterFree
  | PLive b => Ok (take (Z.to_nat (Z.min (value_size e) buf_size)) b)
  end.

Definition expired (e : CacheEntry) (now : Z) : bool := now - timestamp e >? ttl e.

Definition touch (e : CacheEntry) : CacheEntry :=
  mkCacheEntry (key e) (value e) (value_size e) (timestamp e) (ttl e) (access_count e + 1).

Definition clear_entry (e : CacheEntry) : CacheEntry :=
  mkCacheEntry PNull PNull (value_size e) (timestamp e) (ttl e) (access_count e).

(** Returns the code, what was copied, and the table. *)
Definition cache_get (k : option (list Z)) (have_buf : bool) (buf_size now : Z) (c : Cache)
  : res (Z * option (list Z) * Cache) :=
  match k with
  | None => Ok (-1, None, c)
  | Some k =>
      if negb have_buf || (buf_size =? 0) then Ok (-1, None, c)
      else
        r ← find_entry k c;
        match r with
        | None => Ok (-1, None, count_miss c)
        | Some i =>
            match znth (entries c) i with
            | None => Fault OutOfBounds
            | Some e =>
                if expired e now then
                  Ok (-1, None,
                      count_miss (set_entries c (zset (entries c) i (clear_entry e))
                                    (entry_count c - 1)))
                else
                  out ← copy_value e buf_size;
                  Ok (0, Some out,
                      count_hit (set_entries c (zset (entries c) i (touch e)) (entry_count c)))
            end
        end
  end.

Definition cache_delete (k : option (list Z)) (c : Cache) : res answer :=
  match k with
  | None => Ok (-1, c)
  | Some k =>
      r ← find_entry k c;
      match r with
      | None => Ok (-1, c)
      | Some i =>
          match znth (entries c) i with
          | None => Fault OutOfBounds
          | Some e =>
              Ok (0, set_entries c (zset (entries c) i (clear_entry e)) (entry_count c - 1))
          end
      end
  end.

(** Freeing a dangling pointer a second time is a fault. *)
Fixpoint clear_all (es : list CacheEntry) : res (list CacheEntry) :=
  match es with
  | [] => Ok []
  | e :: es' =>
      match key e with
      | PFreed => Fault UseAfterFree
      | PNull => r ← clear_all es'; Ok (e :: r)
      | PLive _ => r ← clear_all es'; Ok (clear_entry e :: r)
      end
  end.

Definition cache_clear (c : Cache) : res answer :=
  es ← clear_all (entries c);
  Ok (0, set_entries c es 0).

Definition cache_get_stats (c : Cache) : Z * Z * Z := (entry_count c, hits c, misses c).

Definition cache_cleanup (c : Cache) : res unit :=
  _ ← clear_all (entries c); Ok tt.

(** ** The semantic layer *)

Definition semantic_key (prompt model : list Z) : list Z :=
  take 1151 (lit "sem:" ++ model ++ [c_COLON] ++ normalize_prompt prompt 1024).

Definition cache_semantic_set (prompt model v : option (list Z)) (v_size v_ttl now : Z)
    (strdup_ok malloc_ok : bool) (c : Cache) : res answer :=
  match prompt, model, v with
  | Some prompt, Some model, Some v =>
      if v_size =? 0 then Ok (-1, c)
      else cache_set (Some (semantic_key prompt model)) (Some v) v_size v_ttl now strdup_ok malloc_ok c
  | _, _, _ => Ok (-1, c)
  end.

(** The stored prompt of a semantic key: what follows the colon after the
    model. *)
Definition cached_prompt (k : list Z) : option (list Z) :=
  if prefixb (lit "sem:") k then
    let stored := drop 4 k in
    (fun colon => drop (S colon) stored) <$> strchr stored c_COLON
  else None.

(** The scan for the best match, slot by slot; [best] is its slot and score. *)
Fixpoint best_match (norm : list Z) (es : list CacheEntry) (i : Z) (best : option Z) (best_sim : double)
  : res (option Z * double) :=
  match es with
  | [] => Ok (best, best_sim)
  | e :: es' =>
      match key e with
      | PNull => best_match norm es' (i + 1) best best_sim
      | PFreed => Fault UseAfterFree
      | PLive k =>
          match cached_prompt k with
          | None => best_match norm es' (i + 1) best best_sim
          | Some p =>
              let sim := compute_similarity norm p in
              if dgtb sim best_sim then best_match norm es' (i + 1) (Some i) sim
              else best_match norm es' (i + 1) best best_sim
          end
      end
  end.

Definition cache_semantic_get (prompt model : option (list Z)) (have_buf : bool) (buf_size : Z)
    (min_similarity : double) (now : Z) (c : Cache) : res (Z * option (list Z) * Cache) :=
  match prompt, model with
  | Some prompt, Some model =>
      if negb have_buf || (buf_size =? 0) then Ok (-1, None, c)
      else
        '(best, best_sim) ← best_match (normalize_prompt prompt 1024) (entries c) 0 None (d_of_Z 0);
        match best with
        | None => Ok (-1, None, c)
        | Some i =>
            if dltb best_sim min_similarity then Ok (-1, None, c)
            else
              match znth (entries c) i with
              | None => Fault OutOfBounds
              | Some e =>
                  if expired e now then
                    Ok (-1, None, set_entries c (zset (entries c) i (clear_entry e))
                                    (entry_count c - 1))
                  else
                    out ← copy_value e buf_size;
                    Ok (0, Some out,
                        count_hit (set_entries c (zset (entries c) i (touch e)) (entry_count c)))
              end
        end
  | _, _ => Ok (-1, None, c)
  end.
End Table.

(** ** Well-formed tables *)

Definition is_live (e : CacheEntry) : bool :=
  match key e with PLive _ => true | _ => false end.

(** A slot is empty, or holds a live key and a live value of the recorded
    size. *)
Definition slot_ok (e : CacheEntry) : Prop :=
  match key e with
  | PNull => True
  | PFreed => False
  | PLive _ => exists v, value e = PLive v /\ zlen v = value_size e /\ 0 < value_size e
  end.

Definition cache_wf (c : Cache) : Prop :=
  0 < entry_capacity c /\ zlen (entries c) = entry_capacity c
  /\ Forall slot_ok (entries c) /\ entry_count c = countb is_live (entries c).

(** The offsets from [i] to [d] hold live keys other than [k]. *)
Definition passes (k : list Z) (es : list CacheEntry) (cap index i d : Z) : Prop :=
  forall j, i <= j < d -> exists e k',
    znth es ((index + j) mod cap) = Some e /\ key e = PLive k' /\ k' <> k.

(** ** Lemmas: probing *)

Lemma probe_skip es cap index k n i d :
  i <= d <= i + Z.of_nat n -> passes k es cap index i d ->
  probe es cap index k n i = probe es cap index k (n - Z.to_nat (d - i)) d.
Proof.
  revert i. induction n as [|n IH]; intros i Hd Hp; simpl.
  { by replace d with i by lia. }
  destruct (decide (d = i)) as [->|Hne].
  { by rewrite Z.sub_diag. }
  destruct (Hp i ltac:(lia)) as (e & k' & -> & -> & Hk).
  rewrite (proj2 (streq_false _ _) Hk), IH by (try lia; intros j Hj; apply Hp; lia).
  destruct (Z.to_nat (d - i)) as [|m] eqn:Hm; [lia|].
  f_equal. lia.
Qed.

Lemma find_free_skip es cap index n i d :
  i <= d <= i + Z.of_nat n ->
  (forall j, i <= j < d -> exists e, znth es ((index + j) mod cap) = Some e /\ key e <> PNull) ->
  find_free es cap index n i = find_free es cap index (n - Z.to_nat (d - i)) d.
Proof.
  revert i. induction n as [|n IH]; intros i Hd Hp; simpl.
  { by replace d with i by lia. }
  destruct (decide (d = i)) as [->|Hne].
  { by rewrite Z.sub_diag. }
  destruct (Hp i ltac:(lia)) as (e & -> & Hk).
  destruct (key e) eqn:He; [done| |];
    rewrite IH by (try lia; intros j Hj; apply Hp; lia);
    destruct (Z.to_nat (d - i)) as [|m] eqn:Hm; try lia; f_equal; lia.
Qed.

Lemma find_free_null es cap index n i ci :
  find_free es cap index n i = Ok (Some ci) -> exists e, znth es ci = Some e /\ key e = PNull.
Proof.
  revert i. induction n as [|n IH]; intros i; [done|]. cbn [find_free].
  destruct (znth es ((index + i) mod cap)) as [e|] eqn:He; [|done].
  destruct (key e) eqn:Hk; [|apply IH..]. intros [= <-]. eauto.
Qed.

Lemma passes_not_null k es cap index i d :
  passes k es cap index i d ->
  forall j, i <= j < d -> exists e, znth es ((index + j) mod cap) = Some e /\ key e <> PNull.
Proof. intros Hp j Hj. destruct (Hp j Hj) as (e & k' & He & Hk & _). exists e. by rewrite Hk. Qed.

(** Writing to an empty slot does not disturb a path of live keys. *)
Lemma passes_zset k es cap index i d ci e x :
  znth es ci = Some e -> key e = PNull -> passes k es cap index i d ->
  passes k (zset es ci x) cap index i d.
Proof.
  intros He Hn Hp j Hj. destruct (Hp j Hj) as (e' & k' & He' & Hk' & Hne).
  exists e', k'. rewrite znth_zset_ne; [done|]. intros Heq. rewrite Heq in He. congruence.
Qed.

(** Where a probe of a table without dangling slots ends: after the last slot,
    at an empty slot, or at the key. *)
Lemma probe_cases es cap index k n i :
  0 < cap -> zlen es = cap -> Forall slot_ok es ->
  exists d, i <= d <= i + Z.of_nat n /\ passes k es cap index i d /\
    ((d = i + Z.of_nat n /\ probe es cap index k n i = Ok None) \/
     d < i + Z.of_nat n /\ exists e, znth es ((index + d) mod cap) = Some e /\
       ((key e = PNull /\ probe es cap index k n i = Ok None) \/
        (key e = PLive k /\ probe es cap index k n i = Ok (Some ((index + d) mod cap))))).
Proof.
  intros Hcap Hlen Hok. revert i. induction n as [|n IH]; intros i; simpl.
  { exists i. split_and!; [lia|lia|intros j Hj; lia|left; split; [lia|done]]. }
  pose proof (Z.mod_pos_bound (index + i) cap Hcap) as Hr.
  destruct (znth_Some es ((index + i) mod cap)) as [e He]; [lia|]. rewrite He.
  assert (slot_ok e) as Hs by exact (Forall_znth _ _ _ _ Hok He).
  unfold slot_ok in Hs. destruct (key e) as [|k'|] eqn:Hk; [| |done].
  - exists i. split_and!; [lia|lia|intros j Hj; lia|right]. split; [lia|]. exists e. eauto.
  - destruct (streq k' k) eqn:Hkk.
    + apply streq_true in Hkk as ->. exists i.
      split_and!; [lia|lia|intros j Hj; lia|right]. split; [lia|]. exists e. eauto.
    + apply streq_false in Hkk. destruct (IH (i + 1)) as (d & Hd & Hp & Hend).
      exists d. split_and!; [lia|lia| |].
      * intros j Hj. destruct (decide (j = i)) as [->|]; [|apply Hp; lia]. eauto.
      * destruct Hend as [[-> Hend]|[Hlt Hend]]; [left; split; [lia|done]|right].
        split; [lia|done].
Qed.

Section Properties.
Variable crc32_asm : list Z -> Z.
Abbreviation index k c := (cache_hash crc32_asm k mod entry_capacity c).
Abbreviation find_entry := (find_entry crc32_asm).
Abbreviation cache_set := (cache_set crc32_asm).
Abbreviation cache_get := (cache_get crc32_asm).
Abbreviation cache_delete := (cache_delete crc32_asm).
Abbreviation cache_semantic_set := (cache_semantic_set crc32_asm).

(** In a well-formed table the test for an empty table changes nothing. *)
Lemma find_entry_probe k c :
  cache_wf c ->
  find_entry k c = probe (entries c) (entry_capacity c) (index k c) k (Z.to_nat (entry_capacity c)) 0.
Proof.
  intros (Hcap & Hlen & Hok & Hcount). unfold Cache.find_entry.
  destruct (Z.eqb_spec (entry_count c) 0) as [Hz|Hz].
  - destruct (Z.to_nat (entry_capacity c)) as [|n] eqn:Hn; [lia|]. simpl.
    pose proof (Z.mod_pos_bound (index k c + 0) _ Hcap) as Hr.
    destruct (znth_Some (entries c) ((index k c + 0) mod entry_capacity c)) as [e He]; [lia|].
    rewrite He. assert (is_live e = false) as Hl by (eapply countb_zero; [|exact He]; lia).
    pose proof (Forall_znth _ _ _ _ Hok He) as Hs. unfold is_live, slot_ok in *.
    by destruct (key e).
  - destruct (Z.eqb_spec (entry_capacity c) 0); [lia|done].
Qed.

(** A path of live keys as long as the table means that the table is full. *)
Lemma passes_full k es cap idx :
  0 < cap -> zlen es = cap -> passes k es cap idx 0 cap -> countb is_live es = zlen es.
Proof.
  intros Hcap Hlen Hp. apply countb_all. apply Forall_lookup. intros s e Hs.
  destruct (Hp ((Z.of_nat s - idx) mod cap)) as (e' & k' & He & Hk & _).
  { apply Z.mod_pos_bound. lia. }
  rewrite Z.add_mod_idemp_r in He by lia.
  replace (idx + (Z.of_nat s - idx)) with (Z.of_nat s) in He by lia.
  apply lookup_lt_Some in Hs as Hlt. unfold zlen in Hlen.
  rewrite Z.mod_small in He by lia. unfold znth in He.
  destruct (Z.ltb_spec (Z.of_nat s) 0); [lia|]. rewrite Nat2Z.id, Hs in He. simplify_eq.
  unfold is_live. by rewrite Hk.
Qed.

Definition stored (k v : list Z) (v_size v_ttl now : Z) (c : Cache) : CacheEntry :=
  mkCacheEntry (PLive k) (PLive (take (Z.to_nat v_size) v)) v_size now
    (if v_ttl >? 0 then v_ttl else default_ttl c) 0.

(** Setting a key that is not in a table with room. *)
Lemma cache_set_fresh k v v_size v_ttl now c :
  cache_wf c -> find_entry k c = Ok None -> entry_count c < entry_capacity c ->
  0 < v_size <= zlen v ->
  exists d e0, 0 <= d < entry_capacity c
    /\ znth (entries c) ((index k c + d) mod entry_capacity c) = Some e0 /\ key e0 = PNull
    /\ passes k (entries c) (entry_capacity c) (index k c) 0 d
    /\ cache_set (Some k) (Some v) v_size v_ttl now true true c
       = Ok (0, set_entries c
                  (zset (entries c) ((index k c + d) mod entry_capacity c)
                     (stored k v v_size v_ttl now c)) (entry_count c + 1)).
Proof.
  intros Hwf Hf Hroom Hv. pose proof Hwf as (Hcap & Hlen & Hok & Hcount).
  pose proof Hf as Hp. rewrite find_entry_probe in Hp by done.
  destruct (probe_cases (entries c) (entry_capacity c) (index k c) k
              (Z.to_nat (entry_capacity c)) 0 Hcap Hlen Hok) as (d & Hd & Hpass & Hend).
  rewrite Hp in Hend.
  destruct Hend as [[-> _]|(Hlt & e & He & [[Hk _]|[_ ?]])]; [| |done].
  - rewrite Z.add_0_l, Z2Nat.id in Hpass by lia. apply passes_full in Hpass; lia.
  - exists d, e. split_and!; try done; try lia.
    unfold Cache.cache_set. destruct (Z.eqb_spec v_size 0); [lia|].
    rewrite Hf. cbn [mbind res_bind]. unfold add_entry.
    destruct (Z.eqb_spec (entry_capacity c) 0); [lia|].
    rewrite (find_free_skip _ _ _ _ _ d) by
      (try lia; exact (passes_not_null _ _ _ _ _ _ Hpass)).
    destruct (_ - _)%nat as [|m] eqn:Hm; [lia|]. simpl. rewrite He, Hk. simpl.
    destruct (Z.ltb_spec (zlen v) v_size); [lia|done].
Qed.

Lemma set_fresh_wf k v v_size v_ttl now c p e0 :
  cache_wf c -> znth (entries c) p = Some e0 -> key e0 = PNull -> 0 < v_size <= zlen v ->
  cache_wf (set_entries c (zset (entries c) p (stored k v v_size v_ttl now c)) (entry_count c + 1)).
Proof.
  intros (Hcap & Hlen & Hok & Hcount) He Hk Hv. split_and!; simpl.
  - done.
  - by rewrite zlen_zset.
  - apply Forall_zset; [done|]. unfold slot_ok, stored; simpl. eexists. split; [done|].
    unfold zlen in *. rewrite length_take. lia.
  - rewrite (countb_zset _ _ _ _ _ He). unfold is_live at 2 3. rewrite Hk. simpl. lia.
Qed.

(** A path of live keys that reaches the key finds it. *)
Lemma find_entry_at k c d e :
  cache_wf c -> 0 <= d < entry_capacity c ->
  passes k (entries c) (entry_capacity c) (index k c) 0 d ->
  znth (entries c) ((index k c + d) mod entry_capacity c) = Some e -> key e = PLive k ->
  find_entry k c = Ok (Some ((index k c + d) mod entry_capacity c)).
Proof.
  intros Hwf Hd Hp He Hk. rewrite find_entry_probe, (probe_skip _ _ _ _ _ _ d) by (try done; lia).
  destruct (_ - _)%nat as [|m] eqn:Hm; [lia|]. simpl. by rewrite He, Hk, streq_refl.
Qed.

Lemma find_entry_inv k c p :
  cache_wf c -> find_entry k c = Ok (Some p) ->
  exists d e, 0 <= d < entry_capacity c /\ p = (index k c + d) mod entry_capacity c
    /\ passes k (entries c) (entry_capacity c) (index k c) 0 d
    /\ znth (entries c) p = Some e /\ key e = PLive k /\ slot_ok e.
Proof.
  intros Hwf Hf. rewrite find_entry_probe in Hf by done.
  destruct Hwf as (Hcap & Hlen & Hok & Hcount).
  destruct (probe_cases (entries c) (entry_capacity c) (index k c) k
              (Z.to_nat (entry_capacity c)) 0 Hcap Hlen Hok) as (d & Hd & Hpass & Hend).
  rewrite Hf in Hend.
  destruct Hend as [[_ ?]|(Hlt & e & He & [[_ ?]|[Hk ?]])]; [done|done|]. simplify_eq.
  exists d, e. split_and!; try done; try lia.
  exact (Forall_znth _ _ _ _ Hok He).
Qed.

(** ** Properties *)

(** Storing a new key: what the call does to the table and to later calls. *)
Lemma set_fresh_spec k v v_size v_ttl now c buf_size now' :
  cache_wf c -> find_entry k c = Ok None -> entry_count c < entry_capacity c ->
  0 < v_size <= zlen v -> 0 < buf_size ->
  now' - now <= (if v_ttl >? 0 then v_ttl else default_ttl c) ->
  exists c', cache_set (Some k) (Some v) v_size v_ttl now true true c = Ok (0, c')
    /\ cache_wf c' /\ entry_count c' = entry_count c + 1
    /\ (forall k' i, find_entry k' c = Ok (Some i) ->
          find_entry k' c' = Ok (Some i) /\ znth (entries c') i = znth (entries c) i)
    /\ exists c'', cache_get (Some k) true buf_size now' c'
         = Ok (0, Some (take (Z.to_nat (Z.min v_size buf_size)) v), c'').
Proof.
  intros Hwf Hf Hroom Hv Hbuf Hnow.
  destruct (cache_set_fresh k v v_size v_ttl now c Hwf Hf Hroom Hv)
    as (d & e0 & Hd & He0 & Hnull & Hpass & Hset).
  pose proof (set_fresh_wf k v v_size v_ttl now c _ _ Hwf He0 Hnull Hv) as Hwf'.
  set (p := (index k c + d) mod entry_capacity c) in *.
  set (c1 := set_entries c (zset (entries c) p (stored k v v_size v_ttl now c)) _) in *.
  assert (0 <= p < zlen (entries c)) as Hp by (by eapply znth_range).
  assert (znth (entries c1) p = Some (stored k v v_size v_ttl now c)) as Hp1
    by (by apply znth_zset_eq).
  exists c1. split_and!; try done.
  - intros k' i Hi. destruct (find_entry_inv _ _ _ Hwf Hi) as (d' & e & Hd' & -> & Hp' & He & Hk & _).
    assert (znth (entries c1) ((index k' c + d') mod entry_capacity c)
            = znth (entries c) ((index k' c + d') mod entry_capacity c)) as Hsame.
    { apply znth_zset_ne. intros Heq. rewrite <- Heq in He. congruence. }
    split; [|exact Hsame]. apply (find_entry_at k' c1 d' e); try done.
    + by apply (passes_zset _ _ _ _ _ _ _ e0).
    + by rewrite <- He.
  - assert (find_entry k c1 = Ok (Some p)) as Hfind.
    { apply (find_entry_at k c1 d (stored k v v_size v_ttl now c)); try done.
      by apply (passes_zset _ _ _ _ _ _ _ e0). }
    unfold Cache.cache_get. rewrite (proj2 (Z.eqb_neq buf_size 0)), Hfind by lia.
    cbn [negb orb mbind res_bind]. rewrite Hp1. unfold expired. cbn [stored timestamp Cache.ttl].
    destruct (Z.gtb_spec (now' - now) (if v_ttl >? 0 then v_ttl else default_ttl c)); [lia|].
    cbn [stored copy_value value value_size mbind res_bind]. rewrite take_take.
    eexists. do 3 f_equal. f_equal. f_equal. lia.
Qed.

(** C27: storing a new key in a table with room succeeds, keeps the table well
    formed and does not move or change any entry that could be found before;
    a later [cache_get], before the entry expires, returns the stored bytes,
    cut to the caller's buffer. *)
Theorem cache_get_after_set k v v_size v_ttl now c buf_size now' :
  cache_wf c -> find_entry k c = Ok None -> entry_count c < entry_capacity c ->
  0 < v_size <= zlen v -> 0 < buf_size ->
  now' - now <= (if v_ttl >? 0 then v_ttl else default_ttl c) ->
  exists c', cache_set (Some k) (Some v) v_size v_ttl now true true c = Ok (0, c')
    /\ cache_wf c' /\ entry_count c' = entry_count c + 1
    /\ (forall k' i, find_entry k' c = Ok (Some i) ->
          find_entry k' c' = Ok (Some i) /\ znth (entries c') i = znth (entries c) i)
    /\ exists c'', cache_get (Some k) true buf_size now' c'
         = Ok (0, Some (take (Z.to_nat (Z.min v_size buf_size)) v), c'').
Proof. exact (set_fresh_spec k v v_size v_ttl now c buf_size now'). Qed.

(** Storing under a key that is already present frees the old key and value
    but leaves their pointers in the slot, so the very next lookup of that key
    reads freed memory. *)
Theorem cache_overwrite_dangles k v v_size v_ttl now c i c' buf_size now' :
  cache_wf c -> find_entry k c = Ok (Some i) -> v_size <> 0 -> 0 < buf_size ->
  cache_set (Some k) (Some v) v_size v_ttl now true true c = Ok (0, c') ->
  cache_get (Some k) true buf_size now' c' = Fault UseAfterFree.
Proof.
  intros Hwf Hf Hv Hbuf Hset. pose proof Hwf as (Hcap & Hlen & Hok & Hcount).
  destruct (find_entry_inv _ _ _ Hwf Hf) as (d & e & Hd & -> & Hpass & He & Hk & _).
  assert (1 <= entry_count c) as Hpos.
  { rewrite Hcount. pose proof (countb_bounds is_live (entries c)) as Hb.
    destruct (decide (countb is_live (entries c) = 0)) as [Hz|]; [|lia].
    pose proof (countb_zero _ _ _ _ Hz He) as Hl. unfold is_live in Hl. by rewrite Hk in Hl. }
  unfold Cache.cache_set in Hset. destruct (Z.eqb_spec v_size 0); [lia|].
  rewrite Hf in Hset. cbn [mbind res_bind] in Hset. rewrite He in Hset.
  set (i := (index k c + d) mod entry_capacity c) in *.
  set (dead := mkCacheEntry PFreed PFreed _ _ _ _) in *.
  unfold add_entry in Hset. simpl entry_capacity in Hset.
  destruct (Z.eqb_spec (entry_capacity c) 0); [lia|]. simpl entries in Hset.
  destruct (find_free _ _ _ _ _) as [[ci|]|] eqn:Hfree;
    cbn [mbind res_bind negb] in Hset; [|discriminate|discriminate].
  destruct (zlen v <? v_size); cbn [mbind res_bind] in Hset; [discriminate|]. simplify_eq.
  assert (exists e1, znth (zset (entries c) i dead) ci = Some e1 /\ key e1 = PNull) as (e1 & He1 & Hn1).
  { by eapply find_free_null. }
  assert (0 <= i < zlen (entries c)) as Hi by (by eapply znth_range).
  assert (i <> ci) as Hici.
  { intros <-. rewrite znth_zset_eq in He1 by done. by simplify_eq. }
  rewrite znth_zset_ne in He1 by done.
  unfold Cache.cache_get. destruct (Z.eqb_spec buf_size 0); [lia|]. simpl orb. cbv iota.
  unfold Cache.find_entry. simpl entry_count.
  destruct (Z.eqb_spec (entry_count c - 1 + 1) 0); [lia|]. simpl entry_capacity.
  destruct (Z.eqb_spec (entry_capacity c) 0); [lia|]. simpl entries.
  rewrite (probe_skip _ _ _ _ _ _ d); [| lia |].
  - destruct (_ - _)%nat as [|m] eqn:Hm; [lia|]. simpl. fold i.
    rewrite znth_zset_ne, znth_zset_eq by done. done.
  - intros j Hj. destruct (Hpass j Hj) as (e' & k' & He' & Hk' & Hne). exists e', k'.
    rewrite !znth_zset_ne; [done| |]; intros Heq; rewrite Heq in *; congruence.
Qed.

(** Two keys with the same home slot: removing the one nearer to it empties
    a slot in the middle of the other's probe path, so deleting one of the two
    makes the other, which is still stored, impossible to find. *)
Theorem cache_delete_hides k1 k2 c i1 i2 :
  cache_wf c -> k1 <> k2 -> index k1 c = index k2 c ->
  find_entry k1 c = Ok (Some i1) -> find_entry k2 c = Ok (Some i2) ->
  (exists c', cache_delete (Some k1) c = Ok (0, c') /\ find_entry k2 c' = Ok None) \/
  (exists c', cache_delete (Some k2) c = Ok (0, c') /\ find_entry k1 c' = Ok None).
Proof.
  intros Hwf Hne Hidx Hf1 Hf2.
  assert (forall a b ia ib da db ea eb,
    index a c = index b c -> da < db -> db < entry_capacity c -> 0 <= da ->
    find_entry a c = Ok (Some ia) -> ia = (index a c + da) mod entry_capacity c ->
    znth (entries c) ia = Some ea -> key ea = PLive a ->
    ib = (index b c + db) mod entry_capacity c ->
    passes b (entries c) (entry_capacity c) (index b c) 0 db ->
    znth (entries c) ib = Some eb -> key eb = PLive b -> a <> b ->
    exists c', cache_delete (Some a) c = Ok (0, c') /\ find_entry b c' = Ok None) as Hlose.
  { intros a b ia ib da db ea eb Hab Hd Hdb Hda Hfa Hia Hea Hka Hib Hpb Heb Hkb Hne'.
    unfold Cache.cache_delete. rewrite Hfa. cbn [mbind res_bind]. rewrite Hea.
    eexists. split; [done|]. unfold Cache.find_entry. simpl entry_count. simpl entry_capacity.
    destruct (entry_count c - 1 =? 0); [done|]. destruct Hwf as (Hcap & Hlen & _).
    destruct (Z.eqb_spec (entry_capacity c) 0); [lia|]. simpl entries.
    rewrite (probe_skip _ _ _ _ _ _ da); [| lia |].
    - destruct (_ - _)%nat as [|m] eqn:Hm; [done|]. simpl. rewrite <- Hab, <- Hia.
      by rewrite znth_zset_eq by (by eapply znth_range).
    - intros j Hj. destruct (Hpb j ltac:(lia)) as (e' & k' & He' & Hk' & Hnk).
      exists e', k'. rewrite znth_zset_ne; [done|]. intros Heq.
      rewrite Hia, <- Hab in *.
      apply mod_offset_inj in Heq; lia. }
  destruct (find_entry_inv _ _ _ Hwf Hf1) as (d1 & e1 & Hd1 & Hi1 & Hp1 & He1 & Hk1 & _).
  destruct (find_entry_inv _ _ _ Hwf Hf2) as (d2 & e2 & Hd2 & Hi2 & Hp2 & He2 & Hk2 & _).
  destruct (Z.lt_trichotomy d1 d2) as [H|[->|H]].
  - left. eapply (Hlose k1 k2 i1 i2 d1 d2 e1 e2); done || lia.
  - rewrite Hidx in Hi1. congruence.
  - right. symmetry in Hidx. eapply (Hlose k2 k1 i2 i1 d2 d1 e2 e1); done || lia || congruence.
Qed.

(** ** Lemmas: the other operations keep the table well formed *)

Lemma wf_zset_same c p e e' :
  cache_wf c -> znth (entries c) p = Some e -> slot_ok e' -> is_live e' = is_live e ->
  cache_wf (set_entries c (zset (entries c) p e') (entry_count c)).
Proof.
  intros (Hcap & Hlen & Hok & Hcount) He Hs Hl. split_and!; simpl.
  - done.
  - by rewrite zlen_zset.
  - by apply Forall_zset.
  - rewrite (countb_zset _ _ _ _ _ He), Hl. lia.
Qed.

Lemma wf_zset_clear c p e k :
  cache_wf c -> znth (entries c) p = Some e -> key e = PLive k ->
  cache_wf (set_entries c (zset (entries c) p (clear_entry e)) (entry_count c - 1)).
Proof.
  intros (Hcap & Hlen & Hok & Hcount) He Hk. split_and!; simpl.
  - done.
  - by rewrite zlen_zset.
  - by apply Forall_zset.
  - rewrite (countb_zset _ _ _ _ _ He). unfold is_live at 2 3. rewrite Hk. simpl. lia.
Qed.

Lemma wf_counters c h m :
  cache_wf c ->
  cache_wf (mkCache (entries c) (entry_count c) (entry_capacity c) (capacity c) (default_ttl c) h m).
Proof. done. Qed.

Lemma copy_value_ok e n k : slot_ok e -> key e = PLive k -> exists b, copy_value e n = Ok b.
Proof.
  unfold slot_ok, copy_value. intros Hs Hk. rewrite Hk in Hs. destruct Hs as (v & -> & _). eauto.
Qed.

Lemma cache_get_wf k hb n now c :
  cache_wf c -> res_sat (fun r => cache_wf r.2) (cache_get k hb n now c).
Proof.
  intros Hwf. unfold Cache.cache_get. destruct k as [k|]; [|done].
  destruct (negb hb || (n =? 0)); [done|].
  destruct (find_entry k c) as [[p|]|f] eqn:Hf; cbn [mbind res_bind]; [| |].
  - destruct (find_entry_inv _ _ _ Hwf Hf) as (d & e & Hd & _ & _ & He & Hk & Hs). rewrite He.
    destruct (expired e now); simpl.
    + by apply wf_counters, (wf_zset_clear _ _ _ k).
    + destruct (copy_value_ok e n k Hs Hk) as [b ->]. simpl.
      apply wf_counters, (wf_zset_same _ _ e); [done|done| |].
      * unfold slot_ok, touch in *; simpl. by rewrite Hk in *.
      * done.
  - by apply wf_counters.
  - rewrite find_entry_probe in Hf by done. destruct Hwf as (Hcap & Hlen & Hok & _).
    destruct (probe_cases (entries c) (entry_capacity c) (index k c) k
              (Z.to_nat (entry_capacity c)) 0 Hcap Hlen Hok) as (d & _ & _ & Hend).
    rewrite Hf in Hend. destruct Hend as [[_ ?]|(_ & e & _ & [[_ ?]|[_ ?]])]; done.
Qed.

Lemma find_entry_total k c : cache_wf c -> exists o, find_entry k c = Ok o.
Proof.
  intros Hwf. rewrite find_entry_probe by done. destruct Hwf as (Hcap & Hlen & Hok & _).
  destruct (probe_cases (entries c) (entry_capacity c) (index k c) k
              (Z.to_nat (entry_capacity c)) 0 Hcap Hlen Hok) as (d & _ & _ & Hend).
  destruct Hend as [[_ ->]|(_ & e & _ & [[_ ->]|[_ ->]])]; eauto.
Qed.

Lemma cache_delete_wf k c : cache_wf c -> res_sat (fun r => cache_wf r.2) (cache_delete k c).
Proof.
  intros Hwf. unfold Cache.cache_delete. destruct k as [k|]; [|done].
  destruct (find_entry_total k c Hwf) as [[p|] Hf]; rewrite Hf; simpl; [|done].
  destruct (find_entry_inv _ _ _ Hwf Hf) as (d & e & Hd & _ & _ & He & Hk & Hs). rewrite He.
  simpl. by apply (wf_zset_clear _ _ _ k).
Qed.

Lemma clear_all_ok es :
  Forall slot_ok es ->
  exists es', clear_all es = Ok es' /\ zlen es' = zlen es /\ Forall slot_ok es'
    /\ countb is_live es' = 0.
Proof.
  induction 1 as [|e es Hs _ IH]; simpl; [by exists []|].
  destruct IH as (es' & -> & Hl & Hok & Hc). unfold slot_ok in Hs.
  destruct (key e) eqn:Hk; simpl; [| |done].
  - exists (e :: es'). rewrite !zlen_cons. simpl. unfold is_live at 1. rewrite Hk.
    split_and!; [done|lia| |lia]. constructor; [|done]. unfold slot_ok. by rewrite Hk.
  - exists (clear_entry e :: es'). rewrite !zlen_cons. simpl. split_and!; [done|lia| |lia].
    by constructor.
Qed.

(** Enough to clear it: no pointer dangles. *)
Definition clearable (c : Cache) : Prop := Forall slot_ok (entries c).

Lemma cache_clear_clearable c : clearable c -> res_sat (fun r => clearable r.2) (cache_clear c).
Proof. intros Hok. unfold cache_clear. by destruct (clear_all_ok _ Hok) as (es & -> & _ & Hok' & _). Qed.

Lemma clearable_cleanup c : clearable c -> cache_cleanup c = Ok tt.
Proof. intros Hok. unfold cache_cleanup. by destruct (clear_all_ok _ Hok) as (es & -> & _). Qed.

Lemma cache_clear_wf c : cache_wf c -> res_sat (fun r => cache_wf r.2) (cache_clear c).
Proof.
  intros (Hcap & Hlen & Hok & Hcount). unfold cache_clear.
  destruct (clear_all_ok _ Hok) as (es & -> & Hl & Hok' & Hc). simpl.
  split_and!; simpl; lia || done.
Qed.


Lemma find_free_total es cap idx n i :
  0 < cap -> zlen es = cap -> exists o, find_free es cap idx n i = Ok o.
Proof.
  intros Hcap Hlen. revert i. induction n as [|n IH]; intros i; simpl; [eauto|].
  pose proof (Z.mod_pos_bound (idx + i) cap Hcap).
  destruct (znth_Some es ((idx + i) mod cap)) as [e ->]; [lia|]. destruct (key e); eauto.
Qed.

(** No slot holds the key. *)
Definition absent (k : list Z) (c : Cache) : Prop := Forall (fun e => key e <> PLive k) (entries c).

Lemma absent_not_found k c : cache_wf c -> absent k c -> find_entry k c = Ok None.
Proof.
  intros Hwf Ha. destruct (find_entry_total k c Hwf) as [[i|] E]; [|done].
  destruct (find_entry_inv _ _ _ Hwf E) as (d & e & _ & _ & _ & He & Hk & _). by destruct (Forall_znth _ _ _ _ Ha He).
Qed.

(** An entry that is still found in its slot is still read. *)
Lemma cache_get_kept k buf_size now c c2 out c' :
  (forall i, find_entry k c = Ok (Some i) -> find_entry k c2 = Ok (Some i) /\ znth (entries c2) i = znth (entries c) i) ->
  cache_get (Some k) true buf_size now c = Ok (0, Some out, c') ->
  exists c'', cache_get (Some k) true buf_size now c2 = Ok (0, Some out, c'').
Proof.
  intros Hk. unfold cache_get. destruct (_ || _); [done|].
  destruct (find_entry k c) as [[i|]|]; cbn [mbind res_bind]; [|done..]. destruct (Hk i eq_refl) as [E1 E2]. rewrite E1. cbn [mbind res_bind]. rewrite E2.
  destruct (znth (entries c) i) as [e|]; [|intros [=]]. destruct (expired e now); [intros [=]|].
  destruct (copy_value e buf_size) as [b|]; [|intros [=]]. cbn [mbind res_bind]. intros [= -> _]. eauto.
Qed.

(** Storing a value under two keys that are not there, in a table with room for both. *)
Lemma set_two_spec k1 k2 v v_size v_ttl now c buf_size now' :
  cache_wf c -> find_entry k1 c = Ok None -> absent k2 c -> k1 <> k2 -> entry_count c + 1 < entry_capacity c ->
  0 < v_size <= zlen v -> 0 < buf_size -> 0 < v_ttl -> now' - now <= v_ttl ->
  exists c1 c2, cache_set (Some k1) (Some v) v_size v_ttl now true true c = Ok (0, c1)
    /\ cache_set (Some k2) (Some v) v_size v_ttl now true true c1 = Ok (0, c2)
    /\ cache_wf c2 /\ entry_count c2 = entry_count c + 2
    /\ (forall k' i, find_entry k' c = Ok (Some i) -> find_entry k' c2 = Ok (Some i) /\ znth (entries c2) i = znth (entries c) i)
    /\ forall k, k = k1 \/ k = k2 -> exists c'', cache_get (Some k) true buf_size now' c2
         = Ok (0, Some (take (Z.to_nat (Z.min v_size buf_size)) v), c'').
Proof.
  intros Hwf Hf1 Ha2 Hne Hroom Hv Hbuf Httl Hnow.
  assert (now' - now <= (if v_ttl >? 0 then v_ttl else default_ttl c)) as Hexp by (destruct (Z.gtb_spec v_ttl 0); lia).
  destruct (set_fresh_spec k1 v v_size v_ttl now c buf_size now') as (c1 & E1 & Hwf1 & Hn1 & Hkeep1 & c1' & Hget1); [done|done|lia|done|done|done|].
  assert (absent k2 c1 /\ entry_capacity c1 = entry_capacity c) as [Ha1 Hcap1].
  { destruct (cache_set_fresh k1 v v_size v_ttl now c Hwf Hf1 ltac:(lia) Hv) as (d & e0 & _ & _ & _ & _ & E1').
    rewrite E1' in E1. injection E1 as <-. split; [|done]. unfold absent. apply Forall_zset; [exact Ha2|]. cbn. congruence. }
  destruct (set_fresh_spec k2 v v_size v_ttl now c1 buf_size now') as (c2 & E2 & Hwf2 & Hn2 & Hkeep2 & c2' & Hget2);
    [done|by apply absent_not_found|lia|done|done|destruct (Z.gtb_spec v_ttl 0); lia|].
  exists c1, c2. split_and!; [done..|lia| |].
  - intros k' i Hi. destruct (Hkeep1 k' i Hi) as [H1 <-]. by apply Hkeep2.
  - intros k [-> | ->]; [|by eexists]. eapply cache_get_kept; [|exact Hget1]. intros i Hi. by apply Hkeep2.
Qed.

(** On a well-formed table [cache_set] never faults, though it may leave a
    dangling slot behind. *)
Lemma cache_set_total k v v_size v_ttl now c :
  cache_wf c -> 0 < v_size <= zlen v ->
  exists code c', cache_set (Some k) (Some v) v_size v_ttl now true true c = Ok (code, c').
Proof.
  intros Hwf Hv. pose proof Hwf as (Hcap & Hlen & _ & _).
  unfold Cache.cache_set. destruct (Z.eqb_spec v_size 0); [lia|].
  destruct (find_entry_total k c Hwf) as [o Ho]. rewrite Ho. cbn [mbind res_bind].
  set (c1 := match o with None => c | Some i => _ end).
  assert (entry_capacity c1 = entry_capacity c /\ zlen (entries c1) = entry_capacity c) as [E1 E2].
  { unfold c1. destruct o as [i|]; [|done]. destruct (znth (entries c) i); [|done]. simpl. by rewrite zlen_zset. }
  unfold add_entry. rewrite E1. destruct (Z.eqb_spec (entry_capacity c) 0); [lia|].
  destruct (find_free_total (entries c1) (entry_capacity c) (cache_hash crc32_asm k mod entry_capacity c)
              (Z.to_nat (entry_capacity c)) 0 Hcap E2) as [[ci|] ->]; cbn [mbind res_bind negb]; [|eauto].
  destruct (Z.ltb_spec (zlen v) v_size); [lia|]. cbn [mbind res_bind]. eauto.
Qed.

Lemma cache_set_absent_wf k v v_size v_ttl now strdup_ok c :
  cache_wf c -> find_entry k c = Ok None -> 0 < v_size <= zlen v ->
  res_sat (fun r => cache_wf r.2) (cache_set (Some k) (Some v) v_size v_ttl now strdup_ok true c).
Proof.
  intros Hwf Hf Hv. pose proof Hwf as (Hcap & Hlen & _ & _).
  unfold Cache.cache_set. destruct (Z.eqb_spec v_size 0); [lia|].
  rewrite Hf. cbn [mbind res_bind]. unfold add_entry.
  destruct (Z.eqb_spec (entry_capacity c) 0); [lia|].
  destruct (find_free_total (entries c) (entry_capacity c) (index k c)
              (Z.to_nat (entry_capacity c)) 0 Hcap Hlen) as [[ci|] Hfree];
    rewrite Hfree; cbn [mbind res_bind]; [|done].
  destruct (find_free_null _ _ _ _ _ _ Hfree) as (e & He & Hk).
  destruct strdup_ok; [|done]. destruct (Z.ltb_spec (zlen v) v_size); [lia|].
  by apply (set_fresh_wf k v v_size v_ttl now c _ e).
Qed.

(** The best match is the initial one or a live slot. *)
Lemma best_match_live norm es i best sim :
  Forall slot_ok es ->
  exists o s, best_match norm es i best sim = Ok (o, s) /\
    (o = best \/ exists j e k, o = Some (i + j) /\ znth es j = Some e /\ key e = PLive k).
Proof.
  intros Hok. revert i best sim. induction Hok as [|e es Hs _ IH]; intros i best sim; simpl.
  { eauto 10. }
  assert (forall b' s', exists o s, best_match norm es (i + 1) b' s' = Ok (o, s) /\
    (o = b' \/ exists j e0 k, o = Some (i + j) /\ znth (e :: es) j = Some e0 /\ key e0 = PLive k))
    as Hnext.
  { intros b' s'. destruct (IH (i + 1) b' s') as (o & s & Hb & [Ho|(j & e0 & k & Ho & Hj & Hk)]).
    - eauto 10.
    - exists o, s. split; [done|]. right. pose proof (znth_range _ _ _ Hj).
      exists (j + 1), e0, k. split_and!; [|rewrite znth_cons by lia; done|done].
      rewrite Ho. f_equal. lia. }
  unfold slot_ok in Hs. destruct (key e) as [|k|] eqn:Hk; [apply Hnext| |done].
  destruct (cached_prompt k) as [p|]; [|apply Hnext].
  destruct (dgtb _ sim); [|apply Hnext].
  destruct (Hnext (Some i) (compute_similarity norm p)) as (o & s & Hb & Hor).
  exists o, s. split; [done|]. right. destruct Hor as [->|Hor]; [|done].
  exists 0, e, k. by rewrite Z.add_0_r.
Qed.

Lemma cache_semantic_get_wf prompt model hb n sim now c :
  cache_wf c -> res_sat (fun r => cache_wf r.2) (cache_semantic_get prompt model hb n sim now c).
Proof.
  intros Hwf. pose proof Hwf as (_ & _ & Hok & _). unfold cache_semantic_get.
  destruct prompt as [p|], model as [m|]; try done.
  destruct (negb hb || (n =? 0)); [done|].
  destruct (best_match_live (normalize_prompt p 1024) (entries c) 0 None (d_of_Z 0) Hok)
    as (o & s & -> & [->|(j & e & k & -> & He & Hk)]); cbn [mbind res_bind]; [done|].
  destruct (dltb s sim); [done|]. rewrite Z.add_0_l, He.
  destruct (expired e now); [by apply (wf_zset_clear _ _ _ k)|].
  pose proof (Forall_znth _ _ _ _ Hok He) as Hs.
  destruct (copy_value_ok e n k Hs Hk) as [b ->]. simpl.
  apply wf_counters, (wf_zset_same _ _ e); [done|done| |done].
  unfold slot_ok, touch in *; simpl. by rewrite Hk in *.
Qed.

(** ** Clients *)

Inductive cache_op :=
| OSet (k v : list Z) (v_size v_ttl now : Z) (strdup_ok : bool)
| OGet (k : list Z) (buf_size now : Z)
| ODelete (k : list Z)
| OClear
| OSemanticSet (prompt model v : list Z) (v_size v_ttl now : Z) (strdup_ok : bool)
| OSemanticGet (prompt model : list Z) (buf_size : Z) (min_similarity : double) (now : Z).

Definition exec (o : cache_op) (c : Cache) : res Cache :=
  match o with
  | OSet k v n t now ok => snd <$> cache_set (Some k) (Some v) n t now ok true c
  | OGet k n now => snd <$> cache_get (Some k) true n now c
  | ODelete k => snd <$> cache_delete (Some k) c
  | OClear => snd <$> cache_clear c
  | OSemanticSet p m v n t now ok =>
      snd <$> cache_semantic_set (Some p) (Some m) (Some v) n t now ok true c
  | OSemanticGet p m n sim now => snd <$> cache_semantic_get (Some p) (Some m) true n sim now c
  end.

(** A client that passes a buffer of the size it announces and never stores
    under a key that is still present. *)
Definition permitted (o : cache_op) (c : Cache) : Prop :=
  match o with
  | OSet k v n _ _ _ => 0 < n <= zlen v /\ find_entry k c = Ok None
  | OSemanticSet p m v n _ _ _ => 0 < n <= zlen v /\ find_entry (semantic_key p m) c = Ok None
  | _ => True
  end.

Lemma exec_wf o c : cache_wf c -> permitted o c -> res_sat cache_wf (exec o c).
Proof.
  intros Hwf Hp. destruct o as [k v n t now ok|k n now|k| |p m v n t now ok|p m n sim now];
    cbn [permitted exec] in *; apply res_sat_fmap.
  - destruct Hp. by apply cache_set_absent_wf.
  - by apply cache_get_wf.
  - by apply cache_delete_wf.
  - by apply cache_clear_wf.
  - destruct Hp. unfold Cache.cache_semantic_set. destruct (Z.eqb_spec n 0); [lia|].
    by apply cache_set_absent_wf.
  - by apply cache_semantic_get_wf.
Qed.

#[export] Instance cache_component : Component Cache cache_op :=
  {| run_op := exec; allowed := permitted; invariant := cache_wf; invariant_kept := exec_wf |}.

Lemma cache_init_wf size t c :
  0 < size -> cache_init size t true true = Some c -> cache_wf c.
Proof.
  intros Hsize [= <-]. split_and!; simpl.
  - done.
  - unfold zlen. rewrite length_replicate. lia.
  - by apply Forall_replicate.
  - by induction (Z.to_nat size).
Qed.

(** C26: under a client that never stores under a key still present and whose
    value allocations succeed, every state the cache reaches is well formed
    (no dangling key or value, an exact entry count), and in it every
    permitted call - exact or semantic, lookup, insertion, deletion, clearing -
    runs without touching freed, null or out-of-bounds memory. *)
Theorem cache_reachable_safe size t c0 c o :
  0 < size -> cache_init size t true true = Some c0 -> rtc component_step c0 c ->
  cache_wf c /\ (permitted o c -> exists c', exec o c = Ok c' /\ cache_wf c').
Proof.
  intros Hsize Hinit Hsteps. apply cache_init_wf in Hinit; [|done].
  split; [exact (component_reachable c0 c Hinit Hsteps)|exact (component_safe c0 c o Hinit Hsteps)].
Qed.

End Properties.

(** ** Normalised prompts *)

(** What [normalize_prompt] leaves: lower-case text without punctuation, its
    only blanks single spaces. *)
Fixpoint normal (last_space : bool) (s : list Z) : Prop :=
  match s with
  | [] => True
  | c :: s' =>
      if c =? c_SP then last_space = false /\ normal true s'
      else tolower c = c /\ is_blank c = false /\ ispunct c = false /\ normal false s'
  end.

Lemma norm_loop_normal s room ls :
  normal ls (norm_loop s room ls) /\ (length (norm_loop s room ls) <= room)%nat.
Proof.
  revert room ls. induction s as [|c s IH]; intros [|room] ls; cbn [norm_loop normal length];
    try (split; [done|lia]).
  destruct (is_blank (tolower c)) eqn:Hb.
  - destruct ls; [apply (IH (S room))|]. cbn [normal length]. rewrite Z.eqb_refl.
    destruct (IH room true) as [? ?]. split; [done|lia].
  - destruct (ispunct (tolower c)) eqn:Hp; [apply (IH (S room))|].
    cbn [normal length]. destruct (IH room false) as [? ?].
    destruct (Z.eqb_spec (tolower c) c_SP) as [He|]; [by rewrite He in Hb|].
    rewrite tolower_idem. split; [done|lia].
Qed.

Lemma norm_loop_id s room ls :
  normal ls s -> (length s <= room)%nat -> norm_loop s room ls = s.
Proof.
  revert room ls. induction s as [|c s IH]; intros room ls Hn Hl; cbn [norm_loop]; [done|].
  destruct room as [|room]; simpl in Hl; [lia|]. cbn [normal] in Hn.
  destruct (Z.eqb_spec c c_SP) as [->|].
  - destruct Hn as [-> Hn]. simpl. by rewrite IH by (done || lia).
  - destruct Hn as (-> & -> & -> & Hn). by rewrite IH by (done || lia).
Qed.

Lemma normal_app ls a b : normal ls (a ++ b) -> normal ls a.
Proof.
  revert ls. induction a as [|c a IH]; intros ls; cbn [normal app]; [done|].
  destruct (c =? c_SP); naive_solver.
Qed.

Lemma normal_two_spaces ls a : ~ normal ls (a ++ [c_SP; c_SP]).
Proof.
  revert ls. induction a as [|c a IH]; intros ls; cbn [normal app].
  - rewrite Z.eqb_refl. naive_solver.
  - destruct (c =? c_SP); naive_solver.
Qed.

Lemma drop_last_space_normal s :
  normal false s -> normal false (drop_last_space s) /\ (length (drop_last_space s) <= length s)%nat
    /\ last (drop_last_space s) <> Some c_SP.
Proof.
  unfold drop_last_space. induction s as [|c s _] using rev_ind; [done|].
  rewrite last_snoc. destruct (Z.eqb_spec c c_SP) as [->|Hc].
  - rewrite removelast_last, length_app. intros Hn.
    split_and!; [by eapply normal_app|simpl; lia|].
    intros Hl. apply last_Some in Hl as [s' ->]. rewrite <- app_assoc in Hn.
    by apply normal_two_spaces in Hn.
  - intros Hn. split_and!; [done|lia|]. rewrite last_snoc. naive_solver.
Qed.

(** Normalising a prompt a second time changes nothing, so prompts are
    compared by their normal forms; a normal form has no punctuation, no upper
    case, no blanks but single spaces and none at its end, and fits the
    buffer. *)
Theorem normalize_prompt_idempotent s out_size :
  let n := normalize_prompt s out_size in
  normalize_prompt n out_size = n /\ normal false n /\ last n <> Some c_SP
  /\ (length n <= Z.to_nat (out_size - 1))%nat.
Proof.
  intros n. unfold n, normalize_prompt.
  destruct (norm_loop_normal s (Z.to_nat (out_size - 1)) false) as [Hn Hl].
  destruct (drop_last_space_normal _ Hn) as (Hd & Hdl & Hs).
  split_and!; [|done|done|lia].
  rewrite norm_loop_id by (done || lia).
  unfold drop_last_space at 1. case_match eqn:Hlast; [|done]. rename z into c.
  destruct (Z.eqb_spec c c_SP); [by subst|done].
Qed.

(** ** The semantic lookup and the model *)

Lemma best_match_null norm es i best sim :
  Forall (fun e => key e = PNull) es -> best_match norm es i best sim = Ok (best, sim).
Proof. intros H. revert i. induction H as [|e es He _ IH]; intros i; simpl; [done|]. by rewrite He. Qed.

(** A table with a single live slot. *)
Lemma best_match_single norm n p e i best sim k q :
  0 <= p < Z.of_nat n -> key e = PLive k -> cached_prompt k = Some q ->
  dgtb (compute_similarity norm q) sim = true ->
  best_match norm (zset (replicate n empty_entry) p e) i best sim
  = Ok (Some (i + p), compute_similarity norm q).
Proof.
  intros Hp Hk Hq Hs. revert p i Hp. induction n as [|n IH]; intros p i Hp; [lia|].
  unfold zset in *. destruct (Z.ltb_spec p 0); [lia|].
  destruct (Z.to_nat p) as [|m] eqn:Hm; cbn [replicate list_insert insert best_match].
  - rewrite Hk, Hq, Hs, best_match_null by (by apply Forall_replicate).
    by replace (i + p) with i by lia.
  - simpl. specialize (IH (p - 1) (i + 1) ltac:(lia)). destruct (Z.ltb_spec (p - 1) 0); [lia|].
    replace (Z.to_nat (p - 1)) with m in IH by lia.
    replace (i + p) with (i + 1 + (p - 1)) by lia. exact IH.
Qed.

Lemma strchr_app_fresh a b c : strchr a c = None -> strchr (a ++ c :: b) c = Some (length a).
Proof.
  unfold strchr. induction a as [|x a IH]; cbn [app find_index length].
  - by rewrite Z.eqb_refl.
  - destruct (c =? x); [done|]. destruct (find_index _ a); [done|]. intros _. by rewrite IH.
Qed.

Lemma cached_prompt_semantic_key prompt model :
  strchr model c_COLON = None -> (length model + length (normalize_prompt prompt 1024) <= 1146)%nat ->
  cached_prompt (semantic_key prompt model) = Some (normalize_prompt prompt 1024).
Proof.
  intros Hm Hl. unfold semantic_key, cached_prompt.
  rewrite take_ge by (rewrite !length_app; simpl; lia).
  change (prefixb (lit "sem:") (lit "sem:" ++ ?x)) with true. cbn iota.
  change (drop 4 (lit "sem:" ++ ?x)) with x. cbn [app].
  rewrite strchr_app_fresh by done. cbn [fmap option_fmap option_map].
  by rewrite <- Nat.add_1_r, <- drop_drop, drop_app_length.
Qed.

Lemma compute_similarity_refl n : n <> [] -> compute_similarity n n = d_of_Z 1.
Proof.
  intros Hn. unfold compute_similarity, strlen. destruct n as [|x n]; [done|].
  rewrite zlen_cons. pose proof (zlen_nonneg n).
  destruct (Z.eqb_spec (zlen n + 1) 0); [lia|]. simpl orb. cbv iota. by rewrite streq_refl.
Qed.

(** The semantic lookup compares prompts only: an answer stored for one
    model is returned for the same prompt asked of any other model. *)
Theorem semantic_get_ignores_model crc32_asm prompt modelA modelB v v_size v_ttl now size t c0
    buf_size sim now' :
  cache_init size t true true = Some c0 -> 0 < size -> 0 < v_size <= zlen v -> 0 < buf_size ->
  strchr modelA c_COLON = None -> normalize_prompt prompt 1024 <> [] ->
  (length modelA + length (normalize_prompt prompt 1024) <= 1146)%nat ->
  dltb (d_of_Z 1) sim = false -> now' - now <= (if v_ttl >? 0 then v_ttl else t) ->
  exists c1 c2,
    cache_semantic_set crc32_asm (Some prompt) (Some modelA) (Some v) v_size v_ttl now true true c0
    = Ok (0, c1)
    /\ cache_semantic_get (Some prompt) (Some modelB) true buf_size sim now' c1
       = Ok (0, Some (take (Z.to_nat (Z.min v_size buf_size)) v), c2).
Proof.
  intros Hinit Hsize Hv Hbuf HA Hne Hlen Hmin Hnow.
  pose proof (cache_init_wf _ _ _ Hsize Hinit) as Hwf. injection Hinit as Hc0.
  set (k := semantic_key prompt modelA).
  destruct (cache_set_fresh crc32_asm k v v_size v_ttl now c0) as (d & e0 & _ & He0 & _ & _ & Hset);
    [done|by subst c0|by subst c0|done|].
  set (p := _ mod entry_capacity c0) in He0, Hset. pose proof (znth_range _ _ _ He0) as Hp.
  eexists; eexists. split.
  - unfold cache_semantic_set. destruct (Z.eqb_spec v_size 0); [lia|]. exact Hset.
  - unfold cache_semantic_get. destruct (Z.eqb_spec buf_size 0); [lia|]. simpl orb. cbv iota.
    subst c0. cbn [entries set_entries] in *.
    rewrite (best_match_single _ _ _ _ _ _ _ k (normalize_prompt prompt 1024)); cycle 1.
    + unfold zlen in Hp. rewrite length_replicate in Hp. lia.
    + done.
    + by apply cached_prompt_semantic_key.
    + by rewrite compute_similarity_refl.
    + cbn [mbind res_bind]. rewrite compute_similarity_refl, Hmin by done.
      rewrite Z.add_0_l, znth_zset_eq by done. unfold expired. cbn [stored timestamp Cache.ttl default_ttl].
      destruct (Z.gtb_spec (now' - now) (if v_ttl >? 0 then v_ttl else t)); [lia|].
      cbn [stored copy_value value value_size mbind res_bind]. rewrite take_take.
      by replace (Z.to_nat (Z.min v_size buf_size) `min` Z.to_nat v_size)%nat
        with (Z.to_nat (Z.min v_size buf_size)) by lia.
Qed.

(** ** Witnesses *)

Definition sum_hash (k : list Z) : Z := foldr Z.add 0 k.
Definition two_slots : Cache := mkCache [empty_entry; empty_entry] 0 2 2 60 0 0.
Definition with_key (k : list Z) (c : Cache) : Cache :=
  match cache_set sum_hash (Some k) (Some (lit "v")) 1 0 0 true true c with
  | Ok (_, c') => c'
  | Fault _ => c
  end.

Lemma two_slots_wf : cache_wf two_slots.
Proof. apply (cache_init_wf 2 60); [lia|done]. Defined.

Lemma with_key_fresh_wf k c :
  cache_wf c -> find_entry sum_hash k c = Ok None -> cache_wf (with_key k c).
Proof.
  intros Hwf Hf. unfold with_key.
  assert (0 < 1 <= zlen (lit "v")) as Hv by done.
  pose proof (cache_set_absent_wf sum_hash k (lit "v") 1 0 0 true c Hwf Hf Hv) as Hs.
  by destruct (cache_set _ _ _ _ _ _ _ _ c) as [[n c']|].
Qed.

Lemma with_key_wf : cache_wf (with_key (lit "a") two_slots)
  /\ cache_wf (with_key (lit "c") (with_key (lit "a") two_slots)).
Proof.
  assert (cache_wf (with_key (lit "a") two_slots)) as Ha
    by (by apply with_key_fresh_wf; [exact two_slots_wf|]).
  split; [exact Ha|]. by apply with_key_fresh_wf.
Qed.

Lemma cache_get_after_set_witness :
  exists c', cache_set sum_hash (Some (lit "a")) (Some (lit "v")) 1 0 0 true true two_slots = Ok (0, c').
Proof.
  destruct (cache_get_after_set sum_hash (lit "a") (lit "v") 1 0 0 two_slots 8 10) as (c' & Hc & _);
    [exact two_slots_wf|done|done|vm_compute; split; congruence|done|vm_compute; congruence|].
  exists c'. exact Hc.
Defined.

Definition overwritten : Cache :=
  Eval vm_compute in
    match cache_set sum_hash (Some (lit "a")) (Some (lit "w")) 1 0 0 true true
            (with_key (lit "a") two_slots) with
    | Ok (_, c) => c
    | Fault _ => two_slots
    end.

Lemma cache_overwrite_dangles_witness :
  cache_get sum_hash (Some (lit "a")) true 8 0 overwritten = Fault UseAfterFree.
Proof.
  apply (cache_overwrite_dangles sum_hash (lit "a") (lit "w") 1 0 0 (with_key (lit "a") two_slots) 1);
    [exact (proj1 with_key_wf)|vm_compute; reflexivity|lia|lia|vm_compute; reflexivity].
Defined.

Lemma cache_delete_hides_witness :
  let c := with_key (lit "c") (with_key (lit "a") two_slots) in
  (exists c', cache_delete sum_hash (Some (lit "a")) c = Ok (0, c')
     /\ find_entry sum_hash (lit "c") c' = Ok None) \/
  (exists c', cache_delete sum_hash (Some (lit "c")) c = Ok (0, c')
     /\ find_entry sum_hash (lit "a") c' = Ok None).
Proof.
  apply (cache_delete_hides sum_hash (lit "a") (lit "c") _ 1 0);
    [exact (proj2 with_key_wf)|discriminate|reflexivity|reflexivity|reflexivity].
Defined.

Lemma cache_reachable_safe_witness :
  exists c', exec sum_hash (OGet (lit "a") 8 0) (with_key (lit "a") two_slots) = Ok c' /\ cache_wf c'.
Proof.
  apply (cache_reachable_safe sum_hash 2 60 two_slots (with_key (lit "a") two_slots));
    [lia|reflexivity| |exact I].
  apply rtc_once.
  apply (component_call (OSet (lit "a") (lit "v") 1 0 0 true)); [|reflexivity].
  split; [vm_compute; split; congruence|reflexivity].
Defined.

Lemma semantic_get_ignores_model_witness :
  exists c1 c2,
    cache_semantic_set sum_hash (Some (lit "Hello, World")) (Some (lit "gpt-4")) (Some (lit "hi")) 2 0 0
      true true two_slots = Ok (0, c1)
    /\ cache_semantic_get (Some (lit "Hello, World")) (Some (lit "claude")) true 8 d_0_9 1 c1
       = Ok (0, Some (lit "hi"), c2).
Proof.
  apply (semantic_get_ignores_model sum_hash (lit "Hello, World") (lit "gpt-4") (lit "claude")
           (lit "hi") 2 0 0 2 60 two_slots 8 d_0_9 1);
    [reflexivity|lia|vm_compute; split; congruence|lia|reflexivity|vm_compute; discriminate
    |vm_compute; lia|reflexivity|vm_compute; congruence].
Defined.
