(* ===== verification/Redis.v ===== *)
(** * The Redis backend of the cache: src/cache.c with [HIREDIS_FOUND]

    The same operations in the build that has the client of Redis.  What the server does
    with a command is a parameter; the table in memory is the one of [Cache]. *)

From S2P Require Import Prelude Double Cache.

(** ** The client *)

(** The commands with their arguments; the client sends them whole, whatever bytes are
    in them. *)
Inductive command := AUTH (password : list Z) | SETEX (k : list Z) (seconds : Z) (v : list Z) | GET (k : list Z).

Inductive reply_type := REDIS_REPLY_STRING | REDIS_REPLY_STATUS | REDIS_REPLY_ERROR | REDIS_REPLY_OTHER.

#[export] Instance reply_type_eq_dec : EqDecision reply_type.
Proof. solve_decision. Defined.

Record redisReply := mkReply { reply_kind : reply_type; reply_str : list Z }.

(** [R] is the state of the server; no reply is the NULL of a lost connection. *)
Class Redis (R : Type) := { redisCommand : command -> R -> option redisReply * R }.

(** The connection is the server's state behind it. *)
Record Backend (R : Type) := mkBackend {
  active_backend : CacheBackend;
  redis_ctx : option R;
  redis_mutex : mutex_state
}.
Arguments mkBackend {R}.
Arguments active_backend {R}.
Arguments redis_ctx {R}.
Arguments redis_mutex {R}.

Section Redis.
Context {R : Type} `{Redis R} (crc32_asm : list Z -> Z).

Definition memory_only : Backend R := mkBackend CACHE_BACKEND_MEMORY None Unlocked.

(** [connection]: none when no context could be allocated, and whether it has an error. *)
Definition cache_init_redis (connection : option (R * bool)) (password : option (list Z)) (b : Backend R)
  : res (Z * Backend R) :=
  _ ← mutex_lock (redis_mutex b);
  match connection with
  | None | Some (_, true) => Ok (-1, memory_only)
  | Some (r, false) =>
      match password with
      | None | Some [] => Ok (0, mkBackend CACHE_BACKEND_REDIS (Some r) Unlocked)
      | Some p =>
          let '(reply, r) := redisCommand (AUTH p) r in
          match reply with
          | None => Ok (-1, memory_only)
          | Some a =>
              if decide (reply_kind a = REDIS_REPLY_ERROR) then Ok (-1, memory_only)
              else Ok (0, mkBackend CACHE_BACKEND_REDIS (Some r) Unlocked)
          end
      end
  end.

Definition cache_active_backend (b : Backend R) : CacheBackend := active_backend b.

(** The server behind the connection, when it is asked. *)
Definition remote (b : Backend R) : option R :=
  match active_backend b with CACHE_BACKEND_REDIS => redis_ctx b | CACHE_BACKEND_MEMORY => None end.

Definition set_remote (r : R) (b : Backend R) : Backend R := mkBackend (active_backend b) (Some r) (redis_mutex b).

Definition state : Type := Cache * Backend R.

Definition cache_set (k v : option (list Z)) (v_size v_ttl now : Z) (strdup_ok malloc_ok : bool) (s : state)
  : res (Z * state) :=
  let '(c, b) := s in
  match k, v with
  | Some key, Some bytes =>
      if v_size =? 0 then Ok (-1, s)
      else
        match remote b with
        | Some r =>
            _ ← mutex_lock (redis_mutex b);
            if zlen bytes <? v_size then Fault OutOfBounds
            else
              let '(reply, r) := redisCommand (SETEX key (if v_ttl >? 0 then v_ttl else 3600) (take (Z.to_nat v_size) bytes)) r in
              let stored := match reply with Some a => bool_decide (reply_kind a = REDIS_REPLY_STATUS) | None => false end in
              Ok (if stored then 0 else -1, (c, set_remote r b))
        | None => '(code, c) ← Cache.cache_set crc32_asm k v v_size v_ttl now strdup_ok malloc_ok c; Ok (code, (c, b))
        end
  | _, _ => Ok (-1, s)
  end.

(** The answer is copied with a terminator; its length counts as [size_t]. *)
Definition cache_get (k : option (list Z)) (have_buf : bool) (buf_size now : Z) (s : state)
  : res (Z * option (list Z) * state) :=
  let '(c, b) := s in
  match k with
  | None => Ok (-1, None, s)
  | Some key =>
      if negb have_buf || (buf_size =? 0) then Ok (-1, None, s)
      else
        match remote b with
        | Some r =>
            _ ← mutex_lock (redis_mutex b);
            let '(reply, r) := redisCommand (GET key) r in
            match reply with
            | Some (mkReply REDIS_REPLY_STRING str) =>
                Ok (0, Some (take (Z.to_nat (Z.min (zlen str) (buf_size - 1))) str ++ [0]), (c, set_remote r b))
            | _ => Ok (-1, None, (c, set_remote r b))
            end
        | None => '(code, out, c) ← Cache.cache_get crc32_asm k have_buf buf_size now c; Ok (code, out, (c, b))
        end
  end.

(** These two never ask the server. *)
Definition cache_delete (k : option (list Z)) (s : state) : res (Z * state) :=
  '(code, c) ← Cache.cache_delete crc32_asm k s.1; Ok (code, (c, s.2)).
Definition cache_semantic_get (prompt model : option (list Z)) (have_buf : bool) (buf_size : Z) (min_similarity : double)
    (now : Z) (s : state) : res (Z * option (list Z) * state) :=
  '(code, out, c) ← Cache.cache_semantic_get prompt model have_buf buf_size min_similarity now s.1; Ok (code, out, (c, s.2)).

Definition cache_semantic_set (prompt model v : option (list Z)) (v_size v_ttl now : Z) (strdup_ok malloc_ok : bool)
    (s : state) : res (Z * state) :=
  match prompt, model, v with
  | Some prompt, Some model, Some _ =>
      if v_size =? 0 then Ok (-1, s)
      else cache_set (Some (semantic_key prompt model)) v v_size v_ttl now strdup_ok malloc_ok s
  | _, _, _ => Ok (-1, s)
  end.
End Redis.

Section Facts.
Context {R : Type} `{Redis R} (crc32_asm : list Z -> Z).

Abbreviation state := (@state R).
Abbreviation cache_set := (cache_set crc32_asm).
Abbreviation cache_get := (cache_get crc32_asm).
Abbreviation cache_semantic_set := (cache_semantic_set crc32_asm).
Abbreviation cache_delete := (cache_delete crc32_asm).

(** Redis is asked, over a connection that is free. *)
Definition on_redis (s : state) : Prop := exists r, remote s.2 = Some r /\ redis_mutex s.2 = Unlocked.

Lemma remote_set r r' (b : Backend R) : remote b = Some r' -> remote (set_remote r b) = Some r.
Proof. unfold remote. by destruct b as [[] c m]. Qed.

(** Documented of Redis: what was stored is answered. *)
Definition redis_answers : Prop :=
  forall k seconds v r a r', redisCommand (SETEX k seconds v) r = (Some a, r') -> reply_kind a = REDIS_REPLY_STATUS ->
  (redisCommand (GET k) r').1 = Some (mkReply REDIS_REPLY_STRING v).

(** What was stored in Redis is read back, cut to the buffer and with a terminator - the
    table in memory gives no terminator, see
    [Router.cached_chat_reads_uninitialised]. *)
Theorem redis_get_after_set k v n t now ok1 ok2 s s' size now' :
  redis_answers -> on_redis s -> 0 < n <= zlen v -> 0 < size ->
  cache_set (Some k) (Some v) n t now ok1 ok2 s = Ok (0, s') ->
  exists s2, cache_get (Some k) true size now' s' = Ok (0, Some (take (Z.to_nat (Z.min n (size - 1))) v ++ [0]), s2)
    /\ s2.1 = s.1.
Proof.
  intros Hlaw (r & Hr & Hm) Hn Hsize. destruct s as [c b]. cbn [snd] in *. unfold Redis.cache_set. rewrite Hr, Hm.
  destruct (Z.eqb_spec n 0); [lia|]. cbn [mbind res_bind mutex_lock]. destruct (Z.ltb_spec (zlen v) n); [lia|].
  destruct (redisCommand (SETEX _ _ _) r) as [[a|] r'] eqn:E; [|done]. case_bool_decide as Ha; [|done]. intros [= <-].
  specialize (Hlaw _ _ _ _ _ _ E Ha). unfold Redis.cache_get. erewrite remote_set by done.
  cbn [set_remote redis_mutex negb orb]. rewrite Hm. destruct (Z.eqb_spec size 0); [lia|]. cbn [mbind res_bind mutex_lock].
  destruct (redisCommand (GET k) r') as [o r2]. cbn [fst] in Hlaw. subst o. exists (c, set_remote r2 (set_remote r' b)). split; [|done].
  unfold zlen in *. rewrite length_take, take_take. repeat f_equal. lia.
Qed.

(** ** Calls while Redis is the backend *)

Inductive redis_op :=
| Set_ (k v : list Z) (n t now : Z)
| Get (k : list Z) (size now : Z)
| SemanticSet (prompt model v : list Z) (n t now : Z)
| SemanticGet (prompt model : list Z) (size : Z) (least : double) (now : Z)
| Delete (k : list Z).

Definition exec (o : redis_op) (s : state) : res state :=
  match o with
  | Set_ k v n t now => '(_, s) ← cache_set (Some k) (Some v) n t now true true s; Ok s
  | Get k size now => '(_, _, s) ← cache_get (Some k) true size now s; Ok s
  | SemanticSet p m v n t now => '(_, s) ← cache_semantic_set (Some p) (Some m) (Some v) n t now true true s; Ok s
  | SemanticGet p m size least now => '(_, _, s) ← cache_semantic_get (Some p) (Some m) true size least now s; Ok s
  | Delete k => '(_, s) ← cache_delete (Some k) s; Ok s
  end.

Fixpoint run (l : list redis_op) (s : state) : res state :=
  match l with [] => Ok s | o :: l' => s ← exec o s; run l' s end.

(** A table in which nothing is. *)
Definition nothing_stored (c : Cache) : Prop := entry_count c = 0 /\ Forall (fun e => key e = PNull) (entries c).

Lemma semantic_get_misses p m size least now (s : state) :
  nothing_stored s.1 -> cache_semantic_get p m true size least now s = Ok (-1, None, s).
Proof.
  intros [_ Hn]. destruct s as [c b]. unfold cache_semantic_get, Cache.cache_semantic_get. cbn [fst snd] in *.
  destruct p, m; try done. destruct (negb true || _); [done|]. by rewrite best_match_null.
Qed.

Lemma delete_misses k (s : state) : nothing_stored s.1 -> cache_delete k s = Ok (-1, s).
Proof.
  intros [Hn _]. destruct s as [c b]. unfold Redis.cache_delete, Cache.cache_delete, find_entry. cbn [fst snd] in *.
  destruct k; [|done]. by rewrite Hn.
Qed.

Lemma set_on_redis k v n t now ok1 ok2 s z s' :
  on_redis s -> cache_set k v n t now ok1 ok2 s = Ok (z, s') -> on_redis s' /\ s'.1 = s.1.
Proof.
  intros (r & Hr & Hm). destruct s as [c b]. unfold Redis.cache_set, on_redis. cbn [fst snd] in *. rewrite Hr, Hm.
  destruct k as [k|], v as [v|]; try (intros [= <- <-]; by eauto). destruct (n =? 0); [intros [= <- <-]; by eauto|].
  cbn [mbind res_bind mutex_lock]. destruct (zlen v <? n); [done|]. destruct (redisCommand _ r) as [o r'].
  intros [= <- <-]. cbn [fst snd]. split; [|done]. exists r'. split; [by eapply remote_set|done].
Qed.

Lemma exec_on_redis o s s' : on_redis s -> nothing_stored s.1 -> exec o s = Ok s' -> on_redis s' /\ s'.1 = s.1.
Proof.
  intros Hs Hn. destruct o; cbn [exec].
  - destruct (cache_set _ _ _ _ _ _ _ s) as [[z s1]|] eqn:E; [|done]. intros [= <-]. by eapply set_on_redis.
  - destruct s as [c b], Hs as (r & Hr & Hm). unfold Redis.cache_get, on_redis. cbn [fst snd] in *. rewrite Hr, Hm. cbn [negb orb].
    destruct (size =? 0); [intros [= <-]; by eauto|]. cbn [mbind res_bind mutex_lock].
    destruct (redisCommand _ r) as [a r']. assert (remote (set_remote r' b) = Some r') by (by eapply remote_set).
    destruct a as [[[] str]|]; intros [= <-]; cbn [fst snd]; (split; [|done]); exists r'; by split.
  - unfold Redis.cache_semantic_set. destruct (n =? 0); [by intros [= <-]|].
    destruct (cache_set _ _ _ _ _ _ _ s) as [[z s1]|] eqn:E; [|done]. intros [= <-]. by eapply set_on_redis.
  - rewrite semantic_get_misses by done. by intros [= <-].
  - rewrite delete_misses by done. by intros [= <-].
Qed.

(** With Redis as the backend the semantic cache never answers and deleting never
    deletes: answers are stored in Redis alone, and these two look at the table in
    memory, where nothing ever is.  Every chat that is asked in other words goes to a
    model again. *)
Theorem redis_semantic_never_hits l s s' :
  on_redis s -> nothing_stored s.1 -> run l s = Ok s' ->
  (forall p m size least now, cache_semantic_get p m true size least now s' = Ok (-1, None, s'))
  /\ (forall k, cache_delete k s' = Ok (-1, s')) /\ s'.1 = s.1.
Proof.
  revert s. induction l as [|o l IH]; intros s Hs Hn E.
  - injection E as <-. split_and!; [intros; by apply semantic_get_misses|intros; by apply delete_misses|done].
  - cbn [run] in E. destruct (exec o s) as [s1|] eqn:E1; [|done]. cbn [mbind res_bind] in E.
    destruct (exec_on_redis o s s1 Hs Hn E1) as [Hs1 Hc]. rewrite <- Hc. apply (IH s1); [done|by rewrite Hc|done].
Qed.
End Facts.

(** ** Witnesses: a server that keeps what it is told *)

#[local] Instance demo_redis : Redis (list (list Z * list Z)) := {
  redisCommand c r :=
    match c with
    | AUTH _ => (Some (mkReply REDIS_REPLY_STATUS (lit "OK")), r)
    | SETEX k _ v => (Some (mkReply REDIS_REPLY_STATUS (lit "OK")), (k, v) :: r)
    | GET k =>
        (Some (match find (fun p => bool_decide (p.1 = k)) r with
               | Some p => mkReply REDIS_REPLY_STRING p.2
               | None => mkReply REDIS_REPLY_OTHER []
               end), r)
    end
}.

Definition demo_backend : Backend (list (list Z * list Z)) := mkBackend CACHE_BACKEND_REDIS (Some []) Unlocked.
Definition demo_table : Cache := mkCache (replicate 4 empty_entry) 0 4 4 60 0 0.

Lemma demo_connects : cache_init_redis (Some ([], false)) None memory_only = Ok (0, demo_backend).
Proof. reflexivity. Qed.

Lemma demo_answers : redis_answers (R := list (list Z * list Z)).
Proof.
  intros k seconds v r a r' E _. cbn in E. injection E as _ <-. cbn. by rewrite bool_decide_true.
Qed.

Lemma redis_get_after_set_witness :
  exists s s2, cache_set (fun _ => 0) (Some (lit "k")) (Some (lit "value")) 5 60 0 true true (demo_table, demo_backend) = Ok (0, s)
    /\ cache_get (fun _ => 0) (Some (lit "k")) true 4 1 s = Ok (0, Some (lit "val" ++ [0]), s2).
Proof.
  eexists. assert (E : cache_set (fun _ => 0) (Some (lit "k")) (Some (lit "value")) 5 60 0 true true (demo_table, demo_backend)
                       = Ok (0, (demo_table, set_remote [(lit "k", lit "value")] demo_backend))) by reflexivity.
  destruct (redis_get_after_set (fun _ => 0) (lit "k") (lit "value") 5 60 0 true true (demo_table, demo_backend) _ 4 1
              demo_answers ltac:(exists []; split; reflexivity) ltac:(split; [lia|vm_compute; discriminate]) ltac:(lia) E) as (s2 & E2 & _).
  exists s2. split; [exact E|exact E2].
Defined.

Lemma redis_semantic_never_hits_witness :
  exists s, run (fun _ => 0) [SemanticSet (lit "hello") (lit "m") (lit "hi") 2 60 0] (demo_table, demo_backend) = Ok s
    /\ cache_semantic_get (Some (lit "hello")) (Some (lit "m")) true 64 (d_of_Z 0) 1 s = Ok (-1, None, s).
Proof.
  eexists. split; [reflexivity|].
  refine (proj1 (redis_semantic_never_hits (fun _ => 0) [SemanticSet (lit "hello") (lit "m") (lit "hi") 2 60 0]
             (demo_table, demo_backend) _ _ _ _) (Some (lit "hello")) (Some (lit "m")) 64 (d_of_Z 0) 1).
  - exists []. split; reflexivity.
  - split; [reflexivity|]. cbn. repeat constructor.
  - reflexivity.
Defined.
