(* ===== verification/HttpParser.v ===== *)
(** * The incremental HTTP/1 request parser: [src/http_parser.c]

    The parser records where things are in the caller's buffer and copies
    nothing, so a pointer is an address and the bytes are read from a memory
    [mem : Z -> Z]; the null pointer is 0.  One call of [step] is one pass of the
    loop of [http_parser_execute] (the [switch] on the state). *)

From S2P Require Import Prelude.

(** ** Data *)

Inductive HTTPMethod :=
| HTTP_GET | HTTP_POST | HTTP_PUT | HTTP_DELETE | HTTP_HEAD | HTTP_OPTIONS | HTTP_PATCH
| HTTP_UNKNOWN.

#[export] Instance HTTPMethod_eq_dec : EqDecision HTTPMethod.
Proof. solve_decision. Defined.

Inductive HTTPParseError :=
| HP_OK | HP_ERROR_INCOMPLETE | HP_ERROR_INVALID_METHOD | HP_ERROR_INVALID_PATH
| HP_ERROR_INVALID_VERSION | HP_ERROR_HEADER_TOO_LARGE | HP_ERROR_BODY_TOO_LARGE
| HP_ERROR_INTERNAL.

Inductive HTTPParserState :=
| HP_METHOD_START | HP_METHOD | HP_SPACE_BEFORE_PATH | HP_PATH | HP_QUERY
| HP_SPACE_BEFORE_VERSION
| HP_VERSION_H | HP_VERSION_HT | HP_VERSION_HTT | HP_VERSION_HTTP
| HP_VERSION_MAJOR | HP_VERSION_MINOR_START | HP_VERSION_MINOR
| HP_CRLF_AFTER_VERSION | HP_HEADER_START | HP_HEADER_NAME
| HP_HEADER_SPACE_BEFORE_VALUE | HP_HEADER_VALUE | HP_HEADER_CRLF
| HP_HEADERS_COMPLETE_CRLF | HP_BODY | HP_COMPLETE.

#[export] Instance HTTPParserState_eq_dec : EqDecision HTTPParserState.
Proof. solve_decision. Defined.

Record HTTPParser := mkHTTPParser {
  state : HTTPParserState;
  method : HTTPMethod;
  path_start : Z;
  path_len : Z;
  query_start : Z;
  query_len : Z;
  current_header_name_start : Z;
  current_header_name_len : Z;
  current_header_value_start : Z;
  current_header_value_len : Z;
  header_count : Z;
  content_length : Z;
  http_major : Z;
  http_minor : Z;
  keep_alive : bool;
  body_start : Z;
  body_len : Z;
  content_type_start : Z;
  content_type_len : Z;
  header_ptrs : list Z;
  header_lens : list Z;
  raw_start : Z;
  raw_len : Z
}.

(** Field updates. *)
Definition set_state (v : HTTPParserState) (r : HTTPParser) : HTTPParser :=
  mkHTTPParser v (method r) (path_start r) (path_len r) (query_start r) (query_len r)
    (current_header_name_start r) (current_header_name_len r) (current_header_value_start r)
    (current_header_value_len r) (header_count r) (content_length r) (http_major r) (http_minor r)
    (keep_alive r) (body_start r) (body_len r) (content_type_start r) (content_type_len r)
    (header_ptrs r) (header_lens r) (raw_start r) (raw_len r).
Definition set_method (v : HTTPMethod) (r : HTTPParser) : HTTPParser :=
  mkHTTPParser (state r) v (path_start r) (path_len r) (query_start r) (query_len r)
    (current_header_name_start r) (current_header_name_len r) (current_header_value_start r)
    (current_header_value_len r) (header_count r) (content_length r) (http_major r) (http_minor r)
    (keep_alive r) (body_start r) (body_len r) (content_type_start r) (content_type_len r)
    (header_ptrs r) (header_lens r) (raw_start r) (raw_len r).
Definition set_path_start (v : Z) (r : HTTPParser) : HTTPParser :=
  mkHTTPParser (state r) (method r) v (path_len r) (query_start r) (query_len r)
    (current_header_name_start r) (current_header_name_len r) (current_header_value_start r)
    (current_header_value_len r) (header_count r) (content_length r) (http_major r) (http_minor r)
    (keep_alive r) (body_start r) (body_len r) (content_type_start r) (content_type_len r)
    (header_ptrs r) (header_lens r) (raw_start r) (raw_len r).
Definition set_path_len (v : Z) (r : HTTPParser) : HTTPParser :=
  mkHTTPParser (state r) (method r) (path_start r) v (query_start r) (query_len r)
    (current_header_name_start r) (current_header_name_len r) (current_header_value_start r)
    (current_header_value_len r) (header_count r) (content_length r) (http_major r) (http_minor r)
    (keep_alive r) (body_start r) (body_len r) (content_type_start r) (content_type_len r)
    (header_ptrs r) (header_lens r) (raw_start r) (raw_len r).
Definition set_query_start (v : Z) (r : HTTPParser) : HTTPParser :=
  mkHTTPParser (state r) (method r) (path_start r) (path_len r) v (query_len r)
    (current_header_name_start r) (current_header_name_len r) (current_header_value_start r)
    (current_header_value_len r) (header_count r) (content_length r) (http_major r) (http_minor r)
    (keep_alive r) (body_start r) (body_len r) (content_type_start r) (content_type_len r)
    (header_ptrs r) (header_lens r) (raw_start r) (raw_len r).
Definition set_query_len (v : Z) (r : HTTPParser) : HTTPParser :=
  mkHTTPParser (state r) (method r) (path_start r) (path_len r) (query_start r) v
    (current_header_name_start r) (current_header_name_len r) (current_header_value_start r)
    (current_header_value_len r) (header_count r) (content_length r) (http_major r) (http_minor r)
    (keep_alive r) (body_start r) (body_len r) (content_type_start r) (content_type_len r)
    (header_ptrs r) (header_lens r) (raw_start r) (raw_len r).
Definition set_current_header_name_start (v : Z) (r : HTTPParser) : HTTPParser :=
  mkHTTPParser (state r) (method r) (path_start r) (path_len r) (query_start r) (query_len r) v
    (current_header_name_len r) (current_header_value_start r) (current_header_value_len r)
    (header_count r) (content_length r) (http_major r) (http_minor r) (keep_alive r) (body_start r)
    (body_len r) (content_type_start r) (content_type_len r) (header_ptrs r) (header_lens r)
    (raw_start r) (raw_len r).
Definition set_current_header_name_len (v : Z) (r : HTTPParser) : HTTPParser :=
  mkHTTPParser (state r) (method r) (path_start r) (path_len r) (query_start r) (query_len r)
    (current_header_name_start r) v (current_header_value_start r) (current_header_value_len r)
    (header_count r) (content_length r) (http_major r) (http_minor r) (keep_alive r) (body_start r)
    (body_len r) (content_type_start r) (content_type_len r) (header_ptrs r) (header_lens r)
    (raw_start r) (raw_len r).
Definition set_current_header_value_start (v : Z) (r : HTTPParser) : HTTPParser :=
  mkHTTPParser (state r) (method r) (path_start r) (path_len r) (query_start r) (query_len r)
    (current_header_name_start r) (current_header_name_len r) v (current_header_value_len r)
    (header_count r) (content_length r) (http_major r) (http_minor r) (keep_alive r) (body_start r)
    (body_len r) (content_type_start r) (content_type_len r) (header_ptrs r) (header_lens r)
    (raw_start r) (raw_len r).
Definition set_current_header_value_len (v : Z) (r : HTTPParser) : HTTPParser :=
  mkHTTPParser (state r) (method r) (path_start r) (path_len r) (query_start r) (query_len r)
    (current_header_name_start r) (current_header_name_len r) (current_header_value_start r) v
    (header_count r) (content_length r) (http_major r) (http_minor r) (keep_alive r) (body_start r)
    (body_len r) (content_type_start r) (content_type_len r) (header_ptrs r) (header_lens r)
    (raw_start r) (raw_len r).
Definition set_header_count (v : Z) (r : HTTPParser) : HTTPParser :=
  mkHTTPParser (state r) (method r) (path_start r) (path_len r) (query_start r) (query_len r)
    (current_header_name_start r) (current_header_name_len r) (current_header_value_start r)
    (current_header_value_len r) v (content_length r) (http_major r) (http_minor r) (keep_alive r)
    (body_start r) (body_len r) (content_type_start r) (content_type_len r) (header_ptrs r)
    (header_lens r) (raw_start r) (raw_len r).
Definition set_content_length (v : Z) (r : HTTPParser) : HTTPParser :=
  mkHTTPParser (state r) (method r) (path_start r) (path_len r) (query_start r) (query_len r)
    (current_header_name_start r) (current_header_name_len r) (current_header_value_start r)
    (current_header_value_len r) (header_count r) v (http_major r) (http_minor r) (keep_alive r)
    (body_start r) (body_len r) (content_type_start r) (content_type_len r) (header_ptrs r)
    (header_lens r) (raw_start r) (raw_len r).
Definition set_http_major (v : Z) (r : HTTPParser) : HTTPParser :=
  mkHTTPParser (state r) (method r) (path_start r) (path_len r) (query_start r) (query_len r)
    (current_header_name_start r) (current_header_name_len r) (current_header_value_start r)
    (current_header_value_len r) (header_count r) (content_length r) v (http_minor r)
    (keep_alive r) (body_start r) (body_len r) (content_type_start r) (content_type_len r)
    (header_ptrs r) (header_lens r) (raw_start r) (raw_len r).
Definition set_http_minor (v : Z) (r : HTTPParser) : HTTPParser :=
  mkHTTPParser (state r) (method r) (path_start r) (path_len r) (query_start r) (query_len r)
    (current_header_name_start r) (current_header_name_len r) (current_header_value_start r)
    (current_header_value_len r) (header_count r) (content_length r) (http_major r) v
    (keep_alive r) (body_start r) (body_len r) (content_type_start r) (content_type_len r)
    (header_ptrs r) (header_lens r) (raw_start r) (raw_len r).
Definition set_keep_alive (v : bool) (r : HTTPParser) : HTTPParser :=
  mkHTTPParser (state r) (method r) (path_start r) (path_len r) (query_start r) (query_len r)
    (current_header_name_start r) (current_header_name_len r) (current_header_value_start r)
    (current_header_value_len r) (header_count r) (content_length r) (http_major r) (http_minor r)
    v (body_start r) (body_len r) (content_type_start r) (content_type_len r) (header_ptrs r)
    (header_lens r) (raw_start r) (raw_len r).
Definition set_body_start (v : Z) (r : HTTPParser) : HTTPParser :=
  mkHTTPParser (state r) (method r) (path_start r) (path_len r) (query_start r) (query_len r)
    (current_header_name_start r) (current_header_name_len r) (current_header_value_start r)
    (current_header_value_len r) (header_count r) (content_length r) (http_major r) (http_minor r)
    (keep_alive r) v (body_len r) (content_type_start r) (content_type_len r) (header_ptrs r)
    (header_lens r) (raw_start r) (raw_len r).
Definition set_body_len (v : Z) (r : HTTPParser) : HTTPParser :=
  mkHTTPParser (state r) (method r) (path_start r) (path_len r) (query_start r) (query_len r)
    (current_header_name_start r) (current_header_name_len r) (current_header_value_start r)
    (current_header_value_len r) (header_count r) (content_length r) (http_major r) (http_minor r)
    (keep_alive r) (body_start r) v (content_type_start r) (content_type_len r) (header_ptrs r)
    (header_lens r) (raw_start r) (raw_len r).
Definition set_content_type_start (v : Z) (r : HTTPParser) : HTTPParser :=
  mkHTTPParser (state r) (method r) (path_start r) (path_len r) (query_start r) (query_len r)
    (current_header_name_start r) (current_header_name_len r) (current_header_value_start r)
    (current_header_value_len r) (header_count r) (content_length r) (http_major r) (http_minor r)
    (keep_alive r) (body_start r) (body_len r) v (content_type_len r) (header_ptrs r)
    (header_lens r) (raw_start r) (raw_len r).
Definition set_content_type_len (v : Z) (r : HTTPParser) : HTTPParser :=
  mkHTTPParser (state r) (method r) (path_start r) (path_len r) (query_start r) (query_len r)
    (current_header_name_start r) (current_header_name_len r) (current_header_value_start r)
    (current_header_value_len r) (header_count r) (content_length r) (http_major r) (http_minor r)
    (keep_alive r) (body_start r) (body_len r) (content_type_start r) v (header_ptrs r)
    (header_lens r) (raw_start r) (raw_len r).
Definition set_header_ptrs (v : list Z) (r : HTTPParser) : HTTPParser :=
  mkHTTPParser (state r) (method r) (path_start r) (path_len r) (query_start r) (query_len r)
    (current_header_name_start r) (current_header_name_len r) (current_header_value_start r)
    (current_header_value_len r) (header_count r) (content_length r) (http_major r) (http_minor r)
    (keep_alive r) (body_start r) (body_len r) (content_type_start r) (content_type_len r) v
    (header_lens r) (raw_start r) (raw_len r).
Definition set_header_lens (v : list Z) (r : HTTPParser) : HTTPParser :=
  mkHTTPParser (state r) (method r) (path_start r) (path_len r) (query_start r) (query_len r)
    (current_header_name_start r) (current_header_name_len r) (current_header_value_start r)
    (current_header_value_len r) (header_count r) (content_length r) (http_major r) (http_minor r)
    (keep_alive r) (body_start r) (body_len r) (content_type_start r) (content_type_len r)
    (header_ptrs r) v (raw_start r) (raw_len r).
Definition set_raw_start (v : Z) (r : HTTPParser) : HTTPParser :=
  mkHTTPParser (state r) (method r) (path_start r) (path_len r) (query_start r) (query_len r)
    (current_header_name_start r) (current_header_name_len r) (current_header_value_start r)
    (current_header_value_len r) (header_count r) (content_length r) (http_major r) (http_minor r)
    (keep_alive r) (body_start r) (body_len r) (content_type_start r) (content_type_len r)
    (header_ptrs r) (header_lens r) v (raw_len r).
Definition set_raw_len (v : Z) (r : HTTPParser) : HTTPParser :=
  mkHTTPParser (state r) (method r) (path_start r) (path_len r) (query_start r) (query_len r)
    (current_header_name_start r) (current_header_name_len r) (current_header_value_start r)
    (current_header_value_len r) (header_count r) (content_length r) (http_major r) (http_minor r)
    (keep_alive r) (body_start r) (body_len r) (content_type_start r) (content_type_len r)
    (header_ptrs r) (header_lens r) (raw_start r) v.

(** ** Operations *)

(** [memset(p, 0, ...)] and the three assignments. *)
Definition http_parser_init : HTTPParser :=
  mkHTTPParser HP_METHOD_START HTTP_GET 0 0 0 0 0 0 0 0 0 0 1 1 false 0 0 0 0
    (replicate 64 0) (replicate 64 0) 0 0.

Section Memory.
Variable mem : Z -> Z.

(** The [n] bytes at [a]. *)
Definition read (a : Z) (n : nat) : list Z := map (fun j => mem (a + Z.of_nat j)) (seq 0 n).

(** [memcmp(a, s, n) == 0], for a literal [s] of [n] bytes. *)
Definition memeq (a : Z) (s : list Z) : bool := streq (read a (length s)) s.

Definition parse_method (start len : Z) : HTTPMethod :=
  if (len =? 3) && memeq start (lit "GET") then HTTP_GET
  else if (len =? 3) && memeq start (lit "PUT") then HTTP_PUT
  else if (len =? 4) && memeq start (lit "POST") then HTTP_POST
  else if (len =? 4) && memeq start (lit "HEAD") then HTTP_HEAD
  else if (len =? 5) && memeq start (lit "PATCH") then HTTP_PATCH
  else if (len =? 6) && memeq start (lit "DELETE") then HTTP_DELETE
  else if (len =? 6) && memeq start (lit "OPTIONS") then HTTP_OPTIONS
  else HTTP_UNKNOWN.

Definition is_header_char (c : Z) : bool := (32 <? c) && negb (c =? 127).

(** The first [vl] bytes of the value, at most 31, as a C string. *)
Definition value_text (p : HTTPParser) (val_len : Z) : list Z :=
  cstring (read (current_header_value_start p) (Z.to_nat (if val_len >? 31 then 31 else val_len))).

Definition lower_name (p : HTTPParser) (n : nat) : list Z :=
  map tolower (read (current_header_name_start p) n).

(** [if (name_len == 14) ...]: the content length and type. *)
Definition content_headers (name_len val_len : Z) (p : HTTPParser) : HTTPParser :=
  if name_len =? 14 then
    let p :=
      if streq (lower_name p 14) (lit "content-length")
      then set_content_length (strtoull (value_text p val_len)) p else p in
    if streq (take 12 (lower_name p 14)) (lit "content-type")
    then set_content_type_len val_len (set_content_type_start (current_header_value_start p) p)
    else p
  else p.

(** [if (name_len == 10) ...]: keep-alive. *)
Definition connection_header (name_len val_len : Z) (p : HTTPParser) : HTTPParser :=
  if name_len =? 10 then
    if streq (lower_name p 10) (lit "connection")
    then set_keep_alive (contains (map tolower (value_text p val_len)) (lit "keep-alive")) p
    else p
  else p.

Definition record_header (name_len : Z) (p : HTTPParser) : HTTPParser :=
  if header_count p <? 64 then
    let idx := header_count p in
    set_header_lens (zset (header_lens p) idx name_len)
      (set_header_ptrs (zset (header_ptrs p) idx (current_header_name_start p))
         (set_header_count (idx + 1) p))
  else p.

(** The [HP_HEADER_VALUE] case at the end of the line; [a] is [data + i]. *)
Definition end_of_header (a : Z) (p : HTTPParser) : HTTPParser :=
  let name_len := a - current_header_name_start p in
  let val_len := a - current_header_value_start p in
  set_state HP_HEADER_CRLF
    (connection_header name_len val_len
       (content_headers name_len val_len
          (record_header name_len (set_current_header_value_len val_len p)))).

(** [p->state = (c == expected) ? next : HP_SPACE_BEFORE_VERSION] *)
Definition version_char (c expected : Z) (next : HTTPParserState) (p : HTTPParser) : HTTPParser :=
  set_state (if c =? expected then next else HP_SPACE_BEFORE_VERSION) p.

(** One pass of the loop: [a] is [data + i] and [e] is [data + len].  [Some err]
    is an early return. *)
Definition step (a e : Z) (p : HTTPParser) : option HTTPParseError * HTTPParser :=
  let c := mem a in
  let p := set_raw_len (raw_len p + 1) p in
  match state p with
  | HP_METHOD_START =>
      if (c =? c_SP) || (c =? c_CR) || (c =? c_LF) then (Some HP_ERROR_INVALID_METHOD, p)
      else (None, set_state HP_METHOD (set_path_start a p))
  | HP_SPACE_BEFORE_PATH =>
      if c =? c_SLASH then (None, set_state HP_PATH (set_path_len 0 (set_path_start a p)))
      else (None, p)
  | HP_METHOD =>
      if c =? c_SP then
        let method_len := a - path_start p in
        let p := set_method (parse_method (path_start p) method_len) p in
        if decide (method p = HTTP_UNKNOWN) then (Some HP_ERROR_INVALID_METHOD, p)
        else (None, set_state HP_PATH (set_path_start (a + 1) p))
      else (None, p)
  | HP_PATH =>
      if c =? c_QMARK then
        (None, set_state HP_QUERY (set_query_start (a + 1) (set_path_len (a - path_start p) p)))
      else if c =? c_SP then
        (None, set_state HP_SPACE_BEFORE_VERSION (set_path_len (a - path_start p) p))
      else (None, p)
  | HP_QUERY =>
      if c =? c_SP then
        (None, set_state HP_SPACE_BEFORE_VERSION (set_query_len (a - query_start p) p))
      else (None, p)
  | HP_SPACE_BEFORE_VERSION =>
      if c =? 72 then (None, set_state HP_VERSION_H p) else (None, p)
  | HP_VERSION_H => (None, version_char c 84 HP_VERSION_HT p)
  | HP_VERSION_HT => (None, version_char c 84 HP_VERSION_HTT p)
  | HP_VERSION_HTT => (None, version_char c 80 HP_VERSION_HTTP p)
  | HP_VERSION_HTTP => (None, version_char c c_SLASH HP_VERSION_MAJOR p)
  | HP_VERSION_MAJOR =>
      if isdigit c then (None, set_state HP_VERSION_MINOR_START (set_http_major (c - 48) p))
      else (None, p)
  | HP_VERSION_MINOR_START =>
      if c =? c_DOT then (None, set_state HP_VERSION_MINOR p) else (None, p)
  | HP_VERSION_MINOR =>
      if isdigit c then (None, set_http_minor (c - 48) p)
      else if c =? c_CR then (None, set_state HP_CRLF_AFTER_VERSION p)
      else (None, p)
  | HP_CRLF_AFTER_VERSION =>
      (None, set_state (if c =? c_LF then HP_HEADER_START else HP_CRLF_AFTER_VERSION) p)
  | HP_HEADER_START =>
      if c =? c_CR then (None, set_state HP_HEADERS_COMPLETE_CRLF p)
      else if c =? c_LF then (None, set_state HP_BODY p)
      else if is_header_char c then
        (None, set_state HP_HEADER_NAME
                 (set_current_header_name_len 1 (set_current_header_name_start a p)))
      else (None, p)
  | HP_HEADER_NAME =>
      if c =? c_COLON then
        (None, set_state HP_HEADER_SPACE_BEFORE_VALUE
                 (set_current_header_value_len 0 (set_current_header_value_start (a + 1) p)))
      else if is_header_char c then
        (None, set_current_header_name_len (current_header_name_len p + 1) p)
      else (Some HP_ERROR_INCOMPLETE, p)
  | HP_HEADER_SPACE_BEFORE_VALUE =>
      if (c =? c_SP) || (c =? c_TAB) then (None, p)
      else
        (None, set_state HP_HEADER_VALUE
                 (set_current_header_value_len 1 (set_current_header_value_start a p)))
  | HP_HEADER_VALUE =>
      if c =? c_CR then (None, end_of_header a p) else (None, p)
  | HP_HEADER_CRLF =>
      if c =? c_LF then (None, set_state HP_HEADER_START p) else (None, p)
  | HP_HEADERS_COMPLETE_CRLF =>
      if c =? c_LF then
        (None, set_state HP_BODY (set_body_len (e - (a + 1)) (set_body_start (a + 1) p)))
      else (None, p)
  | HP_BODY => (None, set_body_len (u64 (e - body_start p)) p)
  | HP_COMPLETE => (None, p)
  end.

(** The [for] loop over the [n] bytes from [a]. *)
Fixpoint run (n : nat) (a e : Z) (p : HTTPParser) : option HTTPParseError * HTTPParser :=
  match n with
  | O => (None, p)
  | S n' =>
      match step a e p with
      | (Some err, p) => (Some err, p)
      | (None, p) => run n' (a + 1) e p
      end
  end.

(** What follows the loop. *)
Definition after_loop (p : HTTPParser) : HTTPParser :=
  if decide (state p = HP_BODY) then
    if (content_length p >? 0) && (body_len p >=? content_length p)
    then set_state HP_COMPLETE (set_body_len (content_length p) p)
    else if content_length p =? 0 then set_state HP_COMPLETE p
    else p
  else p.

Definition http_parser_execute (p : HTTPParser) (data len : Z) : HTTPParseError * HTTPParser :=
  if data =? 0 then (HP_ERROR_INTERNAL, p)
  else if decide (state p = HP_COMPLETE) then (HP_OK, p)
  else
    let p := if raw_start p =? 0 then set_raw_len 0 (set_raw_start data p) else p in
    match run (Z.to_nat len) data (data + len) p with
    | (Some err, p) => (err, p)
    | (None, p) => (HP_OK, after_loop p)
    end.

Definition http_parser_finish (p : HTTPParser) : HTTPParseError * HTTPParser :=
  match state p with
  | HP_BODY | HP_HEADER_START | HP_HEADERS_COMPLETE_CRLF => (HP_OK, set_state HP_COMPLETE p)
  | HP_COMPLETE => (HP_OK, p)
  | _ => (HP_ERROR_INCOMPLETE, p)
  end.
End Memory.

(** ** Lemmas: the loop *)

Section Properties.
Variable mem : Z -> Z.
Abbreviation step := (step mem).
Abbreviation run := (run mem).
Abbreviation http_parser_execute := (http_parser_execute mem).

Lemma run_None_seq n m a e p p' :
  run n a e p = (None, p') -> run (n + m) a e p = run m (a + Z.of_nat n) e p'.
Proof.
  revert a p. induction n as [|n IH]; intros a p Hr; cbn [HttpParser.run Nat.add] in *.
  - simplify_eq. by rewrite Z.add_0_r.
  - destruct (step a e p) as [[err|] p1]; [done|]. rewrite (IH (a + 1) p1 Hr). f_equal. lia.
Qed.

Lemma run_Some_seq n m a e p err p' :
  run n a e p = (Some err, p') -> run (n + m) a e p = (Some err, p').
Proof.
  revert a p. induction n as [|n IH]; intros a p Hr; cbn [HttpParser.run Nat.add] in *; [done|].
  destruct (step a e p) as [[err'|] p1]; [done|]. by apply IH.
Qed.

(** An invariant of the passes is one of the loop. *)
Lemma run_ind (P : Z -> HTTPParser -> Prop) n a e p o p' :
  (forall b q o q', a <= b < a + Z.of_nat n -> P b q -> step b e q = (o, q') -> P (b + 1) q') ->
  (forall b b' q, b <= b' -> P b q -> P b' q) ->
  P a p -> run n a e p = (o, p') -> P (a + Z.of_nat n) p'.
Proof.
  revert a p. induction n as [|n IH]; intros a p Hstep Hmono Hp Hr; cbn [HttpParser.run] in Hr.
  - simplify_eq. by rewrite Z.add_0_r.
  - destruct (step a e p) as [[err|] p1] eqn:Hs.
    + simplify_eq. apply (Hmono (a + 1)); [lia|]. eapply Hstep; [|done..]. lia.
    + replace (a + Z.of_nat (S n)) with (a + 1 + Z.of_nat n) by lia.
      apply (IH (a + 1) p1); [|done| |done].
      * intros b q o' q' Hb. apply Hstep. lia.
      * eapply Hstep; [|done..]. lia.
Qed.

(** Case analysis on the state of [p] and on the byte. *)
Ltac step_cases p :=
  unfold HttpParser.step, version_char; cbn [state set_raw_len]; destruct (state p) eqn:?;
  repeat case_match; simplify_eq/=; congruence.

Lemma state_end_of_header a p : state (end_of_header mem a p) = HP_HEADER_CRLF.
Proof. done. Qed.

(** Where a pass can lead; the end of the buffer matters only for the body. *)
Lemma step_end a e e' p :
  state (step a e p).2 <> HP_BODY -> step a e p = step a e' p.
Proof.
  unfold HttpParser.step. cbn [state set_raw_len].
  destruct (state p) eqn:Hs; try done. by case_match.
Qed.

Lemma step_body a e p : state p = HP_BODY -> (step a e p).1 = None /\ state (step a e p).2 = HP_BODY.
Proof. intros Hs. unfold HttpParser.step. cbn [state set_raw_len]. rewrite Hs. by split. Qed.

Lemma step_not_complete a e p : state p <> HP_COMPLETE -> state (step a e p).2 <> HP_COMPLETE.
Proof.
  intros Hp. step_cases p.
Qed.

Lemma run_body n a e p : state p = HP_BODY -> exists p', run n a e p = (None, p') /\ state p' = HP_BODY.
Proof.
  revert a p. induction n as [|n IH]; intros a p Hp; cbn [HttpParser.run]; [eauto|].
  destruct (step_body a e p Hp) as [He Hs]. destruct (step a e p) as [o p1]. cbn [fst snd] in *.
  subst o. by apply IH.
Qed.

Lemma run_not_complete n a e p o p' :
  state p <> HP_COMPLETE -> run n a e p = (o, p') -> state p' <> HP_COMPLETE.
Proof.
  intros Hp. eapply (run_ind (fun _ q => state q <> HP_COMPLETE)); [|done|exact Hp].
  intros b q o' q' _ Hq Hs. pose proof (step_not_complete b e q Hq) as Hc. by rewrite Hs in Hc.
Qed.

Lemma run_end n a e e' p o p' :
  run n a e p = (o, p') -> state p' <> HP_BODY -> run n a e' p = (o, p').
Proof.
  revert a p. induction n as [|n IH]; intros a p Hr Hb; cbn [HttpParser.run] in *; [done|].
  assert (state (step a e p).2 <> HP_BODY) as Hs.
  { intros Hs. destruct (step a e p) as [[err|] p1]; cbn [snd] in Hs; [by simplify_eq|].
    destruct (run_body n (a + 1) e p1 Hs) as (p2 & Hr2 & Hs2). rewrite Hr in Hr2. by simplify_eq. }
  rewrite <- (step_end a e e' p Hs). destruct (step a e p) as [[err|] p1]; [done|]. by apply IH.
Qed.

Lemma state_after_loop p :
  state (after_loop p) <> HP_BODY -> state (after_loop p) <> HP_COMPLETE -> state p <> HP_BODY.
Proof. unfold after_loop. intros Hb Hc Hs. destruct (decide _); [|done]. repeat case_match; done. Qed.

Lemma after_loop_id p : state p <> HP_BODY -> after_loop p = p.
Proof. unfold after_loop. intros Hs. by destruct (decide _). Qed.

(** [http_parser_execute] on a parser that has a start. *)
Definition started (data : Z) (p : HTTPParser) : HTTPParser :=
  if raw_start p =? 0 then set_raw_len 0 (set_raw_start data p) else p.

Lemma execute_eq p data len :
  data <> 0 -> state p <> HP_COMPLETE ->
  http_parser_execute p data len =
  match run (Z.to_nat len) data (data + len) (started data p) with
  | (Some err, p) => (err, p)
  | (None, p) => (HP_OK, after_loop p)
  end.
Proof.
  intros Hd Hs. unfold HttpParser.http_parser_execute. destruct (Z.eqb_spec data 0); [done|].
  by destruct (decide (state p = HP_COMPLETE)).
Qed.

Lemma step_raw_start a e p : raw_start (step a e p).2 = raw_start p.
Proof.
  unfold HttpParser.step, version_char. cbn [state set_raw_len].
  destruct (state p); repeat case_match; try done;
    unfold end_of_header, connection_header, content_headers, record_header;
    repeat case_match; done.
Qed.

Lemma run_raw_start n a e p o p' : run n a e p = (o, p') -> raw_start p' = raw_start p.
Proof.
  intros Hr. pattern p'. eapply (run_ind (fun _ q => raw_start q = raw_start p)); [|done|done|exact Hr].
  intros b q o' q' _ Hq Hs. pose proof (step_raw_start b e q) as He. rewrite Hs in He. cbn [snd] in He. congruence.
Qed.

Lemma started_state data p : state (started data p) = state p.
Proof. unfold started. by case_match. Qed.

Lemma started_start data p : data <> 0 -> raw_start (started data p) <> 0.
Proof. unfold started. destruct (Z.eqb_spec (raw_start p) 0); done. Qed.

Lemma run_error n a e p er p' : run n a e p = (Some er, p') -> er <> HP_OK.
Proof.
  revert a p. induction n as [|n IH]; intros a p; cbn [HttpParser.run]; [done|].
  destruct (step a e p) as [[er'|] q] eqn:Hs; [|apply IH]. intros Heq. simplify_eq.
  revert Hs. unfold HttpParser.step, version_char. cbn [state set_raw_len].
  destruct (state p); repeat case_match; congruence.
Qed.

(** An early return is never taken in the body. *)
Lemma run_error_state n a e p er p' : run n a e p = (Some er, p') -> state p' <> HP_BODY.
Proof.
  revert a p. induction n as [|n IH]; intros a p; cbn [HttpParser.run]; [done|].
  destruct (step a e p) as [[er'|] q] eqn:Hs; [|apply IH]. intros Heq. simplify_eq.
  revert Hs. unfold HttpParser.step, version_char. cbn [state set_raw_len].
  destruct (state p) eqn:?; repeat case_match; intros; simplify_eq/=; congruence.
Qed.

(** C17: feeding a request in two pieces is feeding it whole: while the first
    piece does not reach the end of the headers, parsing the rest from where it
    stopped gives the very parser, and the very answer, that one call on the
    whole input gives; and an error in the first piece is the error of the
    whole. *)
Theorem execute_in_pieces p data len1 len2 err p1 :
  data <> 0 -> data + len1 <> 0 -> 0 <= len1 -> 0 <= len2 -> state p <> HP_COMPLETE ->
  http_parser_execute p data len1 = (err, p1) ->
  state p1 <> HP_BODY -> state p1 <> HP_COMPLETE ->
  (err = HP_OK -> http_parser_execute p data (len1 + len2) = http_parser_execute p1 (data + len1) len2)
  /\ (err <> HP_OK -> http_parser_execute p data (len1 + len2) = (err, p1)).
Proof.
  intros Hd Hd1 Hl1 Hl2 Hp Hex Hb Hc. rewrite execute_eq in Hex by done.
  rewrite (execute_eq p data (len1 + len2)), Z2Nat.inj_add by done.
  destruct (run (Z.to_nat len1) data (data + len1) (started data p)) as [[er|] q] eqn:Hr; simplify_eq.
  - pose proof (run_end _ _ _ (data + (len1 + len2)) _ _ _ Hr Hb) as Hr'.
    rewrite (run_Some_seq _ _ _ _ _ _ _ Hr'). split; [|done].
    intros ->. by apply run_error in Hr.
  - apply state_after_loop in Hb; [|done]. rewrite after_loop_id in Hc by done.
    split; [|done]. intros _. rewrite after_loop_id by done.
    rewrite (execute_eq q (data + len1) len2) by done.
    pose proof (run_end _ _ _ (data + (len1 + len2)) _ _ _ Hr Hb) as Hr'.
    rewrite (run_None_seq _ _ _ _ _ _ Hr'), Z2Nat.id by done.
    replace (data + (len1 + len2)) with (data + len1 + len2) by lia.
    replace (started (data + len1) q) with q; [done|]. unfold started at 1.
    rewrite (run_raw_start _ _ _ _ _ _ Hr).
    destruct (Z.eqb_spec (raw_start (started data p)) 0) as [He|]; [|done].
    by apply started_start in He.
Qed.

(** ** The invariant of the parser *)

(** [s], [l] is nothing yet, or a part of what was read since [a0]. *)
Definition slice (a0 a s l : Z) : Prop := (s = 0 /\ l = 0) \/ (a0 <= s /\ 0 <= l /\ s + l <= a).

(** What the parser is in the middle of. *)
Definition pending (a0 a : Z) (p : HTTPParser) : Prop :=
  match state p with
  | HP_METHOD_START => path_len p = 0 /\ query_len p = 0
  | HP_SPACE_BEFORE_PATH => query_len p = 0
  | HP_METHOD | HP_PATH => a0 <= path_start p <= a /\ path_len p = 0 /\ query_len p = 0
  | HP_QUERY => a0 <= query_start p <= a /\ query_len p = 0
  | HP_HEADER_NAME => a0 <= current_header_name_start p < a
  | HP_HEADER_SPACE_BEFORE_VALUE =>
      exists q, a0 <= current_header_name_start p <= q /\ q < a /\ mem q = c_COLON
  | HP_HEADER_VALUE =>
      exists q, a0 <= current_header_name_start p <= q /\ q < current_header_value_start p < a
        /\ mem q = c_COLON
  | _ => True
  end.

Definition recorded (a0 a : Z) (p : HTTPParser) : Prop :=
  0 <= header_count p <= 64 /\ zlen (header_ptrs p) = 64 /\ zlen (header_lens p) = 64
  /\ forall i, 0 <= i < header_count p -> exists s l,
       znth (header_ptrs p) i = Some s /\ znth (header_lens p) i = Some l
       /\ a0 <= s /\ 0 < l /\ s + l <= a.

Definition body_in (a0 e : Z) (p : HTTPParser) : Prop :=
  body_start p = 0 \/ (a0 <= body_start p /\ 0 <= body_len p /\ body_start p + body_len p <= e).

Definition parser_inv (a0 a e : Z) (p : HTTPParser) : Prop :=
  content_length p = 0 /\ keep_alive p = false /\ pending a0 a p /\ recorded a0 a p
  /\ slice a0 a (path_start p) (path_len p) /\ slice a0 a (query_start p) (query_len p)
  /\ slice a0 a (content_type_start p) (content_type_len p) /\ body_in a0 e p.

Lemma slice_mono a0 a b s l : a <= b -> slice a0 a s l -> slice a0 b s l.
Proof. unfold slice. lia. Qed.

Lemma recorded_mono a0 a b p : a <= b -> recorded a0 a p -> recorded a0 b p.
Proof.
  intros Hab (Hc & Hp & Hl & Hi). split_and!; try done; try lia. intros i H.
  destruct (Hi i H) as (s & l & Hs & Hl' & Hb). exists s, l. split_and!; done || lia.
Qed.

Lemma pending_mono a0 a b p : a <= b -> pending a0 a p -> pending a0 b p.
Proof.
  unfold pending. intros Hab. destruct (state p); try lia.
  - intros (q & ? & ? & ?). exists q. split_and!; done || lia.
  - intros (q & ? & ? & ?). exists q. split_and!; done || lia.
Qed.

Lemma parser_inv_mono a0 a b e p : a <= b -> parser_inv a0 a e p -> parser_inv a0 b e p.
Proof.
  intros Hab (Hc & Hk & Hp & Hr & Hs1 & Hs2 & Hs3 & Hb).
  split_and!; eauto using slice_mono, recorded_mono, pending_mono.
Qed.

Lemma pending_ext a0 a p q :
  pending a0 a p -> state p = state q -> path_start p = path_start q -> path_len p = path_len q ->
  query_start p = query_start q -> query_len p = query_len q ->
  current_header_name_start p = current_header_name_start q ->
  current_header_value_start p = current_header_value_start q -> pending a0 a q.
Proof. unfold pending. by intros Hp <- <- <- <- <- <- <-. Qed.

(** A header line is never taken for [content-length] or [connection]: the
    measured name includes the colon. *)
Lemma name_has_colon n s a0 q :
  a0 <= q < a0 + Z.of_nat n -> mem q = c_COLON -> c_COLON ∉ s -> map tolower (read mem a0 n) <> s.
Proof.
  intros Hq Hm Hs <-. apply Hs. unfold read.
  rewrite map_map. apply list_elem_of_fmap. exists (Z.to_nat (q - a0)). split.
  - by replace (a0 + Z.of_nat (Z.to_nat (q - a0))) with q by lia; rewrite Hm.
  - apply elem_of_seq. lia.
Qed.

Lemma connection_header_id name_len val_len a q p :
  name_len = a - current_header_name_start p -> current_header_name_start p <= q < a ->
  mem q = c_COLON -> connection_header mem name_len val_len p = p.
Proof.
  intros -> Hq Hm. unfold connection_header. destruct (Z.eqb_spec (a - current_header_name_start p) 10); [|done].
  rewrite (proj2 (streq_false _ _)); [done|]. apply (name_has_colon _ _ _ q); [lia|done|].
  vm_compute. set_solver.
Qed.

Lemma content_headers_cases name_len val_len a q p :
  name_len = a - current_header_name_start p -> current_header_name_start p <= q < a ->
  mem q = c_COLON ->
  content_headers mem name_len val_len p = p \/
  content_headers mem name_len val_len p
  = set_content_type_len val_len (set_content_type_start (current_header_value_start p) p).
Proof.
  intros -> Hq Hm. unfold content_headers. destruct (Z.eqb_spec (a - current_header_name_start p) 14); [|by left].
  rewrite (proj2 (streq_false _ (lit "content-length"))).
  - case_match; [by right|by left].
  - apply (name_has_colon _ _ _ q); [lia|done|]. vm_compute. set_solver.
Qed.

Lemma recorded_ext a0 a p q :
  recorded a0 a p -> header_count p = header_count q -> header_ptrs p = header_ptrs q ->
  header_lens p = header_lens q -> recorded a0 a q.
Proof. unfold recorded. by intros Hp <- <- <-. Qed.

Lemma record_header_recorded a0 a p n :
  recorded a0 a p -> a0 <= current_header_name_start p -> 0 < n -> current_header_name_start p + n <= a ->
  recorded a0 a (record_header n p).
Proof.
  intros (Hc & Hp & Hl & Hi) Hs Hn Ha. unfold record_header.
  destruct (Z.ltb_spec (header_count p) 64); [|split_and!; done || lia].
  unfold recorded; simpl. rewrite !zlen_zset. split_and!; try done; try lia.
  intros i Hlt. destruct (decide (i = header_count p)) as [->|Hne].
  - rewrite !znth_zset_eq by lia. eauto 10.
  - rewrite !znth_zset_ne by done. apply Hi. lia.
Qed.

Lemma end_of_header_inv a0 a e p :
  state p = HP_HEADER_VALUE -> parser_inv a0 a e p -> parser_inv a0 (a + 1) e (end_of_header mem a p).
Proof.
  intros Hst (Hc & Hk & Hp & Hr & Hs1 & Hs2 & Hs3 & Hb).
  unfold pending in Hp. rewrite Hst in Hp. destruct Hp as (q & Hq & Hv & Hm).
  unfold end_of_header.
  set (p1 := record_header _ _).
  assert (current_header_name_start p1 = current_header_name_start p) as Hn1
    by (unfold p1, record_header; by case_match).
  assert (recorded a0 (a + 1) p1) as Hr1.
  { apply record_header_recorded; simpl; try lia. apply (recorded_mono _ a); [lia|].
    by apply (recorded_ext _ _ p). }
  assert (content_length p1 = 0 /\ keep_alive p1 = false /\ path_start p1 = path_start p
    /\ path_len p1 = path_len p /\ query_start p1 = query_start p /\ query_len p1 = query_len p
    /\ content_type_start p1 = content_type_start p /\ content_type_len p1 = content_type_len p
    /\ body_start p1 = body_start p /\ body_len p1 = body_len p
    /\ current_header_value_start p1 = current_header_value_start p)
    as (E1 & E2 & E3 & E4 & E5 & E6 & E7 & E8 & E9 & E10 & E11)
    by (unfold p1, record_header; case_match; split_and!; simpl; done).
  clearbody p1.
  assert (forall p2, recorded a0 (a + 1) p2 -> slice a0 (a + 1) (content_type_start p2) (content_type_len p2) ->
    p2 = p1 \/ p2 = set_content_type_len (a - current_header_value_start p)
                    (set_content_type_start (current_header_value_start p1) p1) ->
    parser_inv a0 (a + 1) e (set_state HP_HEADER_CRLF p2)) as Hfin.
  { intros p2 H1 H2 H3. split_and!; try exact H2; try exact H1; try done;
      destruct H3 as [-> | ->]; unfold pending, body_in in *; simpl;
      rewrite ?E1, ?E2, ?E3, ?E4, ?E5, ?E6, ?E9, ?E10; try done; eauto using slice_mono with lia.
    all: eapply slice_mono; [|done]; lia. }
  rewrite (connection_header_id _ _ a q).
  - destruct (content_headers_cases (a - current_header_name_start p) (a - current_header_value_start p) a q p1)
      as [-> | ->]; [by rewrite Hn1|by rewrite Hn1; lia|done| |].
    + apply Hfin; [done| |by left]. rewrite E7, E8. eapply slice_mono; [|done]. lia.
    + apply Hfin; [by apply (recorded_ext _ _ p1)| |by right]. right. simpl. rewrite E11. lia.
  - destruct (content_headers_cases (a - current_header_name_start p) (a - current_header_value_start p) a q p1)
      as [-> | ->]; [by rewrite Hn1|by rewrite Hn1; lia|done| |]; simpl; by rewrite Hn1.
  - destruct (content_headers_cases (a - current_header_name_start p) (a - current_header_value_start p) a q p1)
      as [-> | ->]; [by rewrite Hn1|by rewrite Hn1; lia|done| |]; simpl; rewrite Hn1; lia.
  - done.
Qed.

(** A pass that keeps everything but the state and the count of bytes. *)
Lemma inv_weaken a0 a e p q :
  parser_inv a0 a e p -> pending a0 (a + 1) q -> slice a0 (a + 1) (path_start q) (path_len q) ->
  slice a0 (a + 1) (query_start q) (query_len q) -> body_in a0 e q ->
  content_length p = content_length q -> keep_alive p = keep_alive q ->
  header_count p = header_count q -> header_ptrs p = header_ptrs q -> header_lens p = header_lens q ->
  content_type_start p = content_type_start q -> content_type_len p = content_type_len q ->
  parser_inv a0 (a + 1) e q.
Proof.
  intros (Hc & Hk & _ & Hr & _ & _ & Hs3 & _) Hp H1 H2 H3 E1 E2 E3 E4 E5 E6 E7.
  split_and!; try congruence; try done.
  - apply (recorded_ext _ _ p); try done. apply (recorded_mono _ a); [lia|done].
  - rewrite <- E6, <- E7. apply (slice_mono _ a); [lia|done].
Qed.

Lemma step_inv a0 a e p :
  0 < a0 <= a -> a < e < 2 ^ 64 -> parser_inv a0 a e p -> parser_inv a0 (a + 1) e (step a e p).2.
Proof.
  intros Ha He Hinv. pose proof Hinv as (_ & _ & Hp & _ & Hs1 & Hs2 & _ & Hb).
  assert (slice a0 (a + 1) (path_start p) (path_len p)) as Hs1' by (eapply slice_mono; [|done]; lia).
  assert (slice a0 (a + 1) (query_start p) (query_len p)) as Hs2' by (eapply slice_mono; [|done]; lia).
  destruct (decide (state p = HP_HEADER_VALUE /\ mem a = c_CR)) as [[Hst Hcr]|Hno].
  { unfold HttpParser.step. cbn [state set_raw_len]. rewrite Hst, Hcr. cbn [Z.eqb Pos.eqb snd].
    apply end_of_header_inv; [done|].
    destruct Hinv as (H1 & H2 & H3 & H4 & H5 & H6 & H7 & H8). split_and!; try done.
    all: unfold pending in *; simpl; by rewrite Hst in *. }
  unfold HttpParser.step, version_char. cbn [state set_raw_len]. unfold pending in Hp.
  destruct (state p) eqn:Hst; repeat case_match; cbn [snd];
    eapply (inv_weaken _ _ _ p); try done; unfold pending; simpl; rewrite ?Hst; btests;
    try done; try lia; try (right; simpl in *; lia).
  all: try (destruct Hp as (q & ? & ? & ?); exists q; simpl; split_and!; done || lia).
  all: try (exists a; split_and!; done || lia).
  all: try (exfalso; by apply Hno).
  unfold body_in in *; simpl. destruct Hb as [Hb|Hb]; [by left|right].
  rewrite u64_small; lia.
Qed.

(** ** Feeding *)

(** A client feeds the parser contiguous pieces of one buffer from [a0]. *)
Inductive fed (a0 : Z) : Z -> HTTPParser -> Prop :=
| fed_init : fed a0 a0 http_parser_init
| fed_execute a len p err p' :
    fed a0 a p -> 0 <= len -> a + len < 2 ^ 64 ->
    http_parser_execute p a len = (err, p') -> fed a0 (a + len) p'.

Lemma started_inv a0 a e data p : parser_inv a0 a e p -> parser_inv a0 a e (started data p).
Proof. unfold started. by case_match. Qed.

Lemma init_inv a : 0 < a -> parser_inv a a a http_parser_init.
Proof.
  intros Ha. split_and!; try done; try (by left).
  split_and!; try done. simpl. lia.
Qed.

Lemma body_in_mono a0 e e' p : e <= e' -> body_in a0 e p -> body_in a0 e' p.
Proof. unfold body_in. lia. Qed.

Lemma fed_inv a0 a p :
  0 < a0 -> fed a0 a p -> a0 <= a /\ parser_inv a0 a a p /\ state p <> HP_BODY.
Proof.
  intros H0. induction 1 as [|a len p err p' _ (Ha & Hinv & Hst) Hl He Hex].
  { split_and!; [lia| |done]. by apply init_inv. }
  split; [lia|]. unfold HttpParser.http_parser_execute in Hex.
  destruct (Z.eqb_spec a 0); [lia|].
  destruct (decide (state p = HP_COMPLETE)) as [Hc|Hc].
  { simplify_eq. split; [|done]. apply (parser_inv_mono _ a); [lia|].
    destruct Hinv as (H1 & H2 & H3 & H4 & H5 & H6 & H7 & H8). split_and!; try done.
    apply (body_in_mono _ a); [lia|done]. }
  fold (started a p) in Hex.
  destruct (run (Z.to_nat len) a (a + len) (started a p)) as [o q] eqn:Hr.
  assert (parser_inv a0 (a + len) (a + len) q) as Hq.
  { replace (a + len) with (a + Z.of_nat (Z.to_nat len)) at 1 by lia.
    apply (run_ind (fun b r => parser_inv a0 b (a + len) r) _ _ (a + len) (started a p) o).
    - intros b r o' r' Hb Hr' Hs. pose proof (step_inv a0 b (a + len) r) as Hi.
      rewrite Hs in Hi. apply Hi; [lia|lia|done].
    - intros b b' r Hb. by apply parser_inv_mono.
    - apply started_inv. destruct Hinv as (H1 & H2 & H3 & H4 & H5 & H6 & H7 & H8).
      split_and!; try done. apply (body_in_mono _ a); [lia|done].
    - done. }
  destruct o as [er|]; simplify_eq.
  - split; [done|]. intros Hb. exfalso. by eapply run_error_state.
  - destruct Hq as (H1 & H2 & H3 & H4 & H5 & H6 & H7 & H8). unfold after_loop. rewrite H1.
    destruct (decide (state q = HP_BODY)); [|by split_and!]. simpl. by split_and!.
Qed.

(** C18: whatever is fed to the parser, in however many pieces, it never goes
    beyond its tables or the input: at most 64 headers are recorded, each
    recorded header, the path, the query string, the content type and the body
    are parts of the bytes read so far. *)
Theorem parser_slices_in_bounds a0 a p :
  0 < a0 -> fed a0 a p ->
  recorded a0 a p /\ slice a0 a (path_start p) (path_len p) /\ slice a0 a (query_start p) (query_len p)
  /\ slice a0 a (content_type_start p) (content_type_len p) /\ body_in a0 a p.
Proof. intros H0 Hf. destruct (fed_inv _ _ _ H0 Hf) as (_ & (_ & _ & _ & ?) & _). naive_solver. Qed.

(** The length of a header's name is measured to the end of its line, colon
    and value included, so the tests for [content-length] and [connection] can
    never succeed: for every input the content length stays 0, the request is
    never marked keep-alive, and no parser ever waits for more of a body. *)
Theorem content_length_never_recognised a0 a p :
  0 < a0 -> fed a0 a p -> content_length p = 0 /\ keep_alive p = false /\ state p <> HP_BODY.
Proof. intros H0 Hf. destruct (fed_inv _ _ _ H0 Hf) as (_ & (? & ? & _) & ?). done. Qed.

(** ** Requests as text *)

Record request := mkRequest {
  rq_method : HTTPMethod;
  rq_path : list Z;
  rq_query : option (list Z);
  rq_major : Z;
  rq_minor : Z;
  rq_headers : list (list Z * list Z);
  rq_body : list Z
}.

Definition method_name (m : HTTPMethod) : list Z :=
  match m with
  | HTTP_GET => lit "GET" | HTTP_POST => lit "POST" | HTTP_PUT => lit "PUT"
  | HTTP_DELETE => lit "DELETE" | HTTP_HEAD => lit "HEAD" | HTTP_OPTIONS => lit "OPTIONS"
  | HTTP_PATCH => lit "PATCH" | HTTP_UNKNOWN => []
  end.

Definition header_text (h : list Z * list Z) : list Z := h.1 ++ lit ": " ++ h.2.
Definition crlf : list Z := [c_CR; c_LF].
Definition header_lines (hs : list (list Z * list Z)) : list Z :=
  concat (map (fun h => header_text h ++ crlf) hs).

Definition target (r : request) : list Z :=
  rq_path r ++ match rq_query r with Some q => c_QMARK :: q | None => [] end.

Definition print_request (r : request) : list Z :=
  (method_name (rq_method r) ++ [c_SP]) ++ (target r ++ [c_SP])
  ++ (lit "HTTP/" ++ [48 + rq_major r; c_DOT; 48 + rq_minor r] ++ crlf)
  ++ header_lines (rq_headers r) ++ crlf ++ rq_body r.

(** The requests the text form stands for without ambiguity. *)
Definition header_ok (h : list Z * list Z) : Prop :=
  h.1 <> [] /\ Forall (fun c => is_header_char c = true /\ c <> c_COLON) h.1
  /\ Forall (fun c => c <> c_CR) h.2
  /\ match h.2 with [] => False | c :: _ => c <> c_SP /\ c <> c_TAB end.

Definition request_ok (r : request) : Prop :=
  rq_method r <> HTTP_OPTIONS /\ rq_method r <> HTTP_UNKNOWN
  /\ Forall (fun c => c <> c_SP /\ c <> c_QMARK) (rq_path r)
  /\ (forall q, rq_query r = Some q -> Forall (fun c => c <> c_SP) q)
  /\ 0 <= rq_major r <= 9 /\ 0 <= rq_minor r <= 9
  /\ Forall header_ok (rq_headers r) /\ (length (rq_headers r) <= 64)%nat.

(** The bytes [s] are at [a]. *)
Definition stored_at (a : Z) (s : list Z) : Prop := read mem a (length s) = s.

Lemma read_app a n m : read mem a (n + m) = read mem a n ++ read mem (a + Z.of_nat n) m.
Proof.
  unfold read. rewrite seq_app, map_app. f_equal.
  replace (seq (0 + n) m) with (Nat.add n <$> seq 0 m) by (rewrite fmap_add_seq; f_equal; lia).
  etrans; [apply map_map|]. apply map_ext. intros j. f_equal. lia.
Qed.

Lemma stored_at_app a s t : stored_at a (s ++ t) <-> stored_at a s /\ stored_at (a + zlen s) t.
Proof.
  unfold stored_at, zlen. rewrite length_app, read_app. split.
  - intros Heq. apply app_inj_1 in Heq; [done|]. unfold read. by rewrite length_map, length_seq.
  - by intros [-> ->].
Qed.

Lemma stored_at_cons a c s : stored_at a (c :: s) <-> mem a = c /\ stored_at (a + 1) s.
Proof.
  change (c :: s) with ([c] ++ s). rewrite stored_at_app. unfold stored_at at 1, read, zlen. simpl.
  rewrite Z.add_0_r. change (Z.of_nat 1) with 1. split; intros [H ?]; split; congruence.
Qed.

(** ** Lemmas: the segments of a request *)

(** Parsers with the same fields are the same. *)
Lemma HTTPParser_ext p q :
  state p = state q -> method p = method q -> path_start p = path_start q ->
  path_len p = path_len q -> query_start p = query_start q -> query_len p = query_len q ->
  current_header_name_start p = current_header_name_start q ->
  current_header_name_len p = current_header_name_len q ->
  current_header_value_start p = current_header_value_start q ->
  current_header_value_len p = current_header_value_len q -> header_count p = header_count q ->
  content_length p = content_length q -> http_major p = http_major q ->
  http_minor p = http_minor q -> keep_alive p = keep_alive q -> body_start p = body_start q ->
  body_len p = body_len q -> content_type_start p = content_type_start q ->
  content_type_len p = content_type_len q -> header_ptrs p = header_ptrs q ->
  header_lens p = header_lens q -> raw_start p = raw_start q -> raw_len p = raw_len q -> p = q.
Proof. destruct p, q; simpl; intros; by subst. Qed.

Ltac fields :=
  lazymatch goal with |- (_, _) = (_, _) => f_equal | _ => idtac end;
  apply HTTPParser_ext; cbn -[length Z.of_nat zlen]; unfold zlen;
  rewrite ?length_app, ?app_nil_r; cbn [length]; done || lia.

Definition adv (n : Z) (p : HTTPParser) : HTTPParser := set_raw_len (raw_len p + n) p.

Lemma adv_0 p : adv 0 p = p.
Proof. unfold adv. rewrite Z.add_0_r. by destruct p. Qed.

Lemma adv_adv n m p : adv m (adv n p) = adv (n + m) p.
Proof. fields. Qed.

(** Bytes that the state passes over. *)
Lemma run_skip (ok : Z -> Prop) s a e p :
  (forall b q, state q = state p -> ok (mem b) -> step b e q = (None, adv 1 q)) ->
  stored_at a s -> Forall ok s -> run (length s) a e p = (None, adv (zlen s) p).
Proof.
  intros Hstep. generalize (eq_refl (state p)). generalize p at 1 3 4. revert a.
  induction s as [|c s IH]; intros a q Hq Hst Hok; cbn [length HttpParser.run].
  - by rewrite adv_0.
  - apply stored_at_cons in Hst as [Hc Hst]. inversion Hok; subst.
    rewrite Hstep by done. rewrite (IH (a + 1) (adv 1 q)) by done.
    rewrite adv_adv, zlen_cons. by rewrite Z.add_comm.
Qed.

Lemma run_path s a e p :
  state p = HP_PATH -> stored_at a s -> Forall (fun c => c <> c_SP /\ c <> c_QMARK) s ->
  run (length s) a e p = (None, adv (zlen s) p).
Proof.
  intros Hs. apply run_skip. intros b q Hq [H1 H2]. unfold HttpParser.step. cbn [state set_raw_len].
  rewrite Hq, Hs. by rewrite !(proj2 (Z.eqb_neq _ _)) by done.
Qed.

Lemma run_query s a e p :
  state p = HP_QUERY -> stored_at a s -> Forall (fun c => c <> c_SP) s ->
  run (length s) a e p = (None, adv (zlen s) p).
Proof.
  intros Hs. apply run_skip. intros b q Hq H1. unfold HttpParser.step. cbn [state set_raw_len].
  rewrite Hq, Hs. by rewrite !(proj2 (Z.eqb_neq _ _)) by done.
Qed.

Lemma run_value s a e p :
  state p = HP_HEADER_VALUE -> stored_at a s -> Forall (fun c => c <> c_CR) s ->
  run (length s) a e p = (None, adv (zlen s) p).
Proof.
  intros Hs. apply run_skip. intros b q Hq H1. unfold HttpParser.step. cbn [state set_raw_len].
  rewrite Hq, Hs. by rewrite !(proj2 (Z.eqb_neq _ _)) by done.
Qed.

Lemma run_name s a e p :
  state p = HP_HEADER_NAME -> stored_at a s ->
  Forall (fun c => is_header_char c = true /\ c <> c_COLON) s ->
  run (length s) a e p
  = (None, set_current_header_name_len (current_header_name_len p + zlen s) (adv (zlen s) p)).
Proof.
  intros Hs Hst Hok. revert a p Hs Hst. induction Hok as [|c s [H1 H2] _ IH]; intros a p Hs Hst;
    cbn [length HttpParser.run].
  - rewrite adv_0, Z.add_0_r. by destruct p.
  - apply stored_at_cons in Hst as [Hc Hst]. unfold HttpParser.step. cbn [state set_raw_len].
    rewrite Hs, Hc, (proj2 (Z.eqb_neq _ _) H2), H1.
    rewrite IH by done. fields.
Qed.

Lemma parse_method_name m a :
  m <> HTTP_OPTIONS -> m <> HTTP_UNKNOWN -> stored_at a (method_name m) ->
  parse_method mem a (zlen (method_name m)) = m.
Proof.
  intros H1 H2 Hs. unfold parse_method, memeq. unfold stored_at in Hs.
  destruct m; try done;
    repeat match type of Hs with read _ _ (length ?s) = _ =>
      let n := eval vm_compute in (length s) in change (length s) with n in Hs end;
    repeat match goal with |- context [zlen ?s] =>
      let n := eval vm_compute in (zlen s) in change (zlen s) with n end;
    repeat match goal with |- context [length ?s] =>
      let n := eval vm_compute in (length s) in change (length s) with n end;
    cbn [Z.eqb Pos.eqb andb]; rewrite ?Hs; reflexivity.
Qed.

Lemma method_name_chars m :
  m <> HTTP_UNKNOWN -> exists c w, method_name m = c :: w /\ c <> c_SP /\ c <> c_CR /\ c <> c_LF
    /\ Forall (fun c => c <> c_SP) w.
Proof.
  intros Hm. destruct m; try done; do 2 eexists; (split_and!; [reflexivity|done|done|done|]);
    repeat constructor; done.
Qed.

(** One pass of the loop. *)
Lemma run_step a e p p' n :
  step a e p = (None, p') -> run (S n) a e p = run n (a + 1) e p'.
Proof. intros Hs. cbn [HttpParser.run]. by rewrite Hs. Qed.

Lemma run_seq n m a e p p1 p2 :
  run n a e p = (None, p1) -> run m (a + Z.of_nat n) e p1 = (None, p2) ->
  run (n + m) a e p = (None, p2).
Proof. intros H1 H2. by rewrite (run_None_seq _ _ _ _ _ _ H1). Qed.

Lemma run_method m a e p :
  m <> HTTP_OPTIONS -> m <> HTTP_UNKNOWN -> state p = HP_METHOD_START ->
  stored_at a (method_name m ++ [c_SP]) ->
  run (length (method_name m ++ [c_SP])) a e p
  = (None, set_state HP_PATH (set_path_start (a + zlen (method_name m) + 1)
             (set_method m (adv (zlen (method_name m) + 1) p)))).
Proof.
  intros H1 H2 Hs Hst. apply stored_at_app in Hst as [Hw Hsp].
  apply stored_at_cons in Hsp as [Hsp _].
  pose proof (parse_method_name m a H1 H2 Hw) as Hm.
  destruct (method_name_chars m H2) as (c & w & Hcw & Hc1 & Hc2 & Hc3 & Hok).
  rewrite Hcw in *. apply stored_at_cons in Hw as [Hc Hw]. rewrite length_app.
  apply (run_seq _ _ _ _ _ (adv (zlen w) (set_state HP_METHOD (set_path_start a (adv 1 p))))).
  - cbn [length]. rewrite (run_step _ _ _ (set_state HP_METHOD (set_path_start a (adv 1 p)))).
    + apply (run_skip (fun c => c <> c_SP)); [|done|done]. intros b q Hq Hb.
      unfold HttpParser.step. cbn [state set_raw_len]. rewrite Hq. cbn [state set_state].
      by rewrite (proj2 (Z.eqb_neq _ _) Hb).
    + unfold HttpParser.step. cbn [state set_raw_len]. rewrite Hs, Hc.
      by rewrite !(proj2 (Z.eqb_neq _ _)) by done.
  - cbn [length]. rewrite (run_step _ _ _ (set_state HP_PATH (set_path_start (a + zlen (c :: w) + 1)
             (set_method m (adv (zlen (c :: w) + 1) p))))); [done|].
    change (Z.of_nat (S (length w))) with (zlen (c :: w)).
    unfold HttpParser.step. cbn [state set_raw_len adv set_state].
    rewrite Hsp, Z.eqb_refl. cbn [path_start adv set_raw_len set_state set_path_start].
    replace (a + zlen (c :: w) - a) with (zlen (c :: w)) by lia. rewrite Hm.
    cbn [method set_method]. rewrite decide_False by done.
    fields.
Qed.


(** Run one pass on a known byte in a known state. *)
Ltac pass Hst Hc :=
  unfold HttpParser.step, version_char; cbn [state set_raw_len set_state]; rewrite Hst, Hc.

Definition after_target (r : request) (a : Z) (p : HTTPParser) : HTTPParser :=
  let p := adv (zlen (target r) + 1) (set_path_len (zlen (rq_path r)) p) in
  set_state HP_SPACE_BEFORE_VERSION
    (match rq_query r with
     | None => p
     | Some q => set_query_len (zlen q) (set_query_start (a + zlen (rq_path r) + 1) p)
     end).

Lemma run_target r a e p :
  request_ok r -> state p = HP_PATH -> path_start p = a ->
  stored_at a (target r ++ [c_SP]) ->
  run (length (target r ++ [c_SP])) a e p = (None, after_target r a p).
Proof.
  intros (_ & _ & Hpath & Hq & _) Hs Hstart Hst. unfold after_target, target in *.
  rewrite <- app_assoc in *. apply stored_at_app in Hst as [Hp Hst]. rewrite length_app.
  eapply run_seq; [by apply run_path|]. fold (zlen (rq_path r)).
  destruct (rq_query r) as [q|].
  - simpl in Hst. apply stored_at_cons in Hst as [Hc Hst]. apply stored_at_app in Hst as [Hqs Hsp].
    apply stored_at_cons in Hsp as [Hsp _]. cbn [app length].
    set (p1 := set_state HP_QUERY (set_query_start (a + zlen (rq_path r) + 1)
                 (set_path_len (zlen (rq_path r)) (adv (zlen (rq_path r) + 1) p)))).
    rewrite (run_step _ _ _ p1).
    + rewrite length_app. eapply run_seq; [apply run_query; [done|done|by apply Hq]|].
      fold (zlen q). cbn [length]. erewrite run_step; [reflexivity|].
      unfold HttpParser.step. cbn [state set_raw_len adv p1 set_state]. rewrite Hsp. cbn [Z.eqb Pos.eqb].
      fields.
    + unfold HttpParser.step. cbn [state set_raw_len adv]. rewrite Hs, Hc. cbn [Z.eqb Pos.eqb].
      fields.
  - simpl in Hst. apply stored_at_cons in Hst as [Hsp _]. cbn [app length].
    erewrite run_step; [reflexivity|].
    unfold HttpParser.step. cbn [state set_raw_len adv]. rewrite Hs, Hsp. cbn [Z.eqb Pos.eqb].
    fields.
Qed.

Definition after_version (r : request) (p : HTTPParser) : HTTPParser :=
  set_state HP_HEADER_START (set_http_minor (rq_minor r) (set_http_major (rq_major r) (adv 10 p))).

Lemma isdigit_spec c : isdigit c = true <-> 48 <= c <= 57.
Proof. unfold isdigit. rewrite andb_true_iff, !Z.leb_le. done. Qed.

Lemma run_version r a e p :
  request_ok r -> state p = HP_SPACE_BEFORE_VERSION ->
  stored_at a (lit "HTTP/" ++ [48 + rq_major r; c_DOT; 48 + rq_minor r] ++ crlf) ->
  run (length (lit "HTTP/" ++ [48 + rq_major r; c_DOT; 48 + rq_minor r] ++ crlf)) a e p
  = (None, after_version r p).
Proof.
  intros (_ & _ & _ & _ & Hmaj & Hmin & _) Hs Hst.
  change (lit "HTTP/" ++ [48 + rq_major r; c_DOT; 48 + rq_minor r] ++ crlf)
    with [72; 84; 84; 80; 47; 48 + rq_major r; 46; 48 + rq_minor r; 13; 10] in *.
  repeat (apply stored_at_cons in Hst as [?Hc Hst]). cbn [length].
  assert (isdigit (48 + rq_major r) = true) as Hd1 by (apply isdigit_spec; lia).
  assert (isdigit (48 + rq_minor r) = true) as Hd2 by (apply isdigit_spec; lia).
  do 10 (erewrite run_step; cycle 1;
    [unfold HttpParser.step, version_char; cbn [state set_raw_len set_state]; rewrite ?Hs;
     repeat match goal with H : mem ?a = _ |- context [mem ?a] => rewrite H end;
     rewrite ?Hd1, ?Hd2; cbn [Z.eqb Pos.eqb]; reflexivity|]).
  cbn [HttpParser.run]. fields.
Qed.

(** What the header lines leave as it was. *)
Definition same_line (p p' : HTTPParser) : Prop :=
  method p' = method p /\ path_start p' = path_start p /\ path_len p' = path_len p
  /\ query_start p' = query_start p /\ query_len p' = query_len p
  /\ http_major p' = http_major p /\ http_minor p' = http_minor p
  /\ content_length p' = content_length p.

(** The [i]-th header on record is the line [h]. *)
Definition has_header (p : HTTPParser) (i : Z) (h : list Z * list Z) : Prop :=
  exists s, znth (header_ptrs p) i = Some s
    /\ znth (header_lens p) i = Some (zlen (header_text h)) /\ stored_at s (header_text h).

Definition tables_ok (p : HTTPParser) : Prop :=
  0 <= header_count p /\ zlen (header_ptrs p) = 64 /\ zlen (header_lens p) = 64.

(** The end of a header line records the line. *)
Lemma run_header_end b e p q :
  state p = HP_HEADER_VALUE -> mem b = c_CR -> mem (b + 1) = c_LF ->
  current_header_name_start p <= q < b -> mem q = c_COLON -> header_count p < 64 ->
  exists p', run 2 b e p = (None, p') /\ state p' = HP_HEADER_START /\ same_line p p'
    /\ header_count p' = header_count p + 1
    /\ header_ptrs p' = zset (header_ptrs p) (header_count p) (current_header_name_start p)
    /\ header_lens p' = zset (header_lens p) (header_count p) (b - current_header_name_start p).
Proof.
  intros Hs Hcr Hlf Hq Hm Hc.
  erewrite run_step; cycle 1.
  { unfold HttpParser.step. cbn [state set_raw_len]. rewrite Hs, Hcr. reflexivity. }
  erewrite run_step; cycle 1.
  { unfold HttpParser.step. cbn [state set_raw_len]. rewrite state_end_of_header, Hlf. reflexivity. }
  eexists. split; [reflexivity|]. split; [done|]. unfold end_of_header.
  set (p1 := record_header _ _).
  assert (current_header_name_start p1 = current_header_name_start p) as Hn
    by (unfold p1, record_header; by case_match).
  destruct (content_headers_cases (b - current_header_name_start p) (b - current_header_value_start p) b q p1)
    as [He|He]; rewrite ?Hn; try done.
  all: cbn [current_header_name_start current_header_value_start set_current_header_value_len set_raw_len] in *.
  all: rewrite He, (connection_header_id _ _ b q); try (cbn; rewrite ?Hn; done || lia).
  all: unfold p1, record_header; cbn [header_count set_current_header_value_len set_raw_len].
  all: destruct (Z.ltb_spec (header_count p) 64); [|lia].
  all: split_and!; cbn; try done; split_and!; done.
Qed.

Lemma run_header h a e p :
  header_ok h -> state p = HP_HEADER_START -> stored_at a (header_text h ++ crlf) ->
  header_count p < 64 -> tables_ok p ->
  exists p', run (length (header_text h ++ crlf)) a e p = (None, p')
    /\ state p' = HP_HEADER_START /\ same_line p p' /\ header_count p' = header_count p + 1
    /\ tables_ok p' /\ has_header p' (header_count p) h
    /\ forall i g, 0 <= i < header_count p -> has_header p i g -> has_header p' i g.
Proof.
  destruct h as [[|n name] value]; intros (Hne & Hname & Hval & Hfirst) Hs Hst Hcount Htab; [done|].
  destruct value as [|v value]; [done|]. cbn [fst snd] in *. inversion Hname as [|? ? [Hn1 Hn2] Hname']. subst.
  inversion Hval as [|? ? Hv Hval']. subst. destruct Hfirst as [Hf1 Hf2].
  assert (stored_at a (header_text (n :: name, v :: value))) as Htext
    by (by apply stored_at_app in Hst as [? _]).
  set (len := zlen (header_text (n :: name, v :: value))).
  replace (length (header_text (n :: name, v :: value) ++ crlf))
    with (S (length name + S (S (S (length value + 2)))))%nat
    by (rewrite length_app; unfold header_text; rewrite !length_app; simpl; lia).
  unfold header_text in Hst; cbn [fst snd] in Hst.
  replace (((n :: name) ++ lit ": " ++ v :: value) ++ crlf)
    with (n :: name ++ c_COLON :: c_SP :: v :: value ++ crlf) in Hst
    by (simpl; by rewrite <- app_assoc).
  apply stored_at_cons in Hst as [H1 Hst]. apply stored_at_app in Hst as [Hsn Hst].
  apply stored_at_cons in Hst as [H2 Hst]. apply stored_at_cons in Hst as [H3 Hst].
  apply stored_at_cons in Hst as [H4 Hst]. apply stored_at_app in Hst as [Hsv Hst].
  apply stored_at_cons in Hst as [H5 Hst]. apply stored_at_cons in Hst as [H6 _].
  assert (n <> c_CR /\ n <> c_LF) as [Hcr Hlf].
  { unfold is_header_char in Hn1. btests. lia. }
  erewrite run_step; cycle 1.
  { unfold HttpParser.step. cbn [state set_raw_len]. rewrite Hs, H1, Hn1.
    rewrite !(proj2 (Z.eqb_neq _ _)) by done. reflexivity. }
  erewrite run_None_seq by (apply run_name; [done|done|exact Hname']).
  fold (zlen name).
  erewrite run_step; cycle 1.
  { unfold HttpParser.step. cbn [state set_raw_len adv set_state set_current_header_name_len]. rewrite H2.
    reflexivity. }
  erewrite run_step; cycle 1.
  { unfold HttpParser.step. cbn [state set_raw_len adv set_state set_current_header_name_len]. rewrite H3.
    reflexivity. }
  erewrite run_step; cycle 1.
  { unfold HttpParser.step. cbn [state set_raw_len adv set_state set_current_header_name_len]. rewrite H4.
    rewrite !(proj2 (Z.eqb_neq _ _)) by done. reflexivity. }
  erewrite run_None_seq by (apply run_value; [done|done|exact Hval']).
  fold (zlen value).
  match goal with |- context [run 2 _ _ ?x] => set (p1 := x) end.
  assert (state p1 = HP_HEADER_VALUE /\ same_line p p1 /\ header_count p1 = header_count p
    /\ header_ptrs p1 = header_ptrs p /\ header_lens p1 = header_lens p
    /\ current_header_name_start p1 = a
    /\ current_header_value_start p1 = a + 1 + zlen name + 1 + 1)
    as (E1 & E2 & E3 & E4 & E5 & E6 & E7) by (split_and!; try reflexivity; split_and!; reflexivity).
  clearbody p1. set (b := a + 1 + zlen name + 1 + 1 + 1 + zlen value) in *.
  assert (b - a = len) as Hlen.
  { unfold len, header_text, b. rewrite !zlen_app. cbn [fst snd]. rewrite !zlen_cons. unfold zlen; simpl; lia. }
  assert (exists p2, run 2 b e p1 = (None, p2) /\ state p2 = HP_HEADER_START /\ same_line p1 p2
    /\ header_count p2 = header_count p1 + 1
    /\ header_ptrs p2 = zset (header_ptrs p1) (header_count p1) a
    /\ header_lens p2 = zset (header_lens p1) (header_count p1) len)
    as (p2 & Hr & S1 & S2 & S3 & S4 & S5).
  { destruct (run_header_end b e p1 (a + 1 + zlen name)) as (p2 & H); try done.
    - unfold b. pose proof (zlen_nonneg name). pose proof (zlen_nonneg value). lia.
    - lia.
    - rewrite E6, Hlen in H. eauto. }
  destruct Htab as (T1 & T2 & T3).
  exists p2. split_and!; try done.
  - unfold same_line in *. intuition congruence.
  - congruence.
  - unfold tables_ok. rewrite S3, S4, S5, E3, E4, E5, !zlen_zset. split_and!; done || lia.
  - unfold has_header. rewrite S4, S5, E3, E4, E5, !znth_zset_eq by lia. eauto.
  - intros i g Hi. unfold has_header. rewrite S4, S5, E3, E4, E5, !znth_zset_ne by lia. done.
Qed.

Lemma same_line_trans p q r : same_line p q -> same_line q r -> same_line p r.
Proof. unfold same_line. intuition congruence. Qed.

Lemma run_headers hs a e p :
  Forall header_ok hs -> state p = HP_HEADER_START -> stored_at a (header_lines hs) ->
  tables_ok p -> header_count p + zlen hs <= 64 ->
  exists p', run (length (header_lines hs)) a e p = (None, p')
    /\ state p' = HP_HEADER_START /\ same_line p p' /\ header_count p' = header_count p + zlen hs
    /\ (forall i h, hs !! i = Some h -> has_header p' (header_count p + Z.of_nat i) h)
    /\ forall i g, 0 <= i < header_count p -> has_header p i g -> has_header p' i g.
Proof.
  intros Hok. revert a p. induction Hok as [|h hs Hh _ IH]; intros a p Hs Hst Htab Hcount.
  { exists p. split_and!; try done; try (split_and!; done); rewrite ?Z.add_0_r; done. }
  cbn [header_lines map concat] in *. fold (header_lines hs) in *.
  rewrite zlen_cons in *. pose proof (zlen_nonneg hs).
  apply stored_at_app in Hst as [Hst1 Hst2].
  destruct (run_header h a e p) as (p1 & Hr1 & S1 & L1 & C1 & T1 & H1 & K1); try done; [lia|].
  destruct (IH (a + zlen (header_text h ++ crlf)) p1) as (p2 & Hr2 & S2 & L2 & C2 & H2 & K2); try done; [lia|].
  exists p2. split_and!.
  - rewrite length_app. by apply (run_seq _ _ _ _ _ p1).
  - done.
  - by eapply same_line_trans.
  - lia.
  - intros [|i] g Hg; simplify_eq/=.
    + rewrite Z.add_0_r. destruct Htab. apply K2; [lia|done].
    + specialize (H2 i g Hg). rewrite C1 in H2.
      by replace (header_count p + Z.of_nat (S i)) with (header_count p + 1 + Z.of_nat i) by lia.
  - intros i g Hi Hg. apply K2; [lia|]. by apply K1.
Qed.

Lemma run_in_body n a e p :
  state p = HP_BODY -> 0 <= e - body_start p < 2 ^ 64 -> body_len p = e - body_start p ->
  run n a e p = (None, adv (Z.of_nat n) p).
Proof.
  revert a p. induction n as [|n IH]; intros a p Hs Hr Hb.
  - cbn [HttpParser.run]. by rewrite adv_0.
  - erewrite run_step; cycle 1.
    { unfold HttpParser.step. cbn [state set_raw_len]. rewrite Hs. reflexivity. }
    rewrite IH; cbn; try done; rewrite ?u64_small by done; [|done].
    f_equal. apply HTTPParser_ext; cbn -[Z.of_nat]; rewrite ?u64_small by done; done || lia.
Qed.

(** The part of a request before its headers. *)
Lemma run_request_line r a e p :
  request_ok r -> state p = HP_METHOD_START ->
  stored_at a ((method_name (rq_method r) ++ [c_SP]) ++ (target r ++ [c_SP])
    ++ lit "HTTP/" ++ [48 + rq_major r; c_DOT; 48 + rq_minor r] ++ crlf) ->
  exists p', run (length (method_name (rq_method r) ++ [c_SP]) + (length (target r ++ [c_SP])
      + length (lit "HTTP/" ++ [48 + rq_major r; c_DOT; 48 + rq_minor r] ++ crlf))) a e p = (None, p')
    /\ state p' = HP_HEADER_START /\ method p' = rq_method r
    /\ (stored_at (path_start p') (rq_path r) /\ path_len p' = zlen (rq_path r) /\ a < path_start p')
    /\ match rq_query r with
       | Some q => stored_at (query_start p') q /\ query_len p' = zlen q
       | None => query_start p' = query_start p
       end
    /\ http_major p' = rq_major r /\ http_minor p' = rq_minor r
    /\ header_count p' = header_count p /\ header_ptrs p' = header_ptrs p
    /\ header_lens p' = header_lens p /\ content_length p' = content_length p.
Proof.
  intros Hok Hs Hst. pose proof Hok as (Hm1 & Hm2 & _).
  apply stored_at_app in Hst as [Sm Hst]. apply stored_at_app in Hst as [St Sv].
  set (b := a + zlen (method_name (rq_method r) ++ [c_SP])) in *.
  assert (b = a + zlen (method_name (rq_method r)) + 1) as Hb
    by (unfold b; rewrite zlen_app; unfold zlen; simpl; lia).
  eexists. split.
  { eapply run_seq; [by apply run_method|].
    eapply run_seq; [apply run_target; try done|].
    apply run_version; [done|done|exact Sv]. }
  rewrite <- Hb. fold b. unfold after_version, after_target. cbn [path_start set_state].
  unfold target in St. rewrite <- app_assoc in St. apply stored_at_app in St as [Sp St].
  destruct (rq_query r) as [q|] eqn:Hq; cbn -[zlen]; rewrite <- ?Hb; split_and!; try done.
  1,3: pose proof (zlen_nonneg (method_name (rq_method r))); lia.
  simpl in St. apply stored_at_cons in St as [_ St]. by apply stored_at_app in St as [St _].
Qed.

(** The blank line and the body. *)
Lemma run_blank_and_body a e body p :
  state p = HP_HEADER_START -> stored_at a (crlf ++ body) -> e = a + 2 + zlen body -> 0 < a ->
  e < 2 ^ 64 ->
  exists p', run (length crlf + length body) a e p = (None, p')
    /\ state p' = HP_BODY /\ body_start p' = a + 2 /\ body_len p' = zlen body /\ same_line p p'
    /\ header_count p' = header_count p /\ header_ptrs p' = header_ptrs p
    /\ header_lens p' = header_lens p.
Proof.
  intros Hs Hst He Ha Hmax. simpl in Hst. apply stored_at_cons in Hst as [H1 Hst].
  apply stored_at_cons in Hst as [H2 Hst]. cbn [crlf length Nat.add].
  pose proof (zlen_nonneg body).
  eexists. split.
  { erewrite run_step; cycle 1.
    { unfold HttpParser.step. cbn [state set_raw_len]. rewrite Hs, H1. reflexivity. }
    erewrite run_step; cycle 1.
    { unfold HttpParser.step. cbn [state set_raw_len set_state]. rewrite H2. reflexivity. }
    apply run_in_body; cbn; done || lia. }
  cbn -[zlen]. split_and!; try done; try lia; split_and!; done.
Qed.

Lemma stored_read a s n : stored_at a s -> n = zlen s -> read mem a (Z.to_nat n) = s.
Proof. unfold stored_at, zlen. intros Hs ->. by rewrite Nat2Z.id. Qed.

(** A call whose bytes are consumed in three runs and end in the body of a
    message that announced no content ends the message. *)
Lemma execute_three data len n1 n2 n3 p1 p2 p3 :
  0 < data -> len = Z.of_nat (n1 + (n2 + n3)) ->
  run n1 data (data + len) (started data http_parser_init) = (None, p1) ->
  run n2 (data + Z.of_nat n1) (data + len) p1 = (None, p2) ->
  run n3 (data + Z.of_nat n1 + Z.of_nat n2) (data + len) p2 = (None, p3) ->
  state p3 = HP_BODY -> content_length p3 = 0 ->
  http_parser_execute http_parser_init data len = (HP_OK, set_state HP_COMPLETE p3).
Proof.
  intros Hd Hlen R1 R2 R3 S3 N3. rewrite execute_eq by (done || lia).
  replace (Z.to_nat len) with (n1 + (n2 + n3))%nat by lia.
  rewrite (run_seq _ _ _ _ _ p1 p3); [|exact R1|].
  - unfold after_loop. rewrite N3. by rewrite decide_True by done.
  - by apply (run_seq _ _ _ _ _ p2).
Qed.

(** What a whole request leaves in the parser. *)
Lemma print_parsed r data :
  request_ok r -> 0 < data -> data + zlen (print_request r) < 2 ^ 64 ->
  stored_at data (print_request r) ->
  exists p, http_parser_execute http_parser_init data (zlen (print_request r)) = (HP_OK, p)
    /\ state p = HP_COMPLETE /\ method p = rq_method r
    /\ read mem (path_start p) (Z.to_nat (path_len p)) = rq_path r
    /\ match rq_query r with
       | Some q => read mem (query_start p) (Z.to_nat (query_len p)) = q
       | None => query_start p = 0
       end
    /\ http_major p = rq_major r /\ http_minor p = rq_minor r
    /\ header_count p = zlen (rq_headers r)
    /\ (forall i h, rq_headers r !! i = Some h -> has_header p (Z.of_nat i) h)
    /\ read mem (body_start p) (Z.to_nat (body_len p)) = rq_body r
    /\ path_len p = zlen (rq_path r) /\ data < path_start p
    /\ body_len p = zlen (rq_body r) /\ data < body_start p.
Proof.
  intros Hok Hd Hmax Hst. unfold print_request in Hst.
  set (line := lit "HTTP/" ++ _ ++ crlf) in Hst.
  rewrite (app_assoc (target r ++ [c_SP])) in Hst. rewrite (app_assoc (method_name _ ++ _)) in Hst.
  apply stored_at_app in Hst as [Sl Hst]. apply stored_at_app in Hst as [Sh Sb].
  set (e := data + zlen (print_request r)) in *.
  set (p0 := started data http_parser_init).
  destruct (run_request_line r data e p0 Hok) as
    (p1 & R1 & S1 & M1 & (P1 & L1 & A1) & Q1 & V1 & W1 & C1 & T1 & U1 & N1); [done|exact Sl|].
  pose proof Hok as (_ & _ & _ & _ & _ & _ & Hhs & Hlen).
  assert (header_count p1 = 0 /\ content_length p1 = 0) as [C1' N1'] by done.
  destruct (run_headers (rq_headers r) (data + zlen ((method_name (rq_method r) ++ [c_SP]) ++ (target r ++ [c_SP]) ++ line)) e p1) as
    (p2 & R2 & S2 & L2 & C2 & H2 & _); try done.
  { split_and!; [lia|by rewrite T1|by rewrite U1]. }
  { rewrite C1'. unfold zlen. lia. }
  destruct (run_blank_and_body (data + zlen ((method_name (rq_method r) ++ [c_SP]) ++ (target r ++ [c_SP]) ++ line)
    + zlen (header_lines (rq_headers r))) e (rq_body r) p2) as
    (p3 & R3 & S3 & B3 & D3 & L3 & C3 & T3 & U3); try done.
  { unfold e, print_request, line, zlen. rewrite !length_app. cbn [length crlf]. lia. }
  { pose proof (zlen_nonneg (header_lines (rq_headers r))).
    pose proof (zlen_nonneg ((method_name (rq_method r) ++ [c_SP]) ++ (target r ++ [c_SP]) ++ line)). lia. }
  exists (set_state HP_COMPLETE p3).
  assert (zlen ((method_name (rq_method r) ++ [c_SP]) ++ (target r ++ [c_SP]) ++ line)
    = Z.of_nat (length (method_name (rq_method r) ++ [c_SP])
                + (length (target r ++ [c_SP]) + length line))) as Hn
    by (unfold zlen; rewrite !length_app; lia).
  assert (content_length p3 = 0) as N3 by (unfold same_line in *; intuition congruence).
  split.
  { rewrite Hn in R2, R3. eapply execute_three; [done| |exact R1|exact R2|exact R3|done|done].
    unfold print_request, line, zlen. rewrite !length_app. lia. }
  destruct L2 as (? & ? & ? & ? & ? & ? & ? & ?), L3 as (? & ? & ? & ? & ? & ? & ? & ?).
  assert (path_start p3 = path_start p1 /\ path_len p3 = path_len p1 /\ query_start p3 = query_start p1
    /\ query_len p3 = query_len p1) as (K1 & K2 & K3 & K4) by (split_and!; congruence).
  pose proof (zlen_nonneg (header_lines (rq_headers r))).
  pose proof (zlen_nonneg ((method_name (rq_method r) ++ [c_SP]) ++ (target r ++ [c_SP]) ++ line)).
  cbn -[zlen]. split_and!; try congruence; try lia.
  - rewrite K1, K2. by apply stored_read.
  - destruct (rq_query r) as [q|]; [|by rewrite K3, Q1].
    destruct Q1 as [Q1 Q2]. rewrite K3, K4. by apply stored_read.
  - intros i h Hi. specialize (H2 i h Hi). rewrite C1', Z.add_0_l in H2.
    unfold has_header in *. cbn. by rewrite T3, U3.
  - apply stored_read; [|done]. apply stored_at_app in Sb as [_ Sb]. by rewrite B3.
Qed.

(** C9: print and parse: a request written in the text form of HTTP/1 and parsed
    in one call gives back its method, path, query string, version, each of its
    headers in order, and its body.  The request has a known method other than OPTIONS, which the parser does not know,
    a path without space and question mark, a query string without space, a version of two single digits, and at most 64
    headers; a name of a header is not empty and has bytes above 32 other than 127 and the colon; a value is not empty, does
    not begin with a space or a tab, and has no CR (an empty value takes in the next header: [empty_value_swallows_next_header]).  The
    text ends below address 2^64. *)
Theorem parse_print r data :
  request_ok r -> 0 < data -> data + zlen (print_request r) < 2 ^ 64 ->
  stored_at data (print_request r) ->
  exists p, http_parser_execute http_parser_init data (zlen (print_request r)) = (HP_OK, p)
    /\ state p = HP_COMPLETE /\ method p = rq_method r
    /\ read mem (path_start p) (Z.to_nat (path_len p)) = rq_path r
    /\ match rq_query r with
       | Some q => read mem (query_start p) (Z.to_nat (query_len p)) = q
       | None => query_start p = 0
       end
    /\ http_major p = rq_major r /\ http_minor p = rq_minor r
    /\ header_count p = zlen (rq_headers r)
    /\ (forall i h, rq_headers r !! i = Some h -> has_header p (Z.of_nat i) h)
    /\ read mem (body_start p) (Z.to_nat (body_len p)) = rq_body r.
Proof.
  intros Hok Hd Hmax Hst. destruct (print_parsed r data Hok Hd Hmax Hst) as (p & E). exists p. tauto.
Qed.

(** A header with an empty value: the carriage return that ends its line is
    taken for the first byte of the value, so the line runs on and the next
    header line is swallowed. *)
Theorem empty_value_swallows_next_header name next a e p :
  Forall (fun c => is_header_char c = true /\ c <> c_COLON) name -> name <> [] ->
  Forall (fun c => c <> c_CR) next -> state p = HP_HEADER_START ->
  stored_at a (name ++ [c_COLON; c_CR; c_LF] ++ next ++ crlf) -> header_count p < 64 ->
  tables_ok p ->
  exists p', run (length (name ++ [c_COLON; c_CR; c_LF] ++ next ++ crlf)) a e p = (None, p')
    /\ state p' = HP_HEADER_START /\ header_count p' = header_count p + 1
    /\ znth (header_ptrs p') (header_count p) = Some a
    /\ znth (header_lens p') (header_count p) = Some (zlen (name ++ [c_COLON; c_CR; c_LF] ++ next)).
Proof.
  intros Hname Hne Hnext Hs Hst Hc (T1 & T2 & T3). destruct name as [|n name]; [done|].
  inversion Hname as [|? ? [Hn1 Hn2] Hname']. subst.
  replace (length ((n :: name) ++ [c_COLON; c_CR; c_LF] ++ next ++ crlf))
    with (S (length name + S (S (S (length next + 2)))))%nat by (unfold crlf; simpl; rewrite !length_app; simpl; rewrite !length_app; simpl; lia).
  cbn [app] in Hst. apply stored_at_cons in Hst as [H1 Hst]. apply stored_at_app in Hst as [Hsn Hst].
  apply stored_at_cons in Hst as [H2 Hst]. apply stored_at_cons in Hst as [H3 Hst].
  apply stored_at_cons in Hst as [H4 Hst]. apply stored_at_app in Hst as [Hsx Hst].
  apply stored_at_cons in Hst as [H5 Hst]. apply stored_at_cons in Hst as [H6 _].
  assert (n <> c_CR /\ n <> c_LF) as [Hcr Hlf] by (unfold is_header_char in Hn1; btests; lia).
  erewrite run_step; cycle 1.
  { unfold HttpParser.step. cbn [state set_raw_len]. rewrite Hs, H1, Hn1.
    rewrite !(proj2 (Z.eqb_neq _ _)) by done. reflexivity. }
  erewrite run_None_seq by (apply run_name; [done|done|exact Hname']). fold (zlen name).
  do 2 (erewrite run_step; cycle 1;
    [unfold HttpParser.step; cbn [state set_raw_len adv set_state set_current_header_name_len];
     first [rewrite H2|rewrite H3]; reflexivity|]).
  erewrite run_step; cycle 1.
  { unfold HttpParser.step. cbn [state set_raw_len set_state]. rewrite H4. reflexivity. }
  erewrite run_None_seq by (apply run_value; [done|done|exact Hnext]). fold (zlen next).
  match goal with |- context [run 2 ?b _ ?x] =>
    destruct (run_header_end b e x (a + 1 + zlen name)) as (p2 & R & S2 & _ & C2 & P2 & L2); try done end.
  { cbn -[zlen]. pose proof (zlen_nonneg name). pose proof (zlen_nonneg next). lia. }
  exists p2. split_and!; [exact R|done|exact C2| |].
  - rewrite P2. apply znth_zset_eq. cbn -[zlen]. lia.
  - rewrite L2. cbn -[zlen]. rewrite znth_zset_eq by lia. f_equal.
    unfold zlen. simpl. rewrite !length_app. simpl. lia.
Qed.
End Properties.

(** ** Witnesses *)

(** A memory that holds [s] at address [a]. *)
Definition mem_of (a : Z) (s : list Z) (x : Z) : Z := default 0 (znth s (x - a)).

Definition demo_request : request :=
  mkRequest HTTP_POST (lit "/v1/chat") (Some (lit "a=1")) 1 1
    [(lit "Host", lit "example.org"); (lit "Content-Length", lit "2")] (lit "hi").

Definition demo_text : list Z := Eval vm_compute in print_request demo_request.

Lemma demo_request_ok : request_ok demo_request.
Proof.
  split_and!; try done; simpl; try lia.
  - repeat constructor; done.
  - intros q [= <-]. repeat constructor; done.
  - repeat constructor; simpl; done.
Qed.

Lemma parse_print_witness :
  exists p, http_parser_execute (mem_of 1000 demo_text) http_parser_init 1000 70 = (HP_OK, p)
    /\ method p = HTTP_POST /\ header_count p = 2.
Proof.
  destruct (parse_print (mem_of 1000 demo_text) demo_request 1000) as (p & Hp & _ & Hm & _ & _ & _ & _ & Hc & _);
    [exact demo_request_ok|lia|vm_compute; reflexivity|vm_compute; reflexivity|].
  exists p. split; [exact Hp|]. split; [exact Hm|exact Hc].
Defined.

Definition half_parsed : HTTPParser :=
  Eval vm_compute in (http_parser_execute (mem_of 1000 demo_text) http_parser_init 1000 30).2.

Lemma execute_in_pieces_witness :
  http_parser_execute (mem_of 1000 demo_text) http_parser_init 1000 (30 + 40)
  = http_parser_execute (mem_of 1000 demo_text) half_parsed 1030 40.
Proof.
  apply (execute_in_pieces (mem_of 1000 demo_text) http_parser_init 1000 30 40 HP_OK half_parsed);
    [lia|lia|lia|lia|discriminate|vm_compute; reflexivity|discriminate|discriminate|reflexivity].
Defined.

Lemma half_parsed_fed : fed (mem_of 1000 demo_text) 1000 1030 half_parsed.
Proof.
  apply (fed_execute _ _ 1000 30 http_parser_init HP_OK); [constructor|lia|lia|vm_compute; reflexivity].
Qed.

Lemma parser_slices_in_bounds_witness : body_in 1000 1030 half_parsed.
Proof.
  apply (parser_slices_in_bounds (mem_of 1000 demo_text) 1000 1030 half_parsed);
    [lia|exact half_parsed_fed].
Defined.

Definition whole_parsed : HTTPParser :=
  Eval vm_compute in (http_parser_execute (mem_of 1000 demo_text) half_parsed 1030 40).2.

Lemma content_length_never_recognised_witness : content_length whole_parsed = 0.
Proof.
  apply (content_length_never_recognised (mem_of 1000 demo_text) 1000 (1030 + 40));
    [lia|].
  apply (fed_execute _ _ 1030 40 half_parsed HP_OK);
    [exact half_parsed_fed|lia|lia|vm_compute; reflexivity].
Defined.

Definition demo_headers : list Z :=
  Eval vm_compute in lit "X-Empty" ++ [c_COLON; c_CR; c_LF] ++ lit "Host: a" ++ crlf.

Lemma empty_value_swallows_next_header_witness :
  exists p', run (mem_of 1000 demo_headers) 19 1000 1019 (set_state HP_HEADER_START http_parser_init) = (None, p')
    /\ header_count p' = 1.
Proof.
  destruct (empty_value_swallows_next_header (mem_of 1000 demo_headers) (lit "X-Empty") (lit "Host: a") 1000 1019
    (set_state HP_HEADER_START http_parser_init)) as (p' & Hr & _ & Hc & _);
    [repeat constructor; done|discriminate|repeat constructor; done|reflexivity
    |vm_compute; reflexivity|reflexivity|split; [vm_compute; congruence|split; reflexivity]|].
  exists p'. split; [exact Hr|exact Hc].
Defined.
