(* ===== verification/Firewall.v ===== *)
(** * The firewall: [src/firewall.c]

    Every public function takes the global mutex and gives it back; the mutex is
    a field of the state, so taking it twice is the fault [Deadlock].  The
    entries and the attack patterns are pointers that [firewall_clear_all] sets
    to NULL.  A count of the source is the length of its list.  The clock is
    read once per call.  The results of [realloc], [calloc] and [strdup] are arguments;
    the source checks the first two but not [strdup], so an address or a key whose copy
    failed is NULL ([None]), and comparing it with [strcmp] is the fault [NullDeref]. *)

From S2P Require Import Prelude Double.

(** ** Data *)

Inductive BlockReason :=
| BLOCK_REASON_RATE_LIMIT | BLOCK_REASON_BRUTE_FORCE
| BLOCK_REASON_ATTACK_PATTERN | BLOCK_REASON_SUSPICIOUS.

Record FirewallEntry := mkFirewallEntry {
  ip_address : option (list Z);
  request_count : Z;
  last_request : Z;
  is_blocked : bool;
  block_start_time : Z;
  suspicious_score : Z
}.

Record WhitelistEntry := mkWhitelistEntry {
  wl_ip_address : list Z;
  permanent : Z;
  expiry_time : Z
}.

(** [reason] is the [int] the caller gave: the source casts it unchecked. *)
Record BlacklistEntry := mkBlacklistEntry {
  bl_ip_address : list Z;
  reason : Z;
  description : list Z;
  added_time : Z
}.

Record AttackPattern := mkAttackPattern {
  pattern : list Z;
  severity : Z;
  last_detected : Z
}.

Record RateLimitConfig := mkRateLimitConfig {
  max_requests_per_minute : Z;
  block_duration_minutes : Z;
  suspicious_threshold : Z;
  brute_force_threshold : Z;
  brute_force_window_seconds : Z
}.

Record FirewallStats := mkFirewallStats {
  total_requests : Z;
  blocked_requests : Z;
  suspicious_activities : Z;
  brute_force_attempts : Z;
  invalid_api_keys : Z;
  attack_pattern_hits : Z;
  active_entries : Z;
  whitelisted_ips : Z;
  blacklisted_ips : Z;
  start_time : Z
}.

Record Firewall := mkFirewall {
  entries : ptr (list FirewallEntry);
  entry_capacity : Z;
  mutex : bool;
  allowed_api_keys : list (option (list Z));
  attack_patterns : ptr (list AttackPattern);
  whitelist : list WhitelistEntry;
  blacklist : list BlacklistEntry;
  rate_limit_config : RateLimitConfig;
  is_initialized : bool;
  stats : FirewallStats
}.

(** Field updates. *)
Definition set_entries (v : ptr (list FirewallEntry)) (r : Firewall) : Firewall :=
  mkFirewall v (entry_capacity r) (mutex r) (allowed_api_keys r) (attack_patterns r) (whitelist r)
    (blacklist r) (rate_limit_config r) (is_initialized r) (stats r).
Definition set_entry_capacity (v : Z) (r : Firewall) : Firewall :=
  mkFirewall (entries r) v (mutex r) (allowed_api_keys r) (attack_patterns r) (whitelist r)
    (blacklist r) (rate_limit_config r) (is_initialized r) (stats r).
Definition set_mutex (v : bool) (r : Firewall) : Firewall :=
  mkFirewall (entries r) (entry_capacity r) v (allowed_api_keys r) (attack_patterns r)
    (whitelist r) (blacklist r) (rate_limit_config r) (is_initialized r) (stats r).
Definition set_allowed_api_keys (v : list (option (list Z))) (r : Firewall) : Firewall :=
  mkFirewall (entries r) (entry_capacity r) (mutex r) v (attack_patterns r) (whitelist r)
    (blacklist r) (rate_limit_config r) (is_initialized r) (stats r).
Definition set_attack_patterns (v : ptr (list AttackPattern)) (r : Firewall) : Firewall :=
  mkFirewall (entries r) (entry_capacity r) (mutex r) (allowed_api_keys r) v (whitelist r)
    (blacklist r) (rate_limit_config r) (is_initialized r) (stats r).
Definition set_whitelist (v : list WhitelistEntry) (r : Firewall) : Firewall :=
  mkFirewall (entries r) (entry_capacity r) (mutex r) (allowed_api_keys r) (attack_patterns r) v
    (blacklist r) (rate_limit_config r) (is_initialized r) (stats r).
Definition set_blacklist (v : list BlacklistEntry) (r : Firewall) : Firewall :=
  mkFirewall (entries r) (entry_capacity r) (mutex r) (allowed_api_keys r) (attack_patterns r)
    (whitelist r) v (rate_limit_config r) (is_initialized r) (stats r).
Definition set_rate_limit_config (v : RateLimitConfig) (r : Firewall) : Firewall :=
  mkFirewall (entries r) (entry_capacity r) (mutex r) (allowed_api_keys r) (attack_patterns r)
    (whitelist r) (blacklist r) v (is_initialized r) (stats r).
Definition set_is_initialized (v : bool) (r : Firewall) : Firewall :=
  mkFirewall (entries r) (entry_capacity r) (mutex r) (allowed_api_keys r) (attack_patterns r)
    (whitelist r) (blacklist r) (rate_limit_config r) v (stats r).
Definition set_stats (v : FirewallStats) (r : Firewall) : Firewall :=
  mkFirewall (entries r) (entry_capacity r) (mutex r) (allowed_api_keys r) (attack_patterns r)
    (whitelist r) (blacklist r) (rate_limit_config r) (is_initialized r) v.
Definition set_total_requests (v : Z) (r : FirewallStats) : FirewallStats :=
  mkFirewallStats v (blocked_requests r) (suspicious_activities r) (brute_force_attempts r)
    (invalid_api_keys r) (attack_pattern_hits r) (active_entries r) (whitelisted_ips r)
    (blacklisted_ips r) (start_time r).
Definition set_blocked_requests (v : Z) (r : FirewallStats) : FirewallStats :=
  mkFirewallStats (total_requests r) v (suspicious_activities r) (brute_force_attempts r)
    (invalid_api_keys r) (attack_pattern_hits r) (active_entries r) (whitelisted_ips r)
    (blacklisted_ips r) (start_time r).
Definition set_suspicious_activities (v : Z) (r : FirewallStats) : FirewallStats :=
  mkFirewallStats (total_requests r) (blocked_requests r) v (brute_force_attempts r)
    (invalid_api_keys r) (attack_pattern_hits r) (active_entries r) (whitelisted_ips r)
    (blacklisted_ips r) (start_time r).
Definition set_brute_force_attempts (v : Z) (r : FirewallStats) : FirewallStats :=
  mkFirewallStats (total_requests r) (blocked_requests r) (suspicious_activities r) v
    (invalid_api_keys r) (attack_pattern_hits r) (active_entries r) (whitelisted_ips r)
    (blacklisted_ips r) (start_time r).
Definition set_invalid_api_keys (v : Z) (r : FirewallStats) : FirewallStats :=
  mkFirewallStats (total_requests r) (blocked_requests r) (suspicious_activities r)
    (brute_force_attempts r) v (attack_pattern_hits r) (active_entries r) (whitelisted_ips r)
    (blacklisted_ips r) (start_time r).
Definition set_attack_pattern_hits (v : Z) (r : FirewallStats) : FirewallStats :=
  mkFirewallStats (total_requests r) (blocked_requests r) (suspicious_activities r)
    (brute_force_attempts r) (invalid_api_keys r) v (active_entries r) (whitelisted_ips r)
    (blacklisted_ips r) (start_time r).
Definition set_active_entries (v : Z) (r : FirewallStats) : FirewallStats :=
  mkFirewallStats (total_requests r) (blocked_requests r) (suspicious_activities r)
    (brute_force_attempts r) (invalid_api_keys r) (attack_pattern_hits r) v (whitelisted_ips r)
    (blacklisted_ips r) (start_time r).
Definition set_whitelisted_ips (v : Z) (r : FirewallStats) : FirewallStats :=
  mkFirewallStats (total_requests r) (blocked_requests r) (suspicious_activities r)
    (brute_force_attempts r) (invalid_api_keys r) (attack_pattern_hits r) (active_entries r) v
    (blacklisted_ips r) (start_time r).
Definition set_blacklisted_ips (v : Z) (r : FirewallStats) : FirewallStats :=
  mkFirewallStats (total_requests r) (blocked_requests r) (suspicious_activities r)
    (brute_force_attempts r) (invalid_api_keys r) (attack_pattern_hits r) (active_entries r)
    (whitelisted_ips r) v (start_time r).
Definition set_start_time (v : Z) (r : FirewallStats) : FirewallStats :=
  mkFirewallStats (total_requests r) (blocked_requests r) (suspicious_activities r)
    (brute_force_attempts r) (invalid_api_keys r) (attack_pattern_hits r) (active_entries r)
    (whitelisted_ips r) (blacklisted_ips r) v.

Definition on_stats (f : FirewallStats -> FirewallStats) (fw : Firewall) : Firewall :=
  set_stats (f (stats fw)) fw.

(** [stats.blocked_requests++], an [unsigned long]. *)
Definition count_blocked (fw : Firewall) : Firewall :=
  on_stats (fun s => set_blocked_requests (u64 (blocked_requests s + 1)) s) fw.

Definition DEFAULT_RATE_LIMIT_PER_MINUTE : Z := 60.
Definition DEFAULT_BLOCK_DURATION_MINUTES : Z := 5.
Definition DEFAULT_SUSPICIOUS_THRESHOLD : Z := 50.
Definition DEFAULT_BRUTE_FORCE_THRESHOLD : Z := 10.

(** ** The mutex *)

Definition lock (fw : Firewall) : res Firewall :=
  if mutex fw then Fault Deadlock else Ok (set_mutex true fw).

Definition unlock (fw : Firewall) : Firewall := set_mutex false fw.

(** ** Searching and scoring *)

(** The inner loop of [stristr]: does [n] start [h], up to case? *)
Fixpoint iprefixb (n h : list Z) : bool :=
  match n, h with
  | [], _ => true
  | c :: n', d :: h' => (tolower d =? tolower c) && iprefixb n' h'
  | _ :: _, [] => false
  end.

(** [stristr(h, n) != NULL]; an empty [h] contains nothing. *)
Fixpoint stristr (h n : list Z) : bool :=
  match h with
  | [] => false
  | _ :: h' => if iprefixb n h then true else stristr h' n
  end.

(** [(int)(s * 0.95)]; it fits for every [int] [s]. *)
Definition decay (s : Z) : Z := default 0 (d_to_int (dmul (d_of_Z s) d_0_95)).

Definition set_score (v : Z) (e : FirewallEntry) : FirewallEntry :=
  mkFirewallEntry (ip_address e) (request_count e) (last_request e) (is_blocked e)
    (block_start_time e) v.

Definition update_suspicion (score_add : Z) (e : FirewallEntry) : FirewallEntry :=
  let s := if suspicious_score e >? 0 then decay (suspicious_score e) else suspicious_score e in
  set_score (s + score_add) e.

(** The rows a table has; the count of a NULL or freed table is 0. *)
Definition rows {A} (p : ptr (list A)) : list A :=
  match p with PLive l => l | _ => [] end.

Definition entry_list (fw : Firewall) : list FirewallEntry := rows (entries fw).
Definition pattern_list (fw : Firewall) : list AttackPattern := rows (attack_patterns fw).

(** The loops with [strcmp]: the first name that is equal to [k]. *)
Fixpoint find_name (k : list Z) (names : list (option (list Z))) : res (option nat) :=
  match names with
  | [] => Ok None
  | None :: _ => Fault NullDeref
  | Some a :: names' => if streq a k then Ok (Some 0%nat) else o ← find_name k names'; Ok (option_map S o)
  end.

Definition find_entry (ip : list Z) (fw : Firewall) : res (option nat) := find_name ip (map ip_address (entry_list fw)).

(** The address is compared before anything else, so every entry's is. *)
Definition count_entries (ip : list Z) (p : FirewallEntry -> bool) (l : list FirewallEntry) : res Z :=
  if existsb (fun e => bool_decide (ip_address e = None)) l then Fault NullDeref
  else Ok (countb (fun e => bool_decide (ip_address e = Some ip) && p e) l).

(** [strdup]: NULL when it fails. *)
Definition dup (ok : bool) (s : list Z) : option (list Z) := if ok then Some s else None.

(** [None] is NULL: [realloc] failed. *)
Definition add_entry (ip : list Z) (now : Z) (realloc_ok strdup_ok : bool) (fw : Firewall)
  : res (option nat * Firewall) :=
  let n := length (entry_list fw) in
  let full := Z.of_nat n >=? entry_capacity fw in
  if full && negb realloc_ok then Ok (None, fw)
  else
    let fw := if full then set_entry_capacity (entry_capacity fw * 2) fw else fw in
    match entries fw with
    | PNull => Fault NullDeref
    | PFreed => Fault UseAfterFree
    | PLive es =>
        let es := es ++ [mkFirewallEntry (dup strdup_ok ip) 0 now false 0 0] in
        Ok (Some n, on_stats (set_active_entries (zlen es)) (set_entries (PLive es) fw))
    end.

(** A write through the pointer to entry [i]. *)
Definition on_entry (i : nat) (f : FirewallEntry -> FirewallEntry) (fw : Firewall) : Firewall :=
  set_entries (ptr_map (alter f i) (entries fw)) fw.

Definition entry_at (i : nat) (fw : Firewall) : option FirewallEntry := entry_list fw !! i.

Definition is_ip_whitelisted (ip : list Z) (now : Z) (fw : Firewall) : bool :=
  existsb (fun w => streq (wl_ip_address w) ip && (negb (permanent w =? 0) || (expiry_time w >? now)))
    (whitelist fw).

Definition is_ip_blacklisted (ip : list Z) (fw : Firewall) : bool :=
  existsb (fun b => streq (bl_ip_address b) ip) (blacklist fw).

(** One round of the loop of [detect_attack_pattern] over the table. *)
Fixpoint scan_patterns (data : list Z) (now : Z) (ps : list AttackPattern) (hits max_severity : Z)
  : Z * Z * list AttackPattern :=
  match ps with
  | [] => (max_severity, hits, [])
  | p :: ps' =>
      if stristr data (pattern p) then
        let '(m, h, r) := scan_patterns data now ps' (u64 (hits + 1))
                            (if severity p >? max_severity then severity p else max_severity) in
        (m, h, mkAttackPattern (pattern p) (severity p) now :: r)
      else
        let '(m, h, r) := scan_patterns data now ps' hits max_severity in (m, h, p :: r)
  end.

Definition detect_attack_pattern (data : list Z) (now : Z) (fw : Firewall) : Z * Firewall :=
  match attack_patterns fw with
  | PNull | PFreed => (0, fw)
  | PLive ps =>
      let '(m, h, r) := scan_patterns data now ps (attack_pattern_hits (stats fw)) 0 in
      (m, set_attack_patterns (PLive r) (on_stats (set_attack_pattern_hits h) fw))
  end.

Definition detect_brute_force (ip : list Z) (now : Z) (fw : Firewall) : res bool :=
  let window_start := now - brute_force_window_seconds (rate_limit_config fw) in
  failed_attempts ← count_entries ip (fun e => (last_request e >=? window_start) && is_blocked e) (entry_list fw);
  Ok (failed_attempts >=? brute_force_threshold (rate_limit_config fw)).

Definition get_requests_in_window (ip : list Z) (window_seconds now : Z) (fw : Firewall) : res Z :=
  count_entries ip (fun e => last_request e >=? now - window_seconds) (entry_list fw).

(** ** Initialisation *)

(** The signature database. *)
Definition initial_patterns : list AttackPattern :=
  map (fun '(p, s) => mkAttackPattern p s 0)
    [(lit " UNION ", 8); (lit " OR 1=1", 9); (lit " DROP TABLE", 10); (lit " SELECT * FROM", 8);
     (lit " INSERT INTO", 7); (lit " DELETE FROM", 8); (lit " UPDATE SET", 7); (lit " HAVING ", 7);
     (lit "--", 5);
     (lit "<script", 9); (lit "javascript:", 8); (lit "onload=", 8); (lit "onerror=", 8);
     (lit "alert(", 8); (lit "document.cookie", 8); (lit "eval(", 9); (lit "iframe", 7);
     (lit "fromCharCode", 8);
     (lit "../", 5); (lit "%2e%2e", 5); (lit "..\", 5);
     (lit "sqlmap", 10); (lit "nmap", 10); (lit "nikto", 10); (lit "masscan", 10)].

Definition zero_stats : FirewallStats := mkFirewallStats 0 0 0 0 0 0 0 0 0 0.

Definition global_firewall : Firewall :=
  mkFirewall PNull 0 false [] PNull [] [] (mkRateLimitConfig 0 0 0 0 0) false zero_stats.

(** The three allocations, in order, and the copies of the keys; [api_keys] is [None]
    for a NULL [config]. *)
Definition firewall_init (api_keys : option (list (list Z))) (now : Z)
    (entries_ok patterns_ok keys_ok : bool) (copies : nat -> bool) (fw : Firewall) : res (Z * Firewall) :=
  if is_initialized fw then Ok (0, fw)
  else
    fw ← lock fw;
    let fw := set_entry_capacity 1024 fw in
    if negb entries_ok then Ok (-1, unlock (set_entries PNull fw))
    else
      let fw := set_allowed_api_keys [] (set_entries (PLive []) fw) in
      let fw := set_rate_limit_config
        (mkRateLimitConfig DEFAULT_RATE_LIMIT_PER_MINUTE DEFAULT_BLOCK_DURATION_MINUTES
           DEFAULT_SUSPICIOUS_THRESHOLD DEFAULT_BRUTE_FORCE_THRESHOLD 300) fw in
      if negb patterns_ok then Ok (-1, unlock (set_attack_patterns PNull (set_entries PFreed fw)))
      else
        let fw := set_stats (set_start_time now zero_stats) (set_blacklist [] (set_whitelist [] fw)) in
        let keys := imap (fun i k => dup (copies i) k) (default [] api_keys) in
        if (zlen keys >? 0) && negb keys_ok then Ok (-1, unlock (set_attack_patterns PFreed (set_entries PFreed fw)))
        else
          Ok (0, unlock (set_is_initialized true
                   (set_attack_patterns (PLive initial_patterns) (set_allowed_api_keys keys fw)))).

(** ** Checking a request *)

(** Whether the handler goes on to its next stage. *)
Inductive verdict :=
| Return (code : Z) (fw : Firewall)
| Continue (fw : Firewall).

Definition block_entry (now : Z) (e : FirewallEntry) : FirewallEntry :=
  mkFirewallEntry (ip_address e) (request_count e) (last_request e) true now (suspicious_score e).

Definition reset_entry (e : FirewallEntry) : FirewallEntry :=
  mkFirewallEntry (ip_address e) 0 (last_request e) false (block_start_time e) 0.

(** "Check if currently blocked" *)
Definition check_blocked (i : nat) (now : Z) (fw : Firewall) : verdict :=
  match entry_at i fw with
  | Some e =>
      if is_blocked e then
        if now - block_start_time e >=? block_duration_minutes (rate_limit_config fw) * 60
        then Continue (on_entry i reset_entry fw)
        else Return (-1) (count_blocked fw)
      else Continue fw
  | None => Continue fw
  end.

(** "1. User-Agent Scanning Detection" *)
Definition check_user_agent (i : nat) (user_agent : option (list Z)) (now : Z) (fw : Firewall) : verdict :=
  match user_agent with
  | None => Continue fw
  | Some ua =>
      let '(scanner_severity, fw) := detect_attack_pattern ua now fw in
      if scanner_severity >=? 10 then
        Return (-1) (count_blocked (on_entry i (fun e => update_suspicion 50 (block_entry now e)) fw))
      else Continue fw
  end.

Definition over_threshold (i : nat) (fw : Firewall) : bool :=
  match entry_at i fw with
  | Some e => suspicious_score e >=? suspicious_threshold (rate_limit_config fw)
  | None => false
  end.

(** "2. Request Content Analysis" *)
Definition check_payload (i : nat) (request_data : option (list Z)) (now : Z) (fw : Firewall) : verdict :=
  match request_data with
  | None => Continue fw
  | Some data =>
      let '(payload_severity, fw) := detect_attack_pattern data now fw in
      if payload_severity >? 5 then
        let fw := on_entry i (update_suspicion (payload_severity * 5)) fw in
        if over_threshold i fw then Return (-1) (count_blocked (on_entry i (block_entry now) fw))
        else Continue fw
      else Continue fw
  end.

Definition count_invalid_key (fw : Firewall) : Firewall :=
  on_stats (fun s => set_invalid_api_keys (u64 (invalid_api_keys s + 1)) s) fw.

(** "Validate API key if required" *)
Definition check_api_key (i : nat) (api_key : option (list Z)) (now : Z) (fw : Firewall) : res verdict :=
  if zlen (allowed_api_keys fw) >? 0 then
    match api_key with
    | None => Ok (Return (-1) (on_entry i (update_suspicion 5) (count_invalid_key fw)))
    | Some k =>
        valid ← find_name k (allowed_api_keys fw);
        match valid with
        | Some _ => Ok (Continue fw)
        | None =>
            let fw := on_entry i (update_suspicion 10) (count_invalid_key fw) in
            Ok (Return (-1) (if over_threshold i fw then count_blocked (on_entry i (block_entry now) fw) else fw))
        end
    end
  else Ok (Continue fw).

Definition touch_entry (now : Z) (e : FirewallEntry) : FirewallEntry :=
  update_suspicion 0
    (mkFirewallEntry (ip_address e) (request_count e + 1) now (is_blocked e) (block_start_time e)
       (suspicious_score e)).

(** "Update request count with sliding window" *)
Definition check_rate (i : nat) (ip : list Z) (now : Z) (fw : Firewall) : res verdict :=
  let fw := on_entry i (touch_entry now) fw in
  requests_in_window ← get_requests_in_window ip 60 now fw;
  Ok (if requests_in_window >? max_requests_per_minute (rate_limit_config fw)
      then Return (-1) (count_blocked (on_entry i (block_entry now) fw))
      else Return 0 fw).

Definition and_then (v : verdict) (k : Firewall -> res verdict) : res verdict :=
  match v with Return c fw => Ok (Return c fw) | Continue fw => k fw end.

(** The stages that work on the client's entry, in order. *)
Definition check_entry (i : nat) (ip : list Z) (api_key request_data user_agent : option (list Z))
    (now : Z) (fw : Firewall) : res verdict :=
  and_then (check_blocked i now fw) (fun fw =>
  and_then (check_user_agent i user_agent now fw) (fun fw =>
  and_then (check_payload i request_data now fw) (fun fw =>
  v ← check_api_key i api_key now fw;
  and_then v (check_rate i ip now)))).

(** The client's entry, which is made if there is none. *)
Definition entry_for (ip : list Z) (now : Z) (realloc_ok strdup_ok : bool) (fw : Firewall) : res (option nat * Firewall) :=
  found ← find_entry ip fw;
  match found with
  | Some i => Ok (Some i, fw)
  | None => add_entry ip now realloc_ok strdup_ok fw
  end.

Definition firewall_check_request_enhanced (ip : option (list Z))
    (api_key request_data user_agent : option (list Z)) (now : Z) (realloc_ok strdup_ok : bool)
    (fw : Firewall) : res (Z * Firewall) :=
  match ip with
  | None => Ok (-1, fw)
  | Some ip =>
      fw ← lock fw;
      let fw := on_stats (fun s => set_total_requests (u64 (total_requests s + 1)) s) fw in
      if is_ip_whitelisted ip now fw then Ok (0, unlock fw)
      else if is_ip_blacklisted ip fw then Ok (-1, unlock (count_blocked fw))
      else
        '(entry, fw) ← entry_for ip now realloc_ok strdup_ok fw;
        match entry with
        | None => Ok (-1, unlock fw)
        | Some i =>
            v ← check_entry i ip api_key request_data user_agent now fw;
            match v with
            | Return c fw => Ok (c, unlock fw)
            | Continue fw => Ok (0, unlock fw)
            end
        end
  end.

Definition firewall_check_request (ip api_key : option (list Z)) (now : Z) (realloc_ok strdup_ok : bool)
    (fw : Firewall) : res (Z * Firewall) :=
  firewall_check_request_enhanced ip api_key None None now realloc_ok strdup_ok fw.

(** ** Blocking *)

Definition firewall_block_ip (ip : option (list Z)) (now : Z) (realloc_ok strdup_ok : bool) (fw : Firewall)
  : res (Z * Firewall) :=
  match ip with
  | None => Ok (-1, fw)
  | Some ip =>
      fw ← lock fw;
      '(entry, fw) ← entry_for ip now realloc_ok strdup_ok fw;
      match entry with
      | None => Ok (-1, unlock fw)
      | Some i => Ok (0, unlock (on_entry i (block_entry now) fw))
      end
  end.

Definition firewall_unblock_ip (ip : option (list Z)) (fw : Firewall) : res (Z * Firewall) :=
  match ip with
  | None => Ok (-1, fw)
  | Some ip =>
      fw ← lock fw;
      found ← find_entry ip fw;
      match found with
      | None => Ok (0, unlock fw)
      | Some i => Ok (0, unlock (on_entry i reset_entry fw))
      end
  end.

(** Copying a list out under the mutex; [malloc_ok] is the result of the
    allocation, which the source does not check. *)
Definition copy_out {A} (f : Firewall -> list A) (malloc_ok : bool) (fw : Firewall)
  : res (list A * Firewall) :=
  fw ← lock fw;
  if negb malloc_ok && (zlen (f fw) >? 0) then Fault NullDeref else Ok (f fw, unlock fw).

(** The copies of the names: [strdup] reads each of them and may fail. *)
Fixpoint copy_names (copies : nat -> bool) (n : nat) (l : list (option (list Z))) : res (list (option (list Z))) :=
  match l with
  | [] => Ok []
  | None :: _ => Fault NullDeref
  | Some a :: l' => r ← copy_names copies (S n) l'; Ok (dup (copies n) a :: r)
  end.

Definition copy_out_names (f : Firewall -> list (option (list Z))) (malloc_ok : bool) (copies : nat -> bool) (fw : Firewall)
  : res (list (option (list Z)) * Firewall) :=
  '(l, fw) ← copy_out f malloc_ok fw; r ← copy_names copies 0 l; Ok (r, fw).

Definition select (p : FirewallEntry -> bool) (fw : Firewall) : list (option (list Z)) :=
  map ip_address (List.filter p (entry_list fw)).

Definition firewall_get_blocked_ips : bool -> (nat -> bool) -> Firewall -> res (list (option (list Z)) * Firewall) :=
  copy_out_names (select is_blocked).

Definition firewall_get_suspicious_ips (threshold : Z) (malloc_ok : bool) (copies : nat -> bool) (fw : Firewall)
  : res (option (list (option (list Z))) * Firewall) :=
  if threshold <? 0 then Ok (None, fw)
  else
    '(ips, fw) ← copy_out_names (select (fun e => suspicious_score e >? threshold)) malloc_ok copies fw;
    Ok (Some ips, fw).

(** ** The lists *)

(** [strncpy(dst, src, 255)] into a buffer of 256 bytes. *)
Definition field256 (s : list Z) : list Z := strncpy 255 s.

(** The searches and the removal all three lists share: the row is replaced by
    the last one and the count decremented. *)
Definition row_of {A} (name : A -> list Z) (k : list Z) (l : list A) : option nat :=
  find_index (fun r => streq (name r) k) l.

Definition remove_row {A} (name : A -> list Z) (k : list Z) (l : list A) : option (list A) :=
  (fun i => swap_remove i l) <$> row_of name k l.

Definition firewall_add_to_whitelist (ip : option (list Z)) (perm duration now : Z)
    (realloc_ok : bool) (fw : Firewall) : res (Z * Firewall) :=
  match ip with
  | None => Ok (-1, fw)
  | Some ip =>
      fw ← lock fw;
      match row_of wl_ip_address ip (whitelist fw) with
      | Some _ => Ok (0, unlock fw)
      | None =>
          if negb realloc_ok then Ok (-1, unlock fw)
          else
            let l := whitelist fw ++
              [mkWhitelistEntry (field256 ip) perm (if negb (perm =? 0) then 0 else now + duration)] in
            Ok (0, unlock (on_stats (set_whitelisted_ips (zlen l)) (set_whitelist l fw)))
      end
  end.

Definition firewall_remove_from_whitelist (ip : option (list Z)) (fw : Firewall) : res (Z * Firewall) :=
  match ip with
  | None => Ok (-1, fw)
  | Some ip =>
      fw ← lock fw;
      match remove_row wl_ip_address ip (whitelist fw) with
      | None => Ok (-1, unlock fw)
      | Some l => Ok (0, unlock (on_stats (set_whitelisted_ips (zlen l)) (set_whitelist l fw)))
      end
  end.

Definition firewall_add_to_blacklist (ip : option (list Z)) (why : Z) (text : option (list Z))
    (now : Z) (realloc_ok : bool) (fw : Firewall) : res (Z * Firewall) :=
  match ip with
  | None => Ok (-1, fw)
  | Some ip =>
      fw ← lock fw;
      match row_of bl_ip_address ip (blacklist fw) with
      | Some _ => Ok (0, unlock fw)
      | None =>
          if negb realloc_ok then Ok (-1, unlock fw)
          else
            match text with
            | None => Fault NullDeref
            | Some text =>
                let l := blacklist fw ++ [mkBlacklistEntry (field256 ip) why (field256 text) now] in
                Ok (0, unlock (on_stats (set_blacklisted_ips (zlen l)) (set_blacklist l fw)))
            end
      end
  end.

Definition firewall_remove_from_blacklist (ip : option (list Z)) (fw : Firewall) : res (Z * Firewall) :=
  match ip with
  | None => Ok (-1, fw)
  | Some ip =>
      fw ← lock fw;
      match remove_row bl_ip_address ip (blacklist fw) with
      | None => Ok (-1, unlock fw)
      | Some l => Ok (0, unlock (on_stats (set_blacklisted_ips (zlen l)) (set_blacklist l fw)))
      end
  end.

Definition firewall_add_attack_pattern (p : option (list Z)) (sev : Z) (realloc_ok : bool)
    (fw : Firewall) : res (Z * Firewall) :=
  match p with
  | None => Ok (-1, fw)
  | Some p =>
      if (sev <? 1) || (sev >? 10) then Ok (-1, fw)
      else
        fw ← lock fw;
        match row_of pattern p (pattern_list fw) with
        | Some _ => Ok (0, unlock fw)
        | None =>
            match attack_patterns fw with
            | PFreed => Fault UseAfterFree
            | _ =>
                if negb realloc_ok then Ok (-1, unlock fw)
                else
                  Ok (0, unlock (set_attack_patterns
                           (PLive (pattern_list fw ++ [mkAttackPattern (field256 p) sev 0])) fw))
            end
        end
  end.

Definition firewall_remove_attack_pattern (p : option (list Z)) (fw : Firewall) : res (Z * Firewall) :=
  match p with
  | None => Ok (-1, fw)
  | Some p =>
      fw ← lock fw;
      match remove_row pattern p (pattern_list fw) with
      | None => Ok (-1, unlock fw)
      | Some l => Ok (0, unlock (set_attack_patterns (PLive l) fw))
      end
  end.

(** ** Reading the state *)

(** Reading one value under the mutex. *)
Definition get {A} (f : Firewall -> A) (fw : Firewall) : res (A * Firewall) :=
  fw ← lock fw; Ok (f fw, unlock fw).

Definition firewall_get_stats : Firewall -> res (FirewallStats * Firewall) := get stats.
Definition firewall_get_rate_limit_config : Firewall -> res (RateLimitConfig * Firewall) :=
  get rate_limit_config.

Definition firewall_get_whitelisted_ips : bool -> (nat -> bool) -> Firewall -> res (list (option (list Z)) * Firewall) :=
  copy_out_names (fun fw => map (fun w => Some (wl_ip_address w)) (whitelist fw)).

Definition firewall_get_blacklisted_ips : bool -> (nat -> bool) -> Firewall -> res (list (option (list Z)) * Firewall) :=
  copy_out_names (fun fw => map (fun b => Some (bl_ip_address b)) (blacklist fw)).

Definition firewall_get_attack_patterns : bool -> Firewall -> res (list AttackPattern * Firewall) :=
  copy_out pattern_list.

Definition firewall_configure_rate_limits (config : option RateLimitConfig) (fw : Firewall)
  : res (Z * Firewall) :=
  match config with
  | None => Ok (-1, fw)
  | Some c => fw ← lock fw; Ok (0, unlock (set_rate_limit_config c fw))
  end.

Definition firewall_is_whitelisted (ip : option (list Z)) (now : Z) (fw : Firewall)
  : res (bool * Firewall) :=
  match ip with
  | None => Ok (false, fw)
  | Some ip => get (is_ip_whitelisted ip now) fw
  end.

Definition firewall_is_blacklisted (ip : option (list Z)) (fw : Firewall) : res (bool * Firewall) :=
  match ip with
  | None => Ok (false, fw)
  | Some ip => get (is_ip_blacklisted ip) fw
  end.

(** [None]: the -1 return, the client is not blocked. *)
Definition firewall_get_block_reason (ip : option (list Z)) (now : Z) (fw : Firewall)
  : res (option BlockReason * Firewall) :=
  match ip with
  | None => Ok (None, fw)
  | Some ip =>
      fw ← lock fw;
      found ← find_entry ip fw;
      match found ≫= (fun i => entry_at i fw) with
      | Some e =>
          if negb (is_blocked e) then Ok (None, unlock fw)
          else if suspicious_score e >=? suspicious_threshold (rate_limit_config fw)
          then Ok (Some BLOCK_REASON_SUSPICIOUS, unlock fw)
          else
            brute ← detect_brute_force ip now fw;
            Ok (Some (if brute : bool then BLOCK_REASON_BRUTE_FORCE else BLOCK_REASON_RATE_LIMIT), unlock fw)
      | None => Ok (None, unlock fw)
      end
  end.

(** ** Clearing *)

Definition firewall_clear_all (now : Z) (fw : Firewall) : res (Z * Firewall) :=
  fw ← lock fw;
  match entries fw, attack_patterns fw with
  | PFreed, _ | _, PFreed => Fault UseAfterFree
  | _, _ =>
      Ok (0, unlock (mkFirewall PNull 1024 (mutex fw) [] PNull [] [] (rate_limit_config fw) false
                       (set_start_time now zero_stats)))
  end.

(** The blocks are freed and their pointers left as they are. *)
Definition firewall_cleanup (fw : Firewall) : res Firewall :=
  fw ← lock fw;
  match entries fw, attack_patterns fw with
  | PFreed, _ | _, PFreed => Fault UseAfterFree
  | _, _ => Ok (unlock (set_attack_patterns PFreed (set_entries PFreed fw)))
  end.

(** ** The configuration file *)

Definition text_line (s : list Z) : list Z := s ++ [c_LF].
Definition setting (name : list Z) (v : Z) : list Z := text_line (name ++ lit " = " ++ dec v).

(** [created] is the text of [ctime(&stats.start_time)]. *)
Definition firewall_save_config (created : list Z) (fw : Firewall) : res (list Z * Firewall) :=
  fw ← lock fw;
  let c := rate_limit_config fw in
  Ok (text_line (lit "# AIONIC Firewall Configuration")
      ++ lit "# Generated at: " ++ created
      ++ text_line [] ++ text_line (lit "[rate_limits]")
      ++ setting (lit "max_requests_per_minute") (max_requests_per_minute c)
      ++ setting (lit "block_duration_minutes") (block_duration_minutes c)
      ++ setting (lit "suspicious_threshold") (suspicious_threshold c)
      ++ setting (lit "brute_force_threshold") (brute_force_threshold c)
      ++ setting (lit "brute_force_window_seconds") (brute_force_window_seconds c)
      ++ text_line [] ++ text_line (lit "[whitelist]")
      ++ concat (map (fun w => text_line (wl_ip_address w ++ [c_COMMA] ++ dec (permanent w)
                                          ++ [c_COMMA] ++ dec (expiry_time w))) (whitelist fw))
      ++ text_line [] ++ text_line (lit "[blacklist]")
      ++ concat (map (fun b => text_line (bl_ip_address b ++ [c_COMMA] ++ dec (reason b)
                                          ++ [c_COMMA] ++ description b)) (blacklist fw))
      ++ text_line [] ++ text_line (lit "[attack_patterns]")
      ++ concat (map (fun p => text_line (pattern p ++ [c_COMMA] ++ dec (severity p))) (pattern_list fw)),
      unlock fw).

(** The trimming of a key: trailing blanks, but not its first byte. *)
Fixpoint trim_key (s : list Z) : list Z :=
  match s with
  | [] => []
  | c :: s' =>
      match trim_key s' with
      | [d] => if isspace d then [c] else [c; d]
      | r => c :: r
      end
  end.

(** A field read by [%[^c]] into a buffer of [size] bytes. *)
Definition scan_into (size : Z) (c : Z) (s : list Z) : res (option (list Z * list Z)) :=
  match scan_field c s with
  | Some (f, r) => if zlen f >=? size then Fault OutOfBounds else Ok (Some (f, r))
  | None => Ok None
  end.

Definition set_limit (key : list Z) (v : Z) (c : RateLimitConfig) : RateLimitConfig :=
  let '(mkRateLimitConfig a b s t w) := c in
  if streq key (lit "max_requests_per_minute") then mkRateLimitConfig v b s t w
  else if streq key (lit "block_duration_minutes") then mkRateLimitConfig a v s t w
  else if streq key (lit "suspicious_threshold") then mkRateLimitConfig a b v t w
  else if streq key (lit "brute_force_threshold") then mkRateLimitConfig a b s v w
  else if streq key (lit "brute_force_window_seconds") then mkRateLimitConfig a b s t v
  else c.

(** The four sections; the mutex is held throughout. *)
Definition load_rate_limit (line : list Z) (fw : Firewall) : res Firewall :=
  k ← scan_into 256 c_EQUALS line;
  match k with
  | Some (key, r) =>
      match scan_char c_EQUALS r ≫= scan_int with
      | Some (v, _) => Ok (set_rate_limit_config (set_limit (trim_key key) v (rate_limit_config fw)) fw)
      | None => Ok fw
      end
  | None => Ok fw
  end.

Definition load_whitelist (line : list Z) (now : Z) (realloc_ok : bool) (fw : Firewall) : res Firewall :=
  k ← scan_into 46 c_COMMA line;
  match k with
  | Some (ip, r) =>
      match scan_char c_COMMA r ≫= scan_int with
      | Some (perm, r) =>
          match scan_char c_COMMA r ≫= scan_long with
          | Some (expiry, _) =>
              snd <$> firewall_add_to_whitelist (Some ip) perm (expiry - now) now realloc_ok fw
          | None => Ok fw
          end
      | None => Ok fw
      end
  | None => Ok fw
  end.

Definition load_blacklist (line : list Z) (now : Z) (realloc_ok : bool) (fw : Firewall) : res Firewall :=
  k ← scan_into 46 c_COMMA line;
  match k with
  | Some (ip, r) =>
      match scan_char c_COMMA r ≫= scan_int with
      | Some (why, r) =>
          match scan_char c_COMMA r with
          | Some r =>
              d ← scan_into 256 c_LF r;
              match d with
              | Some (text, _) =>
                  snd <$> firewall_add_to_blacklist (Some ip) why (Some text) now realloc_ok fw
              | None => Ok fw
              end
          | None => Ok fw
          end
      | None => Ok fw
      end
  | None => Ok fw
  end.

(** "pattern,severity", in the configuration and in the import file. *)
Definition scan_pattern (line : list Z) : res (option (list Z * Z)) :=
  k ← scan_into 256 c_COMMA line;
  match k with
  | Some (p, r) => Ok ((fun '(v, _) => (p, v)) <$> (scan_char c_COMMA r ≫= scan_int))
  | None => Ok None
  end.

Definition load_pattern (line : list Z) (realloc_ok : bool) (fw : Firewall) : res Firewall :=
  k ← scan_pattern line;
  match k with
  | Some (p, sev) => snd <$> firewall_add_attack_pattern (Some p) sev realloc_ok fw
  | None => Ok fw
  end.

Definition is_comment (line : list Z) : bool :=
  match line with [] => true | c :: _ => c =? 35 end.

Definition section_of (line : list Z) : option Z :=
  if streq line (lit "[rate_limits]") then Some 1
  else if streq line (lit "[whitelist]") then Some 2
  else if streq line (lit "[blacklist]") then Some 3
  else if streq line (lit "[attack_patterns]") then Some 4
  else None.

Fixpoint load_lines (lines : list (list Z)) (section now : Z) (realloc_ok : bool) (fw : Firewall)
  : res Firewall :=
  match lines with
  | [] => Ok fw
  | line :: lines' =>
      if is_comment line then load_lines lines' section now realloc_ok fw
      else
        match section_of line with
        | Some s => load_lines lines' s now realloc_ok fw
        | None =>
            fw ← (if section =? 1 then load_rate_limit line fw
                  else if section =? 2 then load_whitelist line now realloc_ok fw
                  else if section =? 3 then load_blacklist line now realloc_ok fw
                  else if section =? 4 then load_pattern line realloc_ok fw
                  else Ok fw);
            load_lines lines' section now realloc_ok fw
        end
  end.

(** [contents] is [None] when the file cannot be opened. *)
Definition firewall_load_config (contents : option (list Z)) (now : Z) (realloc_ok : bool)
    (fw : Firewall) : res (Z * Firewall) :=
  match contents with
  | None => Ok (-1, fw)
  | Some s =>
      fw ← lock fw;
      fw ← load_lines (file_lines 1023 s) 0 now realloc_ok fw;
      Ok (0, unlock fw)
  end.

Fixpoint import_lines (lines : list (list Z)) (realloc_ok : bool) (imported : Z) (fw : Firewall)
  : res (Z * Firewall) :=
  match lines with
  | [] => Ok (imported, fw)
  | line :: lines' =>
      if is_comment line then import_lines lines' realloc_ok imported fw
      else
        k ← scan_pattern line;
        match k with
        | Some (p, sev) =>
            '(r, fw) ← firewall_add_attack_pattern (Some p) sev realloc_ok fw;
            import_lines lines' realloc_ok (if r =? 0 then imported + 1 else imported) fw
        | None => import_lines lines' realloc_ok imported fw
        end
  end.

Definition firewall_import_attack_patterns (contents : option (list Z)) (realloc_ok : bool)
    (fw : Firewall) : res (Z * Firewall) :=
  match contents with
  | None => Ok (-1, fw)
  | Some s => import_lines (file_lines 1023 s) realloc_ok 0 fw
  end.

Definition json_stat (name : string) (v : Z) (rest : string) : list Z :=
  text_line (qlit name ++ lit ": " ++ dec v ++ lit rest).
Definition csv_stat (name : string) (v : Z) : list Z := text_line (lit name ++ [c_COMMA] ++ dec v).

Definition export_json (now : Z) (s : FirewallStats) : list Z :=
  text_line (lit "{")
  ++ text_line (qlit "  'version': '2.0.0',")
  ++ json_stat "  'timestamp'" now ","
  ++ json_stat "  'uptime'" (now - start_time s) ","
  ++ text_line (qlit "  'statistics': {")
  ++ json_stat "    'total_requests'" (total_requests s) ","
  ++ json_stat "    'blocked_requests'" (blocked_requests s) ","
  ++ json_stat "    'suspicious_activities'" (suspicious_activities s) ","
  ++ json_stat "    'brute_force_attempts'" (brute_force_attempts s) ","
  ++ json_stat "    'invalid_api_keys'" (invalid_api_keys s) ","
  ++ json_stat "    'attack_pattern_hits'" (attack_pattern_hits s) EmptyString
  ++ text_line (lit "  },")
  ++ text_line (qlit "  'counts': {")
  ++ json_stat "    'active_entries'" (active_entries s) ","
  ++ json_stat "    'whitelisted_ips'" (whitelisted_ips s) ","
  ++ json_stat "    'blacklisted_ips'" (blacklisted_ips s) EmptyString
  ++ text_line (lit "  }")
  ++ text_line (lit "}").

Definition export_csv (now : Z) (s : FirewallStats) : list Z :=
  text_line (lit "Metric,Value")
  ++ text_line (lit "Version,2.0.0")
  ++ csv_stat "Timestamp" now
  ++ csv_stat "Uptime" (now - start_time s)
  ++ csv_stat "Total Requests" (total_requests s)
  ++ csv_stat "Blocked Requests" (blocked_requests s)
  ++ csv_stat "Suspicious Activities" (suspicious_activities s)
  ++ csv_stat "Brute Force Attempts" (brute_force_attempts s)
  ++ csv_stat "Invalid API Keys" (invalid_api_keys s)
  ++ csv_stat "Attack Pattern Hits" (attack_pattern_hits s)
  ++ csv_stat "Active Entries" (active_entries s)
  ++ csv_stat "Whitelisted IPs" (whitelisted_ips s)
  ++ csv_stat "Blacklisted IPs" (blacklisted_ips s).

Definition firewall_export_stats (format now : Z) (fw : Firewall) : res (list Z * Firewall) :=
  get (fun fw => if format =? 0 then export_json now (stats fw) else export_csv now (stats fw)) fw.

(** ** The invariant *)

Definition entry_ok (e : FirewallEntry) : Prop := is_Some (ip_address e) /\ 0 <= suspicious_score e <= 1000.

Definition pattern_ok (p : AttackPattern) : Prop := 1 <= severity p <= 10.

(** The tables of an initialised firewall. *)
Definition tables_ok (fw : Firewall) : Prop :=
  (exists es, entries fw = PLive es /\ NoDup (ip_address <$> es) /\ Forall entry_ok es
     /\ zlen es <= entry_capacity fw)
  /\ 0 < entry_capacity fw
  /\ (exists ps, attack_patterns fw = PLive ps /\ Forall pattern_ok ps)
  /\ Forall is_Some (allowed_api_keys fw).

Definition firewall_ok (fw : Firewall) : Prop := mutex fw = false /\ tables_ok fw.

(** ** Lemmas: scores *)

Definition decay_in_bounds (s : Z) : bool := (0 <=? decay s) && (decay s <=? 950).

Lemma decay_table : forallb decay_in_bounds (seqZ 0 1001) = true.
Proof. vm_compute. reflexivity. Qed.

Lemma decay_bounds s : 0 <= s <= 1000 -> 0 <= decay s <= 950.
Proof.
  intros Hs. pose proof decay_table as Ht. rewrite forallb_forall in Ht.
  assert (In s (seqZ 0 1001)) as Hin by (apply list_elem_of_In, elem_of_seqZ; lia).
  specialize (Ht s Hin). unfold decay_in_bounds in Ht. btests. lia.
Qed.

Lemma update_suspicion_ok n e : 0 <= n <= 50 -> entry_ok e -> entry_ok (update_suspicion n e).
Proof.
  unfold entry_ok, update_suspicion. simpl. intros Hn [Hip He]. split; [done|].
  destruct (Z.gtb_spec (suspicious_score e) 0); [|lia].
  pose proof (decay_bounds (suspicious_score e)). lia.
Qed.

(** ** Lemmas: matching up to case *)

Lemma iprefixb_spec n h :
  iprefixb n h = true <-> exists a b, h = a ++ b /\ map tolower a = map tolower n.
Proof.
  revert h. induction n as [|c n IH]; intros h; simpl.
  - split; [|done]. intros _. by exists [], h.
  - destruct h as [|d h].
    + split; [done|]. intros (a & b & Hab & Ha). by destruct a.
    + rewrite andb_true_iff, Z.eqb_eq, IH. split.
      * intros [Hd (a & b & -> & Ha)]. exists (d :: a), b. simpl. by rewrite Hd, Ha.
      * intros ([|x a] & b & Hab & Ha); simplify_eq/=. naive_solver.
Qed.

(** A non-empty needle is found where some part of the text equals it up to
    case. *)
Lemma stristr_spec h n :
  n <> [] ->
  stristr h n = true <-> exists a m b, h = a ++ m ++ b /\ map tolower m = map tolower n.
Proof.
  intros Hn. induction h as [|c h IH]; simpl.
  - split; [done|]. intros (a & m & b & Hab & Hm).
    destruct a, m, n; simplify_eq/=.
  - destruct (iprefixb n (c :: h)) eqn:Hp.
    + split; [|done]. intros _. apply iprefixb_spec in Hp as (m & b & Hmb & Hm).
      exists [], m, b. done.
    + rewrite IH. split.
      * intros (a & m & b & -> & Hm). by exists (c :: a), m, b.
      * intros ([|x a] & m & b & Hab & Hm); simplify_eq/=; [|naive_solver].
        assert (iprefixb n (c :: h) = true) as Hc; [|congruence].
        apply iprefixb_spec. by exists m, b.
Qed.

(** ** Lemmas: the tables *)

Lemma scan_patterns_ok data now ps hits m :
  Forall pattern_ok ps -> 0 <= m <= 10 ->
  0 <= (scan_patterns data now ps hits m).1.1 <= 10
  /\ Forall pattern_ok (scan_patterns data now ps hits m).2
  /\ m <= (scan_patterns data now ps hits m).1.1
  /\ forall p, p ∈ ps -> stristr data (pattern p) = true ->
       severity p <= (scan_patterns data now ps hits m).1.1.
Proof.
  intros Hps. revert hits m. induction Hps as [|p ps Hp Hps IH]; intros hits m Hm; simpl.
  { split_and!; try done; try lia. intros p Hin. by apply not_elem_of_nil in Hin. }
  unfold pattern_ok in Hp.
  destruct (stristr data (pattern p)) eqn:Hs.
  - set (m' := if severity p >? m then severity p else m).
    assert (0 <= m' <= 10 /\ m <= m' /\ severity p <= m') as (Hm' & H1 & H2)
      by (unfold m'; destruct (Z.gtb_spec (severity p) m); lia).
    specialize (IH (u64 (hits + 1)) m' Hm').
    destruct (scan_patterns data now ps (u64 (hits + 1)) m') as [[m1 h1] r1]. simpl in *.
    destruct IH as (B & F & L & G). split_and!; try lia; [by constructor|].
    intros q [->|Hq]%elem_of_cons Hqs; [lia|by apply G].
  - specialize (IH hits m Hm). destruct (scan_patterns data now ps hits m) as [[m1 h1] r1]. simpl in *.
    destruct IH as (B & F & L & G). split_and!; try lia; [by constructor|].
    intros q [->|Hq]%elem_of_cons Hqs; [congruence|by apply G].
Qed.

Lemma detect_ok data now fw :
  tables_ok fw -> 0 <= (detect_attack_pattern data now fw).1 <= 10
    /\ tables_ok (detect_attack_pattern data now fw).2.
Proof.
  intros (Hes & Hcap & (ps & Hps & Hok) & Hkeys). unfold detect_attack_pattern. rewrite Hps.
  pose proof (scan_patterns_ok data now ps (attack_pattern_hits (stats fw)) 0 Hok ltac:(lia)) as H.
  destruct (scan_patterns _ _ _ _ _) as [[m h] r]. simpl in *. destruct H as (H1 & H2 & _).
  split; [lia|]. split_and!; [exact Hes|exact Hcap|eauto|exact Hkeys].
Qed.

Lemma tables_ok_ext fw fw' :
  tables_ok fw -> entries fw' = entries fw -> entry_capacity fw' = entry_capacity fw ->
  attack_patterns fw' = attack_patterns fw -> allowed_api_keys fw' = allowed_api_keys fw -> tables_ok fw'.
Proof. unfold tables_ok. by intros Hok -> -> -> ->. Qed.

(** ** Lemmas: searching *)

(** A search goes through when every name is there. *)
Lemma find_name_ok k names : Forall is_Some names -> exists o, find_name k names = Ok o.
Proof.
  induction 1 as [|a names [b ->] _ [o IH]]; simpl; [by eexists|].
  destruct (streq b k); [by eexists|]. rewrite IH. by eexists.
Qed.

Lemma find_name_Some k names i : find_name k names = Ok (Some i) -> names !! i = Some (Some k).
Proof.
  revert i. induction names as [|[a|] names IH]; intros i; simpl; [done| |done].
  destruct (streq a k) eqn:E; [apply streq_true in E as ->; by intros [= <-]|].
  destruct (find_name k names) as [[j|]|]; cbn; [|done|done]. intros [= <-]. by apply IH.
Qed.

Lemma find_name_None k names : find_name k names = Ok None -> Some k ∉ names.
Proof.
  induction names as [|[a|] names IH]; simpl; [intros _; apply not_elem_of_nil| |done].
  destruct (streq a k) eqn:E; [done|]. apply streq_false in E.
  destruct (find_name k names) as [[j|]|]; cbn; [done| |done]. intros _.
  apply not_elem_of_cons. split; [congruence|by apply IH].
Qed.

Lemma find_name_snoc k names :
  find_name k names = Ok None -> find_name k (names ++ [Some k]) = Ok (Some (length names)).
Proof.
  induction names as [|[a|] names IH]; simpl; [by rewrite streq_refl| |done].
  destruct (streq a k); [done|]. destruct (find_name k names) as [[j|]|]; cbn; [done| |done].
  intros _. by rewrite IH.
Qed.

Lemma find_entry_ok ip fw : tables_ok fw -> exists o, find_entry ip fw = Ok o.
Proof.
  intros ((es & Hes & _ & Hok & _) & _). unfold find_entry, entry_list. rewrite Hes. apply find_name_ok.
  apply Forall_map. eapply Forall_impl; [exact Hok|]. by intros e [He _].
Qed.

Lemma count_entries_ok ip p fw :
  tables_ok fw -> count_entries ip p (entry_list fw)
                  = Ok (countb (fun e => bool_decide (ip_address e = Some ip) && p e) (entry_list fw)).
Proof.
  intros ((es & Hes & _ & Hok & _) & _). unfold count_entries, entry_list. rewrite Hes. cbn [rows].
  replace (existsb _ es) with false; [done|]. symmetry. apply not_true_iff_false. rewrite existsb_exists.
  intros (e & He%list_elem_of_In & Hn%bool_decide_eq_true). rewrite Forall_forall in Hok.
  destruct (Hok e He) as [[a Ha] _]. congruence.
Qed.

Lemma on_entry_ok i f fw :
  tables_ok fw -> (forall e, entry_ok e -> entry_ok (f e)) ->
  (forall e, ip_address (f e) = ip_address e) -> tables_ok (on_entry i f fw).
Proof.
  intros ((es & Hes & Hnd & Hok & Hlen) & Hcap & Hps & Hkeys) Hf Hip. split_and!; [|exact Hcap|exact Hps|exact Hkeys].
  unfold on_entry. cbn. rewrite Hes. exists (alter f i es). split_and!; [done| | |].
  - by rewrite fmap_alter_same.
  - apply Forall_alter; [done|]. intros e _. apply Hf.
  - unfold zlen. by rewrite length_alter.
Qed.

Lemma add_entry_ok ip now realloc_ok fw :
  tables_ok fw -> find_entry ip fw = Ok None ->
  exists o fw', add_entry ip now realloc_ok true fw = Ok (o, fw') /\ tables_ok fw' /\ mutex fw' = mutex fw
    /\ rate_limit_config fw' = rate_limit_config fw.
Proof.
  intros ((es & Hes & Hnd & Hok & Hlen) & Hcap & Hps & Hkeys) Hf. unfold add_entry.
  unfold find_entry, entry_list in *. rewrite Hes in *. cbn [rows] in *.
  assert (NoDup (ip_address <$> es ++ [mkFirewallEntry (Some ip) 0 now false 0 0])) as Hnd'.
  { rewrite fmap_app. apply NoDup_app. split_and!; [done| |by apply NoDup_singleton].
    intros x Hx. simpl. rewrite list_elem_of_singleton. intros ->. by apply find_name_None in Hf. }
  assert (Forall entry_ok (es ++ [mkFirewallEntry (Some ip) 0 now false 0 0])) as Hok'.
  { apply Forall_app. split; [done|]. repeat constructor; simpl; eauto; lia. }
  unfold zlen in Hlen.
  destruct (Z.geb_spec (Z.of_nat (length es)) (entry_capacity fw)) as [Hfull|Hroom], realloc_ok; simpl;
    rewrite ?Hes; do 2 eexists; (split; [reflexivity|]); (split; [|done]); split_and!; simpl; try done; try lia;
    eexists; (split; [done || exact Hes|]); split_and!; try done;
    rewrite ?zlen_app; unfold zlen; simpl; lia.
Qed.

(** ** Lemmas: the stages of a check *)

Definition verdict_state (v : verdict) : Firewall :=
  match v with Return _ fw | Continue fw => fw end.

Lemma block_entry_ok now e : entry_ok e -> entry_ok (block_entry now e).
Proof. done. Qed.

Lemma on_stats_ok f fw : tables_ok fw -> tables_ok (on_stats f fw).
Proof. intros Hok. by apply (tables_ok_ext fw). Qed.

Ltac entry_step :=
  first [ apply on_stats_ok | apply on_entry_ok; [|intros; try (apply update_suspicion_ok; [lia|]);
            done || (unfold entry_ok in *; simpl in *; split; [tauto|lia])|done] ].

Lemma reset_ok i fw : tables_ok fw -> tables_ok (on_entry i reset_entry fw).
Proof. intros Hok. by entry_step. Qed.

Lemma check_blocked_ok i now fw : tables_ok fw -> tables_ok (verdict_state (check_blocked i now fw)).
Proof.
  intros Hok. unfold check_blocked. destruct (entry_at i fw) as [e|]; [|done].
  destruct (is_blocked e); [|done]. destruct (_ >=? _); simpl; by repeat entry_step.
Qed.

Lemma check_user_agent_ok i ua now fw :
  tables_ok fw -> tables_ok (verdict_state (check_user_agent i ua now fw)).
Proof.
  intros Hok. unfold check_user_agent. destruct ua as [ua|]; [|done].
  destruct (detect_ok ua now fw Hok) as [_ Hd]. destruct (detect_attack_pattern ua now fw) as [s fw'].
  simpl in Hd. destruct (s >=? 10); simpl; [|done]. apply on_stats_ok, on_entry_ok; [done| |done].
  intros e He. by apply update_suspicion_ok; [lia|].
Qed.

Lemma check_payload_ok i data now fw :
  tables_ok fw -> tables_ok (verdict_state (check_payload i data now fw)).
Proof.
  intros Hok. unfold check_payload. destruct data as [data|]; [|done].
  destruct (detect_ok data now fw Hok) as [Hs Hd]. destruct (detect_attack_pattern data now fw) as [s fw'].
  simpl in Hs, Hd. destruct (s >? 5); simpl; [|done].
  assert (tables_ok (on_entry i (update_suspicion (s * 5)) fw')) as H1.
  { apply on_entry_ok; [done| |done]. intros e He. apply update_suspicion_ok; [lia|done]. }
  destruct (over_threshold _ _); simpl; [|done]. by repeat entry_step.
Qed.

(** The verdict is reached and leaves the tables as they should be. *)
Definition decides (m : res verdict) : Prop := res_sat (fun v => tables_ok (verdict_state v)) m.

Lemma check_api_key_ok i k now fw : tables_ok fw -> decides (check_api_key i k now fw).
Proof.
  intros Hok. unfold check_api_key, decides. destruct (_ >? 0); [|done]. destruct k as [k|].
  - destruct (find_name_ok k (allowed_api_keys fw) (proj2 (proj2 (proj2 Hok)))) as [[j|] ->]; cbn [mbind res_bind]; [done|].
    assert (tables_ok (on_entry i (update_suspicion 10) (count_invalid_key fw))) as H1.
    { apply on_entry_ok; [by apply on_stats_ok| |done]. intros e He. by apply update_suspicion_ok; [lia|]. }
    destruct (over_threshold _ _); simpl; [|done]. by repeat entry_step.
  - simpl. apply on_entry_ok; [by apply on_stats_ok| |done].
    intros e He. by apply update_suspicion_ok; [lia|].
Qed.

Lemma touch_entry_ok now e : entry_ok e -> entry_ok (touch_entry now e).
Proof. intros He. unfold touch_entry. by apply update_suspicion_ok; [lia|]. Qed.

Lemma touched_ok i now fw : tables_ok fw -> tables_ok (on_entry i (touch_entry now) fw).
Proof. intros Hok. apply on_entry_ok; [done|apply touch_entry_ok|done]. Qed.

Lemma check_rate_ok i ip now fw : tables_ok fw -> decides (check_rate i ip now fw).
Proof.
  intros Hok. unfold check_rate, get_requests_in_window, decides. pose proof (touched_ok i now fw Hok) as H1.
  rewrite count_entries_ok by done. cbn [mbind res_bind res_sat].
  destruct (_ >? _); simpl; [|done]. by repeat entry_step.
Qed.

Lemma and_then_ok v k :
  tables_ok (verdict_state v) -> (forall fw, tables_ok fw -> decides (k fw)) -> decides (and_then v k).
Proof. unfold decides. destruct v; simpl; auto. Qed.

Lemma check_entry_ok i ip k data ua now fw : tables_ok fw -> decides (check_entry i ip k data ua now fw).
Proof.
  intros Hok. unfold check_entry.
  repeat (apply and_then_ok;
    [by (apply check_blocked_ok || apply check_user_agent_ok || apply check_payload_ok)|]; clear Hok fw; intros fw Hok).
  pose proof (check_api_key_ok i k now fw Hok) as Hv. unfold decides in Hv.
  destruct (check_api_key i k now fw) as [v|]; [|done]. apply and_then_ok; [exact Hv|].
  intros fw' Hok'. by apply check_rate_ok.
Qed.

(** The mutex is given back. *)
Lemma unlocked_ok fw : tables_ok fw -> firewall_ok (unlock fw).
Proof. intros Hok. split; [done|]. by apply (tables_ok_ext fw). Qed.

Lemma lock_ok fw : firewall_ok fw -> exists fw', lock fw = Ok fw' /\ tables_ok fw' /\ fw' = set_mutex true fw.
Proof.
  intros [Hm Hok]. unfold lock. rewrite Hm. eexists. by split_and!.
Qed.

Lemma entry_for_ok ip now realloc_ok fw :
  tables_ok fw -> exists o fw', entry_for ip now realloc_ok true fw = Ok (o, fw') /\ tables_ok fw'.
Proof.
  intros Hok. unfold entry_for. destruct (find_entry_ok ip fw Hok) as [[i|] Hf]; rewrite Hf; cbn [mbind res_bind]; [eauto 10|].
  destruct (add_entry_ok ip now realloc_ok fw Hok Hf) as (o & fw' & Ha & Hok' & _). eauto.
Qed.

Lemma check_request_ok ip k data ua now realloc_ok fw :
  firewall_ok fw ->
  res_sat (fun r => firewall_ok r.2) (firewall_check_request_enhanced ip k data ua now realloc_ok true fw).
Proof.
  intros Hok. unfold firewall_check_request_enhanced. destruct ip as [ip|]; [|done].
  destruct (lock_ok fw Hok) as (fw1 & -> & Hok1 & _). cbn [mbind res_bind].
  set (fw2 := on_stats _ fw1). assert (tables_ok fw2) as Hok2 by (by apply on_stats_ok).
  destruct (is_ip_whitelisted ip now fw2); [by apply unlocked_ok|].
  destruct (is_ip_blacklisted ip fw2); [by apply unlocked_ok, on_stats_ok|].
  destruct (entry_for_ok ip now realloc_ok fw2 Hok2) as ([i|] & fw3 & -> & Hok3);
    cbn [mbind res_bind]; [|by apply unlocked_ok].
  pose proof (check_entry_ok i ip k data ua now fw3 Hok3) as Hok4. unfold decides in Hok4.
  destruct (check_entry i ip k data ua now fw3) as [[|]|]; [..|done]; by apply unlocked_ok.
Qed.

(** ** Lemmas: the other operations *)

Lemma block_ip_ok ip now realloc_ok fw :
  firewall_ok fw -> res_sat (fun r => firewall_ok r.2) (firewall_block_ip ip now realloc_ok true fw).
Proof.
  intros Hok. unfold firewall_block_ip. destruct ip as [ip|]; [|done].
  destruct (lock_ok fw Hok) as (fw1 & -> & Hok1 & _). cbn [mbind res_bind].
  destruct (entry_for_ok ip now realloc_ok fw1 Hok1) as ([i|] & fw3 & -> & Hok3);
    cbn [mbind res_bind]; apply unlocked_ok; [|done]. by repeat entry_step.
Qed.

Lemma unblock_ip_ok ip fw :
  firewall_ok fw -> res_sat (fun r => firewall_ok r.2) (firewall_unblock_ip ip fw).
Proof.
  intros Hok. unfold firewall_unblock_ip. destruct ip as [ip|]; [|done].
  destruct (lock_ok fw Hok) as (fw1 & -> & Hok1 & _). cbn [mbind res_bind].
  destruct (find_entry_ok ip fw1 Hok1) as [[i|] ->]; apply unlocked_ok; [|done]. by repeat entry_step.
Qed.

Lemma remove_row_Forall {A} (P : A -> Prop) name k l l' :
  Forall P l -> remove_row name k l = Some l' -> Forall P l'.
Proof.
  unfold remove_row, row_of. intros Hl Hr. destruct (find_index _ l) as [i|] eqn:Hi; [|done].
  simplify_eq/=. apply find_index_Some in Hi as (x & Hx & _).
  pose proof (swap_remove_perm i l x Hx) as Hp. rewrite Hp in Hl. by inversion Hl.
Qed.

Lemma remove_pattern_ok p fw :
  firewall_ok fw -> res_sat (fun r => firewall_ok r.2) (firewall_remove_attack_pattern p fw).
Proof.
  intros Hok. unfold firewall_remove_attack_pattern. destruct p as [p|]; [|done].
  destruct (lock_ok fw Hok) as (fw1 & -> & (Hes & Hcap & (ps & Hps & Hpok) & Hkeys) & _). cbn [mbind res_bind].
  unfold pattern_list. rewrite Hps. cbn [rows].
  destruct (remove_row pattern p ps) as [l|] eqn:Hr; apply unlocked_ok;
    (split; [exact Hes|]); (split; [exact Hcap|]); (split; [|exact Hkeys]); [|eauto].
  exists l. split; [done|]. by eapply remove_row_Forall.
Qed.

Lemma add_pattern_ok p sev realloc_ok fw :
  firewall_ok fw -> res_sat (fun r => firewall_ok r.2) (firewall_add_attack_pattern p sev realloc_ok fw).
Proof.
  intros Hok. unfold firewall_add_attack_pattern. destruct p as [p|]; [|done].
  destruct ((sev <? 1) || (sev >? 10)) eqn:Hsev; [done|].
  destruct (lock_ok fw Hok) as (fw1 & -> & (Hes & Hcap & (ps & Hps & Hpok) & Hkeys) & _). cbn [mbind res_bind].
  unfold pattern_list. rewrite Hps. cbn [rows].
  destruct (row_of pattern p ps); [apply unlocked_ok; split_and!; eauto|].
  destruct realloc_ok; apply unlocked_ok; (split; [exact Hes|]); (split; [exact Hcap|]); (split; [|exact Hkeys]); [|eauto].
  eexists. split; [done|]. apply Forall_app. split; [done|]. constructor; [|done].
  unfold pattern_ok. simpl. rewrite Z.gtb_ltb in Hsev. btests. lia.
Qed.

(** A call that changes neither the entries nor the patterns. *)
Lemma list_call_ok (body : Firewall -> res (Z * Firewall)) fw :
  (forall fw1, tables_ok fw1 -> res_sat (fun r => firewall_ok r.2) (body fw1)) ->
  firewall_ok fw -> res_sat (fun r => firewall_ok r.2) (fw ← lock fw; body fw).
Proof. intros Hb Hok. destruct (lock_ok fw Hok) as (fw1 & -> & Hok1 & _). by apply Hb. Qed.

Ltac list_call :=
  intros Hok; first [case_match; [|exact Hok] | idtac];
  eapply list_call_ok; [|exact Hok]; intros ? ?;
  repeat case_match; by apply unlocked_ok.

Lemma add_whitelist_ok ip perm dur now realloc_ok fw :
  firewall_ok fw ->
  res_sat (fun r => firewall_ok r.2) (firewall_add_to_whitelist ip perm dur now realloc_ok fw).
Proof. unfold firewall_add_to_whitelist. list_call. Qed.

Lemma remove_whitelist_ok ip fw :
  firewall_ok fw -> res_sat (fun r => firewall_ok r.2) (firewall_remove_from_whitelist ip fw).
Proof. unfold firewall_remove_from_whitelist. list_call. Qed.

Lemma add_blacklist_ok ip why text now realloc_ok fw :
  firewall_ok fw ->
  res_sat (fun r => firewall_ok r.2) (firewall_add_to_blacklist ip why (Some text) now realloc_ok fw).
Proof. unfold firewall_add_to_blacklist. list_call. Qed.

Lemma remove_blacklist_ok ip fw :
  firewall_ok fw -> res_sat (fun r => firewall_ok r.2) (firewall_remove_from_blacklist ip fw).
Proof. unfold firewall_remove_from_blacklist. list_call. Qed.

Lemma configure_ok c fw :
  firewall_ok fw -> res_sat (fun r => firewall_ok r.2) (firewall_configure_rate_limits c fw).
Proof. unfold firewall_configure_rate_limits. list_call. Qed.

(** ** Clients *)

Inductive firewall_op :=
| OCheck (ip : list Z) (api_key request_data user_agent : option (list Z)) (now : Z)
| OBlock (ip : list Z) (now : Z)
| OUnblock (ip : list Z)
| OAllow (ip : list Z) (perm duration now : Z)
| ODisallow (ip : list Z)
| ODeny (ip : list Z) (why : Z) (text : list Z) (now : Z)
| OUndeny (ip : list Z)
| OPattern (p : list Z) (sev : Z)
| OUnpattern (p : list Z)
| OConfigure (c : RateLimitConfig).

(** Each call with the results of its [realloc] and its [strdup]. *)
Definition exec (o : firewall_op) (realloc_ok strdup_ok : bool) (fw : Firewall) : res (Z * Firewall) :=
  match o with
  | OCheck ip k d ua now => firewall_check_request_enhanced (Some ip) k d ua now realloc_ok strdup_ok fw
  | OBlock ip now => firewall_block_ip (Some ip) now realloc_ok strdup_ok fw
  | OUnblock ip => firewall_unblock_ip (Some ip) fw
  | OAllow ip perm dur now => firewall_add_to_whitelist (Some ip) perm dur now realloc_ok fw
  | ODisallow ip => firewall_remove_from_whitelist (Some ip) fw
  | ODeny ip why text now => firewall_add_to_blacklist (Some ip) why (Some text) now realloc_ok fw
  | OUndeny ip => firewall_remove_from_blacklist (Some ip) fw
  | OPattern p sev => firewall_add_attack_pattern (Some p) sev realloc_ok fw
  | OUnpattern p => firewall_remove_attack_pattern (Some p) fw
  | OConfigure c => firewall_configure_rate_limits (Some c) fw
  end.

Lemma exec_ok o realloc_ok fw :
  firewall_ok fw -> res_sat (fun r => firewall_ok r.2) (exec o realloc_ok true fw).
Proof.
  intros Hok. destruct o; cbn [exec];
    eauto using check_request_ok, block_ip_ok, unblock_ip_ok, add_whitelist_ok, remove_whitelist_ok,
      add_blacklist_ok, remove_blacklist_ok, add_pattern_ok, remove_pattern_ok, configure_ok.
Qed.

(** A call with the results of its allocations, of which the copy of an address
    is not checked: it is allowed when the copy succeeds. *)
#[export] Instance firewall_component : Component Firewall (firewall_op * (bool * bool)).
Proof.
  refine {| run_op o fw := snd <$> exec o.1 o.2.1 o.2.2 fw; allowed o _ := o.2.2 = true; invariant := firewall_ok |}.
  intros [o [r c]] fw Hok Hc. simpl in Hc. subst c. apply res_sat_fmap. by apply exec_ok.
Defined.

Lemma dup_keys_ok copies (keys : list (list Z)) :
  (forall i, copies i = true) -> Forall is_Some (imap (fun i k => dup (copies i) k) keys).
Proof.
  intros Hc. apply Forall_lookup. intros i x. rewrite list_lookup_imap. destruct (keys !! i); [|done].
  cbn. rewrite Hc. intros [= <-]. by eexists.
Qed.

Lemma init_ok api_keys now copies fw :
  (forall i, copies i = true) ->
  firewall_init api_keys now true true true copies global_firewall = Ok (0, fw) -> firewall_ok fw.
Proof.
  intros Hc. unfold firewall_init. simpl. rewrite andb_false_r. intros [= <-]. split; [done|]. split_and!.
  - exists []. split_and!; try done; constructor.
  - done.
  - eexists. split; [done|]. repeat constructor; simpl; lia.
  - by apply dup_keys_ok.
Qed.

(** ** Properties *)

(** C8: from a successful [firewall_init], after any sequence of request
    checks, blocks and unblocks, changes of the access lists, of the attack
    patterns and of the configuration, whether each [realloc] succeeds or fails, no such
    call leaves an object's bounds, follows a null or
    freed pointer or blocks on the mutex; the mutex is always given back, every
    client has at most one entry, every suspicion score is in 0..1000 and every
    pattern's severity in 1..10.  The copies of the API keys and of the clients'
    addresses ([strdup]) are assumed to succeed: the source does not check them, and
    [unchecked_strdup_crashes] shows what happens when one fails. *)
Theorem firewall_reachable_ok api_keys now copies fw0 fw o realloc_ok :
  (forall i, copies i = true) ->
  firewall_init api_keys now true true true copies global_firewall = Ok (0, fw0) ->
  rtc component_step fw0 fw ->
  firewall_ok fw /\ exists code fw', exec o realloc_ok true fw = Ok (code, fw') /\ firewall_ok fw'.
Proof.
  intros Hc Hinit Hsteps. apply init_ok in Hinit; [|done]. pose proof (component_reachable fw0 fw Hinit Hsteps) as Hok.
  split; [done|]. pose proof (exec_ok o realloc_ok fw Hok) as Hs.
  destruct (exec o realloc_ok true fw) as [[c fw']|]; [eauto|done].
Qed.

Definition count_request (fw : Firewall) : Firewall :=
  on_stats (fun s => set_total_requests (u64 (total_requests s + 1)) s) fw.

(** The access lists come before everything else: a request from an address
    on the whitelist is allowed and one from an address on the blacklist (and
    not on the whitelist) is refused, whatever it contains and whatever the
    state of its entry, and nothing but the request counters changes. *)
Theorem access_lists_decide ip k data ua now realloc_ok strdup_ok fw :
  firewall_ok fw ->
  (is_ip_whitelisted ip now fw = true ->
     firewall_check_request_enhanced (Some ip) k data ua now realloc_ok strdup_ok fw = Ok (0, count_request fw)) /\
  (is_ip_whitelisted ip now fw = false -> is_ip_blacklisted ip fw = true ->
     firewall_check_request_enhanced (Some ip) k data ua now realloc_ok strdup_ok fw
     = Ok (-1, count_blocked (count_request fw))).
Proof.
  intros [Hm _]. unfold firewall_check_request_enhanced, lock. rewrite Hm. cbn [mbind res_bind].
  fold (count_request (set_mutex true fw)).
  replace (is_ip_whitelisted ip now (count_request (set_mutex true fw)))
    with (is_ip_whitelisted ip now fw) by done.
  replace (is_ip_blacklisted ip (count_request (set_mutex true fw)))
    with (is_ip_blacklisted ip fw) by done.
  split.
  - intros ->. destruct fw. simpl in Hm. by subst.
  - intros -> ->. destruct fw. simpl in Hm. by subst.
Qed.

(** ** Lemmas: one entry per client *)

Lemma count_one {A} (name : A -> option (list Z)) (q : A -> bool) k l :
  NoDup (name <$> l) -> countb (fun e => bool_decide (name e = Some k) && q e) l <= 1.
Proof.
  induction l as [|x l IH]; csimpl; [lia|]. intros [Hx Hnd]%NoDup_cons.
  destruct (bool_decide_reflect (name x = Some k)) as [Hk|Hk]; simpl; [|specialize (IH Hnd); lia].
  assert (countb (fun e => bool_decide (name e = Some k) && q e) l = 0) as ->.
  { clear IH Hnd. rewrite Hk in Hx. induction l as [|y l IH]; csimpl in *; [done|].
    apply not_elem_of_cons in Hx as [Hne Hx].
    rewrite bool_decide_false by congruence. simpl. by apply IH. }
  destruct (q x); lia.
Qed.

Lemma found_entry_at ip fw i :
  find_entry ip fw = Ok (Some i) -> exists e, entry_at i fw = Some e /\ ip_address e = Some ip.
Proof.
  intros Hf%find_name_Some. unfold entry_at. change (map ip_address) with (fmap (M := list) ip_address) in Hf.
  rewrite list_lookup_fmap in Hf. destruct (entry_list fw !! i) as [e|]; simplify_eq/=. eauto.
Qed.

Lemma entry_at_on_entry i f fw e :
  entry_at i fw = Some e -> entry_at i (on_entry i f fw) = Some (f e).
Proof.
  unfold entry_at, entry_list, on_entry. cbn. destruct (entries fw); simpl; [done| |done].
  intros He. by rewrite list_lookup_alter_eq, He.
Qed.

Lemma find_entry_snoc ip e fw fw' :
  find_entry ip fw = Ok None -> entry_list fw' = entry_list fw ++ [e] -> ip_address e = Some ip ->
  find_entry ip fw' = Ok (Some (length (entry_list fw))).
Proof.
  unfold find_entry. intros Hf -> He. rewrite map_app. cbn [map]. rewrite He, (find_name_snoc _ _ Hf).
  by rewrite length_map.
Qed.

Lemma add_entry_at ip now fw :
  tables_ok fw -> find_entry ip fw = Ok None ->
  exists i fw', add_entry ip now true true fw = Ok (Some i, fw')
    /\ entry_at i fw' = Some (mkFirewallEntry (Some ip) 0 now false 0 0) /\ find_entry ip fw' = Ok (Some i)
    /\ entry_list fw' = entry_list fw ++ [mkFirewallEntry (Some ip) 0 now false 0 0]
    /\ rate_limit_config fw' = rate_limit_config fw /\ allowed_api_keys fw' = allowed_api_keys fw
    /\ attack_patterns fw' = attack_patterns fw /\ whitelist fw' = whitelist fw
    /\ blacklist fw' = blacklist fw /\ tables_ok fw'.
Proof.
  intros Hok Hf. destruct (add_entry_ok ip now true fw Hok Hf) as (o & fw' & Ha & Hok' & _).
  pose proof Ha as Ha'. destruct Hok as ((es & Hes & _) & _). revert Ha'. unfold add_entry at 1. rewrite andb_false_r.
  assert (entry_list fw = es) as Hel by (unfold entry_list; by rewrite Hes). rewrite Hel in *.
  destruct (_ >=? _); cbn [entries set_entry_capacity]; rewrite Hes; cbn [dup]; intros [= <- <-];
    do 2 eexists; (split; [exact Ha|]);
    (split; [by apply list_lookup_middle|]);
    (split; [by rewrite (find_entry_snoc ip (mkFirewallEntry (Some ip) 0 now false 0 0) fw), ?Hel; rewrite ?Hel|]);
    by split_and!.
Qed.

(** ** The window of the rate limit *)

(** A client that is neither refused by an access list nor blocked, on a
    firewall that asks for no API key. *)
Definition open_for (ip : list Z) (fw : Firewall) : Prop :=
  firewall_ok fw /\ allowed_api_keys fw = [] /\ is_ip_blacklisted ip fw = false
  /\ 1 <= max_requests_per_minute (rate_limit_config fw)
  /\ Forall (fun e => ip_address e = Some ip -> is_blocked e = false) (entry_list fw).

Lemma requests_in_window_at_most_one ip w now fw :
  tables_ok fw -> exists n, get_requests_in_window ip w now fw = Ok n /\ n <= 1.
Proof.
  intros Hok. unfold get_requests_in_window. rewrite count_entries_ok by done. eexists. split; [done|].
  destruct Hok as ((es & Hes & Hnd & _) & _). unfold entry_list. rewrite Hes. cbn [rows].
  by apply (count_one ip_address (fun e => last_request e >=? now - w)).
Qed.

Lemma Forall_entry_list P i f fw :
  Forall P (entry_list fw) -> (forall e, P e -> P (f e)) -> Forall P (entry_list (on_entry i f fw)).
Proof.
  unfold entry_list, on_entry. cbn. destruct (entries fw); simpl; [done| |done].
  intros Hl Hf. apply Forall_alter; [done|]. auto.
Qed.

Lemma entry_not_blocked ip fw i :
  find_entry ip fw = Ok (Some i) -> Forall (fun e => ip_address e = Some ip -> is_blocked e = false) (entry_list fw) ->
  exists e, entry_at i fw = Some e /\ is_blocked e = false.
Proof.
  intros Hi Hall. destruct (found_entry_at _ _ _ Hi) as (e & He & Hip). exists e. split; [done|].
  unfold entry_at in He. exact (Forall_lookup_1 _ _ _ _ Hall He Hip).
Qed.

Lemma check_open ip i now fw :
  tables_ok fw -> allowed_api_keys fw = [] -> 1 <= max_requests_per_minute (rate_limit_config fw) ->
  (exists e, entry_at i fw = Some e /\ is_blocked e = false) ->
  check_entry i ip None None None now fw = Ok (Return 0 (on_entry i (touch_entry now) fw)).
Proof.
  intros Hok Hkeys Hmax (e & He & Hb). unfold check_entry, check_blocked. rewrite He, Hb.
  cbn [and_then check_user_agent check_payload]. unfold check_api_key. rewrite Hkeys.
  change (zlen [] >? 0) with false. cbv iota. cbn [mbind res_bind and_then].
  unfold check_rate.
  destruct (requests_in_window_at_most_one ip 60 now _ (touched_ok i now fw Hok)) as (n & -> & Hn).
  cbn [mbind res_bind rate_limit_config on_entry set_entries].
  destruct (Z.gtb_spec n (max_requests_per_minute (rate_limit_config fw))); [lia|done].
Qed.

Lemma check_request_open ip now fw :
  open_for ip fw ->
  exists fw', firewall_check_request (Some ip) None now true true fw = Ok (0, fw') /\ open_for ip fw'.
Proof.
  intros (Hok & Hkeys & Hbl & Hmax & Hall). unfold firewall_check_request.
  pose proof (check_request_ok (Some ip) None None None now true fw Hok) as Hres.
  unfold firewall_check_request_enhanced in *.
  destruct (lock_ok fw Hok) as (fw1 & Hl & Hok1 & ->). rewrite Hl in *. cbn [mbind res_bind] in *.
  fold (count_request (set_mutex true fw)) in *. set (fw2 := count_request _) in *.
  assert (tables_ok fw2) as Hok2 by done.
  destruct (is_ip_whitelisted ip now fw2); [by eexists|].
  replace (is_ip_blacklisted ip fw2) with false in * by done. unfold entry_for in *.
  destruct (find_entry_ok ip fw2 Hok2) as [[i|] Hf]; rewrite Hf in *; cbn [mbind res_bind] in *.
  - rewrite (check_open ip i now fw2) in * by (try done; by apply (entry_not_blocked ip)).
    eexists. split; [reflexivity|]. split_and!; try done.
    by apply Forall_entry_list.
  - destruct (add_entry_at ip now fw2 Hok2 Hf) as (i & fw3 & Ha & He & _ & Hel & R1 & R2 & R3 & R4 & R5 & Hok3).
    rewrite Ha in *. cbn [mbind res_bind] in *.
    rewrite (check_open ip i now fw3) in * by (try done; rewrite ?R1, ?R2; try done; by eexists).
    eexists. split; [reflexivity|]. split_and!; cbn; rewrite ?R1, ?R2; try done.
    + unfold is_ip_blacklisted. cbn. by rewrite R5.
    + apply Forall_entry_list; [|done]. rewrite Hel. apply Forall_app. split; [exact Hall|]. by constructor.
Qed.

(** A client's requests, one after the other. *)
Fixpoint requests (ip : list Z) (times : list Z) (fw : Firewall) : res (list Z) :=
  match times with
  | [] => Ok []
  | t :: times' =>
      '(code, fw) ← firewall_check_request (Some ip) None t true true fw;
      codes ← requests ip times' fw;
      Ok (code :: codes)
  end.

(** The limit on requests per minute never takes effect: it counts the
    entries of the client, of which there is at most one, so with any limit of
    at least one a client may send any number of requests, all in the same
    second if it likes, and every one is allowed. *)
Theorem rate_limit_never_triggers ip times fw :
  open_for ip fw -> requests ip times fw = Ok (replicate (length times) 0).
Proof.
  revert fw. induction times as [|t times IH]; intros fw Hopen;
    cbn [requests length replicate]; [done|].
  destruct (check_request_open ip t fw Hopen) as (fw' & -> & Hopen').
  cbn [mbind res_bind]. by rewrite (IH fw' Hopen').
Qed.

(** ** Blocking and matching *)

(** The client of a refused request: its entry is blocked since [now]. *)
Definition blocked_since (ip : list Z) (now : Z) (fw : Firewall) : Prop :=
  exists i e, find_entry ip fw = Ok (Some i) /\ entry_at i fw = Some e /\ is_blocked e = true
    /\ block_start_time e = now.

Lemma find_entry_on_entry ip i f fw :
  (forall e, ip_address (f e) = ip_address e) -> find_entry ip (on_entry i f fw) = find_entry ip fw.
Proof.
  intros Hf. unfold find_entry, entry_list, on_entry. cbn. destruct (entries fw) as [|l|]; [done| |done].
  cbn [rows ptr_map]. f_equal. change (map ip_address) with (fmap (M := list) ip_address). by apply fmap_alter_same.
Qed.

(** A blocked client is refused until its block expires, whatever it sends. *)
Lemma check_while_blocked ip t k data ua now realloc_ok strdup_ok fw :
  mutex fw = false -> blocked_since ip t fw -> is_ip_whitelisted ip now fw = false ->
  now - t < block_duration_minutes (rate_limit_config fw) * 60 ->
  exists fw', firewall_check_request_enhanced (Some ip) k data ua now realloc_ok strdup_ok fw = Ok (-1, fw')
    /\ blocked_since ip t fw'.
Proof.
  intros Hm (i & e & Hi & He & Hb & Ht) Hw Hnow. unfold firewall_check_request_enhanced, lock.
  rewrite Hm. cbn [mbind res_bind]. set (fw1 := on_stats _ _).
  replace (is_ip_whitelisted ip now fw1) with (is_ip_whitelisted ip now fw) by done. rewrite Hw.
  destruct (is_ip_blacklisted ip fw1).
  { eexists. split; [reflexivity|]. by exists i, e. }
  unfold entry_for. replace (find_entry ip fw1) with (find_entry ip fw) by done. rewrite Hi. cbn [mbind res_bind].
  unfold check_entry, check_blocked. replace (entry_at i fw1) with (entry_at i fw) by done.
  rewrite He, Hb, Ht.
  destruct (Z.geb_spec (now - t) (block_duration_minutes (rate_limit_config fw1) * 60)) as [Hge|].
  { cbn in Hge. lia. }
  eexists. split; [reflexivity|]. by exists i, e.
Qed.

(** What [firewall_block_ip] does. *)
Lemma block_ip_blocks ip t fw fw1 :
  firewall_ok fw -> firewall_block_ip (Some ip) t true true fw = Ok (0, fw1) ->
  firewall_ok fw1 /\ blocked_since ip t fw1 /\ whitelist fw1 = whitelist fw
    /\ blacklist fw1 = blacklist fw /\ allowed_api_keys fw1 = allowed_api_keys fw
    /\ rate_limit_config fw1 = rate_limit_config fw.
Proof.
  intros Hok Hblock.
  pose proof (block_ip_ok (Some ip) t true fw Hok) as Hres. rewrite Hblock in Hres. split; [done|].
  revert Hblock. unfold firewall_block_ip. destruct (lock_ok fw Hok) as (fw0 & -> & Hok0 & ->).
  cbn [mbind res_bind]. set (fw0 := set_mutex true fw) in *.
  unfold entry_for. destruct (find_entry_ok ip fw0 Hok0) as [[i|] Hf]; rewrite Hf; cbn [mbind res_bind].
  - intros [= <-]. split; [|done]. destruct (found_entry_at _ _ _ Hf) as (e & He & _).
    exists i, (block_entry t e).
    split; [by rewrite <- Hf; apply (find_entry_on_entry ip i (block_entry t) fw0)|].
    split; [by apply (entry_at_on_entry i (block_entry t) fw0)|done].
  - destruct (add_entry_at ip t fw0 Hok0 Hf) as (i & fw2 & -> & He & Hi & _ & R1 & R2 & R3 & R4 & R5 & _).
    cbn [mbind res_bind]. intros [= <-]. split; [|done]. exists i. eexists.
    split; [by rewrite <- Hi; apply (find_entry_on_entry ip i (block_entry t) fw2)|].
    split; [by apply (entry_at_on_entry i (block_entry t) fw2)|done].
Qed.

(** The first bare request after a block has expired. *)
Lemma check_after_block ip t now fw :
  firewall_ok fw -> blocked_since ip t fw -> is_ip_whitelisted ip now fw = false ->
  is_ip_blacklisted ip fw = false -> allowed_api_keys fw = [] ->
  1 <= max_requests_per_minute (rate_limit_config fw) ->
  now - t >= block_duration_minutes (rate_limit_config fw) * 60 ->
  exists fw2 i e, firewall_check_request (Some ip) None now true true fw = Ok (0, fw2)
    /\ find_entry ip fw2 = Ok (Some i) /\ entry_at i fw2 = Some e
    /\ is_blocked e = false /\ suspicious_score e = 0.
Proof.
  intros Hok (i & e & Hi & He & Hb & Ht) Hw Hbl Hkeys Hmax Hnow.
  unfold firewall_check_request, firewall_check_request_enhanced.
  destruct (lock_ok fw Hok) as (fw1 & -> & Hok1 & ->). cbn [mbind res_bind].
  set (fw2 := on_stats _ _). assert (tables_ok fw2) as Hok2 by done.
  replace (is_ip_whitelisted ip now fw2) with (is_ip_whitelisted ip now fw) by done. rewrite Hw.
  replace (is_ip_blacklisted ip fw2) with (is_ip_blacklisted ip fw) by done. rewrite Hbl.
  unfold entry_for. replace (find_entry ip fw2) with (find_entry ip fw) by done. rewrite Hi. cbn [mbind res_bind].
  set (fw3 := on_entry i reset_entry fw2).
  assert (entry_at i fw3 = Some (reset_entry e)) as He3 by (by apply entry_at_on_entry).
  assert (check_entry i ip None None None now fw2 = check_entry i ip None None None now fw3) as ->.
  { unfold check_entry, check_blocked at 1 2. rewrite He3.
    replace (entry_at i fw2) with (entry_at i fw) by done. rewrite He, Hb, Ht.
    destruct (Z.geb_spec (now - t) (block_duration_minutes (rate_limit_config fw2) * 60)); [done|].
    cbn in *. lia. }
  rewrite (check_open ip i now fw3); try done; [|by apply reset_ok|by eexists].
  eexists _, i, (touch_entry now (reset_entry e)). split; [reflexivity|]. split_and!; try done.
  - rewrite <- Hi. transitivity (find_entry ip fw3); [by apply (find_entry_on_entry ip i _ fw3)|].
    by apply (find_entry_on_entry ip i _ fw2).
  - by apply (entry_at_on_entry i _ fw3).
Qed.

(** An operator's block holds for exactly the configured time: until then
    every request of the client is refused (unless it is on the whitelist); the
    first bare request after that is allowed again and the client's score is
    reset. *)
Theorem block_holds_until_expiry ip t fw fw1 k data ua now :
  firewall_ok fw -> firewall_block_ip (Some ip) t true true fw = Ok (0, fw1) ->
  is_ip_whitelisted ip now fw = false ->
  (now - t < block_duration_minutes (rate_limit_config fw) * 60 ->
     exists fw2, firewall_check_request_enhanced (Some ip) k data ua now true true fw1 = Ok (-1, fw2)) /\
  (now - t >= block_duration_minutes (rate_limit_config fw) * 60 ->
   is_ip_blacklisted ip fw = false -> allowed_api_keys fw = [] ->
   1 <= max_requests_per_minute (rate_limit_config fw) ->
     exists fw2 i e, firewall_check_request (Some ip) None now true true fw1 = Ok (0, fw2)
       /\ find_entry ip fw2 = Ok (Some i) /\ entry_at i fw2 = Some e
       /\ is_blocked e = false /\ suspicious_score e = 0).
Proof.
  intros Hok Hblock Hw.
  destruct (block_ip_blocks ip t fw fw1 Hok Hblock) as (Hok1 & Hb & E1 & E2 & E3 & E4).
  assert (is_ip_whitelisted ip now fw1 = false) as Hw1 by (unfold is_ip_whitelisted in *; by rewrite E1).
  split.
  - intros Hnow. destruct (check_while_blocked ip t k data ua now true true fw1) as (fw2 & H2 & _);
      [apply Hok1|done|done|by rewrite E4|eauto].
  - intros Hnow Hbl Hkeys Hmax. apply (check_after_block ip t); try done; rewrite ?E3, ?E4; try done.
    unfold is_ip_blacklisted in *. by rewrite E2.
Qed.

(** ** Scanners *)

Lemma detect_severity data now fw p :
  tables_ok fw -> p ∈ pattern_list fw -> stristr data (pattern p) = true ->
  severity p <= (detect_attack_pattern data now fw).1.
Proof.
  intros (_ & _ & (ps & Hps & Hok) & _) Hp Hs. unfold detect_attack_pattern, pattern_list in *.
  rewrite Hps in *. cbn [rows] in Hp.
  destruct (scan_patterns_ok data now ps (attack_pattern_hits (stats fw)) 0 Hok ltac:(lia)) as (_ & _ & _ & H).
  specialize (H p Hp Hs). by destruct (scan_patterns _ _ _ _ _) as [[m h] r].
Qed.

Lemma check_entry_scanner i ip k data ua now fw p e :
  tables_ok fw -> p ∈ pattern_list fw -> 10 <= severity p -> stristr ua (pattern p) = true ->
  find_entry ip fw = Ok (Some i) -> entry_at i fw = Some e ->
  exists fw' t, check_entry i ip k data (Some ua) now fw = Ok (Return (-1) fw') /\ blocked_since ip t fw'.
Proof.
  intros Hok Hp Hsev Hs Hi He. unfold check_entry, check_blocked. rewrite He.
  assert (forall fw1, tables_ok fw1 -> pattern_list fw1 = pattern_list fw -> find_entry ip fw1 = Ok (Some i) ->
    (exists e1, entry_at i fw1 = Some e1) ->
    exists fw' t, and_then (check_user_agent i (Some ua) now fw1) (fun fw =>
      and_then (check_payload i data now fw) (fun fw =>
      v ← check_api_key i k now fw; and_then v (check_rate i ip now))) = Ok (Return (-1) fw')
      /\ blocked_since ip t fw') as Hscan.
  { intros fw1 Hok1 Hpl Hi1 (e1 & He1). unfold check_user_agent.
    pose proof (detect_severity ua now fw1 p Hok1 ltac:(by rewrite Hpl) Hs) as Hd.
    unfold detect_attack_pattern in *. destruct (attack_patterns fw1) as [|ps|]; [cbn in Hd; lia| |cbn in Hd; lia].
    destruct (scan_patterns _ _ _ _ _) as [[m h] r]. cbn in Hd.
    destruct (Z.geb_spec m 10); [|lia]. cbn [and_then].
    set (fw2 := set_attack_patterns _ _). set (f := fun e => update_suspicion 50 (block_entry now e)).
    exists (count_blocked (on_entry i f fw2)), now. split; [done|]. exists i, (f e1).
    split_and!; [|by apply (entry_at_on_entry i f fw2)|done|done].
    rewrite <- Hi1. by apply (find_entry_on_entry ip i f fw2). }
  destruct (is_blocked e) eqn:Hb; [|by eauto].
  destruct (_ >=? _) eqn:Ht; cbn [and_then].
  - apply Hscan; [by apply reset_ok|done| |eexists; by apply entry_at_on_entry].
    rewrite <- Hi. by apply (find_entry_on_entry ip i reset_entry fw).
  - do 2 eexists. split; [reflexivity|]. by exists i, e.
Qed.

(** A scanner is caught by its user agent in any mix of upper and lower
    case: a request whose user agent contains, up to case, a pattern of severity
    10 is refused, and its client - unless the whitelist or the blacklist
    decides - is blocked from then on. *)
Theorem scanner_refused ip k data ua now fw p before name after :
  firewall_ok fw -> p ∈ pattern_list fw -> 10 <= severity p -> pattern p <> [] ->
  ua = before ++ name ++ after -> map tolower name = map tolower (pattern p) ->
  is_ip_whitelisted ip now fw = false ->
  exists fw', firewall_check_request_enhanced (Some ip) k data (Some ua) now true true fw = Ok (-1, fw')
    /\ (is_ip_blacklisted ip fw = false -> exists t, blocked_since ip t fw').
Proof.
  intros Hok Hp Hsev Hne Hua Hname Hw.
  assert (stristr ua (pattern p) = true) as Hs by (apply stristr_spec; eauto).
  unfold firewall_check_request_enhanced.
  destruct (lock_ok fw Hok) as (fw1 & -> & Hok1 & ->). cbn [mbind res_bind].
  set (fw2 := on_stats _ _). assert (tables_ok fw2) as Hok2 by done.
  replace (is_ip_whitelisted ip now fw2) with (is_ip_whitelisted ip now fw) by done. rewrite Hw.
  replace (is_ip_blacklisted ip fw2) with (is_ip_blacklisted ip fw) by done.
  destruct (is_ip_blacklisted ip fw); [by eexists|].
  unfold entry_for. destruct (find_entry_ok ip fw2 Hok2) as [[i|] Hf]; rewrite Hf; cbn [mbind res_bind].
  - destruct (found_entry_at _ _ _ Hf) as (e & He & _).
    destruct (check_entry_scanner i ip k data ua now fw2 p e) as (fw' & t & -> & Ht); try done.
    eexists. split; [reflexivity|]. eauto.
  - destruct (add_entry_at ip now fw2 Hok2 Hf) as (i & fw3 & -> & He & Hi & _ & R1 & R2 & R3 & _ & _ & Hok3).
    cbn [mbind res_bind].
    destruct (check_entry_scanner i ip k data ua now fw3 p
                (mkFirewallEntry (Some ip) 0 now false 0 0)) as (fw' & t & -> & Ht); try done.
    { unfold pattern_list. by rewrite R3. }
    eexists. split; [reflexivity|]. eauto.
Qed.

(** ** The blacklist as a set *)

Inductive list_op := Deny (ip : list Z) | Undeny (ip : list Z).

Definition list_exec (o : list_op) (fw : Firewall) : res (Z * Firewall) :=
  match o with
  | Deny ip => firewall_add_to_blacklist (Some ip) 3 (Some []) 0 true fw
  | Undeny ip => firewall_remove_from_blacklist (Some ip) fw
  end.

(** What the list stands for: a set of addresses. *)
Definition spec_exec (o : list_op) (s : gset (list Z)) : Z * gset (list Z) :=
  match o with
  | Deny ip => (0, {[ip]} ∪ s)
  | Undeny ip => (if decide (ip ∈ s) then 0 else -1, s ∖ {[ip]})
  end.

Definition list_op_ok (o : list_op) : Prop :=
  match o with Deny ip | Undeny ip => (length ip <= 255)%nat end.

Definition lists_set (fw : Firewall) (s : gset (list Z)) : Prop :=
  mutex fw = false /\ NoDup (bl_ip_address <$> blacklist fw)
  /\ (forall ip, ip ∈ s <-> ip ∈ bl_ip_address <$> blacklist fw).

Lemma row_of_Some {A} (name : A -> list Z) k l i :
  row_of name k l = Some i -> exists x, l !! i = Some x /\ name x = k.
Proof.
  intros H. apply find_index_Some in H as (x & Hx & Hk & _). exists x. split; [done|]. by apply streq_true.
Qed.

Lemma row_of_None {A} (name : A -> list Z) k l : row_of name k l = None <-> k ∉ name <$> l.
Proof.
  unfold row_of. rewrite find_index_None, Forall_forall. split.
  - intros Hall (x & -> & Hx)%list_elem_of_fmap. specialize (Hall x Hx). by rewrite streq_refl in Hall.
  - intros Hk x Hx. apply streq_false. intros <-. apply Hk, list_elem_of_fmap. eauto.
Qed.

Lemma list_exec_refines o fw s :
  list_op_ok o -> lists_set fw s ->
  exists fw', list_exec o fw = Ok ((spec_exec o s).1, fw') /\ lists_set fw' (spec_exec o s).2.
Proof.
  intros Hlen (Hm & Hnd & Hs). destruct o as [ip|ip]; cbn [list_exec spec_exec fst snd list_op_ok] in *.
  - unfold firewall_add_to_blacklist, lock. rewrite Hm. cbn [mbind res_bind]. cbn [blacklist set_mutex].
    destruct (row_of bl_ip_address ip (blacklist fw)) as [i|] eqn:Hr.
    + eexists. split; [reflexivity|]. split_and!; try done. cbn. intros ip'.
      rewrite elem_of_union, elem_of_singleton, Hs. split; [|by right]. intros [->|H]; [|done].
      apply row_of_Some in Hr as (x & Hx & <-). apply list_elem_of_fmap. exists x. split; [done|].
      by eapply list_elem_of_lookup_2.
    + apply row_of_None in Hr. simpl negb. cbv iota.
      eexists. split; [reflexivity|]. split_and!; cbn; try done.
      * rewrite fmap_app. apply NoDup_app. split_and!; [done| |by apply NoDup_singleton].
        intros x Hx. simpl. rewrite list_elem_of_singleton. unfold field256, strncpy.
        rewrite take_ge by lia. intros ->. done.
      * intros ip'. rewrite fmap_app, elem_of_app. simpl. unfold field256, strncpy.
        rewrite take_ge by lia. rewrite list_elem_of_singleton, elem_of_union, elem_of_singleton, Hs. tauto.
  - unfold firewall_remove_from_blacklist, remove_row, lock. rewrite Hm. cbn [mbind res_bind].
    cbn [blacklist set_mutex].
    destruct (row_of bl_ip_address ip (blacklist fw)) as [i|] eqn:Hr; cbn [fmap option_fmap option_map].
    + apply row_of_Some in Hr as (x & Hx & Hip). pose proof (swap_remove_perm i _ x Hx) as Hp.
      assert (bl_ip_address <$> blacklist fw ≡ₚ ip :: (bl_ip_address <$> swap_remove i (blacklist fw))) as Hp'
        by (rewrite Hp at 1; simpl; by rewrite Hip).
      rewrite Hp' in Hnd. apply NoDup_cons in Hnd as [Hn Hnd].
      rewrite decide_True by (apply Hs; rewrite Hp'; set_solver).
      eexists. split; [reflexivity|]. split_and!; cbn; try done.
      intros ip'. rewrite elem_of_difference, elem_of_singleton, Hs, Hp', elem_of_cons.
      split; [naive_solver|]. intros H. split; [by right|]. by intros ->.
    + apply row_of_None in Hr. rewrite decide_False by (by rewrite Hs).
      eexists. split; [reflexivity|]. split_and!; cbn; try done.
      intros ip'. rewrite elem_of_difference, elem_of_singleton, Hs. split; [naive_solver|].
      intros H. split; [done|]. by intros ->.
Qed.

Fixpoint list_execs (os : list list_op) (fw : Firewall) : res (list Z * Firewall) :=
  match os with
  | [] => Ok ([], fw)
  | o :: os' =>
      '(c, fw) ← list_exec o fw; '(cs, fw) ← list_execs os' fw; Ok (c :: cs, fw)
  end.

Fixpoint spec_execs (os : list list_op) (s : gset (list Z)) : list Z * gset (list Z) :=
  match os with
  | [] => ([], s)
  | o :: os' =>
      let '(c, s) := spec_exec o s in let '(cs, s) := spec_execs os' s in (c :: cs, s)
  end.

(** The blacklist refines a finite set of addresses (of at most 255 bytes):
    for any sequence of additions and removals - which move the last row into
    the gap - every call answers as the operation on the set does, and in the
    end an address is refused as blacklisted exactly when it is in the set. *)
Theorem blacklist_refines_set os fw s :
  Forall list_op_ok os -> lists_set fw s ->
  exists fw', list_execs os fw = Ok ((spec_execs os s).1, fw')
    /\ forall ip, firewall_is_blacklisted (Some ip) fw'
                  = Ok (bool_decide (ip ∈ (spec_execs os s).2), fw').
Proof.
  intros Hos. revert fw s. induction Hos as [|o os Ho _ IH]; intros fw s Hs; cbn [list_execs spec_execs].
  - exists fw. split; [done|]. intros ip. destruct Hs as (Hm & _ & Hs).
    unfold firewall_is_blacklisted, get, lock. rewrite Hm. cbn [mbind res_bind].
    replace (is_ip_blacklisted ip (set_mutex true fw)) with (bool_decide (ip ∈ s)).
    { destruct fw. simpl in Hm. by subst. }
    cbn [snd]. unfold is_ip_blacklisted. cbn [blacklist set_mutex].
    apply eq_true_iff_eq. rewrite bool_decide_eq_true, Hs, existsb_exists. split.
    + intros (x & -> & Hx%list_elem_of_In)%list_elem_of_fmap. exists x. split; [done|]. apply streq_refl.
    + intros (x & Hx%list_elem_of_In & Heq%streq_true). apply list_elem_of_fmap. by exists x.
  - destruct (list_exec_refines o fw s Ho Hs) as (fw1 & -> & Hs1). cbn [mbind res_bind].
    destruct (spec_exec o s) as [c s1]. cbn [fst snd] in *.
    destruct (IH fw1 s1 Hs1) as (fw2 & -> & H2). cbn [mbind res_bind].
    destruct (spec_execs os s1) as [cs s2]. by exists fw2.
Qed.

(** ** Configuration files *)

Lemma load_lines_skip lines line section now realloc_ok fw :
  is_comment line = true ->
  load_lines (line :: lines) section now realloc_ok fw = load_lines lines section now realloc_ok fw.
Proof. simpl. by intros ->. Qed.

(** [firewall_load_config] keeps the mutex while it adds what it reads, and
    the functions it calls take the mutex again: loading a file deadlocks at the
    first whitelist entry, blacklist entry or attack pattern it holds. *)
Theorem load_config_deadlocks before section line rest now realloc_ok fw contents :
  mutex fw = false -> file_lines 1023 contents = before ++ section :: line :: rest ->
  Forall (fun l => is_comment l = true) before ->
  is_comment line = false -> section_of line = None ->
  (section = lit "[attack_patterns]" /\
     (exists p sev, scan_pattern line = Ok (Some (p, sev)) /\ 1 <= sev <= 10)) \/
  (section = lit "[whitelist]" /\
     (exists ip r perm r' expiry r'', scan_into 46 c_COMMA line = Ok (Some (ip, r))
        /\ scan_char c_COMMA r ≫= scan_int = Some (perm, r')
        /\ scan_char c_COMMA r' ≫= scan_long = Some (expiry, r''))) ->
  firewall_load_config (Some contents) now realloc_ok fw = Fault Deadlock.
Proof.
  intros Hm Hlines Hbefore Hc Hsec Hkind. unfold firewall_load_config, lock. rewrite Hm, Hlines.
  cbn [mbind res_bind]. set (fw1 := set_mutex true fw).
  assert (forall n, load_lines (before ++ section :: line :: rest) n now realloc_ok fw1 = Fault Deadlock) as H;
    [|by rewrite H].
  clear Hlines. induction Hbefore as [|b before Hb _ IH]; intros n.
  - cbn [app load_lines]. destruct Hkind as [[-> (p & sev & Hp & Hsev)]|[-> (ip & r & perm & r' & ex & r'' & H1 & H2 & H3)]].
    + change (is_comment (lit "[attack_patterns]")) with false. cbv iota.
      change (section_of (lit "[attack_patterns]")) with (Some 4). cbv iota. rewrite Hc, Hsec.
      cbn [Z.eqb Pos.eqb]. unfold load_pattern. rewrite Hp. cbn [mbind res_bind].
      unfold firewall_add_attack_pattern.
      assert ((sev <? 1) || (sev >? 10) = false) as ->; [|done].
      destruct (Z.ltb_spec sev 1), (Z.gtb_spec sev 10); lia || done.
    + change (is_comment (lit "[whitelist]")) with false. cbv iota.
      change (section_of (lit "[whitelist]")) with (Some 2). cbv iota. rewrite Hc, Hsec.
      cbn [Z.eqb Pos.eqb]. unfold load_whitelist. rewrite H1. cbn [mbind res_bind].
      rewrite H2, H3. done.
  - cbn [app]. by rewrite load_lines_skip.
Qed.

(** After [firewall_clear_all] the table of entries is NULL but its capacity
    says 1024, so the next request from any address writes through the null
    pointer. *)
Theorem cleared_firewall_crashes now fw fw1 ip k data ua now' realloc_ok strdup_ok :
  firewall_clear_all now fw = Ok (0, fw1) ->
  firewall_check_request_enhanced (Some ip) k data ua now' realloc_ok strdup_ok fw1 = Fault NullDeref.
Proof.
  unfold firewall_clear_all, lock. destruct (mutex fw); [done|]. cbn [mbind res_bind].
  cbn [entries attack_patterns set_mutex].
  destruct (entries fw), (attack_patterns fw); try done; by intros [= <-].
Qed.

(** The copy of a new client's address is not checked.  When it fails, the very
    request that made the entry compares the missing address with the client's
    ([get_requests_in_window]) and reads through the null pointer. *)
Theorem unchecked_strdup_crashes ip now fw :
  firewall_ok fw -> find_entry ip fw = Ok None -> allowed_api_keys fw = [] ->
  is_ip_whitelisted ip now fw = false -> is_ip_blacklisted ip fw = false ->
  firewall_check_request (Some ip) None now true false fw = Fault NullDeref.
Proof.
  intros Hok Hf Hkeys Hw Hbl. unfold firewall_check_request, firewall_check_request_enhanced.
  destruct (lock_ok fw Hok) as (fw1 & -> & ((es & Hes & _) & _) & ->). cbn [mbind res_bind].
  change (entries fw = PLive es) in Hes. fold (count_request (set_mutex true fw)). set (fw2 := count_request _).
  change (is_ip_whitelisted ip now fw2) with (is_ip_whitelisted ip now fw). rewrite Hw.
  change (is_ip_blacklisted ip fw2) with (is_ip_blacklisted ip fw). rewrite Hbl.
  unfold entry_for. change (find_entry ip fw2) with (find_entry ip fw). rewrite Hf. cbn [mbind res_bind].
  unfold add_entry. rewrite andb_false_r. change (entry_list fw2) with (entry_list fw).
  assert (entry_list fw = es) as -> by (unfold entry_list; by rewrite Hes).
  set (new := mkFirewallEntry _ _ _ _ _ _).
  assert (forall fw3, entries fw3 = PLive (es ++ [new]) -> allowed_api_keys fw3 = [] ->
            check_entry (length es) ip None None None now fw3 = Fault NullDeref) as Hc.
  { intros fw3 He3 Hk3. unfold check_entry, check_blocked, entry_at, entry_list. rewrite He3. cbn [rows].
    rewrite list_lookup_middle by done. cbn [is_blocked new and_then check_user_agent check_payload].
    unfold check_api_key. rewrite Hk3. change (zlen [] >? 0) with false. cbv iota. cbn [mbind res_bind and_then].
    unfold check_rate, get_requests_in_window, count_entries, entry_list, on_entry. cbn [entries set_entries].
    rewrite He3. cbn [ptr_map rows].
    replace (existsb _ _) with true; [done|]. symmetry. apply existsb_exists. exists (touch_entry now new).
    split; [|done]. apply list_elem_of_In, (list_elem_of_lookup_2 _ (length es)).
    by rewrite list_lookup_alter_eq, list_lookup_middle. }
  destruct (_ >=? _); cbn [entries set_entry_capacity fw2 count_request on_stats set_stats set_mutex]; rewrite Hes; cbn [mbind res_bind];
    rewrite Hc; done.
Qed.

(** ** Witnesses *)

Definition demo_firewall : Firewall :=
  Eval vm_compute in
    match firewall_init None 0 true true true (fun _ => true) global_firewall with
    | Ok (_, fw) => fw
    | Fault _ => global_firewall
    end.

Definition demo_ip : list Z := Eval vm_compute in lit "10.0.0.1".

Definition after_call (r : res (Z * Firewall)) : Firewall :=
  match r with Ok (_, fw) => fw | Fault _ => demo_firewall end.

Definition demo_blocked : Firewall :=
  Eval vm_compute in after_call (firewall_block_ip (Some demo_ip) 100 true true demo_firewall).

Definition demo_denied : Firewall :=
  Eval vm_compute in
    after_call (firewall_add_to_blacklist (Some demo_ip) 3 (Some (lit "bad")) 0 true demo_firewall).

Lemma demo_ok : firewall_ok demo_firewall.
Proof. apply (init_ok None 0 (fun _ => true)); [done|]. vm_compute. reflexivity. Qed.

Lemma demo_denied_ok : firewall_ok demo_denied.
Proof.
  pose proof (add_blacklist_ok (Some demo_ip) 3 (lit "bad") 0 true demo_firewall demo_ok) as H.
  vm_compute in H. exact H.
Qed.

Lemma firewall_reachable_ok_witness :
  exists code fw', exec (OUnblock demo_ip) true true demo_blocked = Ok (code, fw') /\ firewall_ok fw'.
Proof.
  apply (firewall_reachable_ok None 0 (fun _ => true) demo_firewall demo_blocked); [done|vm_compute; reflexivity|].
  apply rtc_once. apply (component_call (OBlock demo_ip 100, (true, true))); [reflexivity|vm_compute; reflexivity].
Defined.

Lemma access_lists_decide_witness :
  firewall_check_request_enhanced (Some demo_ip) None None None 0 true true demo_denied
  = Ok (-1, count_blocked (count_request demo_denied)).
Proof. apply (access_lists_decide demo_ip None None None 0 true true demo_denied demo_denied_ok); reflexivity. Defined.

Lemma demo_open : open_for demo_ip demo_firewall.
Proof. split_and!; try done. exact demo_ok. Qed.

Lemma rate_limit_never_triggers_witness :
  requests demo_ip (replicate 100 7) demo_firewall = Ok (replicate 100 0).
Proof. apply (rate_limit_never_triggers demo_ip (replicate 100 7) demo_firewall demo_open). Defined.

Lemma block_holds_until_expiry_witness :
  exists fw2, firewall_check_request_enhanced (Some demo_ip) None None None 399 true true demo_blocked = Ok (-1, fw2).
Proof.
  apply (block_holds_until_expiry demo_ip 100 demo_firewall demo_blocked None None None 399 demo_ok);
    [vm_compute; reflexivity|reflexivity|reflexivity].
Defined.

Lemma scanner_refused_witness :
  exists fw', firewall_check_request_enhanced (Some demo_ip) None None
                (Some (lit "Mozilla SqlMap/1.0")) 5 true true demo_firewall = Ok (-1, fw').
Proof.
  destruct (scanner_refused demo_ip None None (lit "Mozilla SqlMap/1.0") 5 demo_firewall
    (mkAttackPattern (lit "sqlmap") 10 0) (lit "Mozilla ") (lit "SqlMap") (lit "/1.0") demo_ok)
    as (fw' & H & _); [|simpl; lia|discriminate|reflexivity|reflexivity|reflexivity|by exists fw'].
  apply (list_elem_of_lookup_2 _ 21). vm_compute. reflexivity.
Defined.

Lemma blacklist_refines_set_witness :
  exists fw', list_execs [Deny demo_ip; Deny (lit "10.0.0.2"); Undeny demo_ip] demo_firewall
              = Ok ([0; 0; 0], fw').
Proof.
  destruct (blacklist_refines_set [Deny demo_ip; Deny (lit "10.0.0.2"); Undeny demo_ip] demo_firewall ∅)
    as (fw' & H & _).
  - repeat constructor; simpl; lia.
  - split_and!; [done|constructor|]. intros ip. set_solver.
  - exists fw'. exact H.
Defined.

Lemma unchecked_strdup_crashes_witness :
  firewall_check_request (Some demo_ip) None 0 true false demo_firewall = Fault NullDeref.
Proof. apply (unchecked_strdup_crashes demo_ip 0 demo_firewall demo_ok); vm_compute; reflexivity. Defined.

Definition demo_config : list Z :=
  Eval vm_compute in lit "# AIONIC" ++ [c_LF] ++ lit "[attack_patterns]" ++ [c_LF] ++ lit "sqlmap,10" ++ [c_LF].

Lemma load_config_deadlocks_witness :
  firewall_load_config (Some demo_config) 0 true demo_firewall = Fault Deadlock.
Proof.
  apply (load_config_deadlocks [lit "# AIONIC"] (lit "[attack_patterns]") (lit "sqlmap,10") []);
    [reflexivity|vm_compute; reflexivity|by repeat constructor|reflexivity|reflexivity|].
  left. split; [reflexivity|]. exists (lit "sqlmap"), 10. split; [vm_compute; reflexivity|lia].
Defined.

Definition demo_cleared : Firewall :=
  Eval vm_compute in after_call (firewall_clear_all 0 demo_firewall).

Lemma cleared_firewall_crashes_witness :
  firewall_check_request_enhanced (Some demo_ip) None None None 0 true true demo_cleared = Fault NullDeref.
Proof. apply (cleared_firewall_crashes 0 demo_firewall). vm_compute. reflexivity. Defined.
