(* ===== verification/JsonText.v ===== *)
(** * JSON text: [json_escape], [parse_ai_response] (src/ai/prompt_router.c),
      [parse_json] and [json_get_value] (src/parser.c)

    The four routines that write and read JSON strings byte by byte.  A pointer
    into a text is the suffix that starts there; [p < end] is a non-empty
    suffix.  The assembly tokenizer that [parse_json] calls first has no result
    the source uses. *)

From S2P Require Import Prelude.

(** ** Escaping *)

(** [snprintf("\\u%04x", c)] for a byte below 32. *)
Definition hex_digit (n : Z) : Z := if n <? 10 then 48 + n else 87 + n.
Definition u_escape (c : Z) : list Z :=
  [c_BACKSLASH; 117; 48; 48; hex_digit (c / 16); hex_digit (c mod 16)].

(** What [json_escape] writes for one byte. *)
Definition escape_byte (c : Z) : list Z :=
  if c =? c_QUOTE then [c_BACKSLASH; c_QUOTE]
  else if c =? c_BACKSLASH then [c_BACKSLASH; c_BACKSLASH]
  else if c =? c_LF then [c_BACKSLASH; 110]
  else if c =? c_CR then [c_BACKSLASH; 114]
  else if c =? c_TAB then [c_BACKSLASH; 116]
  else if c =? 8 then [c_BACKSLASH; 98]
  else if c =? 12 then [c_BACKSLASH; 102]
  else if c <? 32 then u_escape c
  else [c].

(** How much of the buffer the write of one byte needs: [snprintf] also writes
    its terminator. *)
Definition escape_room (c : Z) : Z :=
  zlen (escape_byte c) + (if zlen (escape_byte c) =? 6 then 1 else 0).

(** The loop: [out] is written, [cap] is the buffer's capacity and [answers] are
    the results of the [realloc]s to come.  [None] is the NULL return. *)
Fixpoint escape_loop (s out : list Z) (cap : Z) (answers : list bool) : res (option (list Z)) :=
  match s with
  | [] => if zlen out <? cap then Ok (Some out) else Fault OutOfBounds
  | c :: s' =>
      let write cap answers :=
        if zlen out + escape_room c <=? cap
        then escape_loop s' (out ++ escape_byte c) cap answers
        else Fault OutOfBounds in
      if zlen out + 8 >=? cap then
        match answers with
        | false :: _ => Ok None
        | true :: answers' => write (cap * 2) answers'
        | [] => write (cap * 2) []
        end
      else write cap answers
  end.

(** [None] for [in] is NULL: [strdup("")]. *)
Definition json_escape (s : option (list Z)) (malloc_ok : bool) (answers : list bool)
  : res (option (list Z)) :=
  match s with
  | None => Ok (Some [])
  | Some s => if malloc_ok then escape_loop s [] (zlen s * 2 + 8) answers else Ok None
  end.

(** The text itself. *)
Definition escape (s : list Z) : list Z := concat (map escape_byte s).

(** ** Reading the prompt *)

(** The byte a known escape stands for. *)
Definition unescape_char (d : Z) : option Z :=
  if d =? 110 then Some c_LF
  else if d =? 116 then Some c_TAB
  else if d =? 114 then Some c_CR
  else if d =? c_BACKSLASH then Some c_BACKSLASH
  else if d =? c_QUOTE then Some c_QUOTE
  else None.

(** The string of [parse_json]; [room] is [output_size - 1 - i].  [None] is the
    -1 return of an unknown escape. *)
Fixpoint read_string (s : list Z) (room : nat) : option (list Z) :=
  match s, room with
  | [], _ | _, O => Some []
  | c :: s', S room' =>
      if c =? c_QUOTE then Some []
      else if c =? c_BACKSLASH then
        match s' with
        | [] => Some []
        | d :: s'' =>
            match unescape_char d with
            | Some x => cons x <$> read_string s'' room'
            | None => None
            end
        end
      else cons c <$> read_string s' room'
  end.

Definition prompt_key : list Z := Eval vm_compute in [c_QUOTE] ++ lit "prompt" ++ [c_QUOTE].

Fixpoint skip_sep (s : list Z) : list Z :=
  match s with
  | c :: s' => if (c =? c_SP) || (c =? c_TAB) || (c =? c_COLON) then skip_sep s' else s
  | [] => []
  end.

(** The search loop; every round drops at least one byte, so the length of the
    text is fuel enough. *)
Fixpoint find_prompt (fuel : nat) (s : list Z) (output_size : Z) : option (list Z) :=
  match fuel with
  | O => None
  | S fuel' =>
      match strchr s c_QUOTE with
      | None => None
      | Some k =>
          let p := drop k s in
          if zlen p <? 8 then None
          else if prefixb prompt_key p then
            let p := skip_sep (drop 8 p) in
            match p with
            | c :: p' =>
                if c =? c_QUOTE then read_string p' (Z.to_nat (output_size - 1))
                else find_prompt fuel' p output_size
            | [] => None
            end
          else find_prompt fuel' (drop 1 p) output_size
      end
  end.

(** [None] is the -1 return; [Some out] is 0 with [out] in the buffer. *)
Definition parse_json (json_string : option (list Z)) (output_size : Z) : option (list Z) :=
  match json_string with
  | None => None
  | Some s =>
      if (output_size =? 0) || (zlen s =? 0) then None
      else find_prompt (S (length s)) s output_size
  end.

(** ** Reading the value of a key *)

Fixpoint skip_blank_colon (s : list Z) : list Z :=
  match s with
  | c :: s' => if (c =? c_SP) || (c =? c_COLON) then skip_blank_colon s' else s
  | [] => []
  end.

(** Incrementing a pointer that is at [end] already leaves the text: the
    [memchr] that follows is given a length that wraps around. *)
Definition bump (s : list Z) : res (list Z) :=
  match s with [] => Fault OutOfBounds | _ :: s' => Ok s' end.

Fixpoint find_key (fuel : nat) (s key_pattern : list Z) (output_size : Z) : res (option (list Z)) :=
  match fuel with
  | O => Ok None
  | S fuel' =>
      match strchr s c_QUOTE with
      | None => Ok None
      | Some k =>
          let p := drop k s in
          if zlen p <? zlen key_pattern then Ok None
          else if prefixb key_pattern p then
            let p := skip_blank_colon (drop (length key_pattern) p) in
            match p with
            | c :: p' =>
                if c =? c_QUOTE then
                  match strchr p' c_QUOTE with
                  | None => Ok None
                  | Some n =>
                      let len := if Z.of_nat n >=? output_size then output_size - 1 else Z.of_nat n in
                      Ok (Some (take (Z.to_nat len) p'))
                  end
                else (p ← bump p; find_key fuel' p key_pattern output_size)
            | [] => (p ← bump p; find_key fuel' p key_pattern output_size)
            end
          else (p ← bump p; find_key fuel' p key_pattern output_size)
      end
  end.

Definition json_get_value (json_string key : option (list Z)) (output_size : Z)
  : res (option (list Z)) :=
  match json_string, key with
  | Some s, Some key =>
      if (output_size =? 0) || (zlen s =? 0) then Ok None
      else if zlen key >? 100 then Ok None
      else find_key (S (length s)) s ([c_QUOTE] ++ key ++ [c_QUOTE]) output_size
  | _, _ => Ok None
  end.

(** ** Reading a model's answer *)

(** The copy loop of [parse_ai_response] into a buffer of [size] bytes, [i] of
    them written; the terminator is written too. *)
Fixpoint ai_value (s : list Z) (i size : Z) : res (list Z) :=
  let stop := if i <? size then Ok [] else Fault OutOfBounds in
  match s with
  | [] => stop
  | c :: s' =>
      if (c =? c_QUOTE) || (i >=? size - 1) then stop
      else if c =? c_BACKSLASH then
        match s' with
        | d :: s'' =>
            match unescape_char d with
            | Some x => cons x <$> ai_value s'' (i + 1) size
            | None =>
                if i + 1 <? size
                then (fun r => c_BACKSLASH :: d :: r) <$> ai_value s'' (i + 2) size
                else Fault OutOfBounds
            end
        | [] => cons c <$> ai_value s' (i + 1) size
        end
      else cons c <$> ai_value s' (i + 1) size
  end.

Definition json_key (name : list Z) : list Z := [c_QUOTE] ++ name ++ [c_QUOTE; c_COLON].
Definition content_key : list Z := Eval vm_compute in json_key (lit "content").
Definition text_key : list Z := Eval vm_compute in json_key (lit "text").
Definition response_key : list Z := Eval vm_compute in json_key (lit "response").

Fixpoint skip_blanks (s : list Z) : list Z :=
  match s with
  | c :: s' => if (c =? c_SP) || (c =? c_TAB) then skip_blanks s' else s
  | [] => []
  end.

(** [None] is the -1 return.  [raw] is [raw_len] bytes. *)
Definition parse_ai_response (raw : list Z) (output_size : Z) : res (option (list Z)) :=
  if (output_size =? 0) || (zlen raw =? 0) then Ok None
  else
    let content_start :=
      match strstr raw content_key with
      | Some k => Some k
      | None => match strstr raw text_key with
                | Some k => Some k
                | None => strstr raw response_key
                end
      end in
    match content_start with
    | None => Ok None
    | Some k =>
        match strchr (drop k raw) c_COLON with
        | None => Ok None
        | Some j =>
            match skip_blanks (drop (S j) (drop k raw)) with
            | c :: p => if c =? c_QUOTE then Some <$> ai_value p 0 output_size else Ok None
            | [] => Ok None
            end
        end
    end.

(** ** Lemmas *)

Lemma escape_byte_length c : 1 <= zlen (escape_byte c) <= 6.
Proof. unfold escape_byte, u_escape, zlen. repeat case_match; simpl; lia. Qed.

Lemma escape_room_bound c : zlen (escape_byte c) <= escape_room c <= 8.
Proof. pose proof (escape_byte_length c). unfold escape_room. case_match; lia. Qed.

Lemma escape_cons c s : escape (c :: s) = escape_byte c ++ escape s.
Proof. done. Qed.

(** The room the loop keeps is enough for any byte. *)
Lemma escape_loop_ok s out cap answers :
  8 <= cap -> zlen out < cap ->
  exists r, escape_loop s out cap answers = Ok r
    /\ (r = None \/ r = Some (out ++ escape s))
    /\ (Forall (fun b => b = true) answers -> r = Some (out ++ escape s)).
Proof.
  revert out cap answers. induction s as [|c s IH]; intros out cap answers Hcap Hout; cbn [escape_loop].
  - destruct (Z.ltb_spec (zlen out) cap); [|lia]. eexists. split; [done|].
    unfold escape. simpl. rewrite app_nil_r. eauto.
  - pose proof (escape_room_bound c) as Hr.
    assert (forall cap' ans', 8 <= cap' -> zlen out + 8 < cap' ->
      exists r, (if zlen out + escape_room c <=? cap'
                 then escape_loop s (out ++ escape_byte c) cap' ans' else Fault OutOfBounds) = Ok r
        /\ (r = None \/ r = Some (out ++ escape (c :: s)))
        /\ (Forall (fun b => b = true) ans' -> r = Some (out ++ escape (c :: s)))) as Hwrite.
    { intros cap' ans' H8 Hroom. destruct (Z.leb_spec (zlen out + escape_room c) cap'); [|lia].
      rewrite escape_cons, app_assoc. apply IH; [done|]. rewrite zlen_app. lia. }
    destruct (Z.geb_spec (zlen out + 8) cap); [|apply Hwrite; lia].
    destruct answers as [|[] answers].
    + apply Hwrite; lia.
    + destruct (Hwrite (cap * 2) answers) as (r & H1 & H2 & H3); [lia|lia|].
      exists r. split_and!; [done|done|]. intros Ha. apply H3. by inversion Ha.
    + exists None. split_and!; [done|by left|]. intros Ha. by inversion Ha.
Qed.

(** ** Properties *)

(** [json_escape] never writes outside its buffer, whatever the text and
    whichever allocations fail: it returns NULL or the escaped text, and the
    escaped text whenever no allocation fails. *)
Theorem json_escape_in_bounds s malloc_ok answers :
  exists r, json_escape (Some s) malloc_ok answers = Ok r
    /\ (r = None \/ r = Some (escape s))
    /\ (malloc_ok = true -> Forall (fun b => b = true) answers -> r = Some (escape s)).
Proof.
  unfold json_escape. destruct malloc_ok; [|by exists None; naive_solver].
  pose proof (zlen_nonneg s).
  destruct (escape_loop_ok s [] (zlen s * 2 + 8) answers) as (r & H1 & H2 & H3); [lia|done || (unfold zlen; simpl; lia)|].
  exists r. naive_solver.
Qed.

(** The bytes whose escapes both readers know. *)
Definition plain (c : Z) : Prop := 32 <= c < 256 \/ c = c_LF \/ c = c_CR \/ c = c_TAB.

(** How an escaped byte begins. *)
Lemma escape_byte_cases c :
  plain c ->
  (escape_byte c = [c] /\ c <> c_QUOTE /\ c <> c_BACKSLASH) \/
  (exists d, escape_byte c = [c_BACKSLASH; d] /\ unescape_char d = Some c).
Proof.
  intros Hc. unfold escape_byte.
  destruct (Z.eqb_spec c c_QUOTE) as [->|]; [right; by exists c_QUOTE|].
  destruct (Z.eqb_spec c c_BACKSLASH) as [->|]; [right; by exists c_BACKSLASH|].
  destruct (Z.eqb_spec c c_LF) as [->|]; [right; by exists 110|].
  destruct (Z.eqb_spec c c_CR) as [->|]; [right; by exists 114|].
  destruct (Z.eqb_spec c c_TAB) as [->|]; [right; by exists 116|].
  unfold plain in Hc.
  destruct (Z.eqb_spec c 8); [lia|]. destruct (Z.eqb_spec c 12); [lia|].
  destruct (Z.ltb_spec c 32); [lia|]. by left.
Qed.

Lemma read_string_escape s rest room :
  Forall plain s -> (length s < room)%nat -> read_string (escape s ++ c_QUOTE :: rest) room = Some s.
Proof.
  intros Hs. revert room. induction Hs as [|c s Hc _ IH]; intros [|room] Hr; simpl in Hr; try lia.
  - done.
  - rewrite escape_cons. destruct (escape_byte_cases c Hc) as [(-> & H1 & H2)|(d & -> & Hd)];
      cbn [app read_string].
    + rewrite !(proj2 (Z.eqb_neq _ _)) by done. by rewrite IH by lia.
    + rewrite Hd. change (c_BACKSLASH =? c_QUOTE) with false. rewrite Z.eqb_refl. by rewrite IH by lia.
Qed.

Lemma ai_value_escape s rest i size :
  Forall plain s -> 0 <= i -> i + zlen s < size -> ai_value (escape s ++ c_QUOTE :: rest) i size = Ok s.
Proof.
  intros Hs. revert i. induction Hs as [|c s Hc _ IH]; intros i Hi Hr.
  - unfold zlen in Hr. simpl in *. destruct (Z.ltb_spec i size); [done|lia].
  - rewrite zlen_cons in Hr. pose proof (zlen_nonneg s).
    rewrite escape_cons. destruct (escape_byte_cases c Hc) as [(-> & H1 & H2)|(d & -> & Hd)];
      cbn [app ai_value]; destruct (Z.geb_spec i (size - 1)); try lia.
    + rewrite !(proj2 (Z.eqb_neq _ _)) by done. simpl orb. cbv iota. by rewrite IH by lia.
    + change (c_BACKSLASH =? c_QUOTE) with false. rewrite Z.eqb_refl. simpl orb. cbv iota.
      rewrite Hd. by rewrite IH by lia.
Qed.

(** The reader does not know the escapes of the other control characters. *)
Lemma escape_byte_unknown c : 0 < c < 32 -> ~ plain c -> exists d rest, escape_byte c = c_BACKSLASH :: d :: rest /\ unescape_char d = None.
Proof.
  intros Hc Hp. unfold escape_byte, plain in *.
  destruct (Z.eqb_spec c c_QUOTE) as [->|]; [vm_compute in Hc; lia|]. destruct (Z.eqb_spec c c_BACKSLASH) as [->|]; [vm_compute in Hc; lia|].
  destruct (Z.eqb_spec c c_LF); [tauto|]. destruct (Z.eqb_spec c c_CR); [tauto|]. destruct (Z.eqb_spec c c_TAB); [tauto|].
  destruct (c =? 8); [by eexists _, _|]. destruct (c =? 12); [by eexists _, _|].
  destruct (Z.ltb_spec c 32); [by eexists _, _|lia].
Qed.

(** Every byte is written as itself, as an escape that is known or as one that is not. *)
Lemma escape_byte_reads c :
  (escape_byte c = [c] /\ c <> c_QUOTE /\ c <> c_BACKSLASH) \/
  (exists d, escape_byte c = [c_BACKSLASH; d] /\ unescape_char d = Some c) \/
  (exists d rest, escape_byte c = c_BACKSLASH :: d :: rest /\ unescape_char d = None).
Proof.
  unfold escape_byte.
  destruct (Z.eqb_spec c c_QUOTE) as [->|]; [right; left; by exists c_QUOTE|].
  destruct (Z.eqb_spec c c_BACKSLASH) as [->|]; [right; left; by exists c_BACKSLASH|].
  destruct (Z.eqb_spec c c_LF) as [->|]; [right; left; by exists 110|].
  destruct (Z.eqb_spec c c_CR) as [->|]; [right; left; by exists 114|].
  destruct (Z.eqb_spec c c_TAB) as [->|]; [right; left; by exists 116|].
  destruct (c =? 8); [right; right; by eexists _, _|]. destruct (c =? 12); [right; right; by eexists _, _|].
  destruct (c <? 32); [right; right; by eexists _, _|by left].
Qed.

Lemma read_string_unknown s rest room :
  Exists (fun c => 0 < c < 32 /\ ~ plain c) s -> (length s < room)%nat -> read_string (escape s ++ c_QUOTE :: rest) room = None.
Proof.
  induction s as [|c s IH] in room |- *; intros Hs Hr; [by inversion Hs|]. destruct room as [|room]; [simpl in Hr; lia|].
  rewrite escape_cons. cbn [length] in Hr. apply Exists_cons in Hs as [[Hc Hp]|Hs].
  - destruct (escape_byte_unknown c Hc Hp) as (d & r & -> & Hd). cbn [app read_string].
    change (c_BACKSLASH =? c_QUOTE) with false. rewrite Z.eqb_refl. by rewrite Hd.
  - specialize (IH room Hs ltac:(lia)). destruct (escape_byte_reads c) as [(-> & H1 & H2)|[(d & -> & Hd)|(d & r & -> & Hd)]];
      cbn [app read_string].
    + rewrite !(proj2 (Z.eqb_neq _ _)) by done. by rewrite IH.
    + rewrite Hd. change (c_BACKSLASH =? c_QUOTE) with false. rewrite Z.eqb_refl. by rewrite IH.
    + change (c_BACKSLASH =? c_QUOTE) with false. rewrite Z.eqb_refl. by rewrite Hd.
Qed.

(** C29: a prompt of fewer than [output_size - 1] bytes that is escaped and put in a request
    body, after a text without quotes, is read back: it is the same prompt when its only
    control characters are newline, carriage return and tab; and when it has
    any other - backspace and form feed too, which the writer has short escapes for - the reader answers -1. *)
Theorem prompt_roundtrip s before after output_size :
  zlen s < output_size - 1 -> strchr before c_QUOTE = None ->
  let body := before ++ prompt_key ++ lit ": " ++ [c_QUOTE] ++ escape s ++ [c_QUOTE] ++ after in
  (Forall plain s -> parse_json (Some body) output_size = Some s)
  /\ (Exists (fun c => 0 < c < 32 /\ ~ plain c) s -> parse_json (Some body) output_size = None).
Proof.
  intros Hlen Hb. cbv zeta.
  assert (parse_json (Some (before ++ prompt_key ++ lit ": " ++ [c_QUOTE] ++ escape s ++ [c_QUOTE] ++ after)) output_size
          = read_string (escape s ++ c_QUOTE :: after) (Z.to_nat (output_size - 1))) as ->.
  2:{ unfold zlen in Hlen. split; intros Hs; [apply read_string_escape|apply read_string_unknown]; done || lia. }
  unfold parse_json. pose proof (zlen_nonneg s).
  set (text := _ ++ after). set (whole := before ++ _).
  assert (strchr whole c_QUOTE = Some (length before)) as Hq.
  { unfold whole, strchr in *. clear -Hb. induction before as [|c b IH]; [done|].
    cbn [app find_index length] in *. destruct (c_QUOTE =? c); [done|].
    destruct (find_index _ b) eqn:Hf; [done|]. by rewrite IH. }
  assert (drop (length before) whole = prompt_key ++ lit ": " ++ [c_QUOTE] ++ escape s ++ [c_QUOTE] ++ after) as Hd.
  { unfold whole. by rewrite drop_app_length. }
  destruct (Z.eqb_spec output_size 0); [lia|].
  destruct (Z.eqb_spec (zlen whole) 0) as [Hz|].
  { unfold whole in Hz. rewrite !zlen_app in Hz. unfold zlen in Hz. simpl in Hz. lia. }
  cbn [orb find_prompt]. rewrite Hq, Hd.
  destruct (Z.ltb_spec (zlen (prompt_key ++ lit ": " ++ [c_QUOTE] ++ escape s ++ [c_QUOTE] ++ after)) 8) as [Hlt|].
  { rewrite !zlen_app in Hlt. unfold zlen in Hlt. simpl in Hlt. lia. }
  rewrite prefixb_app. change (drop 8 (prompt_key ++ ?x)) with x. change (skip_sep (lit ": " ++ [c_QUOTE] ++ ?x)) with (c_QUOTE :: x).
  cbv iota. by rewrite Z.eqb_refl.
Qed.

(** An answer's text that a provider escaped is read back unchanged from the
    first "content" field of the response. *)
Theorem answer_roundtrip s before after output_size :
  Forall plain s -> zlen s < output_size ->
  strstr (before ++ content_key ++ lit " " ++ [c_QUOTE] ++ escape s ++ [c_QUOTE] ++ after) content_key
    = Some (length before) ->
  parse_ai_response (before ++ content_key ++ lit " " ++ [c_QUOTE] ++ escape s ++ [c_QUOTE] ++ after)
    output_size = Ok (Some s).
Proof.
  intros Hs Hlen Hstr. unfold parse_ai_response. pose proof (zlen_nonneg s).
  set (whole := before ++ _) in *.
  destruct (Z.eqb_spec output_size 0); [lia|].
  destruct (Z.eqb_spec (zlen whole) 0) as [Hz|].
  { unfold whole in Hz. rewrite !zlen_app in Hz. unfold zlen in Hz. simpl in Hz. lia. }
  cbn [orb]. rewrite Hstr.
  assert (drop (length before) whole = content_key ++ lit " " ++ [c_QUOTE] ++ escape s ++ [c_QUOTE] ++ after) as ->.
  { unfold whole. by rewrite drop_app_length. }
  change (strchr (content_key ++ ?x) c_COLON) with (Some 9%nat). cbv iota.
  change (drop 10 (content_key ++ ?x)) with x. change (skip_blanks (lit " " ++ [c_QUOTE] ++ ?x)) with (c_QUOTE :: x).
  cbv iota. rewrite Z.eqb_refl.
  change ([c_QUOTE] ++ after) with (c_QUOTE :: after). by rewrite ai_value_escape by (done || lia).
Qed.

(** When the text before an unknown escape fills all but two bytes of the
    caller's buffer, the escape's two bytes take those and the terminator is
    written one byte past the end. *)
Theorem answer_overflows_by_one s d rest size :
  Forall (fun c => c <> c_QUOTE /\ c <> c_BACKSLASH) s -> unescape_char d = None ->
  size = zlen s + 2 -> parse_ai_response (content_key ++ [c_QUOTE] ++ s ++ c_BACKSLASH :: d :: rest) size
  = Fault OutOfBounds.
Proof.
  intros Hs Hd Hsize. unfold parse_ai_response. pose proof (zlen_nonneg s).
  destruct (Z.eqb_spec size 0); [lia|].
  change (zlen (content_key ++ ?x) =? 0) with false. cbn [orb].
  change (strstr (content_key ++ ?x) content_key) with (Some 0%nat). cbv iota.
  change (drop 0 ?x) with x. change (strchr (content_key ++ ?x) c_COLON) with (Some 9%nat). cbv iota.
  change (drop 10 (content_key ++ ?x)) with x. change (skip_blanks ([c_QUOTE] ++ ?x)) with (c_QUOTE :: x).
  cbv iota. rewrite Z.eqb_refl.
  assert (forall i, 0 <= i -> size = i + zlen s + 2 ->
    ai_value (s ++ c_BACKSLASH :: d :: rest) i size = Fault OutOfBounds) as Hov; [|by rewrite Hov by lia].
  clear Hsize H. induction Hs as [|c s [H1 H2] _ IH]; intros i Hi Hsize; cbn [app ai_value].
  - unfold zlen in Hsize. simpl in Hsize. destruct (Z.geb_spec i (size - 1)); [lia|].
    rewrite Hd, Z.eqb_refl. simpl orb. cbv iota.
    destruct (Z.ltb_spec (i + 1) size); [|done].
    assert (ai_value rest (i + 2) size = Fault OutOfBounds) as ->; [|done].
    destruct rest as [|r rest]; cbn [ai_value]; destruct (Z.ltb_spec (i + 2) size); try lia; [done|].
    destruct (Z.geb_spec (i + 2) (size - 1)); [|lia]. by rewrite orb_true_r.
  - rewrite zlen_cons in Hsize. pose proof (zlen_nonneg s).
    destruct (Z.geb_spec i (size - 1)); [lia|]. rewrite !(proj2 (Z.eqb_neq _ _)) by done.
    simpl orb. cbv iota. by rewrite IH by lia.
Qed.

(** [json_get_value] reads past the text when the key it looks for is the
    last thing in it: the pointer steps over the end and the next search is
    given a length that has wrapped around. *)
Theorem json_get_value_overruns before key seps output_size :
  strchr before c_QUOTE = None -> zlen key <= 100 -> output_size <> 0 ->
  Forall (fun c => c = c_SP \/ c = c_COLON) seps ->
  json_get_value (Some (before ++ [c_QUOTE] ++ key ++ [c_QUOTE] ++ seps)) (Some key) output_size
  = Fault OutOfBounds.
Proof.
  intros Hb Hkey Hout Hseps. unfold json_get_value.
  set (whole := before ++ _).
  assert (strchr whole c_QUOTE = Some (length before)) as Hq.
  { unfold whole, strchr in *. clear -Hb. induction before as [|c b IH]; [done|].
    cbn [app find_index length] in *. destruct (c_QUOTE =? c); [done|].
    destruct (find_index _ b) eqn:Hf; [done|]. by rewrite IH. }
  destruct (Z.eqb_spec output_size 0); [done|].
  destruct (Z.eqb_spec (zlen whole) 0) as [Hz|].
  { unfold whole in Hz. rewrite !zlen_app in Hz. unfold zlen in Hz. simpl in Hz. lia. }
  cbn [orb]. destruct (Z.gtb_spec (zlen key) 100); [lia|]. cbn [find_key]. rewrite Hq.
  assert (drop (length before) whole = ([c_QUOTE] ++ key ++ [c_QUOTE]) ++ seps) as ->.
  { unfold whole. rewrite drop_app_length. by rewrite <- !app_assoc. }
  destruct (Z.ltb_spec (zlen (([c_QUOTE] ++ key ++ [c_QUOTE]) ++ seps)) (zlen ([c_QUOTE] ++ key ++ [c_QUOTE]))) as [Hlt|].
  { rewrite (zlen_app (_ ++ _ ++ _) seps) in Hlt. pose proof (zlen_nonneg seps). lia. }
  rewrite prefixb_app, drop_app_length.
  assert (skip_blank_colon seps = []) as ->; [|done].
  clear -Hseps. induction Hseps as [|c l [->| ->] _ IH]; simpl; done.
Qed.

(** ** Witnesses *)

Lemma prompt_roundtrip_witness :
  parse_json (Some (lit "{" ++ prompt_key ++ lit ": " ++ [c_QUOTE] ++ escape (lit "a\b" ++ [c_LF]) ++ [c_QUOTE] ++ lit "}")) 64
  = Some (lit "a\b" ++ [c_LF])
  /\ parse_json (Some (lit "{" ++ prompt_key ++ lit ": " ++ [c_QUOTE] ++ escape (lit "a" ++ [8]) ++ [c_QUOTE] ++ lit "}")) 64 = None.
Proof.
  split.
  - apply (prompt_roundtrip (lit "a\b" ++ [c_LF]) (lit "{") (lit "}") 64); [vm_compute; reflexivity|reflexivity|].
    repeat constructor; unfold plain; simpl; lia.
  - apply (prompt_roundtrip (lit "a" ++ [8]) (lit "{") (lit "}") 64); [vm_compute; reflexivity|reflexivity|].
    apply Exists_cons_tl, Exists_cons_hd. split; [lia|]. intros [[Hl _] | [Hl | [Hl | Hl]]]; vm_compute in Hl; by apply Hl || discriminate Hl.
Defined.

Lemma answer_roundtrip_witness :
  parse_ai_response (lit "{" ++ content_key ++ lit " " ++ [c_QUOTE] ++ escape (lit "hi") ++ [c_QUOTE] ++ lit "}") 8
  = Ok (Some (lit "hi")).
Proof.
  apply (answer_roundtrip (lit "hi") (lit "{") (lit "}") 8); [|vm_compute; reflexivity|vm_compute; reflexivity].
  repeat constructor; unfold plain; simpl; lia.
Defined.

Lemma answer_overflows_by_one_witness :
  parse_ai_response (content_key ++ [c_QUOTE] ++ lit "ab" ++ c_BACKSLASH :: 117 :: lit "0041") 4
  = Fault OutOfBounds.
Proof.
  apply (answer_overflows_by_one (lit "ab") 117 (lit "0041") 4);
    [repeat constructor; discriminate|reflexivity|reflexivity].
Defined.

Lemma json_get_value_overruns_witness :
  json_get_value (Some (lit "{" ++ [c_QUOTE] ++ lit "model" ++ [c_QUOTE] ++ lit ": ")) (Some (lit "model")) 64
  = Fault OutOfBounds.
Proof.
  apply (json_get_value_overruns (lit "{") (lit "model") (lit ": ") 64);
    [reflexivity|vm_compute; discriminate|discriminate|].
  constructor; [by right|]. constructor; [by left|constructor].
Defined.
