(* ===== verification/Gateway.v ===== *)
(** * The AI gateway: [src/ai/ai_gateway.c]

    Tool definitions, the payload builders that write into a caller's buffer
    with [pos += snprintf(output + pos, output_size - pos, ...)], the numbers of an
    embeddings response, and the cost account. *)

From S2P Require Import Prelude Double.

(** ** Data *)

Record FunctionDefinition := mkFunctionDefinition {
  fn_name : list Z;
  fn_description : list Z;
  parameters_json : list Z
}.

Record ToolConfig := mkToolConfig {
  functions : list FunctionDefinition;
  function_capacity : Z
}.

Record CostAccount := mkCostAccount {
  input_cost_per_1k : double;
  output_cost_per_1k : double;
  total_cost_usd : double;
  total_input_tokens : Z;
  total_output_tokens : Z;
  total_requests : Z;
  total_errors : Z
}.

Definition empty_account : CostAccount :=
  mkCostAccount (d_of_Z 0) (d_of_Z 0) (d_of_Z 0) 0 0 0 0.

(** ** Tools *)

(** The three [strdup]s succeed or fail together with [dup_ok]. *)
Definition gateway_add_tool_function (tools : option ToolConfig) (name descr params : option (list Z))
    (realloc_ok dup_ok : bool) : Z * option ToolConfig :=
  match tools, name with
  | Some t, Some name =>
      let full := zlen (functions t) >=? function_capacity t in
      if full && negb realloc_ok then (-1, Some t)
      else
        let cap :=
          if full then (if function_capacity t =? 0 then 8 else function_capacity t * 2)
          else function_capacity t in
        if negb dup_ok then (-1, Some (mkToolConfig (functions t) cap))
        else
          (0, Some (mkToolConfig
                 (functions t ++ [mkFunctionDefinition name (default [] descr)
                                    (default (lit "{}") params)]) cap))
  | _, _ => (-1, tools)
  end.

Definition gateway_free_tool_config : ToolConfig := mkToolConfig [] 0.

(** ** Writing into a bounded buffer *)

(** [out] is the whole text written so far, [pos] its length; the buffer holds
    what fits.  [snprintf] with [pos <= size] is given the room that is left;
    with [pos > size] the difference wraps around and it writes past the end. *)
Definition append (size : Z) (text out : list Z) : res (list Z) :=
  if zlen out >? size then Fault OutOfBounds else Ok (out ++ text).

(** The [for] loop stops when the buffer is full. *)
Fixpoint vision_images (size : Z) (urls : list (option (list Z))) (out : list Z) : res (list Z) :=
  match urls with
  | [] => Ok out
  | u :: urls' =>
      if zlen out <? size then
        out ← append size (qlit ", {'type': 'image_url', 'image_url': {'url': '" ++ default [] u
                           ++ qlit "'}}") out;
        vision_images size urls' out
      else Ok out
  end.

(** [Ok None] is the early -1; otherwise the whole text and the code. *)
Definition gateway_build_vision_content (text : option (list Z)) (urls : list (option (list Z)))
    (size : Z) : res (option (list Z * Z)) :=
  if size =? 0 then Ok None
  else
    out ← append size (qlit "[{'type': 'text', 'text': '" ++ default [] text ++ qlit "'}") [];
    out ← vision_images size urls out;
    out ← (if zlen out <? size then append size (lit "]") out else Ok out);
    Ok (Some (out, if zlen out <? size then 0 else -1)).

Fixpoint embeddings_inputs (size : Z) (inputs : list (option (list Z))) (first : bool) (out : list Z)
  : res (list Z) :=
  match inputs with
  | [] => Ok out
  | x :: inputs' =>
      if zlen out <? size then
        out ← (if first then Ok out else append size (lit ", ") out);
        out ← append size ([c_QUOTE] ++ default [] x ++ [c_QUOTE]) out;
        embeddings_inputs size inputs' false out
      else Ok out
  end.

Definition gateway_build_embeddings_payload (model : option (list Z)) (inputs : list (option (list Z)))
    (size : Z) : res (option (list Z * Z)) :=
  match model with
  | None => Ok None
  | Some m =>
      if (zlen inputs <=? 0) || (size =? 0) then Ok None
      else
        out ← append size (qlit "{'model': '" ++ m ++ qlit "', 'input': [") [];
        out ← embeddings_inputs size inputs true out;
        out ← (if zlen out <? size then append size (lit "]}") out else Ok out);
        Ok (Some (out, if zlen out <? size then 0 else -1))
  end.

(** ** Tool calls in an answer *)

(** The quoted string that follows a key, if it is shorter than [limit]. *)
Definition quoted_after (key s : list Z) (limit : Z) : option (list Z) :=
  match strstr s key with
  | None => None
  | Some k =>
      let r := drop (k + length key) s in
      match strchr r c_QUOTE with
      | None => None
      | Some j =>
          let v := drop (S j) r in
          match strchr v c_QUOTE with
          | None => None
          | Some n => if Z.of_nat n <? limit then Some (take n v) else None
          end
      end
  end.

(** The text written to the caller's buffer of [size] bytes; [None] is -1. *)
Definition gateway_handle_tool_calls (body : option (list Z)) (size : Z) : option (list Z) :=
  match body with
  | None => None
  | Some b =>
      if size =? 0 then None
      else
        match strstr b (qlit "'tool_calls'") with
        | None => None
        | Some k =>
            let calls := drop k b in
            match quoted_after (qlit "'name'") calls 128 with
            | None => None
            | Some name =>
                let args := default (lit "{}") (quoted_after (qlit "'arguments'") calls 2048) in
                Some (take (Z.to_nat (size - 1))
                        (qlit "{'tool_called': '" ++ name ++ qlit "', 'arguments': " ++ args
                         ++ qlit ", 'result': 'executed'}"))
            end
        end
  end.

(** ** Cost *)

(** Dollars per thousand tokens, in and out, in cents. *)
Definition rates (name : list Z) : Z * Z :=
  if contains name (lit "gpt-4o") then (250, 1000)
  else if contains name (lit "gpt-4-turbo") then (1000, 3000)
  else if contains name (lit "gpt-4") then (3000, 6000)
  else if contains name (lit "gpt-3.5") || contains name (lit "gpt-35") then (50, 150)
  else if contains name (lit "claude-3-5-sonnet") then (300, 1500)
  else if contains name (lit "claude-3-opus") then (1500, 7500)
  else if contains name (lit "claude-3-haiku") then (25, 125)
  else if contains name (lit "gemini-1.5-pro") then (125, 500)
  else if contains name (lit "gemini-2.0") || contains name (lit "gemini-1.5-flash") then (10, 40)
  else if contains name (lit "llama") || contains name (lit "mixtral") || contains name (lit "gemma")
  then (59, 79)
  else if contains name (lit "deepseek") then (14, 28)
  else if contains name (lit "mistral-large") then (200, 600)
  else (100, 200).

Definition gateway_update_cost (name : list Z) (input output : Z) (a : CostAccount) : CostAccount :=
  let '(i, o) := rates name in
  let cost n rate := dmul (ddiv (d_of_Z n) (d_of_Z 1000)) (d_dec rate 2) in
  mkCostAccount (input_cost_per_1k a) (output_cost_per_1k a)
    (dadd (total_cost_usd a) (dadd (cost input i) (cost output o)))
    (i32 (total_input_tokens a + input)) (i32 (total_output_tokens a + output))
    (i32 (total_requests a + 1)) (total_errors a).

(** ** Embeddings received *)

(** The blanks and commas between two numbers. *)
Definition separator (c : Z) : bool :=
  (c =? c_SP) || (c =? c_COMMA) || (c =? c_LF) || (c =? c_CR) || (c =? c_TAB).

Fixpoint skip_separators (s : list Z) : list Z :=
  match s with c :: s' => if separator c then skip_separators s' else s | [] => [] end.

(** The numbers, as [float], until a bracket, [max] of them, or something else.
    Every round takes a byte at least, so the length of the text is enough fuel. *)
Fixpoint read_embeddings (fuel : nat) (max : Z) (p : list Z) (out : list double) : list double :=
  match fuel, p with
  | O, _ | _, [] => out
  | S fuel', c :: _ =>
      if (c =? c_RBRACKET) || (zlen out >=? max) then out
      else
        let q := skip_separators p in
        match q with
        | [] => out
        | d :: _ =>
            if d =? c_RBRACKET then out
            else match strtod q with
                 | None => out
                 | Some (val, r) => read_embeddings fuel' max r (out ++ [f_of_d val])
                 end
        end
  end.

(** [None] is -1 before [*dimensions] is set; otherwise the numbers, whose count is
    [*dimensions], with the result. *)
Definition gateway_parse_embeddings_response (raw : option (list Z)) (max_dimensions : Z)
  : option (Z * list double) :=
  match raw with
  | None => None
  | Some raw =>
      if max_dimensions <=? 0 then None
      else
        match strstr raw (qlit "'data'") with
        | None => None
        | Some k =>
            let s := drop k raw in
            match strstr s (qlit "'embedding'") with
            | None => None
            | Some k =>
                let s := drop k s in
                match strchr s c_LBRACKET with
                | None => None
                | Some k =>
                    let out := read_embeddings (length s) max_dimensions (drop (S k) s) [] in
                    Some (if zlen out >? 0 then 0 else -1, out)
                end
            end
        end
  end.

Example read_three :
  gateway_parse_embeddings_response
    (Some (qlit "{'data': [{'embedding': [0.5, -1.5e0,2], 'index': 0}]}")) 8
  = Some (0, [f_of_d d_0_5; f_of_d (SFopp d_1_5); f_of_Z 2]).
Proof. by vm_compute. Qed.

(** ** Lemmas *)

Lemma append_ok size text out : zlen out <= size -> append size text out = Ok (out ++ text).
Proof. unfold append. destruct (Z.gtb_spec (zlen out) size); [lia|done]. Qed.

(** The text of a vision request. *)
Definition image_item (u : option (list Z)) : list Z :=
  qlit ", {'type': 'image_url', 'image_url': {'url': '" ++ default [] u ++ qlit "'}}".

Definition vision_text (text : option (list Z)) (urls : list (option (list Z))) : list Z :=
  (qlit "[{'type': 'text', 'text': '" ++ default [] text ++ qlit "'}")
  ++ concat (map image_item urls) ++ lit "]".

(** The loop writes a part of the images' text, all of it if there is room. *)
Lemma vision_images_ok size urls out :
  exists part rest,
    vision_images size urls out = Ok (out ++ part) /\ concat (map image_item urls) = part ++ rest
    /\ (zlen (out ++ part) < size -> rest = []).
Proof.
  revert out. induction urls as [|u urls IH]; intros out; cbn [vision_images map concat].
  { exists [], []. by rewrite app_nil_r. }
  destruct (Z.ltb_spec (zlen out) size).
  - rewrite append_ok by lia. cbn [mbind res_bind]. fold (image_item u).
    destruct (IH (out ++ image_item u)) as (part & rest & -> & -> & Hr).
    exists (image_item u ++ part), rest. rewrite <- !(assoc_L (++)) in *. done.
  - exists [], (image_item u ++ concat (map image_item urls)). rewrite app_nil_r.
    split_and!; [done|done|lia].
Qed.

(** One more input after a text that leaves a single byte. *)
Lemma embeddings_full size inputs x first s out :
  embeddings_inputs size inputs first s = Ok out -> (first = true -> inputs <> []) ->
  zlen out = size - 1 -> embeddings_inputs size (inputs ++ [x]) first s = Fault OutOfBounds.
Proof.
  intros Hin Hne Hlen. revert first s Hin Hne.
  induction inputs as [|y inputs IH]; intros first s Hin Hne.
  - destruct first; [by destruct Hne|]. cbn [embeddings_inputs app] in *. simplify_eq.
    destruct (Z.ltb_spec (zlen out) size); [|lia]. rewrite append_ok by lia. cbn [mbind res_bind].
    unfold append. rewrite zlen_app. change (zlen (lit ", ")) with 2.
    destruct (Z.gtb_spec (zlen out + 2) size); [done|lia].
  - cbn [embeddings_inputs app] in *. destruct (Z.ltb_spec (zlen s) size); [|simplify_eq; lia].
    destruct (if first then Ok s else append size (lit ", ") s) as [s1|]; cbn [mbind res_bind] in *; [|done].
    destruct (append size _ s1) as [s2|]; cbn [mbind res_bind] in *; [|done]. by apply IH.
Qed.

(** Never more numbers than there is room for. *)
Lemma read_embeddings_bounded fuel max p out :
  zlen out <= max -> zlen (read_embeddings fuel max p out) <= max.
Proof.
  revert p out. induction fuel as [|fuel IH]; intros [|c p] out Ho; cbn [read_embeddings]; try done.
  destruct (c =? c_RBRACKET); [done|]. destruct (Z.geb_spec (zlen out) max); [done|].
  cbn [orb]. destruct (skip_separators _) as [|d q]; [done|]. destruct (d =? c_RBRACKET); [done|].
  destruct (strtod _) as [[v r]|]; [|done]. apply IH. rewrite zlen_snoc. lia.
Qed.

(** ** Properties *)

(** The vision payload never overruns the caller's buffer: every [snprintf]
    is given the room that is left, whatever the text and the addresses.  The
    answer is 0 exactly when the whole text fits with its terminator, and then
    it is the whole text. *)
Theorem vision_in_bounds text urls size :
  0 < size ->
  exists out,
    gateway_build_vision_content text urls size
    = Ok (Some (out, if zlen (vision_text text urls) <? size then 0 else -1))
    /\ (zlen (vision_text text urls) < size -> out = vision_text text urls).
Proof.
  intros Hs. unfold gateway_build_vision_content, vision_text. destruct (Z.eqb_spec size 0); [lia|].
  rewrite append_ok by (unfold zlen; simpl; lia). cbn [mbind res_bind]. rewrite app_nil_l.
  set (start := qlit "[{'type': 'text', 'text': '" ++ default [] text ++ qlit "'}").
  destruct (vision_images_ok size urls start) as (part & rest & -> & -> & Hr). cbn [mbind res_bind].
  destruct (Z.ltb_spec (zlen (start ++ part)) size) as [Hlt|Hge].
  - rewrite (Hr Hlt), append_ok by lia. cbn [mbind res_bind]. rewrite app_nil_r, <- (assoc_L (++)). eauto.
  - cbn [mbind res_bind]. eexists. rewrite !zlen_app in *. pose proof (zlen_nonneg rest).
    change (zlen (lit "]")) with 1. split; [|lia].
    destruct (Z.ltb_spec (zlen start + zlen part) size), (Z.ltb_spec (zlen start + (zlen part + zlen rest + 1)) size);
      done || lia.
Qed.

(** The embeddings payload does overrun it: when the text before another
    input leaves exactly one byte of the buffer, the separator takes the position
    past the end and the next [snprintf] is given a size that has wrapped
    around. *)
Theorem embeddings_overrun model inputs x size out :
  0 < size ->
  embeddings_inputs size inputs true (qlit "{'model': '" ++ model ++ qlit "', 'input': [") = Ok out ->
  inputs <> [] -> zlen out = size - 1 ->
  gateway_build_embeddings_payload (Some model) (inputs ++ [x]) size = Fault OutOfBounds.
Proof.
  intros Hs Hin Hne Hlen. unfold gateway_build_embeddings_payload.
  rewrite zlen_app. change (zlen [x]) with 1. pose proof (zlen_nonneg inputs).
  destruct (Z.leb_spec (zlen inputs + 1) 0); [lia|].
  destruct (Z.eqb_spec size 0); [lia|]. cbn [orb].
  rewrite append_ok by (unfold zlen; simpl; lia). cbn [mbind res_bind].
  rewrite app_nil_l. by rewrite (embeddings_full _ _ _ _ _ _ Hin).
Qed.

(** ** Witnesses *)

Lemma vision_in_bounds_witness :
  gateway_build_vision_content (Some (lit "hi")) [Some (lit "a"); None] 200
  = Ok (Some (vision_text (Some (lit "hi")) [Some (lit "a"); None], 0)).
Proof.
  destruct (vision_in_bounds (Some (lit "hi")) [Some (lit "a"); None] 200) as (out & E & Hout); [lia|].
  rewrite <- (Hout ltac:(vm_compute; reflexivity)). exact E.
Defined.

Lemma embeddings_overrun_witness :
  gateway_build_embeddings_payload (Some (lit "m")) [Some (lit "a"); Some (lit "b")] 29 = Fault OutOfBounds.
Proof.
  apply (embeddings_overrun (lit "m") [Some (lit "a")] (Some (lit "b")) 29
           (qlit "{'model': 'm', 'input': ['a'"));
    [lia|vm_compute; reflexivity|discriminate|vm_compute; reflexivity].
Defined.
