(* ===== verification/ModelHealth.v ===== *)
(** * Model health and the circuit breaker: src/ai/prompt_router.c

    One AI model's state: its health (the circuit breaker), what makes it
    eligible and usable, its score, and how a call's outcome changes it.  The
    clock is an argument; the cached CURL handle and the mutex, which a call
    holds from its start to its end, are not part of the state. *)

From S2P Require Import Prelude Double Gateway.

(** ** Data *)

Inductive ModelState :=
| MODEL_STATE_HEALTHY | MODEL_STATE_DEGRADED | MODEL_STATE_RATE_LIMITED
| MODEL_STATE_DECOMMISSIONED | MODEL_STATE_QUARANTINED | MODEL_STATE_DISABLED
| MODEL_STATE_MISSING_KEY.

#[export] Instance ModelState_eq_dec : EqDecision ModelState.
Proof. solve_decision. Defined.

Inductive AIErrorCode :=
| AI_ERROR_NONE | AI_ERROR_API_FAILURE | AI_ERROR_TIMEOUT | AI_ERROR_RATE_LIMIT
| AI_ERROR_DECOMMISSIONED | AI_ERROR_AUTH | AI_ERROR_INVALID_MODEL | AI_ERROR_QUARANTINED
| AI_ERROR_CIRCUIT_OPEN | AI_ERROR_MEMORY.

#[export] Instance AIErrorCode_eq_dec : EqDecision AIErrorCode.
Proof. solve_decision. Defined.

Inductive ProviderType :=
| PROVIDER_OPENAI | PROVIDER_ANTHROPIC | PROVIDER_GEMINI | PROVIDER_DEEPSEEK | PROVIDER_CUSTOM.

Record ModelHealth := mkModelHealth {
  state : ModelState;
  consecutive_failures : Z;
  consecutive_successes : Z;
  last_failure_time : Z;
  last_success_time : Z;
  quarantined_until : Z;
  circuit_open : bool;
  circuit_open_until : Z;
  circuit_failures : Z;
  circuit_window_start_us : Z
}.

Record TokenAccount := mkTokenAccount {
  acc_input_tokens : Z;
  acc_output_tokens : Z;
  acc_cost_usd : Z;
  acc_requests : Z;
  acc_errors : Z
}.

Record AIModel := mkAIModel {
  name : list Z;
  api_endpoint : list Z;
  api_key_env : list Z;
  provider : list Z;
  tier : Z;
  provider_type : ProviderType;
  max_tokens : Z;
  temperature : double;
  is_available : bool;
  max_retries : Z;
  total_latency_us : Z;
  total_calls : Z;
  last_latency_us : Z;
  min_latency_us : Z;
  max_latency_us : Z;
  last_health_check : Z;
  health_ok : bool;
  health : ModelHealth;
  caps : Z;
  account : TokenAccount;
  cost_account : CostAccount
}.

(** Field updates. *)
Definition set_state (v : ModelState) (r : ModelHealth) : ModelHealth :=
  mkModelHealth v (consecutive_failures r) (consecutive_successes r) (last_failure_time r)
    (last_success_time r) (quarantined_until r) (circuit_open r) (circuit_open_until r)
    (circuit_failures r) (circuit_window_start_us r).
Definition set_consecutive_failures (v : Z) (r : ModelHealth) : ModelHealth :=
  mkModelHealth (state r) v (consecutive_successes r) (last_failure_time r) (last_success_time r)
    (quarantined_until r) (circuit_open r) (circuit_open_until r) (circuit_failures r)
    (circuit_window_start_us r).
Definition set_consecutive_successes (v : Z) (r : ModelHealth) : ModelHealth :=
  mkModelHealth (state r) (consecutive_failures r) v (last_failure_time r) (last_success_time r)
    (quarantined_until r) (circuit_open r) (circuit_open_until r) (circuit_failures r)
    (circuit_window_start_us r).
Definition set_last_failure_time (v : Z) (r : ModelHealth) : ModelHealth :=
  mkModelHealth (state r) (consecutive_failures r) (consecutive_successes r) v
    (last_success_time r) (quarantined_until r) (circuit_open r) (circuit_open_until r)
    (circuit_failures r) (circuit_window_start_us r).
Definition set_last_success_time (v : Z) (r : ModelHealth) : ModelHealth :=
  mkModelHealth (state r) (consecutive_failures r) (consecutive_successes r) (last_failure_time r)
    v (quarantined_until r) (circuit_open r) (circuit_open_until r) (circuit_failures r)
    (circuit_window_start_us r).
Definition set_quarantined_until (v : Z) (r : ModelHealth) : ModelHealth :=
  mkModelHealth (state r) (consecutive_failures r) (consecutive_successes r) (last_failure_time r)
    (last_success_time r) v (circuit_open r) (circuit_open_until r) (circuit_failures r)
    (circuit_window_start_us r).
Definition set_circuit_open (v : bool) (r : ModelHealth) : ModelHealth :=
  mkModelHealth (state r) (consecutive_failures r) (consecutive_successes r) (last_failure_time r)
    (last_success_time r) (quarantined_until r) v (circuit_open_until r) (circuit_failures r)
    (circuit_window_start_us r).
Definition set_circuit_open_until (v : Z) (r : ModelHealth) : ModelHealth :=
  mkModelHealth (state r) (consecutive_failures r) (consecutive_successes r) (last_failure_time r)
    (last_success_time r) (quarantined_until r) (circuit_open r) v (circuit_failures r)
    (circuit_window_start_us r).
Definition set_circuit_failures (v : Z) (r : ModelHealth) : ModelHealth :=
  mkModelHealth (state r) (consecutive_failures r) (consecutive_successes r) (last_failure_time r)
    (last_success_time r) (quarantined_until r) (circuit_open r) (circuit_open_until r) v
    (circuit_window_start_us r).
Definition set_circuit_window_start_us (v : Z) (r : ModelHealth) : ModelHealth :=
  mkModelHealth (state r) (consecutive_failures r) (consecutive_successes r) (last_failure_time r)
    (last_success_time r) (quarantined_until r) (circuit_open r) (circuit_open_until r)
    (circuit_failures r) v.
Definition set_provider (v : list Z) (r : AIModel) : AIModel :=
  mkAIModel (name r) (api_endpoint r) (api_key_env r) v (tier r) (provider_type r) (max_tokens r)
    (temperature r) (is_available r) (max_retries r) (total_latency_us r) (total_calls r)
    (last_latency_us r) (min_latency_us r) (max_latency_us r) (last_health_check r) (health_ok r)
    (health r) (caps r) (account r) (cost_account r).
Definition set_provider_type (v : ProviderType) (r : AIModel) : AIModel :=
  mkAIModel (name r) (api_endpoint r) (api_key_env r) (provider r) (tier r) v (max_tokens r)
    (temperature r) (is_available r) (max_retries r) (total_latency_us r) (total_calls r)
    (last_latency_us r) (min_latency_us r) (max_latency_us r) (last_health_check r) (health_ok r)
    (health r) (caps r) (account r) (cost_account r).
Definition set_is_available (v : bool) (r : AIModel) : AIModel :=
  mkAIModel (name r) (api_endpoint r) (api_key_env r) (provider r) (tier r) (provider_type r)
    (max_tokens r) (temperature r) v (max_retries r) (total_latency_us r) (total_calls r)
    (last_latency_us r) (min_latency_us r) (max_latency_us r) (last_health_check r) (health_ok r)
    (health r) (caps r) (account r) (cost_account r).
Definition set_last_health_check (v : Z) (r : AIModel) : AIModel :=
  mkAIModel (name r) (api_endpoint r) (api_key_env r) (provider r) (tier r) (provider_type r)
    (max_tokens r) (temperature r) (is_available r) (max_retries r) (total_latency_us r)
    (total_calls r) (last_latency_us r) (min_latency_us r) (max_latency_us r) v (health_ok r)
    (health r) (caps r) (account r) (cost_account r).
Definition set_health_ok (v : bool) (r : AIModel) : AIModel :=
  mkAIModel (name r) (api_endpoint r) (api_key_env r) (provider r) (tier r) (provider_type r)
    (max_tokens r) (temperature r) (is_available r) (max_retries r) (total_latency_us r)
    (total_calls r) (last_latency_us r) (min_latency_us r) (max_latency_us r) (last_health_check r)
    v (health r) (caps r) (account r) (cost_account r).
Definition set_health (v : ModelHealth) (r : AIModel) : AIModel :=
  mkAIModel (name r) (api_endpoint r) (api_key_env r) (provider r) (tier r) (provider_type r)
    (max_tokens r) (temperature r) (is_available r) (max_retries r) (total_latency_us r)
    (total_calls r) (last_latency_us r) (min_latency_us r) (max_latency_us r) (last_health_check r)
    (health_ok r) v (caps r) (account r) (cost_account r).
Definition set_caps (v : Z) (r : AIModel) : AIModel :=
  mkAIModel (name r) (api_endpoint r) (api_key_env r) (provider r) (tier r) (provider_type r)
    (max_tokens r) (temperature r) (is_available r) (max_retries r) (total_latency_us r)
    (total_calls r) (last_latency_us r) (min_latency_us r) (max_latency_us r) (last_health_check r)
    (health_ok r) (health r) v (account r) (cost_account r).
Definition set_account (v : TokenAccount) (r : AIModel) : AIModel :=
  mkAIModel (name r) (api_endpoint r) (api_key_env r) (provider r) (tier r) (provider_type r)
    (max_tokens r) (temperature r) (is_available r) (max_retries r) (total_latency_us r)
    (total_calls r) (last_latency_us r) (min_latency_us r) (max_latency_us r) (last_health_check r)
    (health_ok r) (health r) (caps r) v (cost_account r).
Definition set_cost_account (v : CostAccount) (r : AIModel) : AIModel :=
  mkAIModel (name r) (api_endpoint r) (api_key_env r) (provider r) (tier r) (provider_type r)
    (max_tokens r) (temperature r) (is_available r) (max_retries r) (total_latency_us r)
    (total_calls r) (last_latency_us r) (min_latency_us r) (max_latency_us r) (last_health_check r)
    (health_ok r) (health r) (caps r) (account r) v.

Definition on_health (f : ModelHealth -> ModelHealth) (m : AIModel) : AIModel :=
  set_health (f (health m)) m.

Definition QUARANTINE_DURATION : Z := 60.
Definition CIRCUIT_BREAK_THRESHOLD : Z := 3.
Definition CIRCUIT_OPEN_DURATION : Z := 30.
Definition CIRCUIT_WINDOW_US : Z := 60000000.
Definition HALF_OPEN_MAX : Z := 1.

(** ** Eligibility *)

(** Looking at a model may end its quarantine. *)
Definition provider_is_eligible (now : Z) (m : AIModel) : bool * AIModel :=
  let h := health m in
  match state h with
  | MODEL_STATE_HEALTHY | MODEL_STATE_DEGRADED => (true, m)
  | MODEL_STATE_RATE_LIMITED =>
      if quarantined_until h >? now then (false, m)
      else (true, on_health (set_state MODEL_STATE_HEALTHY) m)
  | MODEL_STATE_QUARANTINED =>
      if quarantined_until h >? now then (false, m)
      else (true, on_health (fun h => set_consecutive_failures 0 (set_state MODEL_STATE_HEALTHY h)) m)
  | MODEL_STATE_DECOMMISSIONED | MODEL_STATE_DISABLED | MODEL_STATE_MISSING_KEY => (false, m)
  end.

Definition in_state (s : ModelState) (m : AIModel) : bool := bool_decide (state (health m) = s).

Definition is_model_usable (now : Z) (m : AIModel) : bool :=
  let h := health m in
  if in_state MODEL_STATE_DECOMMISSIONED m || in_state MODEL_STATE_DISABLED m then false
  else if in_state MODEL_STATE_MISSING_KEY m then false
  else if quarantined_until h >? now then false
  else if circuit_open h && (circuit_open_until h >? now) then false
  else if in_state MODEL_STATE_RATE_LIMITED m then false
  else if in_state MODEL_STATE_QUARANTINED m && (quarantined_until h >? now) then false
  else true.

(** ** Scoring *)

Definition d_0_2 : double := d_dec 2 1.
Definition d_0_4 : double := d_dec 4 1.

Definition health_score (s : ModelState) : double :=
  match s with
  | MODEL_STATE_HEALTHY => d_of_Z 0
  | MODEL_STATE_DEGRADED => d_of_Z 2
  | MODEL_STATE_RATE_LIMITED => d_of_Z 5
  | _ => d_of_Z 10
  end.

Definition compute_model_score (m : AIModel) : double :=
  let '(latency_score, error_score, cost_score) :=
    if total_calls m >? 0 then
      (ddiv (ddiv (d_of_Z (total_latency_us m)) (d_of_Z (total_calls m))) (d_of_Z 1000000), d_of_Z 0,
       dmul (ddiv (total_cost_usd (cost_account m)) (d_of_Z (total_calls m))) (d_of_Z 10))
    else (d_of_Z 1, d_0_5, d_of_Z 5) in
  dadd (dadd (dadd (dmul latency_score d_0_4) (dmul error_score d_0_2))
          (dmul (health_score (state (health m))) d_0_2)) (dmul cost_score d_0_2).

(** ** Providers *)

Definition extract_provider_name (m : AIModel) : AIModel :=
  let url := api_endpoint m in
  set_provider
    (if contains url (lit "api.groq.com") then lit "groq"
     else if contains url (lit "api.openai.com") then lit "openai"
     else if contains url (lit "api.anthropic.com") then lit "anthropic"
     else if contains url (lit "generativelanguage") then lit "gemini"
     else if contains url (lit "api.deepseek.com") then lit "deepseek"
     else if contains url (lit "api.moonshot.cn") then lit "moonshot"
     else if contains url (lit "open.bigmodel.cn") then lit "zhipu"
     else if contains url (lit "api.perplexity.ai") then lit "perplexity"
     else if contains url (lit "api.mistral.ai") then lit "mistral"
     else if contains url (lit "localhost") then lit "local"
     else lit "unknown") m.

Definition detect_provider_type (m : AIModel) : AIModel :=
  let url := api_endpoint m in
  set_provider_type
    (if contains url (lit "anthropic") || contains url (lit "claude") then PROVIDER_ANTHROPIC
     else if contains url (lit "generativelanguage") || contains url (lit "gemini")
     then PROVIDER_GEMINI
     else if contains url (lit "deepseek") then PROVIDER_DEEPSEEK
     else PROVIDER_OPENAI) m.

(** ** Token estimate *)

Definition is_blank (c : Z) : bool :=
  (c =? c_SP) || (c =? c_LF) || (c =? c_TAB) || (c =? c_CR).

(** The loop over the prompt; returns the count and [in_word]. *)
Fixpoint count_tokens (s : list Z) (tokens char_count : Z) (in_word : bool) : Z * bool :=
  match s with
  | [] => (tokens, in_word)
  | c :: s' =>
      if is_blank c then
        if in_word then count_tokens s' (tokens + 1) 0 false
        else count_tokens s' tokens char_count false
      else if char_count + 1 >=? 4 then count_tokens s' (tokens + 1) 0 true
      else count_tokens s' tokens (char_count + 1) true
  end.

Definition f_0_35 : double := f_dec 35 2.

Definition estimate_tokens (prompt : option (list Z)) : Z :=
  match prompt with
  | None | Some [] => 0
  | Some s =>
      let '(tokens, in_word) := count_tokens s 0 0 false in
      let tokens := if in_word then tokens + 1 else tokens in
      let est := default 0 (d_to_int (fmul (f_of_Z (strlen s)) f_0_35)) in
      (if est >? tokens then est else tokens) + 4
  end.

(** ** Errors *)

(** The CURL results the source tells apart. *)
Inductive CURLcode :=
| CURLE_OK | CURLE_OPERATION_TIMEDOUT | CURLE_COULDNT_CONNECT | CURLE_HTTP_RETURNED_ERROR
| CURLE_OTHER.

#[export] Instance CURLcode_eq_dec : EqDecision CURLcode.
Proof. solve_decision. Defined.

Definition classify_error (body : list Z) (res : CURLcode) : AIErrorCode :=
  match res with
  | CURLE_OPERATION_TIMEDOUT => AI_ERROR_TIMEOUT
  | CURLE_COULDNT_CONNECT => AI_ERROR_API_FAILURE
  | CURLE_HTTP_RETURNED_ERROR =>
      if contains body (lit "decommissioned") then AI_ERROR_DECOMMISSIONED
      else if contains body (lit "rate_limit") || contains body (lit "Rate limit")
              || contains body (lit "rate limit") then AI_ERROR_RATE_LIMIT
      else if contains body (lit "auth") || contains body (lit "unauthorized")
              || contains body (lit "invalid_api_key") then AI_ERROR_AUTH
      else if contains body (lit "not found") || contains body (lit "model_not_found")
      then AI_ERROR_INVALID_MODEL
      else AI_ERROR_API_FAILURE
  | CURLE_OTHER => AI_ERROR_API_FAILURE
  | CURLE_OK =>
      if contains body (lit "error") then
        if contains body (lit "decommissioned") then AI_ERROR_DECOMMISSIONED
        else if contains body (lit "rate_limit") then AI_ERROR_RATE_LIMIT
        else AI_ERROR_NONE
      else AI_ERROR_NONE
  end.

(** ** The outcome of a call *)

(** The success branch, in its two steps. *)
Definition close_circuit (m : AIModel) : AIModel :=
  if circuit_open (health m) && (consecutive_successes (health m) >=? HALF_OPEN_MAX) then
    set_health_ok true
      (on_health (fun h =>
         set_quarantined_until 0 (set_state MODEL_STATE_HEALTHY (set_circuit_window_start_us 0
           (set_circuit_failures 0 (set_circuit_open_until 0 (set_circuit_open false h)))))) m)
  else m.

Definition record_success (now : Z) (error : AIErrorCode) (m : AIModel) : AIModel :=
  let m := on_health (fun h =>
    set_last_success_time now (set_consecutive_successes (consecutive_successes h + 1)
      (set_consecutive_failures 0 h))) m in
  let m := close_circuit m in
  if decide (error = AI_ERROR_RATE_LIMIT) then
    on_health (fun h => set_quarantined_until (now + 5) (set_state MODEL_STATE_RATE_LIMITED h)) m
  else if decide (state (health m) = MODEL_STATE_RATE_LIMITED) then
    on_health (fun h => set_quarantined_until 0 (set_state MODEL_STATE_HEALTHY h)) m
  else m.

(** "if (consecutive_failures >= 2)" *)
Definition quarantine (now : Z) (m : AIModel) : AIModel :=
  set_health_ok false
    (if consecutive_failures (health m) >=? 2 then
       on_health (fun h => set_quarantined_until (now + QUARANTINE_DURATION)
                             (set_state MODEL_STATE_QUARANTINED h)) m
     else m).

(** The window of the circuit breaker. *)
Definition count_failure (now : Z) (m : AIModel) : AIModel :=
  let h := health m in
  let now_us := u64 (now * 1000000) in
  if circuit_window_start_us h =? 0 then
    quarantine now (set_health (set_circuit_failures 1 (set_circuit_window_start_us now_us h)) m)
  else if u64 (now_us - circuit_window_start_us h) <? CIRCUIT_WINDOW_US then
    let h := set_circuit_failures (circuit_failures h + 1) h in
    if circuit_failures h >=? CIRCUIT_BREAK_THRESHOLD then
      set_health_ok false
        (set_health (set_state MODEL_STATE_QUARANTINED
           (set_circuit_open_until (now + CIRCUIT_OPEN_DURATION) (set_circuit_open true h))) m)
    else quarantine now (set_health h m)
  else quarantine now (set_health (set_circuit_failures 1 (set_circuit_window_start_us now_us h)) m).

Definition record_failure (now : Z) (error : AIErrorCode) (m : AIModel) : AIModel :=
  let m := on_health (fun h =>
    set_last_failure_time now (set_consecutive_successes 0
      (set_consecutive_failures (consecutive_failures h + 1) h))) m in
  match error with
  | AI_ERROR_DECOMMISSIONED =>
      set_health_ok false (on_health (set_state MODEL_STATE_DECOMMISSIONED) m)
  | AI_ERROR_RATE_LIMIT =>
      set_health_ok false
        (on_health (fun h => set_quarantined_until (now + 10) (set_state MODEL_STATE_RATE_LIMITED h)) m)
  | _ => count_failure now m
  end.

Definition update_model_health (success : bool) (error : AIErrorCode) (now : Z) (m : AIModel) : AIModel :=
  if success then record_success now error m else record_failure now error m.

(** ** Properties *)

(** An ordinary failure: not a lifecycle or rate-limit error. *)
Definition ordinary (e : AIErrorCode) : Prop :=
  e <> AI_ERROR_DECOMMISSIONED /\ e <> AI_ERROR_RATE_LIMIT.

(** A time the clock can show: seconds since 1970, before the microseconds
    overflow. *)
Definition clock (t : Z) : Prop := 0 < t < 2 ^ 43.

Lemma now_us_small t : clock t -> u64 (t * 1000000) = t * 1000000.
Proof. unfold clock. intros. apply u64_small. lia. Qed.

Definition fail (t : Z) (e : AIErrorCode) (m : AIModel) : AIModel := update_model_health false e t m.

Lemma fail_ordinary t e m :
  ordinary e -> fail t e m = count_failure t (on_health (fun h =>
    set_last_failure_time t (set_consecutive_successes 0
      (set_consecutive_failures (consecutive_failures h + 1) h))) m).
Proof. intros [H1 H2]. unfold fail, update_model_health, record_failure. by destruct e. Qed.

Lemma count_failure_first t m :
  clock t -> circuit_window_start_us (health m) = 0 ->
  circuit_window_start_us (health (count_failure t m)) = t * 1000000
  /\ circuit_failures (health (count_failure t m)) = 1.
Proof.
  intros Ht Hw. unfold count_failure, quarantine. rewrite Hw, now_us_small by done. simpl.
  by case_match.
Qed.

Lemma count_failure_next t start n m :
  clock t -> circuit_window_start_us (health m) = start * 1000000 -> clock start ->
  0 <= t - start < 60 -> circuit_failures (health m) = n -> n + 1 < CIRCUIT_BREAK_THRESHOLD ->
  circuit_window_start_us (health (count_failure t m)) = start * 1000000
  /\ circuit_failures (health (count_failure t m)) = n + 1.
Proof.
  intros Ht Hw Hs Hd Hn Hlt. unfold count_failure, quarantine. rewrite Hw, now_us_small by done.
  unfold clock in *. destruct (Z.eqb_spec (start * 1000000) 0); [lia|].
  rewrite u64_small by lia. unfold CIRCUIT_WINDOW_US.
  destruct (Z.ltb_spec (t * 1000000 - start * 1000000) 60000000); [|lia]. simpl. rewrite Hn.
  destruct (Z.geb_spec (n + 1) CIRCUIT_BREAK_THRESHOLD); [lia|]. simpl.
  case_match; simpl; by rewrite Hw.
Qed.

Lemma count_failure_opens t start n m :
  clock t -> circuit_window_start_us (health m) = start * 1000000 -> clock start ->
  0 <= t - start < 60 -> circuit_failures (health m) = n -> CIRCUIT_BREAK_THRESHOLD <= n + 1 ->
  circuit_open (health (count_failure t m)) = true
  /\ circuit_open_until (health (count_failure t m)) = t + CIRCUIT_OPEN_DURATION
  /\ state (health (count_failure t m)) = MODEL_STATE_QUARANTINED.
Proof.
  intros Ht Hw Hs Hd Hn Hlt. unfold count_failure, quarantine. rewrite Hw, now_us_small by done.
  unfold clock in *. destruct (Z.eqb_spec (start * 1000000) 0); [lia|].
  rewrite u64_small by lia. unfold CIRCUIT_WINDOW_US.
  destruct (Z.ltb_spec (t * 1000000 - start * 1000000) 60000000); [|lia]. simpl. rewrite Hn.
  destruct (Z.geb_spec (n + 1) CIRCUIT_BREAK_THRESHOLD); [done|lia].
Qed.

(** The circuit breaker opens: three ordinary failures within a minute, from
    a closed window, open the circuit, and until thirty seconds after the third
    the model is not usable. *)
Theorem circuit_opens m t1 t2 t3 e1 e2 e3 now :
  ordinary e1 -> ordinary e2 -> ordinary e3 -> clock t1 -> clock t2 -> clock t3 ->
  t1 <= t2 <= t3 -> t3 - t1 < 60 -> circuit_window_start_us (health m) = 0 ->
  let m' := fail t3 e3 (fail t2 e2 (fail t1 e1 m)) in
  circuit_open (health m') = true /\ circuit_open_until (health m') = t3 + CIRCUIT_OPEN_DURATION
  /\ (now < t3 + CIRCUIT_OPEN_DURATION -> is_model_usable now m' = false).
Proof.
  intros O1 O2 O3 C1 C2 C3 H12 H13 Hw m'.
  set (m1 := fail t1 e1 m). set (m2 := fail t2 e2 m1).
  assert (circuit_window_start_us (health m1) = t1 * 1000000 /\ circuit_failures (health m1) = 1) as [W1 F1].
  { unfold m1. rewrite fail_ordinary by done. by apply count_failure_first. }
  assert (circuit_window_start_us (health m2) = t1 * 1000000 /\ circuit_failures (health m2) = 2) as [W2 F2].
  { unfold m2. rewrite fail_ordinary by done.
    apply (count_failure_next t2 t1 1); done || (simpl; lia). }
  assert (circuit_open (health m') = true /\ circuit_open_until (health m') = t3 + CIRCUIT_OPEN_DURATION
    /\ state (health m') = MODEL_STATE_QUARANTINED) as (P1 & P2 & P3).
  { unfold m'. fold m1. fold m2. rewrite fail_ordinary by done.
    apply (count_failure_opens t3 t1 2); done || (simpl; lia). }
  split_and!; try done. intros Hnow. unfold is_model_usable, in_state. rewrite P1, P2, P3. simpl.
  destruct (quarantined_until (health m') >? now); [done|].
  destruct (Z.gtb_spec (t3 + CIRCUIT_OPEN_DURATION) now); [done|lia].
Qed.

(** And it closes: one success on an open circuit closes it, ends the
    quarantine and makes the model healthy and usable at once, with the counters
    back at zero. *)
Theorem circuit_closes m now t :
  circuit_open (health m) = true -> 0 <= consecutive_successes (health m) -> 0 <= now ->
  let m' := update_model_health true AI_ERROR_NONE t m in
  circuit_open (health m') = false /\ circuit_failures (health m') = 0
  /\ circuit_window_start_us (health m') = 0 /\ state (health m') = MODEL_STATE_HEALTHY
  /\ health_ok m' = true /\ is_model_usable now m' = true.
Proof.
  intros Ho Hs Hn m'. unfold m', update_model_health, record_success, close_circuit. simpl. rewrite Ho. simpl.
  destruct (Z.geb_spec (consecutive_successes (health m) + 1) HALF_OPEN_MAX) as [|Hlt];
    [|unfold HALF_OPEN_MAX in Hlt; lia].
  simpl. split_and!; try done. unfold is_model_usable, in_state. simpl. by destruct (Z.gtb_spec 0 now); [lia|].
Qed.

(** ** Witnesses *)

Definition demo_model : AIModel :=
  mkAIModel (lit "gpt-4o") (lit "https://api.openai.com/v1") (lit "OPENAI_API_KEY") (lit "openai") 2
    PROVIDER_OPENAI 4096 (d_of_Z 1) true 2 0 0 0 0 0 0 true
    (mkModelHealth MODEL_STATE_HEALTHY 0 0 0 0 0 false 0 0 0) 0 (mkTokenAccount 0 0 0 0 0) empty_account.

Definition demo_failed : AIModel :=
  fail 130 AI_ERROR_TIMEOUT (fail 110 AI_ERROR_TIMEOUT (fail 100 AI_ERROR_API_FAILURE demo_model)).

Lemma circuit_opens_witness : is_model_usable 159 demo_failed = false.
Proof.
  apply (circuit_opens demo_model 100 110 130 AI_ERROR_API_FAILURE AI_ERROR_TIMEOUT AI_ERROR_TIMEOUT 159);
    [split; discriminate|split; discriminate|split; discriminate|unfold clock; lia|unfold clock; lia
    |unfold clock; lia|lia|lia|reflexivity|unfold CIRCUIT_OPEN_DURATION; lia].
Defined.

Lemma circuit_closes_witness :
  is_model_usable 150 (update_model_health true AI_ERROR_NONE 140 demo_failed) = true.
Proof.
  apply (circuit_closes demo_failed 150 140); [vm_compute; reflexivity|vm_compute; discriminate|lia].
Defined.
