(* ===== verification/PromptRouter.v ===== *)
(** * The prompt router: src/ai/prompt_router.c

    The table of models and its operations, the call to one model (payload,
    retries, outcome) and the choice among models.  The network, the
    environment variables and the clock are arguments: a [net] is what the
    server answers to one call.  A pointer to a model is its index. *)

From S2P Require Import Prelude Double JsonText Gateway ModelHealth.

(** ** Data *)

(** [verify_ssl] only configures CURL; [default_model] is NULL or a name. *)
Record PromptRouter := mkPromptRouter {
  models : list AIModel;
  model_capacity : Z;
  default_model : option (list Z);
  smart_routing : bool
}.

Definition set_models (ms : list AIModel) (r : PromptRouter) : PromptRouter :=
  mkPromptRouter ms (model_capacity r) (default_model r) (smart_routing r).

(** What the server answers: the result and HTTP status of each attempt, the
    body received ([None]: the write callback was never called), the time taken,
    and CURL's text for the last result. *)
Record net := mkNet {
  perform : nat -> CURLcode * Z;
  body : option (list Z);
  http_code : Z;
  latency_us : Z;
  strerror : list Z;
  curl_ok : bool
}.

(** A call of [obs_record_ai_call]. *)
Record obs_call := mkObsCall {
  obs_provider : list Z; obs_model : list Z; obs_latency : Z;
  obs_in : Z; obs_out : Z; obs_error : bool; obs_code : AIErrorCode
}.

(** ** Payloads *)

(** The format has two "%s" for four arguments: the response format is never
    printed. *)
Definition build_openai_payload_full (model_name prompt : list Z) (temp : double) (max_toks : Z)
    (tools_json response_format_json multi_modal : option (list Z)) : list Z :=
  qlit "{'model': '" ++ escape model_name
  ++ qlit "', 'messages': [{'role': 'user', 'content': " ++ default (escape prompt) multi_modal
  ++ qlit "}], 'temperature': " ++ fixed2 temp ++ qlit ", 'max_tokens': " ++ dec max_toks
  ++ match tools_json with Some t => qlit ", 'tools': " ++ t | None => [] end ++ lit "}".

Definition build_openai_payload (model_name prompt : list Z) (temp : double) (max_toks : Z) : list Z :=
  build_openai_payload_full model_name prompt temp max_toks None None None.

Definition build_anthropic_payload (prompt : list Z) (temp : double) (max_toks : Z) : list Z :=
  qlit "{'anthropic_version': 'bedrock-2023-05-31', 'max_tokens': " ++ dec max_toks
  ++ qlit ", 'messages': [{'role': 'user', 'content': '" ++ escape prompt
  ++ qlit "'}], 'temperature': " ++ fixed2 temp ++ lit "}".

Definition build_gemini_payload (prompt : list Z) (temp : double) (max_toks : Z) : list Z :=
  qlit "{'contents': [{'parts': [{'text': '" ++ escape prompt
  ++ qlit "'}]}], 'generationConfig': {'temperature': " ++ fixed2 temp
  ++ qlit ", 'maxOutputTokens': " ++ dec max_toks ++ lit "}}".

(** The payload [send_to_model] posts. *)
Definition payload (m : AIModel) (prompt : list Z) : list Z :=
  match provider_type m with
  | PROVIDER_ANTHROPIC => build_anthropic_payload prompt (temperature m) (max_tokens m)
  | PROVIDER_GEMINI => build_gemini_payload prompt (temperature m) (max_tokens m)
  | _ => build_openai_payload (name m) prompt (temperature m) (max_tokens m)
  end.

(** The body grows by [realloc]; a failure stops the transfer. *)
Definition WriteMemoryCallback (contents : list Z) (realloc_ok : bool) (mem : option (list Z))
  : Z * option (list Z) :=
  if realloc_ok then (zlen contents, Some (default [] mem ++ contents)) else (0, mem).

(** ** One call *)

(** [snprintf(response, response_size, ...)] and [strncpy] with a terminator. *)
Definition into (size : Z) (text : list Z) : list Z := take (Z.to_nat (size - 1)) text.

Definition error_text (before : string) (middle : list Z) (after : string) : list Z :=
  qlit "{'error': '" ++ lit before ++ middle ++ lit after ++ qlit "'}".

(** The tests before the call; [None] lets it go on. *)
Definition gate (now : Z) (m : AIModel) : option (AIErrorCode * list Z) :=
  if is_model_usable now m then None
  else if in_state MODEL_STATE_DECOMMISSIONED m then
    Some (AI_ERROR_DECOMMISSIONED, error_text "Model " (name m) " has been decommissioned")
  else if circuit_open (health m) then
    Some (AI_ERROR_CIRCUIT_OPEN, error_text "Model " (name m) " circuit is open, try again later")
  else if quarantined_until (health m) >? now then
    Some (AI_ERROR_QUARANTINED, error_text "Model " (name m) " is quarantined")
  else if in_state MODEL_STATE_RATE_LIMITED m then
    Some (AI_ERROR_RATE_LIMIT, error_text "Model " (name m) " is rate limited")
  else None.

Definition fatal_status (code : Z) : bool :=
  (code =? 401) || (code =? 403) || (code =? 404) || (code =? 429).

(** The [do ... while] loop from attempt [k]; the result and the number of
    attempts made, or [None] when the fuel runs out. *)
Fixpoint retry (attempt : nat -> CURLcode * Z) (max_retries : Z) (fuel k : nat) (retry_count : Z)
  : option (CURLcode * nat) :=
  match fuel with
  | O => None
  | S fuel' =>
      let '(res, code) := attempt k in
      if bool_decide (res = CURLE_OK) then Some (res, S k)
      else if bool_decide (res = CURLE_HTTP_RETURNED_ERROR) && fatal_status code then Some (res, S k)
      else if retry_count + 1 <=? max_retries
           then retry attempt max_retries fuel' (S k) (retry_count + 1)
           else Some (res, S k)
  end.

Definition retry_limit (m : AIModel) : Z := if max_retries m >? 0 then max_retries m else 2.

Definition perform_all (m : AIModel) (w : net) : CURLcode :=
  match retry (perform w) (retry_limit m) (S (Z.to_nat (retry_limit m))) 0 0 with
  | Some (res, _) => res
  | None => CURLE_OTHER
  end.

Definition record_latency (us : Z) (m : AIModel) : AIModel :=
  mkAIModel (name m) (api_endpoint m) (api_key_env m) (provider m) (tier m) (provider_type m)
    (max_tokens m) (temperature m) (is_available m) (max_retries m)
    (u64 (total_latency_us m + us)) (u64 (total_calls m + 1)) us
    (if (us <? min_latency_us m) || (min_latency_us m =? 0) then us else min_latency_us m)
    (if us >? max_latency_us m then us else max_latency_us m)
    (last_health_check m) (health_ok m) (health m) (caps m) (account m) (cost_account m).

Definition count_error (m : AIModel) : AIModel :=
  let a := account m in
  set_account (mkTokenAccount (acc_input_tokens a) (acc_output_tokens a) (acc_cost_usd a)
                 (u64 (acc_requests a + 1)) (u64 (acc_errors a + 1))) m.

(** The integer division makes this 0 below a million. *)
Definition call_cost (in_tok out_tok : Z) : Z := (in_tok * 5 + out_tok * 15) / 1000000.

Definition count_success (in_tok out_tok : Z) (m : AIModel) : AIModel :=
  let a := account m in
  set_cost_account (gateway_update_cost (name m) in_tok out_tok (cost_account m))
    (set_account (mkTokenAccount (u64 (acc_input_tokens a + in_tok)) (u64 (acc_output_tokens a + out_tok))
                    (u64 (acc_cost_usd a + call_cost in_tok out_tok))
                    (u64 (acc_requests a + 1)) (acc_errors a)) m).

(** The body as the C string [chunk.memory]: one byte that nothing has written
    when no data came. *)
Definition body_string (w : net) : res (list Z) :=
  match body w with Some b => Ok (cstring b) | None => Fault Uninitialised end.

(** The result of a call: the code, the caller's buffer, the error code, the
    model, and what was reported. *)
Definition sent : Type := Z * list Z * AIErrorCode * AIModel * list obs_call.

Definition failed_call (error : AIErrorCode) (now us : Z) (m : AIModel) : AIModel * list obs_call :=
  (update_model_health false error now (count_error m),
   [mkObsCall (provider m) (name m) us 0 0 true error]).

(** What follows the transfer. *)
Definition finish_call (prompt : list Z) (size now : Z) (w : net) (code : CURLcode) (m : AIModel) : res sent :=
  if bool_decide (code <> CURLE_OK) then
    error ← (match code with
             | CURLE_HTTP_RETURNED_ERROR => b ← body_string w; Ok (classify_error b code)
             | _ => Ok (classify_error [] code)
             end);
    let '(m, obs) := failed_call error now (latency_us w) m in
    Ok (-1, into size (error_text "API request failed: " (strerror w) EmptyString), error, m, obs)
  else if http_code w >=? 400 then
    b ← body_string w;
    let error := classify_error b CURLE_HTTP_RETURNED_ERROR in
    let '(m, obs) := failed_call error now (latency_us w) m in
    Ok (0, into size b, error, m, obs)
  else
    let m := set_last_health_check now (set_health_ok true m) in
    parsed ← parse_ai_response (default [] (body w)) size;
    response ← (match parsed with Some out => Ok (cstring out) | None => into size <$> body_string w end);
    let in_tok := estimate_tokens (Some prompt) in
    let out_tok := estimate_tokens (Some response) in
    let m := update_model_health true AI_ERROR_NONE now (count_success in_tok out_tok m) in
    Ok (0, response, AI_ERROR_NONE, m,
        [mkObsCall (provider m) (name m) (latency_us w) in_tok out_tok false AI_ERROR_NONE]).

Definition send_to_model (prompt : list Z) (size now : Z) (w : net) (m : AIModel) : res sent :=
  if size =? 0 then Ok (-1, [], AI_ERROR_NONE, m, [])
  else
    match gate now m with
    | Some (error, text) => Ok (-1, into size text, error, m, [])
    | None =>
        if negb (curl_ok w) then Ok (-1, [], AI_ERROR_NONE, m, [])
        else finish_call prompt size now w (perform_all m w) (record_latency (latency_us w) m)
    end.

(** ** The table of models *)

Definition find_model (n : list Z) (r : PromptRouter) : option nat :=
  find_index (fun m => streq (name m) n) (models r).

Definition on_model (i : nat) (f : AIModel -> AIModel) (r : PromptRouter) : PromptRouter :=
  set_models (alter f i (models r)) r.

(** Whether the environment has a non-empty key for the model. *)
Definition has_key (getenv : list Z -> option (list Z)) (m : AIModel) : bool :=
  match getenv (api_key_env m) with Some (_ :: _) => true | _ => false end.

Definition fresh_health : ModelHealth := mkModelHealth MODEL_STATE_HEALTHY 0 0 0 0 0 false 0 0 0.

Definition new_model (getenv : list Z -> option (list Z)) (n endpoint : list Z) (key_env : option (list Z))
    (max_toks : Z) (temp : double) (tier : Z) : AIModel :=
  let m :=
    mkAIModel n endpoint (default (lit "OPENAI_API_KEY") key_env) []
      (if (tier >=? 1) && (tier <=? 4) then tier else 2) PROVIDER_OPENAI
      (if max_toks >? 0 then max_toks else 4096) temp false 2 0 0 0 0 0 0 true fresh_health 0
      (mkTokenAccount 0 0 0 0 0) empty_account in
  let m := detect_provider_type (extract_provider_name m) in
  if has_key getenv m then set_is_available true m
  else on_health (set_state MODEL_STATE_MISSING_KEY) m.

(** [alloc_ok]: the three [strdup]s and the mutex. *)
Definition prompt_router_add_model (getenv : list Z -> option (list Z)) (n endpoint key_env : option (list Z))
    (max_toks : Z) (temp : double) (tier : Z) (realloc_ok alloc_ok : bool) (r : PromptRouter)
  : Z * PromptRouter :=
  match n, endpoint with
  | Some n, Some endpoint =>
      let full := zlen (models r) >=? model_capacity r in
      if full && negb realloc_ok then (-1, r)
      else
        let cap := if full then model_capacity r * 2 else model_capacity r in
        let r := mkPromptRouter (models r) cap (default_model r) (smart_routing r) in
        if negb alloc_ok then (-1, r)
        else (0, set_models (models r ++ [new_model getenv n endpoint key_env max_toks temp tier]) r)
  | _, _ => (-1, r)
  end.

Definition prompt_router_add_model_ex (getenv : list Z -> option (list Z)) (n endpoint key_env : option (list Z))
    (max_toks : Z) (temp : double) (tier flags : Z) (realloc_ok alloc_ok : bool) (r : PromptRouter)
  : Z * PromptRouter :=
  let '(ret, r) := prompt_router_add_model getenv n endpoint key_env max_toks temp tier realloc_ok alloc_ok r in
  if ret =? 0 then
    match find_model (default [] n) r with
    | Some i => (ret, on_model i (set_caps flags) r)
    | None => (ret, r)
    end
  else (ret, r).

(** The removal keeps the order of the rest. *)
Definition prompt_router_remove_model (n : option (list Z)) (r : PromptRouter) : Z * PromptRouter :=
  match n ≫= (fun n => find_model n r) with
  | Some i => (0, set_models (delete i (models r)) r)
  | None => (-1, r)
  end.

Definition prompt_router_set_default_model (n : option (list Z)) (strdup_ok : bool) (r : PromptRouter)
  : Z * PromptRouter :=
  match n with
  | Some n =>
      match find_model n r with
      | Some _ =>
          (0, mkPromptRouter (models r) (model_capacity r) (if strdup_ok then Some n else None)
                (smart_routing r))
      | None => (-1, r)
      end
  | None => (-1, r)
  end.

Definition reload_model (getenv : list Z -> option (list Z)) (m : AIModel) : AIModel :=
  let m := set_is_available (has_key getenv m) m in
  if negb (is_available m) then on_health (set_state MODEL_STATE_MISSING_KEY) m
  else if in_state MODEL_STATE_MISSING_KEY m then on_health (set_state MODEL_STATE_HEALTHY) m
  else m.

Definition prompt_router_hot_reload (getenv : list Z -> option (list Z)) (r : PromptRouter) : Z * PromptRouter :=
  (0, set_models (map (reload_model getenv) (models r)) r).

Definition add_accounts (a b : TokenAccount) : TokenAccount :=
  mkTokenAccount (u64 (acc_input_tokens a + acc_input_tokens b))
    (u64 (acc_output_tokens a + acc_output_tokens b)) (u64 (acc_cost_usd a + acc_cost_usd b))
    (u64 (acc_requests a + acc_requests b)) (u64 (acc_errors a + acc_errors b)).

Definition prompt_router_get_token_account (r : PromptRouter) : TokenAccount :=
  fold_left (fun acc m => add_accounts acc (account m)) (models r) (mkTokenAccount 0 0 0 0 0).

Definition prompt_router_get_models (r : PromptRouter) : list (list Z) := map name (models r).

Definition prompt_router_get_available_count (now : Z) (r : PromptRouter) : Z :=
  countb (fun m => is_available m && is_model_usable now m) (models r).

Definition prompt_router_set_model_availability (n : option (list Z)) (available : bool) (r : PromptRouter)
  : Z * PromptRouter :=
  match n ≫= (fun n => find_model n r) with
  | Some i => (0, on_model i (set_is_available available) r)
  | None => (-1, r)
  end.

Definition force_state (s : ModelState) (m : AIModel) : AIModel :=
  let m := on_health (set_state s) m in
  match s with
  | MODEL_STATE_DECOMMISSIONED | MODEL_STATE_DISABLED => set_health_ok false m
  | _ => m
  end.

Definition prompt_router_set_model_state (n : option (list Z)) (s : ModelState) (r : PromptRouter)
  : Z * PromptRouter :=
  match n ≫= (fun n => find_model n r) with
  | Some i => (0, on_model i (force_state s) r)
  | None => (-1, r)
  end.

Definition prompt_router_get_model_health (n : option (list Z)) (r : PromptRouter) : option ModelHealth :=
  i ← n ≫= (fun n => find_model n r); health <$> models r !! i.

Definition prompt_router_get_model_cost_account (n : option (list Z)) (r : PromptRouter) : option double :=
  i ← n ≫= (fun n => find_model n r); (fun m => total_cost_usd (cost_account m)) <$> models r !! i.

(** ** Choosing models *)

(** [provider_is_eligible] on one model of the table, in place. *)
Definition eligible_at (now : Z) (i : nat) (ms : list AIModel) : bool * list AIModel :=
  match ms !! i with
  | Some m => let '(b, m') := provider_is_eligible now m in (b, <[i := m']> ms)
  | None => (false, ms)
  end.

(** The loop over the table: the first [room] eligible models that pass [ok], in
    order; the loop breaks when there is no more room. *)
Fixpoint sweep (now : Z) (ok : nat -> AIModel -> bool) (room i : nat) (ms : list AIModel)
  : list nat * list AIModel :=
  match ms, room with
  | [], _ | _, O => ([], ms)
  | m :: ms', S room' =>
      let '(b, m') := provider_is_eligible now m in
      if b && ok i m' then
        let '(l, r) := sweep now ok room' (S i) ms' in (i :: l, m' :: r)
      else
        let '(l, r) := sweep now ok room (S i) ms' in (l, m' :: r)
  end.

(** The inner loop of the sort: the least of [x :: l] by exchanges, and what is
    left behind it. *)
Fixpoint sink {A} (gt : A -> A -> bool) (x : A) (l : list A) : A * list A :=
  match l with
  | [] => (x, [])
  | y :: l' =>
      if gt x y then let '(m, r) := sink gt y l' in (m, x :: r)
      else let '(m, r) := sink gt x l' in (m, y :: r)
  end.

Fixpoint exchange_sort {A} (gt : A -> A -> bool) (n : nat) (l : list A) : list A :=
  match n, l with
  | S n', x :: l' => let '(m, r) := sink gt x l' in m :: exchange_sort gt n' r
  | _, _ => l
  end.

Definition score_at (ms : list AIModel) (i : nat) : double :=
  match ms !! i with Some m => compute_model_score m | None => d_of_Z 0 end.

Definition score_gt (ms : list AIModel) (i j : nat) : bool := dgtb (score_at ms i) (score_at ms j).

(** [AIModel *scored[64]], filled without a test, then sorted. *)
Definition scored (ms : list AIModel) (l : list nat) : res (list nat) :=
  if (length l <=? 64)%nat then Ok (exchange_sort (score_gt ms) (length l) l) else Fault OutOfBounds.

(** The first model with the default name; the name may be NULL. *)
Definition default_index (r : PromptRouter) (ms : list AIModel) : res (option nat) :=
  match ms with
  | [] => Ok None
  | _ =>
      match default_model r with
      | None => Fault NullDeref
      | Some d => Ok (find_index (fun m => streq (name m) d) ms)
      end
  end.

Definition first_model (ms : list AIModel) : list nat := match ms with [] => [] | _ => [0%nat] end.

(** The "smart" branch after the sort: four fallbacks. *)
Definition smart_candidates (now : Z) (r : PromptRouter) : res (list nat * list AIModel) :=
  let '(l, ms) := sweep now (fun _ _ => true) (length (models r)) 0 (models r) in
  l ← scored ms l;
  let c := List.filter (fun i => match ms !! i with Some m => tier m >=? 1 | None => false end) l in
  if negb (bool_decide (c = [])) then Ok (take 64 c, ms)
  else
    let '(c, ms) := sweep now (fun _ _ => true) 64 0 ms in
    if negb (bool_decide (c = [])) then Ok (c, ms)
    else
      d ← default_index r ms;
      match d with
      | Some i => Ok ([i], ms)
      | None =>
          let c := take 64 (List.filter
                     (fun i => match ms !! i with Some m => is_available m | None => false end)
                     (seq 0 (length ms))) in
          Ok (if bool_decide (c = []) then first_model ms else c, ms)
      end.

(** The requested model first, then - if it is not eligible - the others.  The
    lookup that fails is repeated by the source and fails again. *)
Definition named_candidates (now : Z) (n : list Z) (r : PromptRouter) : list nat * list AIModel :=
  match find_model n r with
  | None => ([], models r)
  | Some i =>
      let '(_, ms) := eligible_at now i (models r) in
      let '(b, ms) := eligible_at now i ms in
      if b then ([i], ms)
      else
        let '(others, ms) := sweep now (fun j _ => negb (j =? i)%nat) 63 0 ms in
        (i :: others, ms)
  end.

Definition route_candidates (now : Z) (model_name : option (list Z)) (r : PromptRouter)
  : res (list nat * list AIModel) :=
  match model_name with
  | Some (c :: n) => Ok (named_candidates now (c :: n) r)
  | _ =>
      if smart_routing r then smart_candidates now r
      else
        d ← default_index r (models r);
        Ok (match d with Some i => [i] | None => first_model (models r) end, models r)
  end.

(** The loop over the candidates: the first success ends it.  [world k] is what
    the [k]-th call meets. *)
Fixpoint try_candidates (prompt : list Z) (size now : Z) (world : nat -> net) (k : nat) (cs : list nat)
    (ms : list AIModel) : res (option (list Z * list Z) * list AIModel) :=
  match cs with
  | [] => Ok (None, ms)
  | i :: cs' =>
      match ms !! i with
      | None => Fault OutOfBounds
      | Some m =>
          '(ret, response, _, m', _) ← send_to_model prompt size now (world k) m;
          let ms := <[i := m']> ms in
          if ret =? 0 then Ok (Some (response, name m'), ms)
          else try_candidates prompt size now world (S k) cs' ms
      end
  end.

(** The code, the caller's two buffers, and the router. *)
Definition routed : Type := Z * list Z * list Z * PromptRouter.

Definition answer (size name_size : Z) (failure : list Z) (r : PromptRouter)
    (o : option (list Z * list Z) * list AIModel) : routed :=
  match o with
  | (Some (response, n), ms) => (0, response, into name_size n, set_models ms r)
  | (None, ms) => (-1, into size failure, [], set_models ms r)
  end.

Definition prompt_router_route (prompt : list Z) (model_name : option (list Z)) (size name_size now : Z)
    (world : nat -> net) (r : PromptRouter) : res routed :=
  if size =? 0 then Ok (-1, [], [], r)
  else
    '(cs, ms) ← route_candidates now model_name r;
    o ← try_candidates prompt size now world 0 cs ms;
    Ok (answer size name_size (error_text "All AI models failed to process request" [] EmptyString) r o).

(** [cost * 100 <= max_cost_cents], the [int] converted to [double]. *)
Definition affordable (max_cost_cents : Z) (m : AIModel) : bool :=
  (max_cost_cents <=? 0)
  || dleb (dmul (total_cost_usd (cost_account m)) (d_of_Z 100)) (d_of_Z max_cost_cents).

Definition option_candidates (now : Z) (model_name : option (list Z)) (min_tier max_cost_cents : Z)
    (r : PromptRouter) : res (list nat * list AIModel) :=
  let fits (m : AIModel) := (tier m >=? min_tier) && affordable max_cost_cents m in
  let '(named, ms) :=
    match model_name with
    | Some (c :: n) =>
        match find_model (c :: n) r with
        | Some i =>
            let '(b, ms) := eligible_at now i (models r) in
            (if b && match ms !! i with Some m => fits m | None => false end then [i] else [], ms)
        | None => ([], models r)
        end
    | _ => ([], models r)
    end in
  match named with
  | _ :: _ => Ok (named, ms)
  | [] =>
      let '(l, ms) := sweep now (fun _ m => fits m) (length ms) 0 ms in
      l ← scored ms l; Ok (take 64 l, ms)
  end.

Definition prompt_router_route_with_options (prompt : list Z) (model_name : option (list Z))
    (size name_size min_tier max_cost_cents now : Z) (world : nat -> net) (r : PromptRouter) : res routed :=
  if size =? 0 then Ok (-1, [], [], r)
  else
    '(cs, ms) ← option_candidates now model_name min_tier max_cost_cents r;
    o ← try_candidates prompt size now world 0 cs ms;
    Ok (answer size name_size (error_text "No eligible AI models found" [] EmptyString) r o).

(** ** Initialisation *)

(** A model of the configuration. *)
Definition model_config : Type := list Z * list Z * option (list Z) * Z * double * Z.

Definition groq_url : list Z := lit "https://api.groq.com/openai/v1/chat/completions".

Definition default_configs : list model_config :=
  map (fun '(n, tier) => (lit n, groq_url, Some (lit "GROQ_API_KEY"), 8192, f_of_d d_0_7, tier))
    [("llama-3.3-70b-versatile"%string, 2); ("llama-3.1-8b-instant"%string, 1);
     ("gemma2-9b-it"%string, 1)].

(** [configs] is [None] when there is no configuration or it lists no models. *)
Definition prompt_router_init_with_config (getenv : list Z -> option (list Z))
    (configs : option (list model_config)) (smart calloc_ok mutex_ok : bool) : option PromptRouter :=
  if negb calloc_ok || negb mutex_ok then None
  else
    Some (fold_left
            (fun r '(n, url, key, toks, temp, tier) =>
               (prompt_router_add_model getenv (Some n) (Some url) (Some (default (lit "OPENAI_API_KEY") key))
                  toks temp tier true true r).2)
            (default default_configs configs)
            (mkPromptRouter [] 64 (Some (lit "llama-3.3-70b-versatile")) smart)).

(** ** The queue of the workers *)

(** [submit_ai_work] pushes on the head and [ai_worker_loop] takes from it. *)
Definition submit_ai_work {A} (item : A) (queue : list A) : list A := item :: queue.
Definition ai_worker_take {A} (queue : list A) : option A * list A :=
  match queue with [] => (None, []) | x :: q => (Some x, q) end.

(** ** Lemmas: the retries *)

Definition ends_retries (a : CURLcode * Z) : Prop :=
  a.1 = CURLE_OK \/ (a.1 = CURLE_HTTP_RETURNED_ERROR /\ fatal_status a.2 = true).

Lemma retry_step attempt limit fuel k count :
  retry attempt limit (S fuel) k count = Some ((attempt k).1, S k) /\ ends_retries (attempt k)
  \/ ~ ends_retries (attempt k)
     /\ retry attempt limit (S fuel) k count
        = (if count + 1 <=? limit then retry attempt limit fuel (S k) (count + 1)
           else Some ((attempt k).1, S k)).
Proof.
  cbn [retry]. unfold ends_retries. destruct (attempt k) as [r c]. cbn [fst snd].
  case_bool_decide; [by eauto|]. case_bool_decide; simpl.
  - destruct (fatal_status c) eqn:F; [by eauto|]. right. split; [|done]. intros [|[_ ?]]; congruence.
  - right. split; [|done]. intros [|[? _]]; congruence.
Qed.

Lemma retry_ends attempt limit fuel : forall k,
  Z.of_nat k + Z.of_nat fuel = limit -> 
  exists res n,
    retry attempt limit (S fuel) k (Z.of_nat k) = Some (res, S n) /\ (k <= n)%nat /\ Z.of_nat n <= limit
    /\ (attempt n).1 = res
    /\ (forall j, (k <= j < n)%nat -> ~ ends_retries (attempt j))
    /\ (Z.of_nat n < limit -> ends_retries (attempt n)).
Proof.
  induction fuel as [|fuel IH]; intros k Hk;
    destruct (retry_step attempt limit O k (Z.of_nat k)) as [[E1 H1]|[H1 E1]].
  - exists (attempt k).1, k. split_and!; try done; intros; lia.
  - rewrite E1. destruct (Z.leb_spec (Z.of_nat k + 1) limit); [lia|].
    exists (attempt k).1, k. split_and!; try done; intros; lia.
  - clear E1. destruct (retry_step attempt limit (S fuel) k (Z.of_nat k)) as [[E2 H2]|[H2 E2]]; [|done].
    exists (attempt k).1, k. split_and!; try done; intros; lia.
  - clear E1. destruct (retry_step attempt limit (S fuel) k (Z.of_nat k)) as [[E2 H2]|[_ E2]]; [done|].
    rewrite E2. destruct (Z.leb_spec (Z.of_nat k + 1) limit); [|lia].
    replace (Z.of_nat k + 1) with (Z.of_nat (S k)) by lia.
    destruct (IH (S k)) as (res & n & -> & ? & ? & ? & Hbefore & ?); [lia|].
    exists res, n. split_and!; try done; [lia|]. intros j Hj.
    destruct (decide (j = k)) as [->|]; [done|]. apply Hbefore. lia.
Qed.

(** The retry loop of a call always ends, after at least one and at most
    [max_retries + 1] attempts (2 retries when the model says none).  Its result
    is that of the last attempt; no earlier attempt succeeded or met a status
    401, 403, 404 or 429, and it only stops early at one that did. *)
Theorem retries_bounded m attempt :
  exists res n,
    retry attempt (retry_limit m) (S (Z.to_nat (retry_limit m))) 0 0 = Some (res, S n)
    /\ Z.of_nat (S n) <= retry_limit m + 1 /\ (attempt n).1 = res
    /\ (forall j, (j < n)%nat -> ~ ends_retries (attempt j))
    /\ (Z.of_nat n < retry_limit m -> ends_retries (attempt n)).
Proof.
  assert (0 <= retry_limit m) by (unfold retry_limit; destruct (Z.gtb_spec (max_retries m) 0); lia).
  destruct (retry_ends attempt (retry_limit m) (Z.to_nat (retry_limit m)) 0)
    as (res & n & E & ? & ? & ? & Hb & ?); [lia|].
  exists res, n. split_and!; try done; [lia|]. intros j Hj. apply Hb. lia.
Qed.

(** ** Lemmas: the sort *)

Section Sort.
Context {A : Type} (gt : A -> A -> bool) (P : A -> Prop).
Hypothesis gt_trans : forall a b c, P a -> P b -> P c -> gt a b = false -> gt b c = false -> gt a c = false.
Hypothesis gt_asym : forall a b, P a -> P b -> gt a b = true -> gt b a = false.

Lemma sink_perm x l : (sink gt x l).1 :: (sink gt x l).2 ≡ₚ x :: l.
Proof using Type.
  revert x. induction l as [|y l IH]; intros x; simpl; [done|].
  destruct (gt x y).
  - specialize (IH y). destruct (sink gt y l) as [m r]. simpl in *.
    rewrite Permutation_swap, IH. done.
  - specialize (IH x). destruct (sink gt x l) as [m r]. simpl in *.
    rewrite Permutation_swap, IH. apply Permutation_swap.
Qed.

Lemma sink_least x l :
  Forall P (x :: l) -> Forall (fun z => gt (sink gt x l).1 z = false) (x :: l).
Proof using gt_trans gt_asym.
  assert (Hirr : forall a, P a -> gt a a = false).
  { intros a Ha. destruct (gt a a) eqn:E; [|done]. pose proof (gt_asym a a Ha Ha E). congruence. }
  revert x. induction l as [|y l IH]; intros x Hall; simpl.
  { repeat constructor. apply Hirr. by inv Hall. }
  inv Hall. match goal with H : Forall P (y :: l) |- _ => rename H into Hyl end. inv Hyl.
  destruct (gt x y) eqn:E.
  - specialize (IH y ltac:(by constructor)).
    pose proof (sink_perm y l) as Hp. destruct (sink gt y l) as [m r]. simpl in *.
    assert (P m) by (assert (Hm : Forall P (m :: r)) by (rewrite Hp; by constructor); by inv Hm).
    constructor; [|done]. inv IH. apply (gt_trans m y x); eauto.
  - specialize (IH x ltac:(by constructor)).
    pose proof (sink_perm x l) as Hp. destruct (sink gt x l) as [m r]. simpl in *.
    assert (P m) by (assert (Hm : Forall P (m :: r)) by (rewrite Hp; by constructor); by inv Hm).
    inv IH. constructor; [done|]. constructor; [|done]. by apply (gt_trans m x y).
Qed.

Lemma exchange_sort_perm n l : exchange_sort gt n l ≡ₚ l.
Proof using Type.
  revert l. induction n as [|n IH]; intros [|x l]; simpl; try done.
  pose proof (sink_perm x l) as Hp. destruct (sink gt x l) as [m r]. simpl in *. by rewrite IH.
Qed.

Lemma exchange_sort_sorted n l :
  (length l <= n)%nat -> Forall P l ->
  StronglySorted (fun a b => gt a b = false) (exchange_sort gt n l).
Proof using gt_trans gt_asym.
  revert l. induction n as [|n IH]; intros [|x l] Hn Hall; simpl in *; try lia; try constructor.
  pose proof (sink_perm x l) as Hp. pose proof (sink_least x l Hall) as Hl.
  destruct (sink gt x l) as [m r]. simpl in *.
  rewrite <- Hp in Hl, Hall. apply Permutation_length in Hp. simpl in Hp. inv Hl. inv Hall.
  constructor; [apply IH; [lia|done]|]. by rewrite exchange_sort_perm.
Qed.
End Sort.

(** ** Lemmas: the sweep *)

Definition refreshed (now : Z) (m : AIModel) : AIModel := (provider_is_eligible now m).2.
Definition eligible (now : Z) (m : AIModel) : bool := (provider_is_eligible now m).1.

Section Sweep.
Context (now : Z) (ok : nat -> AIModel -> bool).

Lemma sweep_sound room i ms :
  let '(l, ms') := sweep now ok room i ms in
  NoDup l /\ (length l <= room)%nat /\ length ms' = length ms
  /\ forall j, j ∈ l -> exists d m, j = (i + d)%nat /\ ms !! d = Some m /\ ms' !! d = Some (refreshed now m)
                          /\ eligible now m = true /\ ok j (refreshed now m) = true.
Proof.
  revert room i. induction ms as [|m ms IH]; intros room i.
  { destruct room; simpl; split_and!; try done; try constructor; try lia; intros j Hj; by apply elem_of_nil in Hj. }
  destruct room as [|room].
  { simpl. split_and!; try done; try constructor; try lia; intros j Hj; by apply elem_of_nil in Hj. }
  cbn [sweep]. destruct (provider_is_eligible now m) as [b m'] eqn:Em.
  destruct (b && ok i m') eqn:Eb.
  - specialize (IH room (S i)). destruct (sweep now ok room (S i) ms) as [l r].
    destruct IH as (Hd & Hl & Hlen & Hin). apply andb_true_iff in Eb as [-> Hok].
    split_and!; [constructor; [|done]|simpl; lia|simpl; lia|].
    + intros Hi. apply Hin in Hi as (d & ? & ? & _). lia.
    + intros j [->|Hj]%elem_of_cons.
      * exists 0%nat, m. unfold refreshed, eligible. rewrite Em. split_and!; try done; lia.
      * apply Hin in Hj as (d & x & -> & ? & ? & ? & ?). exists (S d), x. split_and!; try done; lia.
  - specialize (IH (S room) (S i)). destruct (sweep now ok (S room) (S i) ms) as [l r].
    destruct IH as (Hd & Hl & Hlen & Hin). split_and!; [done|lia|simpl; lia|].
    intros j Hj. apply Hin in Hj as (d & x & -> & ? & ? & ? & ?). exists (S d), x. split_and!; try done; lia.
Qed.

Lemma sweep_complete room i ms :
  (length ms <= room)%nat ->
  let '(l, ms') := sweep now ok room i ms in
  ms' = map (refreshed now) ms
  /\ forall d m, ms !! d = Some m -> eligible now m = true -> ok (i + d)%nat (refreshed now m) = true ->
       (i + d)%nat ∈ l.
Proof.
  revert room i. induction ms as [|m ms IH]; intros room i Hr.
  { destruct room; simpl; (split; [done|]); intros d m Hm; by rewrite lookup_nil in Hm. }
  destruct room as [|room]; [simpl in Hr; lia|]. simpl in Hr.
  cbn [sweep map]. unfold refreshed at 1. destruct (provider_is_eligible now m) as [b m'] eqn:Em.
  destruct (b && ok i m') eqn:Eb.
  - specialize (IH room (S i) ltac:(lia)). destruct (sweep now ok room (S i) ms) as [l r].
    destruct IH as (-> & Hin). split; [done|]. intros [|d] x Hx He Hok; simpl in Hx.
    + rewrite Nat.add_0_r. apply list_elem_of_here.
    + apply list_elem_of_further. replace (i + S d)%nat with (S i + d)%nat in * by lia. by apply (Hin d x).
  - specialize (IH (S room) (S i) ltac:(lia)). destruct (sweep now ok (S room) (S i) ms) as [l r].
    destruct IH as (-> & Hin). split; [done|]. intros [|d] x Hx He Hok; simpl in Hx.
    + injection Hx as <-. rewrite Nat.add_0_r in Hok. unfold eligible, refreshed in *.
      rewrite Em in *. simpl in *. subst. by rewrite Hok in Eb.
    + replace (i + S d)%nat with (S i + d)%nat in * by lia. by apply (Hin d x).
Qed.
End Sweep.

(** ** Lemmas: the candidates *)

Lemma refreshed_tier now m : tier (refreshed now m) = tier m.
Proof. unfold refreshed, provider_is_eligible. repeat csplit; done. Qed.

Lemma refreshed_cost now m : cost_account (refreshed now m) = cost_account m.
Proof. unfold refreshed, provider_is_eligible. repeat csplit; done. Qed.

Lemma eligible_refreshed now m : eligible now (refreshed now m) = eligible now m.
Proof.
  unfold eligible, refreshed, provider_is_eligible.
  destruct (state (health m)) eqn:E; simpl; rewrite ?E; try done;
    destruct (quarantined_until (health m) >? now) eqn:Q; simpl; rewrite ?E, ?Q; done.
Qed.

Lemma sweep_count now p room i ms :
  (length ms <= room)%nat ->
  zlen (sweep now (fun _ => p) room i ms).1 = countb (fun m => eligible now m && p (refreshed now m)) ms.
Proof.
  revert room i. induction ms as [|m ms IH]; intros [|room] i Hr; simpl in *; try done; try lia.
  unfold eligible at 1, refreshed at 1. destruct (provider_is_eligible now m) as [b m'] eqn:Em. simpl.
  destruct (b && p m').
  - specialize (IH room (S i) ltac:(lia)). destruct (sweep now (fun _ => p) room (S i) ms). simpl in *.
    rewrite zlen_cons. lia.
  - specialize (IH (S room) (S i) ltac:(lia)). destruct (sweep now (fun _ => p) (S room) (S i) ms). simpl in *. lia.
Qed.

Lemma filter_NoDup {A} (f : A -> bool) l : NoDup l -> NoDup (List.filter f l).
Proof.
  induction 1 as [|x l Hx _ IH]; simpl; [constructor|]. destruct (f x); [|done].
  constructor; [|done]. rewrite list_elem_of_In, filter_In, <- list_elem_of_In. by intros [??].
Qed.

Lemma filter_sorted {A} (R : A -> A -> Prop) (f : A -> bool) l :
  StronglySorted R l -> StronglySorted R (List.filter f l).
Proof.
  induction 1 as [|x l _ IH Hx]; simpl; [constructor|]. destruct (f x); [|done].
  constructor; [done|]. rewrite Forall_forall in *. intros y Hy. apply Hx.
  rewrite list_elem_of_In, filter_In, <- list_elem_of_In in Hy. by destruct Hy.
Qed.

Lemma take_NoDup {A} n (l : list A) : NoDup l -> NoDup (take n l).
Proof. intros H. rewrite <- (take_drop n l) in H. by apply NoDup_app in H as (? & _). Qed.

Lemma elem_of_take_in {A} n (l : list A) x : x ∈ take n l -> x ∈ l.
Proof. intros H. rewrite <- (take_drop n l). apply elem_of_app. by left. Qed.

Lemma scored_ok ms l l' : scored ms l = Ok l' -> l' ≡ₚ l /\ (length l <= 64)%nat.
Proof.
  unfold scored. destruct (Nat.leb_spec (length l) 64); [|done]. intros [= <-]. split; [|done].
  apply exchange_sort_perm.
Qed.

(** Models the smart branch may pick. *)
Definition routable (now : Z) (r : PromptRouter) (i : nat) : Prop :=
  exists m, models r !! i = Some m /\ eligible now m = true /\ 1 <= tier m.

Definition numeric_scores (ms : list AIModel) : Prop := Forall (fun m => not_nan (compute_model_score m)) ms.

Lemma scored_sorted ms l :
  numeric_scores ms -> (length l <= 64)%nat -> 
  exists l', scored ms l = Ok l' /\ l' ≡ₚ l /\ StronglySorted (fun i j => score_gt ms i j = false) l'.
Proof.
  intros Hn Hl. unfold scored. destruct (Nat.leb_spec (length l) 64); [|lia].
  eexists. split_and!; [done|apply exchange_sort_perm|].
  apply (exchange_sort_sorted _ (fun i => not_nan (score_at ms i))); [| |done|].
  - intros a b c. apply dgtb_trans.
  - intros a b. apply dgtb_asym.
  - apply Forall_forall. intros i _. unfold score_at. destruct (ms !! i) eqn:E; [|done].
    unfold numeric_scores in Hn. rewrite Forall_lookup in Hn. by apply (Hn i).
Qed.

(** Smart routing considers exactly the eligible models of tier 1 or more,
    each once, from the lowest score to the highest - provided that no score is
    a NaN and at most 64 models are eligible. *)
Theorem smart_routing_order now r :
  let ms := map (refreshed now) (models r) in
  numeric_scores ms -> countb (eligible now) (models r) <= 64 -> (exists i, routable now r i) ->
  exists cs,
    smart_candidates now r = Ok (cs, ms) /\ NoDup cs /\ (forall i, i ∈ cs <-> routable now r i)
    /\ StronglySorted (fun i j => score_gt ms i j = false) cs.
Proof.
  intros ms Hn Hc [i0 Hi0]. unfold smart_candidates.
  pose proof (sweep_sound now (fun _ _ => true) (length (models r)) 0 (models r)) as Hs.
  pose proof (sweep_complete now (fun _ _ => true) (length (models r)) 0 (models r) ltac:(done)) as Hall.
  pose proof (sweep_count now (fun _ => true) (length (models r)) 0 (models r) ltac:(done)) as Hlen.
  destruct (sweep now (fun _ _ => true) (length (models r)) 0 (models r)) as [l ms'].
  destruct Hall as [-> Hall]. destruct Hs as (Hnd & _ & _ & Hs). fold ms in Hs |- *. simpl in Hlen.
  assert (zlen l <= 64) as Hl.
  { rewrite Hlen. etransitivity; [|exact Hc]. apply Z.eq_le_incl. clear.
    induction (models r) as [|m l IH]; simpl; [done|]. by rewrite IH, andb_true_r. }
  unfold zlen in Hl. destruct (scored_sorted ms l Hn ltac:(lia)) as (l' & -> & Hp & Hsort). cbn [mbind res_bind].
  set (f := fun i => match ms !! i with Some m => tier m >=? 1 | None => false end).
  assert (Hin : forall i, i ∈ List.filter f l' <-> routable now r i).
  { intros i. rewrite list_elem_of_In, filter_In, <- list_elem_of_In, Hp. unfold f, ms. rewrite list_lookup_fmap. split.
    - intros [Hi Hf]. apply Hs in Hi as (d & m & -> & Hm & _ & He & _). simpl in Hf. rewrite Hm in Hf. simpl in Hf.
      rewrite refreshed_tier in Hf. exists m. split_and!; try done. by apply Z.geb_le in Hf.
    - intros (m & Hm & He & Ht). split; [by apply (Hall i m)|]. rewrite Hm. simpl. rewrite refreshed_tier.
      by apply Z.geb_le. }
  rewrite bool_decide_eq_false_2; [|intros E; apply Hin in Hi0; rewrite E in Hi0; by apply elem_of_nil in Hi0].
  assert (length (List.filter f l') <= 64)%nat.
  { rewrite filter_length_le, Hp. lia. }
  simpl. exists (List.filter f l'). rewrite take_ge by done. split_and!; [done| |done|by apply filter_sorted].
  apply filter_NoDup. by rewrite Hp.
Qed.

(** With more than 64 eligible models the smart branch writes past the end of
    its array, whatever the prompt. *)
Theorem smart_routing_overflows prompt size name_size now world r :
  size <> 0 -> smart_routing r = true -> 64 < countb (eligible now) (models r) ->
  prompt_router_route prompt None size name_size now world r = Fault OutOfBounds.
Proof.
  intros Hsize Hsmart Hc. unfold prompt_router_route, route_candidates, smart_candidates.
  rewrite Hsmart. destruct (Z.eqb_spec size 0); [done|].
  pose proof (sweep_count now (fun _ => true) (length (models r)) 0 (models r) ltac:(done)) as Hlen.
  destruct (sweep now (fun _ _ => true) (length (models r)) 0 (models r)) as [l ms]. simpl in Hlen.
  assert (64 < zlen l) as Hl.
  { rewrite Hlen. eapply Z.lt_le_trans; [exact Hc|]. apply Z.eq_le_incl. clear.
    induction (models r) as [|m l IH]; simpl; [done|]. by rewrite IH, andb_true_r. }
  unfold zlen in Hl. unfold scored. destruct (Nat.leb_spec (length l) 64); [lia|done].
Qed.

(** What [prompt_router_route_with_options] asks of a model. *)
Definition meets_options (now min_tier max_cost_cents : Z) (m : AIModel) : Prop :=
  eligible now m = true /\ min_tier <= tier m /\ affordable max_cost_cents m = true.

Lemma meets_options_fits now min_tier max_cost_cents m :
  eligible now m = true ->
  (tier (refreshed now m) >=? min_tier) && affordable max_cost_cents (refreshed now m) = true ->
  meets_options now min_tier max_cost_cents m.
Proof.
  unfold affordable. rewrite refreshed_tier, refreshed_cost.
  intros He [Ht%Z.geb_le Ha]%andb_true_iff. done.
Qed.

Lemma meets_options_refreshed now min_tier max_cost_cents m :
  meets_options now min_tier max_cost_cents (refreshed now m) -> meets_options now min_tier max_cost_cents m.
Proof.
  unfold meets_options, affordable. by rewrite eligible_refreshed, refreshed_tier, refreshed_cost.
Qed.

Lemma eligible_at_lookup now i ms m :
  ms !! i = Some m -> eligible_at now i ms = (eligible now m, <[i := refreshed now m]> ms).
Proof. unfold eligible_at, eligible, refreshed. intros ->. by destruct (provider_is_eligible now m). Qed.

(** A sweep over a table in which some models were already looked at. *)
Lemma swept_options now min_tier max_cost_cents (ms0 ms : list AIModel) room j :
  (forall d m, ms !! d = Some m -> exists m0, ms0 !! d = Some m0 /\ (m = m0 \/ m = refreshed now m0)) ->
  j ∈ (sweep now (fun _ m => (tier m >=? min_tier) && affordable max_cost_cents m) room 0 ms).1 ->
  exists m, ms0 !! j = Some m /\ meets_options now min_tier max_cost_cents m.
Proof.
  intros Hms Hj.
  pose proof (sweep_sound now (fun _ m => (tier m >=? min_tier) && affordable max_cost_cents m) room 0 ms) as Hs.
  destruct (sweep _ _ room 0 ms) as [l ms']. destruct Hs as (_ & _ & _ & Hs).
  apply Hs in Hj as (d & m & -> & Hm & _ & He & Hok). simpl.
  apply meets_options_fits in Hok; [|done].
  destruct (Hms d m Hm) as (m0 & Hm0 & [->| ->]); exists m0; (split; [done|]); [done|].
  by apply meets_options_refreshed.
Qed.

(** Every model that [prompt_router_route_with_options] may call is eligible,
    of the asked tier or better and, when there is a budget, one whose recorded
    cost is within it; none is called twice. *)
Theorem options_respected now model_name min_tier max_cost_cents r cs ms :
  option_candidates now model_name min_tier max_cost_cents r = Ok (cs, ms) ->
  NoDup cs /\ (length cs <= 64)%nat
  /\ forall i, i ∈ cs ->
       exists m, models r !! i = Some m /\ meets_options now min_tier max_cost_cents m.
Proof.
  unfold option_candidates. set (fits := fun m : AIModel => (tier m >=? min_tier) && affordable max_cost_cents m).
  intros H.
  assert (Hrest : forall ms1,
    (forall d m, ms1 !! d = Some m -> exists m0, models r !! d = Some m0 /\ (m = m0 \/ m = refreshed now m0)) ->
    (let '(l, ms) := sweep now (fun _ m => fits m) (length ms1) 0 ms1 in
     l ← scored ms l; Ok (take 64 l, ms)) = Ok (cs, ms) ->
    NoDup cs /\ (length cs <= 64)%nat
    /\ forall i, i ∈ cs -> exists m, models r !! i = Some m /\ meets_options now min_tier max_cost_cents m).
  { intros ms1 Hms1 E. pose proof (swept_options now min_tier max_cost_cents (models r) ms1 (length ms1)) as Hopt.
    fold fits in Hopt.
    pose proof (sweep_sound now (fun _ m => fits m) (length ms1) 0 ms1) as Hnd.
    destruct (sweep _ _ (length ms1) 0 ms1) as [l ms']. destruct Hnd as (Hnd & _). apply bind_Ok in E as (l' & [Hp Hl]%scored_ok & [= <- <-]).
    split_and!.
    - apply take_NoDup. by rewrite Hp.
    - rewrite length_take. lia.
    - intros i Hi%elem_of_take_in. rewrite Hp in Hi. by apply (Hopt i Hms1 Hi). }
  assert (Hsame : forall d m, models r !! d = Some m ->
    exists m0, models r !! d = Some m0 /\ (m = m0 \/ m = refreshed now m0)) by eauto.
  destruct model_name as [[|c n]|]; [by apply (Hrest (models r))| |by apply (Hrest (models r))].
  destruct (find_model (c :: n) r) as [i|] eqn:Ef; [|by apply (Hrest (models r))].
  unfold find_model in Ef. apply find_index_Some in Ef as (m & Hm & _ & _).
  rewrite (eligible_at_lookup now i _ m Hm) in H.
  rewrite list_lookup_insert_eq in H by (by eapply lookup_lt_Some).
  change ((tier (refreshed now m) >=? min_tier) && affordable max_cost_cents (refreshed now m))
    with (fits (refreshed now m)) in H.
  destruct (eligible now m && fits (refreshed now m)) eqn:Eb.
  - injection H as <- <-. apply andb_true_iff in Eb as [He Hf].
    split_and!; [repeat constructor; by intros ?%elem_of_nil|simpl; lia|].
    intros j ->%list_elem_of_singleton. exists m. split; [done|]. by apply meets_options_fits.
  - apply (Hrest (<[i := refreshed now m]> (models r))); [|done]. intros d x Hx.
    destruct (decide (d = i)) as [->|].
    + rewrite list_lookup_insert_eq in Hx by (by eapply lookup_lt_Some). injection Hx as <-. eauto.
    + rewrite list_lookup_insert_ne in Hx by done. eauto.
Qed.

Lemma sweep_NoDup now ok room i ms : NoDup (sweep now ok room i ms).1.
Proof. pose proof (sweep_sound now ok room i ms) as H. destruct (sweep now ok room i ms). apply H. Qed.

Lemma smart_candidates_NoDup now r cs ms : smart_candidates now r = Ok (cs, ms) -> NoDup cs.
Proof.
  unfold smart_candidates. pose proof (sweep_NoDup now (fun _ _ => true) (length (models r)) 0 (models r)) as Hnd.
  destruct (sweep _ _ (length (models r)) 0 (models r)) as [l ms1]. simpl in Hnd.
  intros (l' & [Hp _]%scored_ok & H)%bind_Ok. rewrite <- Hp in Hnd.
  destruct (negb _) in H; [injection H as <- <-; by apply take_NoDup, filter_NoDup|].
  pose proof (sweep_NoDup now (fun _ _ => true) 64 0 ms1) as Hnd2.
  destruct (sweep _ _ 64 0 ms1) as [l2 ms2]. simpl in Hnd2.
  destruct (negb _) in H; [by injection H as <- <-|].
  apply bind_Ok in H as ([i|] & _ & [= <- <-]); [repeat constructor; by intros ?%elem_of_nil|].
  case_bool_decide; [|by apply take_NoDup, filter_NoDup, NoDup_seq].
  destruct ms2; simpl; repeat constructor. by intros ?%elem_of_nil.
Qed.

Lemma route_candidates_NoDup now model_name r cs ms :
  route_candidates now model_name r = Ok (cs, ms) -> NoDup cs.
Proof.
  assert (H1 : forall i : nat, NoDup [i]) by (repeat constructor; by intros ?%elem_of_nil).
  assert (Hrest : (if smart_routing r then smart_candidates now r
      else d ← default_index r (models r);
           Ok (match d with Some i => [i] | None => first_model (models r) end, models r)) = Ok (cs, ms)
      -> NoDup cs).
  { destruct (smart_routing r); [apply smart_candidates_NoDup|].
    intros ([i|] & _ & [= <- <-])%bind_Ok; [done|]. unfold first_model. csplit; [constructor|done]. }
  unfold route_candidates. destruct model_name as [[|c n]|]; [done| |done].
  intros [= H]. unfold named_candidates in H. destruct (find_model (c :: n) r) as [i|]; [|injection H as <- <-; constructor].
  destruct (eligible_at now i (models r)) as [b ms1]. destruct (eligible_at now i ms1) as [[] ms2];
    [by injection H as <- <-|].
  pose proof (sweep_sound now (fun j _ => negb (j =? i)%nat) 63 0 ms2) as Hs.
  destruct (sweep _ _ 63 0 ms2) as [l ms3]. destruct Hs as (Hnd & _ & _ & Hs). injection H as <- <-.
  constructor; [|done]. intros (d & m & E & _ & _ & _ & Hi)%Hs. simpl in *. subst. by rewrite Nat.eqb_refl in Hi.
Qed.

(** The [k]-th call of a route fails, or succeeds, on the model at [i]. *)
Definition call_fails (prompt : list Z) (size now : Z) (world : nat -> net) (ms : list AIModel) (k i : nat) : Prop :=
  exists m code text e m' obs,
    ms !! i = Some m /\ send_to_model prompt size now (world k) m = Ok (code, text, e, m', obs) /\ code <> 0.

Definition call_succeeds (prompt : list Z) (size now : Z) (world : nat -> net) (ms : list AIModel) (k i : nat)
    (response : list Z) (m' : AIModel) : Prop :=
  exists m e obs, ms !! i = Some m /\ send_to_model prompt size now (world k) m = Ok (0, response, e, m', obs).

Lemma try_candidates_spec prompt size now world cs : forall k ms o ms',
  NoDup cs -> try_candidates prompt size now world k cs ms = Ok (o, ms') ->
  match o with
  | None => forall j i, cs !! j = Some i -> call_fails prompt size now world ms (k + j) i
  | Some (response, n) =>
      exists j i m',
        cs !! j = Some i /\ call_succeeds prompt size now world ms (k + j) i response m' /\ n = name m'
        /\ (forall j' i', (j' < j)%nat -> cs !! j' = Some i' -> call_fails prompt size now world ms (k + j') i')
        /\ ms' !! i = Some m'
        /\ forall i', i' ∉ take (S j) cs -> ms' !! i' = ms !! i'
  end.
Proof.
  induction cs as [|i cs IH]; intros k ms o ms' Hnd E.
  { injection E as <- <-. intros j i Hi. by rewrite lookup_nil in Hi. }
  simpl in E. destruct (ms !! i) as [m|] eqn:Hm; [|done].
  apply bind_Ok in E as ([[[[ret response] e] m'] obs] & Es & E).
  apply NoDup_cons in Hnd as [Hi Hnd].
  destruct (Z.eqb_spec ret 0) as [->|Hret].
  - injection E as <- <-. exists 0%nat, i, m'. split_and!; [done| |done|lia| |].
    + rewrite Nat.add_0_r. by exists m, e, obs.
    + apply list_lookup_insert_eq. by eapply lookup_lt_Some.
    + simpl. intros i' Hi'. apply list_lookup_insert_ne. intros ->. apply Hi'. apply list_elem_of_here.
  - assert (Hfail : call_fails prompt size now world ms (k + 0) i).
    { rewrite Nat.add_0_r. by exists m, ret, response, e, m', obs. }
    assert (Hback : forall j i', cs !! j = Some i' -> (<[i := m']> ms) !! i' = ms !! i').
    { intros j i' Hj. apply list_lookup_insert_ne. intros ->. apply Hi. by eapply list_elem_of_lookup_2. }
    apply IH in E; [|done]. destruct o as [[answer n]|].
    + destruct E as (j & i' & m2 & Hj & Hok & -> & Hbefore & Hend & Hsame).
      exists (S j), i', m2. rewrite Nat.add_succ_r. split_and!; [done| |done| |done|].
      * destruct Hok as (x & e' & obs' & Hx & ?). rewrite (Hback j) in Hx by done. by exists x, e', obs'.
      * intros [|j'] i2 Hlt Hi2; [by injection Hi2 as <-|]. rewrite Nat.add_succ_r.
        destruct (Hbefore j' i2 ltac:(lia) Hi2) as (x & c' & t' & e' & x' & o' & Hx & ?).
        rewrite (Hback j') in Hx by done. by exists x, c', t', e', x', o'.
      * intros i2 Hi2. rewrite Hsame by (intros H; apply Hi2; simpl; by apply list_elem_of_further).
        apply list_lookup_insert_ne. intros ->. apply Hi2. simpl. apply list_elem_of_here.
    + intros [|j] i' Hj; [by injection Hj as <-|]. rewrite Nat.add_succ_r.
      destruct (E j i' Hj) as (x & c' & t' & e' & x' & o' & Hx & ?).
      rewrite (Hback j) in Hx by done. by exists x, c', t', e', x', o'.
Qed.

(** C25: a route answers with the first of its candidates whose call succeeds,
    after a failed call to each one before it, and names that model; the models
    after it are not touched.  It fails, with an error text, exactly when the
    calls to all the candidates fail. *)
Theorem route_first_success prompt model_name size name_size now world r ret response actual r' :
  size <> 0 ->
  prompt_router_route prompt model_name size name_size now world r = Ok (ret, response, actual, r') ->
  exists cs ms,
    route_candidates now model_name r = Ok (cs, ms) /\
    ((ret = 0 /\
      exists k i m', cs !! k = Some i /\ call_succeeds prompt size now world ms k i response m'
        /\ actual = into name_size (name m')
        /\ (forall j i', (j < k)%nat -> cs !! j = Some i' -> call_fails prompt size now world ms j i')
        /\ models r' !! i = Some m'
        /\ forall i', i' ∉ take (S k) cs -> models r' !! i' = ms !! i')
     \/ (ret = -1 /\ actual = []
         /\ response = into size (qlit "{'error': 'All AI models failed to process request'}")
         /\ forall k i, cs !! k = Some i -> call_fails prompt size now world ms k i)).
Proof.
  intros Hsize. unfold prompt_router_route. destruct (Z.eqb_spec size 0); [done|].
  intros ([cs ms] & Hc & H)%bind_Ok. exists cs, ms. split; [done|].
  apply bind_Ok in H as ([o ms'] & Ht & H). injection H as H.
  apply route_candidates_NoDup in Hc. apply try_candidates_spec in Ht; [|done].
  destruct o as [[text nm]|]; simpl in H; injection H as <- <- <- <-.
  - left. split; [done|]. destruct Ht as (j & i & m' & ? & ? & -> & ? & ? & ?). by exists j, i, m'.
  - right. split_and!; done.
Qed.

(** The outcome of a call changes the health of a model, not its name. *)
Lemma update_model_health_name success error now m : name (update_model_health success error now m) = name m.
Proof.
  unfold update_model_health, record_success, close_circuit, record_failure, count_failure, quarantine.
  repeat csplit; done.
Qed.

(** But an answer of status 400 or more is a success: when the transfer itself
    works, the provider's error body is the answer of the route, and no other
    model is tried. *)
Theorem provider_error_is_final prompt model_name size name_size now world r i cs ms m text :
  size <> 0 -> route_candidates now model_name r = Ok (i :: cs, ms) -> ms !! i = Some m ->
  gate now m = None -> curl_ok (world 0%nat) = true -> perform_all m (world 0%nat) = CURLE_OK ->
  400 <= http_code (world 0%nat) -> body (world 0%nat) = Some text ->
  exists r',
    prompt_router_route prompt model_name size name_size now world r
    = Ok (0, into size (cstring text), into name_size (name m), r')
    /\ forall j, j <> i -> models r' !! j = ms !! j.
Proof.
  intros Hsize Hc Hm Hg Hcurl Hp Hcode Hb.
  unfold prompt_router_route. destruct (Z.eqb_spec size 0); [done|]. rewrite Hc. cbn [mbind res_bind try_candidates].
  rewrite Hm. unfold send_to_model. destruct (Z.eqb_spec size 0); [done|]. rewrite Hg, Hcurl, Hp. cbn [negb].
  unfold finish_call. rewrite bool_decide_eq_false_2 by (by intros []).
  destruct (Z.geb_spec (http_code (world 0%nat)) 400); [|lia].
  unfold body_string. rewrite Hb. cbn [mbind res_bind].
  destruct (failed_call _ now (latency_us (world 0%nat)) (record_latency (latency_us (world 0%nat)) m)) as [m' obs] eqn:Ef.
  assert (name m' = name m) as <-.
  { unfold failed_call in Ef. injection Ef as <- _.
    apply (update_model_health_name false _ now (count_error (record_latency _ m))). }
  simpl. eexists. split; [done|]. intros j Hj. simpl. by apply list_lookup_insert_ne.
Qed.

(** Nor do the tests before a call stop a model that is disabled or has no
    key: it is neither eligible nor usable, yet it is called. *)
Theorem disabled_model_is_called now m :
  state (health m) = MODEL_STATE_DISABLED \/ state (health m) = MODEL_STATE_MISSING_KEY ->
  circuit_open (health m) = false -> quarantined_until (health m) <= now ->
  eligible now m = false /\ is_model_usable now m = false /\ gate now m = None.
Proof.
  intros Hs Hc Hq. unfold eligible, provider_is_eligible, gate, is_model_usable, in_state.
  rewrite Hc. destruct (Z.gtb_spec (quarantined_until (health m)) now); [lia|].
  by destruct Hs as [-> | ->].
Qed.

(** ** Witnesses *)

Definition renamed (n : list Z) (m : AIModel) : AIModel :=
  mkAIModel n (api_endpoint m) (api_key_env m) (provider m) (tier m) (provider_type m)
    (max_tokens m) (temperature m) (is_available m) (max_retries m) (total_latency_us m) (total_calls m)
    (last_latency_us m) (min_latency_us m) (max_latency_us m) (last_health_check m) (health_ok m)
    (health m) (caps m) (account m) (cost_account m).

Definition slow : AIModel := record_latency 9000000 (renamed (lit "slow") demo_model).
Definition quick : AIModel := record_latency 1000 (renamed (lit "quick") demo_model).
Definition disabled : AIModel := on_health (set_state MODEL_STATE_DISABLED) (renamed (lit "off") demo_model).

Definition demo_router : PromptRouter := mkPromptRouter [slow; disabled; quick] 64 (Some (lit "slow")) true.
Definition crowd : PromptRouter := mkPromptRouter (replicate 65 quick) 128 (Some (lit "slow")) true.

(** The first call cannot connect, the others are answered. *)
Definition unreachable : net :=
  mkNet (fun _ => (CURLE_COULDNT_CONNECT, 0)) None 0 500 (lit "Couldn't connect to server") true.
Definition answered (code : Z) (text : list Z) : net :=
  mkNet (fun _ => (CURLE_OK, code)) (Some text) code 700 [] true.
Definition demo_world (k : nat) : net :=
  match k with O => unreachable | _ => answered 200 (qlit "{'content': 'hi'}") end.
Definition refusing (k : nat) : net := answered 500 (qlit "{'error': 'overloaded'}").

Lemma smart_routing_order_witness :
  exists cs, smart_candidates 100 demo_router = Ok (cs, map (refreshed 100) (models demo_router))
             /\ (2%nat ∈ cs <-> routable 100 demo_router 2) /\ NoDup cs.
Proof.
  destruct (smart_routing_order 100 demo_router) as (cs & H & H0 & Hin & _).
  - repeat constructor; vm_compute; discriminate.
  - vm_compute. discriminate.
  - exists 0%nat, slow. split_and!; vm_compute; done.
  - exists cs. exact (conj H (conj (Hin 2%nat) H0)).
Defined.

Example smart_routing_quickest_first :
  fst <$> smart_candidates 100 demo_router = Ok [2%nat; 0%nat].
Proof. vm_compute. reflexivity. Qed.

Lemma smart_routing_overflows_witness :
  prompt_router_route (lit "hello") None 4096 64 100 demo_world crowd = Fault OutOfBounds.
Proof. apply (smart_routing_overflows (lit "hello") 4096 64 100 demo_world crowd); [lia|reflexivity|vm_compute; reflexivity]. Defined.

Lemma options_respected_witness :
  NoDup [2%nat; 0%nat] /\ meets_options 100 2 50 quick.
Proof.
  destruct (options_respected 100 (Some (lit "off")) 2 50 demo_router [2%nat; 0%nat] (models demo_router))
    as (Hnd & _ & Hin); [vm_compute; reflexivity|].
  split; [exact Hnd|]. destruct (Hin 2%nat) as (m & Hm & Hopt); [apply list_elem_of_here|].
  by injection Hm as <-.
Defined.

Definition return_code (s : res sent) : option Z :=
  match s with Ok (ret, _, _, _, _) => Some ret | Fault _ => None end.

Lemma route_first_success_witness :
  exists response m', call_succeeds (lit "hello") 4096 100 demo_world (models demo_router) 1 0 response m'
    /\ call_fails (lit "hello") 4096 100 demo_world (models demo_router) 0 2.
Proof.
  assert (E : exists r', prompt_router_route (lit "hello") None 4096 64 100 demo_world demo_router
                         = Ok (0, lit "hi", lit "slow", r')) by (vm_compute; eexists; reflexivity).
  destruct E as [r' E].
  destruct (route_first_success (lit "hello") None 4096 64 100 demo_world demo_router 0 (lit "hi") (lit "slow") r'
              ltac:(lia) E) as (cs & ms & Hc & [(_ & k & i & m' & Hk & Hok & Ha & Hf & _)|(? & _)]); [|done].
  assert (route_candidates 100 None demo_router = Ok ([2%nat; 0%nat], models demo_router)) as Hc' by (vm_compute; reflexivity).
  rewrite Hc' in Hc. injection Hc as <- <-.
  destruct k as [|[|k]]; [injection Hk as <-|injection Hk as <-|destruct k; discriminate Hk].
  - destruct Hok as (m & e & obs & Hm & Hs). injection Hm as <-.
    assert (E0 : return_code (send_to_model (lit "hello") 4096 100 (demo_world 0) quick) = Some (-1))
      by (vm_compute; reflexivity).
    rewrite Hs in E0. discriminate E0.
  - exists (lit "hi"), m'. split; [exact Hok|]. apply (Hf 0%nat); [lia|reflexivity].
Defined.

Lemma provider_error_is_final_witness :
  exists r', prompt_router_route (lit "hello") None 4096 64 100 refusing demo_router
             = Ok (0, qlit "{'error': 'overloaded'}", lit "quick", r').
Proof.
  destruct (provider_error_is_final (lit "hello") None 4096 64 100 refusing demo_router 2 [0%nat]
              (models demo_router) quick (qlit "{'error': 'overloaded'}")) as (r' & E & _);
    [lia|vm_compute; reflexivity..|exact (fun H => match H with eq_refl => I end)|vm_compute; reflexivity|].
  exists r'. exact E.
Defined.

Lemma disabled_model_is_called_witness : gate 100 disabled = None.
Proof. apply (disabled_model_is_called 100 disabled); [left; reflexivity|reflexivity|vm_compute; discriminate]. Defined.
