(* ===== verification/Observability.v ===== *)
(** * Observability: src/observability.c

    The counters of the server and the table of providers that the prompt
    router reports its calls to.  The counters are atomic and the table is
    behind a mutex, so that each operation is one step; the clock is an
    argument. *)

From S2P Require Import Prelude JsonText ModelHealth PromptRouter.

(** ** Data *)

Record ProviderStats := mkProviderStats {
  provider_name : list Z;
  ps_total_calls : Z;
  ps_total_latency_us : Z;
  ps_min_latency_us : Z;
  ps_max_latency_us : Z;
  ps_prompt_tokens : Z;
  ps_completion_tokens : Z;
  ps_errors : Z;
  ps_last_call_time : Z
}.

Record ErrorBreakdown := mkErrorBreakdown {
  api_failures : Z; timeouts : Z; rate_limits : Z; decommissioned : Z;
  auth_errors : Z; invalid_model : Z; circuit_opens : Z; quarantined : Z
}.

Record obs_state := mkObsState {
  total_requests : Z;
  total_responses : Z;
  bytes_sent : Z;
  bytes_received : Z;
  active_connections : Z;
  total_errors : Z;
  total_ai_calls : Z;
  total_prompt_tokens : Z;
  total_completion_tokens : Z;
  providers : list ProviderStats;
  error_breakdown : ErrorBreakdown;
  start_time : Z;
  initialized : bool
}.

Definition MAX_PROVIDERS : Z := 64.
Definition UINT64_MAX : Z := 2 ^ 64 - 1.

Definition set_total_errors (v : Z) (s : obs_state) : obs_state :=
  mkObsState (total_requests s) (total_responses s) (bytes_sent s) (bytes_received s)
    (active_connections s) v (total_ai_calls s) (total_prompt_tokens s) (total_completion_tokens s)
    (providers s) (error_breakdown s) (start_time s) (initialized s).
Definition set_error_breakdown (v : ErrorBreakdown) (s : obs_state) : obs_state :=
  mkObsState (total_requests s) (total_responses s) (bytes_sent s) (bytes_received s)
    (active_connections s) (total_errors s) (total_ai_calls s) (total_prompt_tokens s)
    (total_completion_tokens s) (providers s) v (start_time s) (initialized s).
Definition set_providers (v : list ProviderStats) (s : obs_state) : obs_state :=
  mkObsState (total_requests s) (total_responses s) (bytes_sent s) (bytes_received s)
    (active_connections s) (total_errors s) (total_ai_calls s) (total_prompt_tokens s)
    (total_completion_tokens s) v (error_breakdown s) (start_time s) (initialized s).

(** ** Operations *)

Definition zero_state : obs_state :=
  mkObsState 0 0 0 0 0 0 0 0 0 [] (mkErrorBreakdown 0 0 0 0 0 0 0 0) 0 false.

Definition obs_init (now : Z) (s : obs_state) : obs_state :=
  if initialized s then s
  else mkObsState 0 0 0 0 0 0 0 0 0 [] (mkErrorBreakdown 0 0 0 0 0 0 0 0) now true.

Definition obs_record_error_type (error_code : AIErrorCode) (s : obs_state) : obs_state :=
  let '(mkErrorBreakdown a t r d u i c q) := error_breakdown s in
  match error_code with
  | AI_ERROR_API_FAILURE => set_error_breakdown (mkErrorBreakdown (u64 (a + 1)) t r d u i c q) s
  | AI_ERROR_TIMEOUT => set_error_breakdown (mkErrorBreakdown a (u64 (t + 1)) r d u i c q) s
  | AI_ERROR_RATE_LIMIT => set_error_breakdown (mkErrorBreakdown a t (u64 (r + 1)) d u i c q) s
  | AI_ERROR_DECOMMISSIONED => set_error_breakdown (mkErrorBreakdown a t r (u64 (d + 1)) u i c q) s
  | AI_ERROR_AUTH => set_error_breakdown (mkErrorBreakdown a t r d (u64 (u + 1)) i c q) s
  | AI_ERROR_INVALID_MODEL => set_error_breakdown (mkErrorBreakdown a t r d u (u64 (i + 1)) c q) s
  | AI_ERROR_QUARANTINED => set_error_breakdown (mkErrorBreakdown a t r d u i c (u64 (q + 1))) s
  | AI_ERROR_CIRCUIT_OPEN => set_error_breakdown (mkErrorBreakdown a t r d u i (u64 (c + 1)) q) s
  | AI_ERROR_NONE | AI_ERROR_MEMORY => s
  end.

Definition has_name (n : list Z) (p : ProviderStats) : bool := streq (provider_name p) n.

(** A new row: [strncpy] into a zeroed field of 64 bytes. *)
Definition new_provider (n : list Z) : ProviderStats :=
  mkProviderStats (strncpy 63 n) 0 0 UINT64_MAX 0 0 0 0 0.

Definition count_call (latency prompt completion : Z) (error : bool) (now : Z) (p : ProviderStats) : ProviderStats :=
  mkProviderStats (provider_name p) (u64 (ps_total_calls p + 1)) (u64 (ps_total_latency_us p + latency))
    (if latency <? ps_min_latency_us p then latency else ps_min_latency_us p)
    (if latency >? ps_max_latency_us p then latency else ps_max_latency_us p)
    (u64 (ps_prompt_tokens p + prompt)) (u64 (ps_completion_tokens p + completion))
    (if error then u64 (ps_errors p + 1) else ps_errors p) (u64 now).

(** The row of the provider, or a new one while there is room. *)
Definition on_provider (n : list Z) (f : ProviderStats -> ProviderStats) (ps : list ProviderStats)
  : list ProviderStats :=
  match find_index (has_name n) ps with
  | Some i => alter f i ps
  | None => if zlen ps <? MAX_PROVIDERS then ps ++ [f (new_provider n)] else ps
  end.

Definition obs_record_ai_call (provider model : option (list Z)) (latency_us prompt_tokens completion_tokens : Z)
    (error : bool) (error_code : AIErrorCode) (now : Z) (s : obs_state) : obs_state :=
  let s :=
    mkObsState (total_requests s) (total_responses s) (bytes_sent s) (bytes_received s)
      (active_connections s) (total_errors s) (u64 (total_ai_calls s + 1))
      (u64 (total_prompt_tokens s + prompt_tokens)) (u64 (total_completion_tokens s + completion_tokens))
      (providers s) (error_breakdown s) (start_time s) (initialized s) in
  let s :=
    if error then obs_record_error_type error_code (set_total_errors (u64 (total_errors s + 1)) s) else s in
  match provider, model with
  | Some n, _ | None, Some n =>
      set_providers
        (on_provider n (count_call latency_us prompt_tokens completion_tokens error now) (providers s)) s
  | None, None => s
  end.

Definition obs_record_request (status : Z) (error : bool) (s : obs_state) : obs_state :=
  mkObsState (u64 (total_requests s + 1)) (u64 (total_responses s + 1)) (bytes_sent s) (bytes_received s)
    (active_connections s)
    (if error || (status >=? 400) then u64 (total_errors s + 1) else total_errors s)
    (total_ai_calls s) (total_prompt_tokens s) (total_completion_tokens s) (providers s)
    (error_breakdown s) (start_time s) (initialized s).

(** A trace: the fields that its end reports. *)
Record RequestTrace := mkRequestTrace { request_id : list Z; status_code : Z; trace_error : bool }.

Definition obs_trace_start (id : option (list Z)) : RequestTrace :=
  mkRequestTrace (strncpy 31 (default [] id)) 0 false.

Definition obs_trace_end (t : option RequestTrace) (s : obs_state) : obs_state :=
  match t with None => s | Some t => obs_record_request (status_code t) (trace_error t) s end.

(** The metrics: the counters and the uptime. *)
Definition obs_get_metrics (now : Z) (s : obs_state) : list Z :=
  [total_requests s; total_responses s; bytes_sent s; bytes_received s; active_connections s;
   total_errors s; total_ai_calls s; now - start_time s].

Definition obs_get_error_breakdown (s : obs_state) : ErrorBreakdown := error_breakdown s.

Definition obs_get_provider_stats (provider : option (list Z)) (s : obs_state) : option ProviderStats :=
  n ← provider; i ← find_index (has_name n) (providers s); providers s !! i.

Definition obs_get_all_provider_stats (max : Z) (s : obs_state) : list ProviderStats :=
  take (Z.to_nat (if zlen (providers s) <? max then zlen (providers s) else max)) (providers s).

Definition obs_cleanup (s : obs_state) : obs_state :=
  mkObsState (total_requests s) (total_responses s) (bytes_sent s) (bytes_received s)
    (active_connections s) (total_errors s) (total_ai_calls s) (total_prompt_tokens s)
    (total_completion_tokens s) (providers s) (error_breakdown s) (start_time s) false.

(** What the prompt router reports, at a time. *)
Definition report (s : obs_state) (c : obs_call * Z) : obs_state :=
  let '(c, now) := c in
  obs_record_ai_call (Some (obs_provider c)) (Some (obs_model c)) (obs_latency c) (obs_in c) (obs_out c)
    (obs_error c) (obs_code c) now s.

(** [snprintf("%0<w>x")] of a number of at most [w] digits. *)
Fixpoint hex_padded (w : nat) (n : Z) : list Z :=
  match w with O => [] | S w' => hex_padded w' (n / 16) ++ [hex_digit (n mod 16)] end.

(** The counter is below 2^32: its upper half fits the four digits. *)
Definition obs_generate_request_id (sec nsec counter len : Z) : list Z * Z :=
  (take (Z.to_nat (len - 1))
     (hex_padded 8 (u32 (Z.lxor sec nsec)) ++ hex_padded 4 (u32 (Z.shiftr counter 16))
      ++ hex_padded 4 (Z.land counter 65535)),
   u64 (counter + 1)).

(** ** What the table promises *)

Definition from_provider (n : list Z) (c : obs_call * Z) : bool := streq (obs_provider c.1) n.

(** The calls to one provider, in order. *)
Definition calls_to (n : list Z) (cs : list (obs_call * Z)) : list (obs_call * Z) :=
  List.filter (from_provider n) cs.

Definition total (f : obs_call -> Z) (cs : list (obs_call * Z)) : Z := fold_right (fun c t => f c.1 + t) 0 cs.

(** A row that accounts for the calls [cs] of one provider. *)
Record accounts_for (n : list Z) (cs : list (obs_call * Z)) (p : ProviderStats) : Prop := {
  af_name : provider_name p = n;
  af_calls : ps_total_calls p = u64 (zlen cs);
  af_latency : ps_total_latency_us p = u64 (total obs_latency cs);
  af_min_le : Forall (fun c => ps_min_latency_us p <= obs_latency c.1) cs;
  af_min_in : Exists (fun c => ps_min_latency_us p = obs_latency c.1) cs;
  af_max_ge : Forall (fun c => obs_latency c.1 <= ps_max_latency_us p) cs;
  af_max_in : Exists (fun c => ps_max_latency_us p = obs_latency c.1) cs;
  af_prompt : ps_prompt_tokens p = u64 (total obs_in cs);
  af_completion : ps_completion_tokens p = u64 (total obs_out cs);
  af_errors : ps_errors p = u64 (countb (fun c => obs_error c.1) cs)
}.

(** A call with a latency of 64 bits to a provider whose name fits. *)
Definition reportable (c : obs_call * Z) : Prop :=
  0 <= obs_latency c.1 < UINT64_MAX /\ zlen (obs_provider c.1) <= 63.

Definition count_of (c : obs_call * Z) : ProviderStats -> ProviderStats :=
  count_call (obs_latency c.1) (obs_in c.1) (obs_out c.1) (obs_error c.1) c.2.

Lemma total_snoc f cs c : total f (cs ++ [c]) = total f cs + f c.1.
Proof. unfold total. induction cs as [|x cs IH]; simpl in *; lia. Qed.

Lemma countb_snoc {A} (p : A -> bool) l x : countb p (l ++ [x]) = countb p l + (if p x then 1 else 0).
Proof. induction l as [|y l IH]; simpl; [destruct (p x); lia|]. rewrite IH. lia. Qed.

Lemma accounts_first n c :
  reportable c -> zlen n <= 63 -> accounts_for n [c] (count_of c (new_provider n)).
Proof.
  intros [Hc _] Hn. unfold count_of, count_call, new_provider. simpl.
  destruct (Z.ltb_spec (obs_latency c.1) UINT64_MAX); [|lia].
  assert ((if obs_latency c.1 >? 0 then obs_latency c.1 else 0) = obs_latency c.1) as ->
    by (destruct (Z.gtb_spec (obs_latency c.1) 0); lia).
  constructor; simpl; rewrite ?Z.add_0_r; try done.
  - unfold strncpy. apply take_ge. unfold zlen in Hn. lia.
  - repeat constructor. lia.
  - by constructor.
  - repeat constructor. lia.
  - by constructor.
  - by destruct (obs_error c.1).
Qed.

Lemma accounts_next n cs c p :
  accounts_for n cs p -> accounts_for n (cs ++ [c]) (count_of c p).
Proof.
  intros []. unfold count_of, count_call. constructor; simpl; rewrite ?total_snoc, ?countb_snoc; try done.
  - by rewrite af_calls0, u64_idem_add, zlen_app.
  - by rewrite af_latency0, u64_idem_add.
  - apply Forall_app. destruct (Z.ltb_spec (obs_latency c.1) (ps_min_latency_us p));
      (split; [|repeat constructor; lia]); [|done].
    eapply Forall_impl; [exact af_min_le0|]. simpl. lia.
  - apply Exists_app. destruct (Z.ltb_spec (obs_latency c.1) (ps_min_latency_us p)); [right|left]; [by constructor|done].
  - apply Forall_app. destruct (Z.gtb_spec (obs_latency c.1) (ps_max_latency_us p));
      (split; [|repeat constructor; lia]); [|done].
    eapply Forall_impl; [exact af_max_ge0|]. simpl. lia.
  - apply Exists_app. destruct (Z.gtb_spec (obs_latency c.1) (ps_max_latency_us p)); [right|left]; [by constructor|done].
  - by rewrite af_prompt0, u64_idem_add.
  - by rewrite af_completion0, u64_idem_add.
  - rewrite af_errors0. destruct (obs_error c.1); [by rewrite u64_idem_add|by rewrite Z.add_0_r].
Qed.

(** ** Lemmas: the table *)

Lemma find_index_find {A} (p : A -> bool) (l : list A) : (i ← find_index p l; l !! i) = List.find p l.
Proof.
  induction l as [|x l IH]; simpl; [done|]. destruct (p x); [done|]. rewrite <- IH.
  by destruct (find_index p l).
Qed.

Lemma find_alter n n' f ps i :
  (forall p, provider_name (f p) = provider_name p) -> find_index (has_name n) ps = Some i ->
  List.find (has_name n') (alter f i ps)
  = if streq n' n then f <$> List.find (has_name n) ps else List.find (has_name n') ps.
Proof.
  intros Hf. revert i. induction ps as [|p ps IH]; intros i; simpl; [done|].
  destruct (has_name n p) eqn:Hp.
  - intros [= <-]. simpl. unfold has_name in *. rewrite Hf. apply streq_true in Hp as ->.
    destruct (streq n' n) eqn:E; [apply streq_true in E as ->; by rewrite streq_refl|].
    destruct (streq n n') eqn:E2; [|done]. apply streq_true in E2 as ->. by rewrite streq_refl in E.
  - destruct (find_index (has_name n) ps) as [k|] eqn:Ek; [|done]. intros [= <-]. cbn [alter list_alter List.find].
    rewrite IH by done. destruct (has_name n' p) eqn:Hp'; [|done].
    unfold has_name in *. apply streq_true in Hp' as <-. by rewrite Hp.
Qed.

Lemma find_snoc {A} (p : A -> bool) l x :
  List.find p (l ++ [x]) = match List.find p l with Some y => Some y | None => if p x then Some x else None end.
Proof. induction l as [|y l IH]; simpl; [done|]. by destruct (p y). Qed.

Lemma find_on_provider n n' f ps :
  (forall p, provider_name (f p) = provider_name p) -> zlen n <= 63 ->
  (find_index (has_name n) ps = None -> zlen ps < MAX_PROVIDERS) ->
  List.find (has_name n') (on_provider n f ps)
  = if streq n' n then Some (f (default (new_provider n) (List.find (has_name n) ps)))
    else List.find (has_name n') ps.
Proof.
  intros Hf Hn Hroom. unfold on_provider. destruct (find_index (has_name n) ps) as [i|] eqn:Ei.
  - rewrite (find_alter n) by done. destruct (streq n' n); [|done].
    rewrite <- find_index_find, Ei. simpl. apply find_index_Some in Ei as (x & -> & _). done.
  - destruct (Z.ltb_spec (zlen ps) MAX_PROVIDERS); [|by specialize (Hroom eq_refl); lia].
    rewrite find_snoc. unfold has_name at 2. rewrite Hf. simpl. unfold strncpy.
    rewrite take_ge by (unfold zlen in Hn; lia).
    assert (List.find (has_name n) ps = None) as E by (by rewrite <- find_index_find, Ei).
    destruct (streq n' n) eqn:E2.
    + apply streq_true in E2 as ->. by rewrite E, streq_refl.
    + destruct (List.find (has_name n') ps); [done|]. destruct (streq n n') eqn:E3; [|done].
      apply streq_true in E3 as ->. by rewrite streq_refl in E2.
Qed.

Lemma names_on_provider n f ps :
  (forall p, provider_name (f p) = provider_name p) -> zlen n <= 63 ->
  NoDup (map provider_name ps) ->
  NoDup (map provider_name (on_provider n f ps))
  /\ forall x, x ∈ map provider_name (on_provider n f ps) -> x = n \/ x ∈ map provider_name ps.
Proof.
  intros Hf Hn Hnd. unfold on_provider. destruct (find_index (has_name n) ps) as [i|] eqn:Ei.
  - replace (map provider_name (alter f i ps)) with (map provider_name ps); [by eauto|].
    symmetry. by apply fmap_alter_same.
  - destruct (zlen ps <? MAX_PROVIDERS); [|by eauto]. rewrite map_app. simpl. rewrite Hf. simpl. unfold strncpy.
    rewrite take_ge by (unfold zlen in Hn; lia). split.
    + apply NoDup_app. split_and!; [done| |repeat constructor; by intros ?%elem_of_nil].
      intros x Hx ->%list_elem_of_singleton. apply list_elem_of_fmap in Hx as (p & -> & Hp).
      rewrite find_index_None in Ei. rewrite Forall_forall in Ei. specialize (Ei p Hp). unfold has_name in Ei.
      by rewrite streq_refl in Ei.
    + intros x [?| ->%list_elem_of_singleton]%elem_of_app; [by right|by left].
Qed.

(** ** The invariant of the reports *)

(** Reporting an error type changes only the breakdown. *)
Lemma record_error_type_frame e s :
  exists b, obs_record_error_type e s = set_error_breakdown b s.
Proof.
  unfold obs_record_error_type. destruct (error_breakdown s) as [] eqn:E. destruct e; eauto;
    exists (error_breakdown s); by destruct s.
Qed.

Lemma report_frame s c :
  providers (report s c) = on_provider (obs_provider c.1) (count_of c) (providers s)
  /\ total_ai_calls (report s c) = u64 (total_ai_calls s + 1)
  /\ total_errors (report s c) = (if obs_error c.1 then u64 (total_errors s + 1) else total_errors s).
Proof.
  destruct c as [c now]. unfold report, obs_record_ai_call. destruct (obs_error c) eqn:He.
  - edestruct record_error_type_frame as [b Hb]. cbn [fst]. rewrite Hb. cbn. unfold count_of. cbn [fst snd].
    by rewrite He.
  - cbn. unfold count_of. cbn [fst snd]. by rewrite He.
Qed.

Record tracks (names : list (list Z)) (cs : list (obs_call * Z)) (s : obs_state) : Prop := {
  tr_nodup : NoDup (map provider_name (providers s));
  tr_names : forall x, x ∈ map provider_name (providers s) -> x ∈ names;
  tr_rows : forall n,
    match calls_to n cs with
    | [] => List.find (has_name n) (providers s) = None
    | _ => exists p, List.find (has_name n) (providers s) = Some p /\ accounts_for n (calls_to n cs) p
    end;
  tr_calls : total_ai_calls s = u64 (zlen cs);
  tr_errors : total_errors s = u64 (countb (fun c => obs_error c.1) cs)
}.

Lemma tracks_room names cs s n :
  tracks names cs s -> (length names <= 64)%nat -> n ∈ names ->
  find_index (has_name n) (providers s) = None -> zlen (providers s) < MAX_PROVIDERS.
Proof.
  intros T Hlen Hn Hf.
  assert (n ∉ map provider_name (providers s)) as Hnew.
  { intros (p & -> & Hp)%list_elem_of_fmap. rewrite find_index_None, Forall_forall in Hf.
    specialize (Hf p Hp). unfold has_name in Hf. by rewrite streq_refl in Hf. }
  assert (n :: map provider_name (providers s) ⊆+ names) as Hsub.
  { apply NoDup_submseteq; [constructor; [done|apply T]|].
    intros x [->|Hx]%elem_of_cons; [done|by eapply tr_names]. }
  apply submseteq_length in Hsub. cbn [length] in Hsub. rewrite length_map in Hsub.
  unfold zlen, MAX_PROVIDERS. lia.
Qed.

Lemma tracks_report names cs s c :
  tracks names cs s -> (length names <= 64)%nat -> reportable c -> obs_provider c.1 ∈ names ->
  tracks names (cs ++ [c]) (report s c).
Proof.
  intros T Hlen Hc Hin. destruct (report_frame s c) as (Hp & Ha & He).
  pose proof (names_on_provider (obs_provider c.1) (count_of c) (providers s) ltac:(done) ltac:(apply Hc)
                (tr_nodup _ _ _ T)) as [Hnd Hnames].
  constructor.
  - by rewrite Hp.
  - rewrite Hp. intros x [->|Hx]%Hnames; [done|]. by eapply tr_names.
  - intros n. rewrite Hp, find_on_provider by (done || apply Hc || by eapply tracks_room).
    unfold calls_to. rewrite List.filter_app. cbn [List.filter]. unfold from_provider at 2 4.
    pose proof (tr_rows _ _ _ T n) as Hrow. unfold calls_to in Hrow.
    destruct (streq n (obs_provider c.1)) eqn:E.
    + apply streq_true in E as ->. rewrite streq_refl.
      destruct (List.filter (from_provider (obs_provider c.1)) cs) as [|x l] eqn:El; simpl app.
      * rewrite Hrow. eexists. split; [done|]. apply accounts_first; [done|apply Hc].
      * destruct Hrow as (p & -> & Hacc). eexists. split; [done|]. by apply (accounts_next _ (x :: l)).
    + assert (streq (obs_provider c.1) n = false) as ->
        by (apply streq_false; apply streq_false in E; congruence).
      by rewrite app_nil_r.
  - rewrite Ha, (tr_calls _ _ _ T), u64_idem_add, zlen_app. done.
  - rewrite He, (tr_errors _ _ _ T), countb_snoc. destruct (obs_error c.1); [apply u64_idem_add|by rewrite Z.add_0_r].
Qed.

Lemma tracks_init names now : tracks names [] (obs_init now zero_state).
Proof. constructor; simpl; try done; [constructor|]. intros x Hx. by apply elem_of_nil in Hx. Qed.

Lemma tracks_reports names cs now :
  (length names <= 64)%nat -> Forall (fun c => reportable c /\ obs_provider c.1 ∈ names) cs ->
  tracks names cs (fold_left report cs (obs_init now zero_state)).
Proof.
  intros Hlen. induction cs as [|c cs IH] using rev_ind; intros Hall; [apply tracks_init|].
  apply Forall_app in Hall as [Hcs Hc]. inv Hc. rewrite fold_left_app.
  apply tracks_report; try done; [by apply IH|by destruct H1..].
Qed.

(** From [obs_init] on, for any sequence of reported calls to at most 64
    providers whose names fit in 63 bytes, the totals count every call and every
    error, and the row of each provider is exactly the account of its own calls:
    their number, latencies (sum, least and greatest), tokens and errors.  A
    provider that was not called has no row. *)
Theorem provider_accounts names cs now :
  (length names <= 64)%nat -> Forall (fun c => reportable c /\ obs_provider c.1 ∈ names) cs ->
  let s := fold_left report cs (obs_init now zero_state) in
  total_ai_calls s = u64 (zlen cs) /\ total_errors s = u64 (countb (fun c => obs_error c.1) cs)
  /\ forall n,
       match calls_to n cs with
       | [] => obs_get_provider_stats (Some n) s = None
       | mine => exists p, obs_get_provider_stats (Some n) s = Some p /\ accounts_for n mine p
       end.
Proof.
  intros Hlen Hall s. pose proof (tracks_reports names cs now Hlen Hall) as T. fold s in T.
  split_and!; [apply T..|]. intros n. unfold obs_get_provider_stats. cbn [mbind option_bind].
  rewrite find_index_find. pose proof (tr_rows _ _ _ T n) as Hrow. by destruct (calls_to n cs).
Qed.

(** ** Witnesses *)

Definition demo_call (provider : string) (latency : Z) (error : bool) : obs_call * Z :=
  (mkObsCall (lit provider) (lit "m") latency 5 7 error (if error then AI_ERROR_TIMEOUT else AI_ERROR_NONE), 100).

Definition demo_calls : list (obs_call * Z) :=
  [demo_call "groq" 900 false; demo_call "openai" 50 false; demo_call "groq" 300 true].

Lemma provider_accounts_witness :
  exists p, obs_get_provider_stats (Some (lit "groq")) (fold_left report demo_calls (obs_init 1 zero_state)) = Some p
            /\ accounts_for (lit "groq") (calls_to (lit "groq") demo_calls) p.
Proof.
  destruct (provider_accounts [lit "groq"; lit "openai"] demo_calls 1) as (_ & _ & H).
  - simpl. lia.
  - unfold reportable. repeat constructor; try (vm_compute; discriminate); try (vm_compute; reflexivity).
  - exact (H (lit "groq")).
Defined.
