(* ===== verification/RouteTable.v ===== *)
(** * Routes: the table of routes of src/router.c

    The hash table of routes, the matching of paths with parameters and the
    choice of a handler.  A handler is a value of any type; [crc32_asm]
    (src/asm/crc32.s) is a parameter, so that what is proved holds for every hash
    function.  The read-write lock makes each operation one step. *)

From S2P Require Import Prelude HttpParser.

(** ** Tokens *)

(** [strtok] with the delimiter "/": [s] is what is left of the buffer, and
    [full] says that the buffer was filled to its last byte by [strncpy], which
    then wrote no terminator: reading on from there reads a byte that nothing
    has written. *)
Definition at_end {A} (full : bool) (a : A) : res A := if full then Fault Uninitialised else Ok a.

Fixpoint skip_slashes (s : list Z) : list Z :=
  match s with
  | c :: s' => if c =? c_SLASH then skip_slashes s' else s
  | [] => []
  end.

Definition strtok (full : bool) (s : list Z) : res (option (list Z) * list Z) :=
  let s' := skip_slashes s in
  match s' with
  | [] => at_end full (None, [])
  | _ :: _ =>
      let t := until c_SLASH s' in
      match drop (length t) s' with
      | [] => at_end full (Some t, [])
      | _ :: rest => Ok (Some t, rest)
      end
  end.

(** ** Routes *)

Section Routes.
Context {H : Type}.

Record Route := mkRoute {
  path : list Z;
  method : HTTPMethod;
  handler : H;
  param_names : list (list Z)
}.

(** The buckets; [next] is the tail of a bucket. *)
Abbreviation RouteHashTable := (list (list Route)).

Definition HASH_TABLE_SIZE : Z := 256.
Definition MAX_ROUTE_PARAMS : nat := 8.

Definition method_matches (a b : HTTPMethod) : bool := bool_decide (a = b).

(** The loop of [route_matches_with_params].  [strtok] keeps one position for
    the whole program: after the second call with a buffer, both calls with NULL
    go on in that one, the request's. *)
Fixpoint match_tokens (fuel : nat) (full : bool) (route_token request_token : option (list Z)) (rest : list Z)
  : res bool :=
  match route_token, request_token, fuel with
  | Some a, Some b, S fuel' =>
      if negb (prefixb [c_COLON] a) && negb (streq a b) then Ok false
      else
        '(a, rest) ← strtok full rest;
        '(b, rest) ← strtok full rest;
        match_tokens fuel' full a b rest
  | a, b, _ => Ok (match a, b with None, None => true | _, _ => false end)
  end.

(** The buffers hold 256 bytes; each round takes at least one byte. *)
Definition route_matches_with_params (route_path request_path : list Z) : res bool :=
  let full p := 255 <=? zlen p in
  '(route_token, _) ← strtok (full route_path) (strncpy 255 route_path);
  '(request_token, rest) ← strtok (full request_path) (strncpy 255 request_path);
  match_tokens (S (length rest)) (full request_path) route_token request_token rest.

Section Table.
Context (crc32_asm : list Z -> Z).

Definition hash_string (s : list Z) : Z :=
  match s with [] => 0 | _ => u32 (crc32_asm s) mod HASH_TABLE_SIZE end.

Definition hash_table_init : RouteHashTable := replicate 256 [].

Definition hash_table_add (r : Route) (table : RouteHashTable) : RouteHashTable :=
  alter (cons r) (Z.to_nat (hash_string (path r))) table.

Definition is_route (p : list Z) (m : HTTPMethod) (r : Route) : bool :=
  streq (path r) p && method_matches (method r) m.

Definition hash_table_find (p : list Z) (m : HTTPMethod) (table : RouteHashTable) : option Route :=
  List.find (is_route p m) (default [] (table !! Z.to_nat (hash_string p))).

(** The first route of a bucket whose path matches with parameters. *)
Fixpoint find_in_chain (p : list Z) (m : HTTPMethod) (chain : list Route) : res (option Route) :=
  match chain with
  | [] => Ok None
  | r :: chain' =>
      if method_matches (method r) m then
        b ← route_matches_with_params (path r) p;
        if b : bool then Ok (Some r) else find_in_chain p m chain'
      else find_in_chain p m chain'
  end.

Fixpoint hash_table_find_with_params (p : list Z) (m : HTTPMethod) (table : RouteHashTable)
  : res (option Route) :=
  match table with
  | [] => Ok None
  | chain :: table' =>
      r ← find_in_chain p m chain;
      match r with Some r => Ok (Some r) | None => hash_table_find_with_params p m table' end
  end.

(** The names of the parameters, eight at most. *)
Fixpoint param_tokens (fuel : nat) (room : nat) (s : list Z) : list (list Z) :=
  match fuel, room with
  | S fuel', S room' =>
      match strtok false s with
      | Ok (Some t, rest) =>
          if prefixb [c_COLON] t then strncpy 31 (drop 1 t) :: param_tokens fuel' room' rest
          else param_tokens fuel' room rest
      | _ => []
      end
  | _, _ => []
  end.

Definition register_route (p : list Z) (m : HTTPMethod) (h : H) (malloc_ok : bool) (table : RouteHashTable)
  : Z * RouteHashTable :=
  if malloc_ok
  then (0, hash_table_add (mkRoute p m h (param_tokens (S (length p)) MAX_ROUTE_PARAMS p)) table)
  else (-1, table).

(** The routes that are freed, and the buckets without them. *)
Definition hash_table_free (table : RouteHashTable) : list Route * RouteHashTable :=
  (concat table, map (fun _ => []) table).

(** ** Lemmas: the table *)

Definition registered (l : list (list Z * HTTPMethod * H)) : RouteHashTable :=
  fold_left (fun t '(p, m, h) => (register_route p m h true t).2) l hash_table_init.

(** What was registered, the latest first. *)
Definition routes_of (l : list (list Z * HTTPMethod * H)) : list Route :=
  rev (map (fun '(p, m, h) => mkRoute p m h (param_tokens (S (length p)) MAX_ROUTE_PARAMS p)) l).

Lemma hash_string_range s : (Z.to_nat (hash_string s) < 256)%nat.
Proof.
  unfold hash_string, HASH_TABLE_SIZE. destruct s; [simpl; lia|].
  pose proof (Z.mod_pos_bound (u32 (crc32_asm (z :: s))) 256). lia.
Qed.

Lemma hash_table_add_lookup r (table : list (list Route)) i :
  hash_table_add r table !! i
  = (fun b => if (Z.to_nat (hash_string (path r)) =? i)%nat then r :: b else b) <$> table !! i.
Proof.
  unfold hash_table_add. destruct (Nat.eqb_spec (Z.to_nat (hash_string (path r))) i) as [->|Hne].
  - exact (list_lookup_alter_eq (cons r) table i).
  - etransitivity; [exact (list_lookup_alter_ne (cons r) table _ i Hne)|]. by destruct (table !! i).
Qed.

(** Each bucket holds the registered routes of its hash, in order. *)
Lemma registered_bucket l i :
  (i < 256)%nat ->
  registered l !! i = Some (List.filter (fun r => (Z.to_nat (hash_string (path r)) =? i)%nat) (routes_of l)).
Proof.
  intros Hi. induction l as [|[[p m] h] l IH] using rev_ind.
  { by apply lookup_replicate_2. }
  unfold registered, routes_of in *. rewrite fold_left_app, map_app, rev_app_distr. cbn [fold_left map rev app].
  unfold register_route at 1. cbn [snd]. rewrite hash_table_add_lookup, IH. cbn [path List.filter].
  by destruct (_ =? i)%nat.
Qed.

Lemma find_filter {A} (p q : A -> bool) l :
  (forall x, p x = true -> q x = true) -> List.find p (List.filter q l) = List.find p l.
Proof.
  intros Hpq. induction l as [|x l IH]; simpl; [done|].
  destruct (q x) eqn:Hq; simpl; [by rewrite IH|].
  destruct (p x) eqn:Hp; [|done]. apply Hpq in Hp. congruence.
Qed.

Lemma find_registered l p m :
  hash_table_find p m (registered l) = List.find (is_route p m) (routes_of l).
Proof.
  unfold hash_table_find. rewrite registered_bucket by apply hash_string_range. cbn [default from_option].
  apply find_filter. intros r [Hp _]%andb_true_iff. apply streq_true in Hp as ->. apply Nat.eqb_refl.
Qed.

Lemma concat_alter_cons (r : Route) (table : RouteHashTable) : forall i,
  (i < length table)%nat -> concat (alter (cons r) i table) ≡ₚ r :: concat table.
Proof.
  induction table as [|b table IH]; intros [|i] Hi; cbn in Hi; try lia; [done|].
  change (b ++ concat (alter (cons r) i table) ≡ₚ r :: b ++ concat table).
  rewrite (IH i) by lia. by rewrite Permutation_middle.
Qed.

Lemma registered_length l : length (registered l) = 256%nat.
Proof.
  induction l as [|[[p m] h] l IH] using rev_ind; [apply length_replicate|].
  unfold registered in *. rewrite fold_left_app. cbn [fold_left].
  unfold register_route, hash_table_add at 1. cbn [snd]. etransitivity; [|exact IH]. apply length_alter.
Qed.

(** What is freed is what was registered, each route once, and the table is again as
    [hash_table_init] left it. *)
Theorem free_balances l :
  (hash_table_free (registered l)).1 ≡ₚ routes_of l /\ (hash_table_free (registered l)).2 = hash_table_init.
Proof.
  split.
  - induction l as [|[[p m] h] l IH] using rev_ind; [done|]. pose proof (registered_length l) as Hl.
    unfold registered, routes_of, hash_table_free in *. rewrite fold_left_app, map_app, rev_app_distr. cbn [fold_left map rev app fst].
    unfold register_route at 1. cbn [snd]. unfold hash_table_add.
    etransitivity; [apply concat_alter_cons; rewrite Hl; apply hash_string_range|]. by constructor.
  - unfold hash_table_free, hash_table_init. cbn [snd]. rewrite <- (registered_length l).
    by induction (registered l) as [|b t IH]; cbn; [|rewrite IH].
Qed.

(** The hash table refines the list of registrations: whatever the hash
    function, a path and method are looked up as the latest registration of
    exactly that path and method, and nothing is found for others. *)
Theorem route_lookup_latest l p m :
  hash_table_find p m (registered l) = List.find (is_route p m) (routes_of l).
Proof. apply find_registered. Qed.
End Table.
End Routes.
Arguments Route : clear implicits.
Abbreviation RouteHashTable H := (list (list (Route H))).

(** ** Lemmas: parameters *)

(** A segment of a path. *)
Definition segment (t : list Z) : Prop := t <> [] /\ Forall (fun c => c <> c_SLASH) t.

Lemma until_segment t rest :
  Forall (fun c => c <> c_SLASH) t -> (rest = [] \/ exists r, rest = c_SLASH :: r) ->
  until c_SLASH (t ++ rest) = t.
Proof.
  intros Ht Hr. induction Ht as [|c t Hc _ IH]; simpl; [by destruct Hr as [->|[r ->]]|].
  destruct (Z.eqb_spec c c_SLASH); [done|]. by rewrite IH.
Qed.

Lemma strtok_segment t rest :
  segment t -> (rest = [] \/ exists r, rest = c_SLASH :: r) ->
  strtok false (c_SLASH :: t ++ rest) = Ok (Some t, drop 1 rest).
Proof.
  intros [Hne Ht] Hr. unfold strtok. cbn [skip_slashes]. rewrite Z.eqb_refl. cbv zeta.
  assert (skip_slashes (t ++ rest) = t ++ rest) as ->.
  { destruct t as [|c t]; [done|]. simpl. inv Ht. by destruct (Z.eqb_spec c c_SLASH). }
  rewrite until_segment, drop_app_length by done.
  destruct (t ++ rest) eqn:E; [by destruct t|]. by destruct rest.
Qed.

Lemma strtok_total s : exists t rest, strtok false s = Ok (t, rest).
Proof. unfold strtok, at_end. repeat csplit; eauto. Qed.

Lemma skip_slashes_segment t : segment t -> skip_slashes t = t.
Proof. intros [Hne Ht]. destruct t as [|c t]; [done|]. simpl. inv Ht. by destruct (Z.eqb_spec c c_SLASH). Qed.

Lemma strtok_segment_next t : segment t -> strtok false t = Ok (Some t, []).
Proof.
  intros Ht. pose proof (until_segment t [] (proj2 Ht) ltac:(by left)) as Hu. rewrite app_nil_r in Hu.
  unfold strtok. rewrite skip_slashes_segment by done. cbv zeta. rewrite Hu, drop_all.
  destruct Ht. by destruct t.
Qed.

Lemma strncpy_short (s : list Z) : zlen s < 255 -> strncpy 255 s = s.
Proof. unfold strncpy, zlen. intros Hs. apply take_ge. lia. Qed.

(** Because both loops of [strtok] go on in the request, only the first
    segment of a route is ever compared: a request of two segments matches no
    route at all, and a request of one segment matches every route that begins
    with it, however long. *)
Theorem params_match_first_segment_only a b tail route :
  segment a -> segment b -> (tail = [] \/ exists r, tail = c_SLASH :: r) ->
  zlen route < 255 -> zlen a + zlen b < 253 -> zlen a + zlen tail < 254 ->
  route_matches_with_params route (c_SLASH :: a ++ c_SLASH :: b) = Ok false
  /\ route_matches_with_params (c_SLASH :: a ++ tail) (c_SLASH :: a) = Ok true.
Proof.
  intros Ha Hb Htail Hroute Hab Hat. pose proof (zlen_nonneg tail). pose proof (zlen_nonneg b).
  assert (forall s : list Z, zlen s < 255 -> (255 <=? zlen s) = false) as Hfull by (intros; by apply Z.leb_gt).
  unfold route_matches_with_params. split.
  - assert (zlen (c_SLASH :: a ++ c_SLASH :: b) < 255) as Hlen by (rewrite zlen_cons, zlen_app, zlen_cons; lia).
    rewrite !Hfull, !strncpy_short by done. destruct (strtok_total route) as (t & r & ->). cbn [mbind res_bind].
    rewrite strtok_segment by eauto. cbn [mbind res_bind drop]. destruct t as [t|]; [|done].
    cbn [match_tokens]. destruct (negb _ && negb _); [done|].
    rewrite strtok_segment_next by done. cbn [mbind res_bind].
    change (strtok false []) with (Ok (@None (list Z), @nil Z)). cbn [mbind res_bind].
    by destruct (length (drop 0 b)).
  - assert (zlen (c_SLASH :: a ++ tail) < 255) as Hlen by (rewrite zlen_cons, zlen_app; lia).
    assert (zlen (c_SLASH :: a) < 255) as Hlen2 by (rewrite zlen_cons; lia).
    rewrite !Hfull, !strncpy_short by done. rewrite strtok_segment by done. cbn [mbind res_bind].
    pose proof (strtok_segment a [] Ha ltac:(by left)) as E. rewrite app_nil_r in E. rewrite E.
    cbn [mbind res_bind drop length match_tokens].
    rewrite streq_refl, andb_false_r. done.
Qed.

(** ** Witnesses *)

Lemma params_match_first_segment_only_witness :
  route_matches_with_params (lit "/users/:id") (lit "/users/42") = Ok false
  /\ route_matches_with_params (lit "/users/:id") (lit "/users") = Ok true.
Proof.
  apply (params_match_first_segment_only (lit "users") (lit "42") (lit "/:id") (lit "/users/:id"));
    try (vm_compute; reflexivity).
  - split; [discriminate|]. repeat constructor; discriminate.
  - split; [discriminate|]. repeat constructor; discriminate.
  - right. exists (lit ":id"). reflexivity.
Defined.
