(* ===== verification/Router.v ===== *)
(** * The HTTP router: responses, handlers and dispatch of src/router.c

    How a request becomes a response: the text of a response, the handlers -
    which call the cache, the prompt router and the metrics - and the choice of a
    handler.  The clock, the date text, the network and the answers of [malloc]
    (numbered in the order of the calls) are in an [env]. *)

From S2P Require Import Prelude Double HttpParser Cache JsonText Gateway ModelHealth PromptRouter Observability.
From S2P Require Import RouteTable.

(** ** Data *)

(** [None] is a null pointer. *)
Record HTTPRequest := mkHTTPRequest {
  req_method : HTTPMethod;
  req_path : option (list Z);
  req_body : option (list Z);
  body_length : Z
}.

(** [length] is the length of the data. *)
Record RouteResponse := mkRouteResponse {
  status_code : Z;
  status_message : option (list Z);
  data : option (list Z);
  is_streaming : bool
}.

Definition empty_response : RouteResponse := mkRouteResponse 0 None None false.

Inductive RouteError :=
| ROUTE_ERROR_NONE | ROUTE_ERROR_MEMORY | ROUTE_ERROR_INVALID_PARAM | ROUTE_ERROR_NOT_FOUND
| ROUTE_ERROR_INTERNAL.

#[export] Instance RouteError_eq_dec : EqDecision RouteError.
Proof. solve_decision. Defined.

Definition error_code (e : RouteError) : Z :=
  match e with
  | ROUTE_ERROR_NONE => 0 | ROUTE_ERROR_MEMORY => 1 | ROUTE_ERROR_INVALID_PARAM => 2
  | ROUTE_ERROR_NOT_FOUND => 3 | ROUTE_ERROR_INTERNAL => 4
  end.

Definition route_error_messages (e : RouteError) : list Z :=
  match e with
  | ROUTE_ERROR_NONE => lit "No error"
  | ROUTE_ERROR_MEMORY => lit "Memory allocation failed"
  | ROUTE_ERROR_INVALID_PARAM => lit "Invalid parameter"
  | ROUTE_ERROR_NOT_FOUND => lit "Route not found"
  | ROUTE_ERROR_INTERNAL => lit "Internal server error"
  end.

Record env := mkEnv {
  now : Z;
  date : list Z;
  calls : nat -> net;
  latency : Z;
  alloc : nat -> bool
}.

(** What the handlers read and change. *)
Record world := mkWorld {
  cache : Cache.Cache;
  router : PromptRouter.PromptRouter;
  metrics : obs_state;
  active : Z;
  not_found : RouteResponse;
  root : RouteResponse
}.

Definition set_cache (c : Cache.Cache) (w : world) : world :=
  mkWorld c (router w) (metrics w) (active w) (not_found w) (root w).
Definition set_router (r : PromptRouter.PromptRouter) (w : world) : world :=
  mkWorld (cache w) r (metrics w) (active w) (not_found w) (root w).

(** ** Text *)

(** What [json_escape_str] writes for one byte. *)
Definition escape_str_byte (c : Z) : list Z :=
  if c =? c_QUOTE then [c_BACKSLASH; c_QUOTE]
  else if c =? c_BACKSLASH then [c_BACKSLASH; c_BACKSLASH]
  else if c =? 8 then [c_BACKSLASH; 98]
  else if c =? 12 then [c_BACKSLASH; 102]
  else if c =? c_LF then [c_BACKSLASH; 110]
  else if c =? c_CR then [c_BACKSLASH; 114]
  else if c =? c_TAB then [c_BACKSLASH; 116]
  else if c <? 32 then [c_SP]
  else [c].

(** The buffer holds [2 * len + 1] bytes, the terminator included. *)
Definition json_escape_str (s : option (list Z)) (malloc_ok : bool) : res (option (list Z)) :=
  match s with
  | None => Ok (Some [])
  | Some s =>
      if negb malloc_ok then Ok None
      else
        let text := concat (map escape_str_byte s) in
        if zlen text + 1 <=? zlen s * 2 + 1 then Ok (Some text) else Fault OutOfBounds
  end.

Definition extract_json_value (json key : option (list Z)) (malloc_ok : bool) : option (list Z) :=
  match json, key with
  | Some json, Some key =>
      let search_key := take 127 ([c_QUOTE] ++ key ++ [c_QUOTE]) in
      match strstr json search_key with
      | None => None
      | Some k =>
          match skip_blank_colon (drop (k + length search_key) json) with
          | c :: v =>
              if c =? c_QUOTE then
                match strchr v c_QUOTE with
                | Some n => if malloc_ok then Some (take n v) else None
                | None => None
                end
              else None
          | [] => None
          end
      end
  | _, _ => None
  end.

(** ** Responses *)

Definition crlf : list Z := [c_CR; c_LF].

Definition response_headers (date content_type message : list Z) (status body_length : Z) : list Z :=
  (lit "HTTP/1.1 " ++ dec status ++ lit " " ++ message ++ crlf)
  ++ (lit "Date: " ++ date ++ crlf)
  ++ (lit "Server: AIONIC/1.0" ++ crlf)
  ++ (lit "Content-Type: " ++ content_type ++ crlf)
  ++ (lit "Content-Length: " ++ dec body_length ++ crlf)
  ++ (lit "Connection: keep-alive" ++ crlf)
  ++ (lit "Access-Control-Allow-Origin: *" ++ crlf ++ crlf).

Definition headers_size (date content_type : list Z) : Z := 128 + zlen date + zlen content_type + 32.

(** The [sprintf]s write the headers and a terminator, which the body then
    overwrites. *)
Definition create_http_response (date : list Z) (malloc_ok : bool) (body : option (list Z))
    (content_type : list Z) (status : Z) (message : list Z) (r : RouteResponse) : res (Z * RouteResponse) :=
  match body with
  | None => Ok (-1, r)
  | Some body =>
      if negb malloc_ok then Ok (-1, mkRouteResponse (status_code r) (status_message r) None (is_streaming r))
      else
        let headers := response_headers date content_type message status (zlen body) in
        if zlen headers + Z.max 1 (zlen body) <=? headers_size date content_type + zlen body
        then Ok (0, mkRouteResponse status (Some message) (Some (headers ++ body)) false)
        else Fault OutOfBounds
  end.

(** The data is freed with the rest. *)
Definition free_route_response (_ : RouteResponse) : RouteResponse := empty_response.

Definition application_json : list Z := lit "application/json".

Definition error_body (e : RouteError) (now : Z) : list Z :=
  take 255 (qlit "{'error': '" ++ route_error_messages e ++ qlit "', 'code': " ++ dec (error_code e)
            ++ qlit ", 'timestamp': " ++ dec now ++ lit "}").

(** [first] numbers the [malloc] of the body. *)
Definition create_error_response (e : env) (first : nat) (error : RouteError) (status : Z) (r : RouteResponse)
  : res (Z * RouteResponse) :=
  if negb (alloc e first) then Ok (error_code ROUTE_ERROR_MEMORY, r)
  else
    create_http_response (date e) (alloc e (S first)) (Some (error_body error (now e))) application_json
      status (route_error_messages error) r.

Definition copy_route_response (malloc_ok : bool) (source dest : RouteResponse) : Z * RouteResponse :=
  if malloc_ok
  then (0, mkRouteResponse (status_code source) (status_message source) (Some (default [] (data source)))
             (is_streaming source))
  else (-1, mkRouteResponse (status_code dest) (status_message dest) None (is_streaming dest)).

(** The result of a handler. *)
Definition handled : Type := Z * RouteResponse * world.

Definition reply (w : world) (m : res (Z * RouteResponse)) : res handled :=
  '(code, r) ← m; Ok (code, r, w).

(** ** The chat handler *)

Definition MAX_PROMPT_SIZE : Z := 16384.
Definition INITIAL_AI_BUF_SIZE : Z := 65536.

Definition chat_key (model prompt : list Z) : list Z := take 511 (lit "ai:" ++ model ++ [c_COLON] ++ prompt).

(** The C string in a local buffer of which [written] bytes have been written:
    without a zero among them the next bytes read are not initialised. *)
Definition local_string (written : list Z) : res (list Z) :=
  if existsb (Z.eqb 0) written then Ok (cstring written) else Fault Uninitialised.

Definition chat_json (answer model : list Z) (latency : Z) : list Z :=
  take (Z.to_nat (zlen answer + zlen model + 127))
    (qlit "{'response': '" ++ answer ++ qlit "', 'model': '" ++ model
     ++ qlit "', 'status': 'success', 'latency_us': " ++ dec latency ++ lit "}").

Definition d_0_85 : double := d_dec 85 2.
Definition OK_text : list Z := lit "OK".

Section Handlers.
Context (crc32_asm : list Z -> Z).

(** After the caches have missed. *)
Definition ask_model (e : env) (prompt : list Z) (model : option (list Z)) (cache_key : list Z) (w : world)
    (r : RouteResponse) : res handled :=
  if negb (alloc e 3) then reply w (create_error_response e 4 ROUTE_ERROR_MEMORY 500 r)
  else
    '(ret, ai_response, actual_model, router') ←
      prompt_router_route prompt model INITIAL_AI_BUF_SIZE 128 (now e) (calls e) (router w);
    let w := set_router router' w in
    let used_model := match actual_model with [] => default (lit "default") model | m => m end in
    if ret =? 0 then
      safe ← json_escape_str (Some ai_response) (alloc e 4);
      match safe with
      | None => reply w (create_error_response e 5 ROUTE_ERROR_MEMORY 500 r)
      | Some safe =>
          if negb (alloc e 5) then reply w (create_error_response e 6 ROUTE_ERROR_MEMORY 500 r)
          else
            let json_output := chat_json safe used_model (latency e) in
            '(status, r) ← create_http_response (date e) (alloc e 6) (Some json_output) application_json 200 OK_text r;
            '(_, c) ← cache_set crc32_asm (Some cache_key) (Some json_output) (zlen json_output) 300 (now e)
                        (alloc e 7) (alloc e 8) (cache w);
            '(_, c) ← cache_semantic_set crc32_asm (Some prompt) (Some used_model) (Some json_output)
                        (zlen json_output) 300 (now e) (alloc e 9) (alloc e 10) c;
            Ok (status, r, set_cache c w)
      end
    else
      reply w (create_http_response (date e) (alloc e 4) (Some (lit "AI Router Error: Failed to process request"))
                 application_json 502 (lit "Bad Gateway") r).

Definition answer_from_cache (e : env) (written : option (list Z)) (w : world) (r : RouteResponse) : res handled :=
  text ← local_string (default [] written);
  reply w (create_http_response (date e) (alloc e 3) (Some text) application_json 200 OK_text r).

Definition handle_chat_request (e : env) (req : HTTPRequest) (w : world) (r : RouteResponse) : res handled :=
  match req_body req with
  | None => reply w (create_error_response e 0 ROUTE_ERROR_INVALID_PARAM 413 r)
  | Some body =>
      if body_length req >? MAX_PROMPT_SIZE
      then reply w (create_error_response e 0 ROUTE_ERROR_INVALID_PARAM 413 r)
      else
        let prompt := extract_json_value (Some body) (Some (lit "prompt")) (alloc e 0) in
        let model := extract_json_value (Some body) (Some (lit "model")) (alloc e 1) in
        let copy_len := if body_length req <? MAX_PROMPT_SIZE then body_length req else MAX_PROMPT_SIZE in
        let prompt :=
          match prompt with
          | Some p => Some p
          | None => if alloc e 2 then Some (take (Z.to_nat copy_len) body) else None
          end in
        match prompt with
        | None => reply w (create_error_response e 3 ROUTE_ERROR_MEMORY 500 r)
        | Some prompt =>
            let model_or_default := default (lit "default") model in
            let cache_key := chat_key model_or_default prompt in
            '(code, written, c) ← cache_get crc32_asm (Some cache_key) true INITIAL_AI_BUF_SIZE (now e) (cache w);
            let w := set_cache c w in
            if code =? 0 then answer_from_cache e written w r
            else
              '(code, written, c) ←
                cache_semantic_get (Some prompt) (Some model_or_default) true INITIAL_AI_BUF_SIZE d_0_85 (now e) c;
              let w := set_cache c w in
              if code =? 0 then answer_from_cache e written w r
              else ask_model e prompt model cache_key w r
        end
  end.

(** ** The other handlers *)

Definition uptime (e : env) (w : world) : Z := now e - start_time (metrics w).

Definition stats_json (e : env) (w : world) : list Z :=
  let m := metrics w in
  qlit "{'requests': " ++ dec (total_requests m) ++ qlit ", 'responses': " ++ dec (total_responses m)
  ++ qlit ", 'active_connections': " ++ dec (active w)
  ++ qlit ", 'total_errors': " ++ dec (total_errors m)
  ++ qlit ", 'total_ai_calls': " ++ dec (total_ai_calls m)
  ++ qlit ", 'uptime_seconds': " ++ dec (uptime e w)
  ++ qlit ", 'bytes_sent': " ++ dec (bytes_sent m) ++ qlit ", 'bytes_received': " ++ dec (bytes_received m)
  ++ qlit ", 'timestamp': " ++ dec (now e) ++ lit "}".

Definition handle_stats_request (e : env) (w : world) (r : RouteResponse) : res handled :=
  if negb (alloc e 0) then reply w (create_error_response e 1 ROUTE_ERROR_MEMORY 500 r)
  else if zlen (stats_json e w) >=? 1024 then reply w (create_error_response e 1 ROUTE_ERROR_INTERNAL 500 r)
  else reply w (create_http_response (date e) (alloc e 1) (Some (stats_json e w)) application_json 200 OK_text r).

Definition health_json (e : env) : list Z :=
  qlit "{'status': 'ok', 'timestamp': " ++ dec (now e)
  ++ qlit ", 'server': 'AIONIC/1.0', 'version': '1.0.0'}".

Definition handle_health_request (e : env) (w : world) (r : RouteResponse) : res handled :=
  if negb (alloc e 0) then reply w (create_error_response e 1 ROUTE_ERROR_MEMORY 500 r)
  else if zlen (health_json e) >=? 256 then reply w (create_error_response e 1 ROUTE_ERROR_INTERNAL 500 r)
  else reply w (create_http_response (date e) (alloc e 1) (Some (health_json e)) application_json 200 OK_text r).

Definition handle_root_request (e : env) (w : world) (r : RouteResponse) : res handled :=
  let '(code, r) := copy_route_response (alloc e 0) (root w) r in Ok (code, r, w).

Definition metric (name help kind : string) (v : Z) : list Z :=
  lit "# HELP " ++ lit name ++ lit " " ++ lit help ++ [c_LF]
  ++ lit "# TYPE " ++ lit name ++ lit " " ++ lit kind ++ [c_LF]
  ++ lit name ++ lit " " ++ dec v ++ [c_LF].

Definition metrics_text (e : env) (w : world) : list Z :=
  let m := metrics w in
  metric "aionic_requests_total" "Total HTTP requests" "counter" (total_requests m)
  ++ metric "aionic_responses_total" "Total HTTP responses" "counter" (total_responses m)
  ++ metric "aionic_active_connections" "Current active connections" "gauge" (active_connections m)
  ++ metric "aionic_errors_total" "Total errors" "counter" (total_errors m)
  ++ metric "aionic_ai_calls_total" "Total AI API calls" "counter" (total_ai_calls m)
  ++ metric "aionic_uptime_seconds" "Server uptime" "gauge" (uptime e w).

(** The length [snprintf] returns is used even if the text was cut. *)
Definition handle_metrics_request (e : env) (w : world) (r : RouteResponse) : res handled :=
  if zlen (metrics_text e w) <=? 4096 then
    reply w (create_http_response (date e) (alloc e 0) (Some (metrics_text e w))
               (lit "text/plain; charset=utf-8") 200 OK_text r)
  else Fault OutOfBounds.

(** [sprintf]s one after the other into a block of [size] bytes: the last
    terminator is the furthest byte. *)
Definition sprintf_all (size : Z) (text : list Z) : res (list Z) :=
  if zlen text + 1 <=? size then Ok text else Fault OutOfBounds.

Definition separated (sep : list Z) (items : list (list Z)) : list Z :=
  match items with
  | [] => []
  | x :: items' => x ++ concat (map (fun y => sep ++ y) items')
  end.

Definition provider_json (p : ProviderStats) : list Z :=
  let avg_latency :=
    if ps_total_calls p >? 0
    then ddiv (ddiv (d_of_Z (ps_total_latency_us p)) (d_of_Z (ps_total_calls p))) (d_of_Z 1000)
    else d_of_Z 0 in
  qlit "{'name':'" ++ provider_name p ++ qlit "','total_calls':" ++ dec (ps_total_calls p)
  ++ qlit ",'avg_latency_ms':" ++ fixed2 avg_latency ++ qlit ",'errors':" ++ dec (ps_errors p) ++ lit "}".

Definition handle_providers_request (e : env) (w : world) (r : RouteResponse) : res handled :=
  let stats := obs_get_all_provider_stats 64 (metrics w) in
  if negb (alloc e 0) then reply w (create_error_response e 1 ROUTE_ERROR_MEMORY 500 r)
  else
    json ← sprintf_all (256 + zlen stats * 256)
             (qlit "{'providers': [" ++ separated (lit ",") (map provider_json stats)
              ++ qlit "],'count':" ++ dec (zlen stats) ++ lit "}");
    reply w (create_http_response (date e) (alloc e 1) (Some json) application_json 200 OK_text r).

Definition models_json (names : list (list Z)) : list Z :=
  qlit "{'models': [" ++ separated (lit ", ") (map (fun n => [c_QUOTE] ++ n ++ [c_QUOTE]) names)
  ++ qlit "], 'count': " ++ dec (zlen names) ++ lit "}".

Definition handle_models_request (e : env) (w : world) (r : RouteResponse) : res handled :=
  let names := prompt_router_get_models (router w) in
  if negb (alloc e 0) then reply w (create_error_response e 1 ROUTE_ERROR_MEMORY 500 r)
  else
    json ← sprintf_all (256 + zlen names * 128) (models_json names);
    reply w (create_http_response (date e) (alloc e 1) (Some json) application_json 200 OK_text r).

Definition handle_embeddings_request (e : env) (req : HTTPRequest) (w : world) (r : RouteResponse) : res handled :=
  let invalid := reply w (create_error_response e 0 ROUTE_ERROR_INVALID_PARAM 400 r) in
  match req_body req with
  | None => invalid
  | Some body =>
      model ← json_get_value (Some body) (Some (lit "model")) 128;
      match model with
      | None => invalid
      | Some model =>
          input ← json_get_value (Some body) (Some (lit "input")) 4096;
          match input with
          | None => invalid
          | Some input =>
              payload ← gateway_build_embeddings_payload (Some model) [Some input] 8192;
              match payload with
              | Some (_, 0) =>
                  '(ret, ai_response, actual_model, router') ←
                    prompt_router_route input (Some model) 1048576 128 (now e) (calls e) (router w);
                  let w := set_router router' w in
                  if ret =? 0 then
                    reply w (create_http_response (date e) (alloc e 0)
                      (Some (take (Z.to_nat 2097151)
                         (qlit "{'data': [{'embedding': " ++ ai_response ++ qlit ", 'index': 0}], 'model': '"
                          ++ actual_model ++ qlit "', 'usage': {'prompt_tokens': " ++ dec (zlen input / 4)
                          ++ lit "}}")))
                      application_json 200 OK_text r)
                  else reply w (create_error_response e 0 ROUTE_ERROR_NOT_FOUND 502 r)
              | _ => reply w (create_error_response e 0 ROUTE_ERROR_INTERNAL 500 r)
              end
          end
      end
  end.

(** ** Dispatch *)

Inductive Handler :=
| Handle_chat | Handle_embeddings | Handle_models | Handle_stats | Handle_health | Handle_metrics
| Handle_providers | Handle_root.

Definition run_handler (h : Handler) (e : env) (req : HTTPRequest) (w : world) (r : RouteResponse) : res handled :=
  match h with
  | Handle_chat => handle_chat_request e req w r
  | Handle_embeddings => handle_embeddings_request e req w r
  | Handle_models => handle_models_request e w r
  | Handle_stats => handle_stats_request e w r
  | Handle_health => handle_health_request e w r
  | Handle_metrics => handle_metrics_request e w r
  | Handle_providers => handle_providers_request e w r
  | Handle_root => handle_root_request e w r
  end.

Definition MiddlewareFunc : Type := HTTPRequest -> RouteResponse -> Z * RouteResponse.
Definition MAX_MIDDLEWARE : Z := 8.

Definition register_middleware (m : MiddlewareFunc) (ms : list MiddlewareFunc) : Z * list MiddlewareFunc :=
  if zlen ms >=? MAX_MIDDLEWARE then (-1, ms) else (0, ms ++ [m]).

(** The middlewares in order; [inl] ends the request. *)
Fixpoint run_middlewares (ms : list MiddlewareFunc) (req : HTTPRequest) (r : RouteResponse)
  : (Z * RouteResponse) + RouteResponse :=
  match ms with
  | [] => inr r
  | m :: ms' =>
      let '(result, r) := m req r in
      if negb (result =? 0) then inl (result, r)
      else match data r with Some _ => inl (0, r) | None => run_middlewares ms' req r end
  end.

Definition init_routes : RouteHashTable Handler :=
  registered crc32_asm
    [(lit "/v1/chat", HTTP_POST, Handle_chat); (lit "/v1/chat/stream", HTTP_POST, Handle_chat);
     (lit "/v1/embeddings", HTTP_POST, Handle_embeddings); (lit "/v1/models", HTTP_GET, Handle_models);
     (lit "/stats", HTTP_GET, Handle_stats); (lit "/health", HTTP_GET, Handle_health);
     (lit "/metrics", HTTP_GET, Handle_metrics); (lit "/v1/providers", HTTP_GET, Handle_providers);
     (lit "/", HTTP_GET, Handle_root)].

Definition route_request (e : env) (table : RouteHashTable Handler) (ms : list MiddlewareFunc)
    (req : HTTPRequest) (w : world) : res handled :=
  match run_middlewares ms req empty_response with
  | inl (code, r) => Ok (code, r, w)
  | inr r =>
      match req_path req with
      | None => Fault NullDeref
      | Some path =>
          if streq path (lit "/") && method_matches (req_method req) HTTP_GET
          then (let '(code, r) := copy_route_response (alloc e 0) (root w) r in Ok (code, r, w))
          else
            match hash_table_find crc32_asm path (req_method req) table with
            | Some route => run_handler (handler route) e req w r
            | None =>
                found ← hash_table_find_with_params path (req_method req) table;
                match found with
                | Some route => run_handler (handler route) e req w r
                | None => let '(code, r) := copy_route_response (alloc e 0) (not_found w) r in Ok (code, r, w)
                end
            end
      end
  end.
End Handlers.

(** The blocks of the two pages and the routes that are freed, and the table that is left.
    The pages keep their pointers. *)
Definition router_cleanup (w : world) (table : RouteHashTable Handler)
  : list (list Z) * list (Route Handler) * RouteHashTable Handler :=
  let '(freed, table) := hash_table_free table in (omap data [not_found w; root w], freed, table).

(** ** Lemmas: responses *)

(** Evaluate the lengths of the literals in the goal. *)
Ltac lit_lengths :=
  repeat match goal with
  | |- context [zlen (lit ?s)] =>
      let v := eval vm_compute in (zlen (lit s)) in change (zlen (lit s)) with v
  | |- context [zlen (qlit ?s)] =>
      let v := eval vm_compute in (zlen (qlit s)) in change (zlen (qlit s)) with v
  | |- context [zlen crlf] => change (zlen crlf) with 2
  end.

Lemma response_headers_length date content_type message status n :
  zlen (response_headers date content_type message status n)
  = 132 + zlen (dec status) + zlen message + zlen date + zlen content_type + zlen (dec n).
Proof. unfold response_headers. autorewrite with cdb. lit_lengths. lia. Qed.

(** The room that [create_http_response] leaves for the message of the status
    and the digits of the length. *)
Definition fits (body message : list Z) : bool :=
  zlen message + zlen (dec (zlen body)) + (if zlen body =? 0 then 1 else 0) <=? 25.

Lemma create_http_response_spec date body content_type status message r :
  100 <= status < 1000 ->
  create_http_response date true (Some body) content_type status message r
  = if fits body message
    then Ok (0, mkRouteResponse status (Some message)
                  (Some (response_headers date content_type message status (zlen body) ++ body)) false)
    else Fault OutOfBounds.
Proof.
  intros Hs. unfold create_http_response, headers_size, fits. cbn [negb].
  rewrite response_headers_length, (dec_length status 2) by (simpl; lia).
  pose proof (zlen_nonneg body). change (Z.of_nat 3) with 3.
  destruct (Z.eqb_spec (zlen body) 0);
    match goal with |- (if ?a then _ else _) = (if ?b then _ else _) =>
      assert (a = b) as ->; [apply Bool.eq_iff_eq_true; rewrite !Z.leb_le; lia|done] end.
Qed.

(** C28: a response is written inside its block exactly when the text of the status,
    the digits of the status and those of the body's length take at most 28 bytes together - with
    an empty body, for which the terminator needs a byte of its own, at most 27; it is
    then the headers, which announce the length of the body, and the body.  (When the block
    can be allocated.) *)
Theorem response_in_bounds date body content_type status message r :
  let room := if bool_decide (body = []) then 27 else 28 in
  let used := zlen message + zlen (dec status) + zlen (dec (zlen body)) in
  (used <= room ->
   create_http_response date true (Some body) content_type status message r
   = Ok (0, mkRouteResponse status (Some message)
              (Some (response_headers date content_type message status (zlen body) ++ body)) false))
  /\ (room < used ->
      create_http_response date true (Some body) content_type status message r = Fault OutOfBounds).
Proof.
  cbv zeta. unfold create_http_response, headers_size. cbn [negb]. rewrite response_headers_length.
  assert (bool_decide (body = []) = (zlen body =? 0)) as ->.
  { destruct body; [done|]. rewrite bool_decide_false by done. rewrite zlen_cons. pose proof (zlen_nonneg body).
    symmetry. apply Z.eqb_neq. lia. }
  pose proof (zlen_nonneg body). destruct (Z.eqb_spec (zlen body) 0);
    (split; intros Hle; match goal with |- (if ?a <=? ?b then _ else _) = _ => destruct (Z.leb_spec a b) end; done || lia).
Qed.

(** A body of an error has a length of two digits. *)
Lemma error_body_length error time :
  0 <= time < 10 ^ 19 -> 10 <= zlen (error_body error time) < 100.
Proof.
  intros Ht. pose proof (dec_length_le time 18 ltac:(change (10 ^ Z.of_nat 19) with (10 ^ 19); lia)) as Hd.
  unfold error_body. set (text := _ ++ _ ++ _).
  assert (40 <= zlen text <= 91) as Hlen.
  { unfold text. autorewrite with cdb. lit_lengths. destruct error; cbn [route_error_messages error_code]; lit_lengths;
      match goal with |- context [zlen (dec ?k)] => change (zlen (dec k)) with 1 end; lia. }
  unfold zlen in *. rewrite take_ge by lia. lia.
Qed.

(** Of the five error responses the one for a failed allocation does not fit:
    when there is memory for it again, it is written one byte past its block. *)
Theorem error_response_bounds e first error status r :
  100 <= status < 1000 -> 0 <= now e < 10 ^ 19 -> alloc e first = true -> alloc e (S first) = true ->
  if bool_decide (error = ROUTE_ERROR_MEMORY)
  then create_error_response e first error status r = Fault OutOfBounds
  else exists text, create_error_response e first error status r
       = Ok (0, mkRouteResponse status (Some (route_error_messages error)) (Some text) false).
Proof.
  intros Hs Ht H1 H2. unfold create_error_response. rewrite H1, H2. cbn [negb].
  rewrite create_http_response_spec by done. pose proof (error_body_length error (now e) Ht) as Hl.
  unfold fits. rewrite (dec_length _ 1) by (simpl; lia).
  destruct (Z.eqb_spec (zlen (error_body error (now e))) 0); [lia|].
  destruct error; cbn [route_error_messages]; lit_lengths;
    match goal with |- context [?a <=? 25] => let v := eval vm_compute in (a <=? 25) in change (a <=? 25) with v end;
    case_bool_decide; first [done|by eexists].
Qed.

(** ** Lemmas: dispatch *)

(** Without middlewares a request other than GET / goes to the latest route
    registered for exactly its path and method. *)
Lemma route_request_exact crc32_asm e l req w path route :
  req_path req = Some path ->
  streq path (lit "/") && method_matches (req_method req) HTTP_GET = false ->
  List.find (is_route path (req_method req)) (routes_of l) = Some route ->
  route_request crc32_asm e (registered crc32_asm l) [] req w
  = run_handler crc32_asm (handler route) e req w empty_response.
Proof.
  intros Hpath Hroot Hfind. unfold route_request. cbn [run_middlewares]. rewrite Hpath, Hroot.
  by rewrite find_registered, Hfind.
Qed.

Definition get (p : string) : HTTPRequest := mkHTTPRequest HTTP_GET (Some (lit p)) None 0.

(** A request for "/health" is answered, whatever the hash function, the state
    of the server and the time, with status 200 and the health text, announced
    with its length. *)
Theorem health_check crc32_asm e w :
  0 <= now e < 10 ^ 19 -> alloc e 0 = true -> alloc e 1 = true ->
  route_request crc32_asm e (init_routes crc32_asm) [] (get "/health") w
  = Ok (0, mkRouteResponse 200 (Some OK_text)
             (Some (response_headers (date e) application_json OK_text 200 (zlen (health_json e))
                    ++ health_json e)) false, w).
Proof.
  intros Ht H0 H1.
  pose proof (dec_length_le (now e) 18 ltac:(change (10 ^ Z.of_nat 19) with (10 ^ 19); lia)) as Hd.
  assert (zlen (health_json e) = 75 + zlen (dec (now e))) as Hlen.
  { unfold health_json. autorewrite with cdb. lit_lengths. lia. }
  unfold init_routes. erewrite route_request_exact; [|done|done|reflexivity]. cbn [handler run_handler].
  unfold handle_health_request. rewrite H0, H1. cbn [negb].
  destruct (Z.geb_spec (zlen (health_json e)) 256); [lia|].
  rewrite create_http_response_spec by lia. unfold fits.
  pose proof (dec_length_le (zlen (health_json e)) 2 ltac:(simpl; lia)).
  destruct (Z.eqb_spec (zlen (health_json e)) 0); [lia|].
  destruct (Z.leb_spec (zlen OK_text + zlen (dec (zlen (health_json e))) + 0) 25) as [|Hgt]; [done|].
  exfalso. change (zlen OK_text) with 2 in Hgt. lia.
Qed.

(** ** Lemmas: chat *)

Lemma escape_str_length s : zlen (concat (map escape_str_byte s)) <= zlen s * 2.
Proof.
  induction s as [|c s IH]; cbn [map concat]; [done|]. rewrite zlen_app, zlen_cons.
  assert (zlen (escape_str_byte c) <= 2); [|lia]. unfold escape_str_byte. repeat csplit; done.
Qed.

Lemma json_escape_str_ok s : json_escape_str (Some s) true = Ok (Some (concat (map escape_str_byte s))).
Proof.
  unfold json_escape_str. cbn [negb]. pose proof (escape_str_length s).
  destruct (Z.leb_spec (zlen (concat (map escape_str_byte s)) + 1) (zlen s * 2 + 1)); [done|lia].
Qed.

Lemma chat_json_nonempty answer model us : 0 < zlen (chat_json answer model us).
Proof.
  unfold chat_json. pose proof (zlen_nonneg answer). pose proof (zlen_nonneg model).
  destruct (Z.to_nat (zlen answer + zlen model + 127)) as [|n] eqn:E; [lia|].
  unfold zlen. cbn. lia.
Qed.

Lemma ok_response date body content_type r :
  0 < zlen body < 10 ^ 20 ->
  create_http_response date true (Some body) content_type 200 OK_text r
  = Ok (0, mkRouteResponse 200 (Some OK_text)
             (Some (response_headers date content_type OK_text 200 (zlen body) ++ body)) false).
Proof.
  intros Hb. rewrite create_http_response_spec by lia. unfold fits.
  pose proof (dec_length_le (zlen body) 19 ltac:(change (10 ^ Z.of_nat 20) with (10 ^ 20); lia)).
  destruct (Z.eqb_spec (zlen body) 0); [lia|]. change (zlen OK_text) with 2.
  destruct (Z.leb_spec (2 + zlen (dec (zlen body)) + 0) 25); [done|lia].
Qed.

(** The model that a chat names, and the key of its answer. *)
Definition chat_model (body : list Z) : option (list Z) :=
  extract_json_value (Some body) (Some (lit "model")) true.
Definition model_or_default (body : list Z) : list Z := default (lit "default") (chat_model body).

(** A chat request for a prompt. *)
Definition chat_for (req : HTTPRequest) (body prompt : list Z) : Prop :=
  req_body req = Some body /\ body_length req <= MAX_PROMPT_SIZE
  /\ extract_json_value (Some body) (Some (lit "prompt")) true = Some prompt.

Section Chat.
Context (crc32_asm : list Z -> Z) (e : env) (alloc_ok : forall n, alloc e n = true).

(** An answer found in the cache is never sent as it is: it was copied to a
    local array without a terminator, and its length is then taken with
    [strlen], which reads on into memory that nothing has written. *)
Theorem cached_chat_reads_uninitialised req body prompt w r i entry v :
  chat_for req body prompt ->
  find_entry crc32_asm (chat_key (model_or_default body) prompt) (cache w) = Ok (Some i) ->
  znth (entries (cache w)) i = Some entry -> expired entry (now e) = false ->
  value entry = PLive v -> Forall (fun c => c <> 0) v ->
  handle_chat_request crc32_asm e req w r = Fault Uninitialised.
Proof.
  intros (Hb & Hlen & Hp) Hf He Hx Hv Hnz. unfold handle_chat_request. rewrite Hb.
  destruct (Z.gtb_spec (body_length req) MAX_PROMPT_SIZE); [lia|].
  rewrite !alloc_ok, Hp. cbv zeta. fold (chat_model body). fold (model_or_default body).
  unfold cache_get. cbn [negb orb]. change (INITIAL_AI_BUF_SIZE =? 0) with false. cbv iota.
  rewrite Hf. cbn [mbind res_bind]. rewrite He, Hx. unfold copy_value. rewrite Hv. cbn [mbind res_bind].
  rewrite Z.eqb_refl. unfold answer_from_cache, local_string. cbn [default from_option].
  destruct (existsb (Z.eqb 0) _) eqn:Ez; [|done]. exfalso.
  apply existsb_exists in Ez as (c & Hc & E%Z.eqb_eq). rewrite <- list_elem_of_In in Hc. subst.
  rewrite Forall_forall in Hnz. apply (Hnz 0); [|done]. by eapply elem_of_take_in.
Qed.

Lemma keys_differ model used prompt : chat_key model prompt <> semantic_key prompt used.
Proof. unfold chat_key, semantic_key. intros E. apply (f_equal (fun l => head l)) in E. vm_compute in E. discriminate. Qed.

(** C24: A chat with a new prompt, in a body of at most 16384 bytes: neither cache has an answer - the table has no slot with
    either key and room for two more entries - every allocation succeeds and a model
    answers.  The chat is answered with status 200 and the JSON text of the escaped
    answer, and this text is stored under the key of the prompt and under the key
    of the semantic cache: for the 300 seconds to come both keys give it back, cut to the
    buffer of 65536 bytes, and the entries that were found before are where they were. *)
Theorem chat_answers req body prompt w r written answer actual router' :
  let used := match actual with [] => model_or_default body | m => m end in
  let json := chat_json (concat (map escape_str_byte answer)) used (latency e) in
  let key := chat_key (model_or_default body) prompt in
  let sem_key := semantic_key prompt used in
  chat_for req body prompt -> cache_wf (cache w) ->
  find_entry crc32_asm key (cache w) = Ok None -> absent sem_key (cache w) -> entry_count (cache w) + 1 < entry_capacity (cache w) ->
  cache_semantic_get (Some prompt) (Some (model_or_default body)) true INITIAL_AI_BUF_SIZE d_0_85 (now e)
    (count_miss (cache w)) = Ok (-1, written, count_miss (cache w)) ->
  prompt_router_route prompt (chat_model body) INITIAL_AI_BUF_SIZE 128 (now e) (calls e) (router w)
    = Ok (0, answer, actual, router') ->
  zlen json < 10 ^ 20 ->
  exists c2,
    handle_chat_request crc32_asm e req w r
    = Ok (0, mkRouteResponse 200 (Some OK_text)
               (Some (response_headers (date e) application_json OK_text 200 (zlen json) ++ json)) false,
          set_cache c2 (set_router router' w))
    /\ cache_wf c2 /\ entry_count c2 = entry_count (cache w) + 2
    /\ (forall k i, find_entry crc32_asm k (cache w) = Ok (Some i) ->
          find_entry crc32_asm k c2 = Ok (Some i) /\ znth (entries c2) i = znth (entries (cache w)) i)
    /\ forall k later, k = key \/ k = sem_key -> later <= now e + 300 -> exists c3,
         cache_get crc32_asm (Some k) true INITIAL_AI_BUF_SIZE later c2
         = Ok (0, Some (take (Z.to_nat (Z.min (zlen json) INITIAL_AI_BUF_SIZE)) json), c3).
Proof.
  intros used json key sem_key (Hb & Hlen & Hp) Hwf Hf Habs Hroom Hsem Hroute Hjson.
  assert (0 < zlen json) as Hpos by apply chat_json_nonempty.
  pose proof (fun later => set_two_spec crc32_asm key sem_key json (zlen json) 300 (now e) (count_miss (cache w)) INITIAL_AI_BUF_SIZE later
                Hwf Hf Habs (keys_differ _ _ _) Hroom ltac:(lia) ltac:(done) ltac:(lia)) as Hset.
  destruct (Hset (now e) ltac:(lia)) as (c1 & c2 & E1 & E2 & Hwf2 & Hn2 & Hkeep & _).
  exists c2. split_and!; try done.
  - assert (cache_semantic_set crc32_asm (Some prompt) (Some used) (Some json) (zlen json) 300 (now e) true true c1
            = Ok (0, c2)) as Hsem2.
    { unfold cache_semantic_set. by destruct (Z.eqb_spec (zlen json) 0); [lia|]. }
    unfold handle_chat_request. rewrite Hb. destruct (Z.gtb_spec (body_length req) MAX_PROMPT_SIZE); [lia|].
    rewrite !alloc_ok, Hp. cbv zeta. fold (chat_model body). fold (model_or_default body). fold key.
    unfold cache_get. cbn [negb orb]. change (INITIAL_AI_BUF_SIZE =? 0) with false. cbv iota.
    rewrite Hf. cbn [mbind res_bind]. change (-1 =? 0) with false. cbv iota. rewrite Hsem. cbn [mbind res_bind].
    change (-1 =? 0) with false. cbv iota. unfold ask_model. rewrite !alloc_ok. cbn [negb set_cache router].
    rewrite Hroute. cbn [mbind res_bind]. rewrite Z.eqb_refl, json_escape_str_ok. cbn [mbind res_bind].
    fold (model_or_default body). fold used. fold json. rewrite ok_response by lia. cbn [mbind res_bind cache set_router set_cache].
    rewrite E1. cbn [mbind res_bind]. rewrite Hsem2. done.
  - intros k later Hk Hl. destruct (Hset later ltac:(lia)) as (c1' & c2' & E1' & E2' & _ & _ & _ & Hget).
    rewrite E1' in E1. injection E1 as ->. rewrite E2' in E2. injection E2 as ->. by apply Hget.
Qed.
(** The cache before [cache_init]: what is left of it when the configuration turns it
    off. *)
Definition uninitialised_cache : Cache := mkCache [] 0 0 0 0 0 0.

(** Nothing asks whether the cache is there.  With the cache turned off the first
    chat that a model answers misses in both caches, and storing its answer divides
    by the number of entries, which is zero: the process dies with the answer in hand. *)
Theorem disabled_cache_crashes req body prompt w r answer actual router' :
  let used := match actual with [] => model_or_default body | m => m end in
  let json := chat_json (concat (map escape_str_byte answer)) used (latency e) in
  chat_for req body prompt -> cache w = uninitialised_cache ->
  prompt_router_route prompt (chat_model body) INITIAL_AI_BUF_SIZE 128 (now e) (calls e) (router w)
    = Ok (0, answer, actual, router') ->
  zlen json < 10 ^ 20 ->
  handle_chat_request crc32_asm e req w r = Fault DivideByZero.
Proof.
  intros used json (Hb & Hlen & Hp) Hc Hroute Hjson.
  assert (0 < zlen json) as Hpos by apply chat_json_nonempty.
  unfold handle_chat_request. rewrite Hb. destruct (Z.gtb_spec (body_length req) MAX_PROMPT_SIZE); [lia|].
  rewrite !alloc_ok, Hp, Hc. cbv zeta. fold (chat_model body). fold (model_or_default body).
  cbn [cache_get cache_semantic_get negb orb find_entry entry_count uninitialised_cache Z.eqb mbind res_bind].
  change (INITIAL_AI_BUF_SIZE =? 0) with false. cbv iota. cbn [mbind res_bind Z.eqb best_match entries count_miss uninitialised_cache].
  cbv iota. unfold ask_model. rewrite !alloc_ok. cbn [negb set_cache router].
  rewrite Hroute. cbn [mbind res_bind]. rewrite Z.eqb_refl, json_escape_str_ok. cbn [mbind res_bind].
  fold (model_or_default body). fold used. fold json. rewrite ok_response by lia.
  cbn [mbind res_bind cache set_router set_cache]. unfold cache_set. destruct (Z.eqb_spec (zlen json) 0); [lia|]. done.
Qed.
End Chat.

(** ** Witnesses *)

Definition demo_date : list Z := lit "Mon, 01 Jan 2024 00:00:00 GMT".
Definition demo_env : env := mkEnv 1704067200 demo_date demo_world 4200 (fun _ => true).
Definition demo_hash (s : list Z) : Z := fold_left Z.add s 0.
Definition demo_cache : Cache.Cache := default (mkCache [] 0 0 0 0 0 0) (cache_init 8 300 true true).
Definition demo_page : RouteResponse := mkRouteResponse 404 (Some (lit "Not Found")) (Some (lit "<html>")) false.
Definition demo_server : world :=
  mkWorld demo_cache demo_router (obs_init 1704067000 zero_state) 1 demo_page empty_response.
Definition demo_body : list Z := qlit "{'prompt': 'hello there'}".
Definition demo_chat : HTTPRequest := mkHTTPRequest HTTP_POST (Some (lit "/v1/chat")) (Some demo_body) (zlen demo_body).

Lemma response_in_bounds_witness :
  create_http_response demo_date true (Some (lit "hi")) application_json 200 OK_text empty_response
  = Ok (0, mkRouteResponse 200 (Some OK_text)
             (Some (response_headers demo_date application_json OK_text 200 2 ++ lit "hi")) false).
Proof.
  apply (response_in_bounds demo_date (lit "hi") application_json 200 OK_text empty_response); vm_compute; discriminate.
Defined.

Lemma error_response_bounds_witness :
  create_error_response demo_env 0 ROUTE_ERROR_MEMORY 500 empty_response = Fault OutOfBounds.
Proof.
  apply (error_response_bounds demo_env 0 ROUTE_ERROR_MEMORY 500 empty_response);
    [lia|simpl; lia|reflexivity|reflexivity].
Defined.

Lemma health_check_witness :
  exists r, route_request demo_hash demo_env (init_routes demo_hash) [] (get "/health") demo_server
            = Ok (0, r, demo_server).
Proof.
  eexists. apply (health_check demo_hash demo_env demo_server); [simpl; lia|reflexivity|reflexivity].
Defined.

Lemma chat_answers_witness :
  exists json w', handle_chat_request demo_hash demo_env demo_chat demo_server empty_response
    = Ok (0, mkRouteResponse 200 (Some OK_text)
               (Some (response_headers demo_date application_json OK_text 200 (zlen json) ++ json)) false, w').
Proof.
  assert (E : exists router', prompt_router_route (lit "hello there") (chat_model demo_body) INITIAL_AI_BUF_SIZE 128
                (now demo_env) (calls demo_env) (router demo_server) = Ok (0, lit "hi", lit "slow", router')).
  { vm_compute. eexists. reflexivity. }
  destruct E as [router' E].
  destruct (chat_answers demo_hash demo_env (fun _ => eq_refl) demo_chat demo_body (lit "hello there") demo_server
              empty_response None (lit "hi") (lit "slow") router') as (c2 & Hok & _);
    [|split_and!; try (vm_compute; reflexivity)|vm_compute; reflexivity| |vm_compute; reflexivity
     |vm_compute; reflexivity|exact E|vm_compute; reflexivity|].
  - split_and!; [reflexivity|vm_compute; discriminate|vm_compute; reflexivity].
  - apply (Forall_replicate slot_ok 8 empty_entry). exact I.
  - apply (Forall_replicate _ 8 empty_entry). discriminate.
  - eexists _, _. exact Hok.
Defined.

(** The server after that chat, and what it stored. *)
Definition served : world :=
  match handle_chat_request demo_hash demo_env demo_chat demo_server empty_response with
  | Ok (_, _, w) => w
  | Fault _ => demo_server
  end.

Definition stored_answer : list Z := chat_json (lit "hi") (lit "slow") 4200.

Definition stored_slot : Z :=
  match find_entry demo_hash (chat_key (model_or_default demo_body) (lit "hello there")) (cache served) with
  | Ok (Some i) => i
  | _ => -1
  end.

Definition stored_entry : CacheEntry := default empty_entry (znth (entries (cache served)) stored_slot).

Lemma disabled_cache_crashes_witness :
  handle_chat_request demo_hash demo_env demo_chat (set_cache uninitialised_cache demo_server) empty_response
  = Fault DivideByZero.
Proof.
  assert (E : exists router', prompt_router_route (lit "hello there") (chat_model demo_body) INITIAL_AI_BUF_SIZE 128
                (now demo_env) (calls demo_env) (router demo_server) = Ok (0, lit "hi", lit "slow", router')).
  { vm_compute. eexists. reflexivity. }
  destruct E as [router' E].
  apply (disabled_cache_crashes demo_hash demo_env (fun _ => eq_refl) demo_chat demo_body (lit "hello there")
           (set_cache uninitialised_cache demo_server) empty_response (lit "hi") (lit "slow") router');
    [|reflexivity|exact E|vm_compute; reflexivity].
  split_and!; [reflexivity|vm_compute; discriminate|vm_compute; reflexivity].
Defined.

Lemma cached_chat_reads_uninitialised_witness :
  handle_chat_request demo_hash demo_env demo_chat served empty_response = Fault Uninitialised.
Proof.
  apply (cached_chat_reads_uninitialised demo_hash demo_env (fun _ => eq_refl) demo_chat demo_body (lit "hello there")
           served empty_response stored_slot stored_entry stored_answer);
    [|vm_compute; reflexivity|vm_compute; reflexivity|vm_compute; reflexivity|vm_compute; reflexivity|].
  - split_and!; [reflexivity|vm_compute; discriminate|vm_compute; reflexivity].
  - apply (Forall_impl (fun c => is_true (negb (c =? 0)))); [|intros c Hc ->; discriminate Hc].
    apply Forall_forall. intros c Hc. revert c Hc.
    assert (forallb (fun c => negb (c =? 0)) stored_answer = true) as Hall by (vm_compute; reflexivity).
    rewrite forallb_forall in Hall. intros c Hc. apply Hall. by rewrite <- list_elem_of_In.
Defined.
