(* ===== verification/Connections.v ===== *)
(** * Connections: src/server.c

    The table of connections with its hash index, the buffer that collects a
    request from the pieces the socket delivers, the base64 decoder of the
    HTTP/2 upgrade and the tests on a request.  A connection owns its TLS and
    HTTP/2 sessions, of any types. *)

From S2P Require Import Prelude HttpParser Router.

(** ** Data *)

Inductive ConnState :=
| CONN_STATE_NEW | CONN_STATE_TLS_HANDSHAKE | CONN_STATE_ACTIVE | CONN_STATE_H2_SESSION
| CONN_STATE_DRAINING | CONN_STATE_CLOSED.

(** A connection owns its sessions: removing it destroys them.  [partial_data] is
    [None] for NULL and otherwise the [partial_size] bytes received.  The fields
    [request_start_ns], [keep_alive] and [hash_next] are never read. *)
Record ConnectionInfo {TLSConn H2Session : Type} := mkConnectionInfo {
  client_fd : Z;
  epoll_owner_id : Z;
  ip_address : list Z;
  connection_time : Z;
  last_activity : Z;
  bytes_received : Z;
  bytes_sent : Z;
  requests_handled : Z;
  flagged_suspicious : bool;
  partial_data : option (list Z);
  partial_capacity : Z;
  content_length : Z;
  headers_done : bool;
  request_id : list Z;
  conn_state : ConnState;
  tls_conn : option TLSConn;
  h2_session : option H2Session;
  is_h2_upgrade : bool
}.
Arguments ConnectionInfo : clear implicits.
Arguments mkConnectionInfo {_ _}.

#[export] Instance ConnState_eq_dec : EqDecision ConnState.
Proof. solve_decision. Defined.

Definition CONN_HASH_SIZE : Z := 65536.
Definition global_max_request_size : Z := 33554432.

(** The buckets of the index are a function: a bucket is the list of its entries
    (descriptor and index). *)
Record ConnTable {TLSConn H2Session : Type} := mkConnTable {
  connections : list (ConnectionInfo TLSConn H2Session);
  connection_capacity : Z;
  global_conn_hash : Z -> list (Z * Z)
}.
Arguments ConnTable : clear implicits.
Arguments mkConnTable {_ _}.

(** ** Base64 *)

Definition b64_value (c : Z) : option Z :=
  if isupper c then Some (c - 65)
  else if islower c then Some (c - 97 + 26)
  else if isdigit c then Some (c - 48 + 52)
  else if (c =? 43) || (c =? 45) then Some 62
  else if (c =? 47) || (c =? 95) then Some 63
  else None.

(** [while (len > 0 && in[len-1] == '=') len--;] *)
Fixpoint strip_padding (s : list Z) : list Z :=
  match s with
  | [] => []
  | c :: s' => match strip_padding s' with
               | [] => if c =? c_EQUALS then [] else [c]
               | r => c :: r
               end
  end.

(** The loop: [buf] is an [int] that is never reduced, and wraps; [None] is the
    -1 return. *)
Fixpoint b64_loop (s : list Z) (max_out buf bits : Z) (out : list Z) : option (list Z) :=
  match s with
  | [] => Some out
  | c :: s' =>
      match b64_value c with
      | None => b64_loop s' max_out buf bits out
      | Some v =>
          let buf := i32 (Z.lor (Z.shiftl buf 6) v) in
          let bits := bits + 6 in
          if bits >=? 8 then
            if zlen out >=? max_out then None
            else b64_loop s' max_out buf (bits - 8) (out ++ [Z.land (Z.shiftr buf (bits - 8)) 255])
          else b64_loop s' max_out buf bits out
      end
  end.

Definition b64_decode (s : list Z) (outlen : Z) : option (list Z) := b64_loop (strip_padding s) outlen 0 0 [].

(** ** Tests on a request *)

(** A request with its headers and content type. *)
Record request := mkRequest {
  rq : HTTPRequest;
  headers : list (list Z);
  content_type : option (list Z)
}.

(** [headers[i][name_len] == ':'] *)
Definition header_named (name h : list Z) : bool :=
  prefixb name h && match drop (length name) h with c :: _ => c =? c_COLON | [] => false end.

Definition get_header_value (name : list Z) (r : request) : option (list Z) :=
  (fun h => skip_spaces (drop (S (length name)) h)) <$> List.find (header_named name) (headers r).

Definition is_suspicious_user_agent (ua : option (list Z)) : bool :=
  match ua with
  | None => false
  | Some ua =>
      existsb (fun s => contains ua (lit s))
        ["sqlmap"; "nikto"; "nmap"; "w3af"; "burp"; "metasploit"]%string
  end.

Definition is_suspicious_request (r : request) : bool :=
  let any text l := existsb (fun s => contains text (lit s)) l in
  match req_path (rq r) with
  | Some p =>
      any p ["../"; "..\"]%string
      || (any p [".php"; ".asp"; ".jsp"; ".exe"]%string && negb (any p ["/api/"; "/static/"]%string))
  | None => false
  end
  || is_suspicious_user_agent (get_header_value (lit "User-Agent") r)
  || (body_length (rq r) >? 10000000)
  || match content_type r, req_body (rq r) with
     | Some ct, Some body =>
         (body_length (rq r) >? 1000000)
         && any ct ["application/x-www-form-urlencoded"; "multipart/form-data"]%string
         && any body [" UNION "; " OR "; " AND "]%string
     | _, _ => false
     end.

(** The bytes around the first occurrence, a space at the ends. *)
Definition contains_attack_pattern (data pattern : option (list Z)) : bool :=
  match data, pattern with
  | Some data, Some pattern =>
      match strstr data pattern with
      | None => false
      | Some k =>
          let before := match k with O => c_SP | S k' => nth k' data c_SP end in
          let after := nth (k + length pattern) data c_SP in
          let any text l := existsb (fun s => contains text (lit s)) l in
          (any pattern ["SELECT"; "INSERT"; "UPDATE"; "DELETE"; "UNION"; "DROP"]%string
           && (negb (isalnum before) && negb (before =? c_SP))
           && (negb (isalnum after) && negb (after =? c_SP)))
          || (any pattern ["<script"; "javascript:"]%string
              && any data ["<"; "onload="; "onerror="]%string)
      end
  | _, _ => false
  end.

(** What the parser recorded, copied; the content type is kept as parsed. *)
Definition copy_slice (mem : Z -> Z) (start len : Z) : option (list Z) :=
  if negb (start =? 0) && (len >? 0) then Some (cstring (read mem start (Z.to_nat len) ++ [0])) else None.

Definition http_parser_to_request (mem : Z -> Z) (p : HTTPParser) : request :=
  let body := copy_slice mem (body_start p) (body_len p) in
  mkRequest
    (mkHTTPRequest (HttpParser.method p) (copy_slice mem (path_start p) (path_len p)) body
       (match body with Some _ => i32 (body_len p) | None => 0 end))
    (map (fun i => cstring (read mem (default 0 (znth (header_ptrs p) (Z.of_nat i)))
                             (Z.to_nat (default 0 (znth (header_lens p) (Z.of_nat i)))) ++ [0]))
       (seq 0 (Z.to_nat (Z.min 32 (header_count p)))))
    (copy_slice mem (content_type_start p) (content_type_len p)).

(** ** The buffer of a request *)

(** [while (new_cap < needed) new_cap *= 2;] *)
Fixpoint double_until (fuel : nat) (cap needed : Z) : Z :=
  match fuel with
  | O => cap
  | S fuel' => if cap <? needed then double_until fuel' (cap * 2) needed else cap
  end.

(** [None] is the -1 return, otherwise the new capacity.  From 65536 on, 48
    doublings reach every size below 2^64. *)
Definition ensure_capacity (capacity needed : Z) (realloc_ok : bool) : option Z :=
  if needed <=? capacity then Some capacity
  else
    let new_cap := double_until 48 (if capacity =? 0 then 65536 else capacity * 2) needed in
    if new_cap >? global_max_request_size + 65536 then None
    else if realloc_ok then Some new_cap else None.

Section Table.
Context {TLSConn H2Session : Type}.
Abbreviation ConnectionInfo := (ConnectionInfo TLSConn H2Session).
Abbreviation ConnTable := (ConnTable TLSConn H2Session).

Definition partial_size (info : ConnectionInfo) : Z := zlen (default [] (partial_data info)).

Definition set_partial (data : option (list Z)) (capacity length : Z) (done : bool) (info : ConnectionInfo)
  : ConnectionInfo :=
  mkConnectionInfo (client_fd info) (epoll_owner_id info) (ip_address info) (connection_time info)
    (last_activity info) (bytes_received info) (bytes_sent info) (requests_handled info) (flagged_suspicious info)
    data capacity length done (request_id info) (conn_state info) (tls_conn info) (h2_session info)
    (is_h2_upgrade info).

Definition free_partial_data (info : ConnectionInfo) : ConnectionInfo := set_partial None 0 0 false info.

Definition received (n now : Z) (info : ConnectionInfo) : ConnectionInfo :=
  mkConnectionInfo (client_fd info) (epoll_owner_id info) (ip_address info) (connection_time info)
    now (u64 (bytes_received info + n)) (bytes_sent info) (requests_handled info) (flagged_suspicious info)
    (partial_data info) (partial_capacity info) (content_length info) (headers_done info) (request_id info)
    (conn_state info) (tls_conn info) (h2_session info) (is_h2_upgrade info).

Definition set_last_activity (now : Z) (info : ConnectionInfo) : ConnectionInfo :=
  mkConnectionInfo (client_fd info) (epoll_owner_id info) (ip_address info) (connection_time info)
    now (bytes_received info) (bytes_sent info) (requests_handled info) (flagged_suspicious info)
    (partial_data info) (partial_capacity info) (content_length info) (headers_done info) (request_id info)
    (conn_state info) (tls_conn info) (h2_session info) (is_h2_upgrade info).

Definition add_sent (n : Z) (info : ConnectionInfo) : ConnectionInfo :=
  mkConnectionInfo (client_fd info) (epoll_owner_id info) (ip_address info) (connection_time info)
    (last_activity info) (bytes_received info) (u64 (bytes_sent info + n)) (requests_handled info)
    (flagged_suspicious info) (partial_data info) (partial_capacity info) (content_length info) (headers_done info)
    (request_id info) (conn_state info) (tls_conn info) (h2_session info) (is_h2_upgrade info).

Definition count_request (info : ConnectionInfo) : ConnectionInfo :=
  mkConnectionInfo (client_fd info) (epoll_owner_id info) (ip_address info) (connection_time info)
    (last_activity info) (bytes_received info) (bytes_sent info) (i32 (requests_handled info + 1))
    (flagged_suspicious info) (partial_data info) (partial_capacity info) (content_length info) (headers_done info)
    (request_id info) (conn_state info) (tls_conn info) (h2_session info) (is_h2_upgrade info).

Definition flag (info : ConnectionInfo) : ConnectionInfo :=
  mkConnectionInfo (client_fd info) (epoll_owner_id info) (ip_address info) (connection_time info)
    (last_activity info) (bytes_received info) (bytes_sent info) (requests_handled info) true
    (partial_data info) (partial_capacity info) (content_length info) (headers_done info) (request_id info)
    (conn_state info) (tls_conn info) (h2_session info) (is_h2_upgrade info).

Definition set_conn_state (st : ConnState) (info : ConnectionInfo) : ConnectionInfo :=
  mkConnectionInfo (client_fd info) (epoll_owner_id info) (ip_address info) (connection_time info)
    (last_activity info) (bytes_received info) (bytes_sent info) (requests_handled info) (flagged_suspicious info)
    (partial_data info) (partial_capacity info) (content_length info) (headers_done info) (request_id info)
    st (tls_conn info) (h2_session info) (is_h2_upgrade info).

Definition set_tls (c : option TLSConn) (info : ConnectionInfo) : ConnectionInfo :=
  mkConnectionInfo (client_fd info) (epoll_owner_id info) (ip_address info) (connection_time info)
    (last_activity info) (bytes_received info) (bytes_sent info) (requests_handled info) (flagged_suspicious info)
    (partial_data info) (partial_capacity info) (content_length info) (headers_done info) (request_id info)
    (conn_state info) c (h2_session info) (is_h2_upgrade info).

Definition set_h2 (h : option H2Session) (info : ConnectionInfo) : ConnectionInfo :=
  mkConnectionInfo (client_fd info) (epoll_owner_id info) (ip_address info) (connection_time info)
    (last_activity info) (bytes_received info) (bytes_sent info) (requests_handled info) (flagged_suspicious info)
    (partial_data info) (partial_capacity info) (content_length info) (headers_done info) (request_id info)
    (conn_state info) (tls_conn info) h (is_h2_upgrade info).

Definition set_upgrade (info : ConnectionInfo) : ConnectionInfo :=
  mkConnectionInfo (client_fd info) (epoll_owner_id info) (ip_address info) (connection_time info)
    (last_activity info) (bytes_received info) (bytes_sent info) (requests_handled info) (flagged_suspicious info)
    (partial_data info) (partial_capacity info) (content_length info) (headers_done info) (request_id info)
    (conn_state info) (tls_conn info) (h2_session info) true.

Definition header_end_mark : list Z := [c_CR; c_LF; c_CR; c_LF].

(** The value after the first "Content-Length:" in one of three spellings. *)
Definition find_content_length (s : list Z) : option Z :=
  let after name :=
    (fun k => strtol (JsonText.skip_blank_colon (drop (k + 15) s))) <$> strstr s (lit name) in
  match after "Content-Length:"%string with
  | Some v => Some v
  | None =>
      match after "Content-length:"%string with
      | Some v => Some v
      | None => after "content-length:"%string
      end
  end.

(** Whether the body that [content_length] announces is still incomplete. *)
Definition body_missing (text : list Z) (size content_length : Z) : bool :=
  match strstr text header_end_mark with
  | None => false
  | Some k => (content_length >? 0) && (size - (Z.of_nat k + 4) <? content_length)
  end.

(** What both readers do with the bytes they got.  The code is -1 (error), -2 (too
    large), 1 (wait) or 0 (process what there is).  The text is the C string in
    the buffer. *)
Definition collect (chunk : list Z) (now : Z) (realloc_ok : bool) (info : ConnectionInfo) : Z * ConnectionInfo :=
  let info := received (zlen chunk) now info in
  match ensure_capacity (partial_capacity info) (partial_size info + zlen chunk + 1) realloc_ok with
  | None => (-1, info)
  | Some cap =>
      let all := default [] (partial_data info) ++ chunk in
      let text := cstring (all ++ [0]) in
      let info := set_partial (Some all) cap (content_length info) (headers_done info) info in
      if headers_done info then
        (if body_missing text (zlen all) (content_length info) then 1 else 0, info)
      else
        match strstr text header_end_mark with
        | None => (0, info)
        | Some _ =>
            let info := set_partial (Some all) cap (content_length info) true info in
            match find_content_length text with
            | Some v =>
                if (v <? 0) || (v >? global_max_request_size) then (-2, info)
                else
                  let info := set_partial (Some all) cap v true info in
                  (if body_missing text (zlen all) v then 1 else 0, info)
            | None => (if body_missing text (zlen all) (content_length info) then 1 else 0, info)
            end
        end
  end.

(** One call with the bytes that [recv] delivered ([None]: error or end of
    input). *)
Definition read_request_data_impl (chunk : option (list Z)) (now : Z) (realloc_ok : bool) (info : ConnectionInfo)
  : Z * ConnectionInfo :=
  match chunk with
  | None | Some [] => (-1, info)
  | Some chunk => collect chunk now realloc_ok info
  end.

(** The HTTP/2 tests look at the text so far. *)
Definition check_h2_upgrade (info : ConnectionInfo) : bool :=
  is_h2_upgrade info ||
  match partial_data info with
  | None => false
  | Some all =>
      let text := cstring (all ++ [0]) in
      let after name := (fun k => drop k text) <$> strstr text (lit name) in
      match after "Upgrade:"%string with
      | Some u => contains u (lit "h2c")
      | None =>
          match after "upgrade:"%string with
          | Some u => contains u (lit "h2c")
          | None => match after "UPGRADE:"%string with Some u => contains u (lit "h2c") | None => false end
          end
      end
  end.

Definition check_h2_prior_knowledge (info : ConnectionInfo) : bool :=
  match partial_data info with
  | None => false
  | Some all => prefixb (lit "PRI * HTTP/2.0") (cstring (all ++ [0]))
  end.

(** ** The table *)

Definition conn_hash_fd (fd : Z) : Z := u32 (fd * 2654435761) mod CONN_HASH_SIZE.

Definition on_bucket (i : Z) (f : list (Z * Z) -> list (Z * Z)) (h : Z -> list (Z * Z)) (j : Z) : list (Z * Z) :=
  if j =? i then f (h j) else h j.

Definition conn_hash_add (malloc_ok : bool) (fd index : Z) (h : Z -> list (Z * Z)) : Z -> list (Z * Z) :=
  if malloc_ok then on_bucket (conn_hash_fd fd) (cons (fd, index)) h else h.

(** The first entry of the descriptor goes. *)
Fixpoint remove_first (fd : Z) (l : list (Z * Z)) : list (Z * Z) :=
  match l with
  | [] => []
  | e :: l' => if e.1 =? fd then l' else e :: remove_first fd l'
  end.

Definition conn_hash_remove (fd : Z) (h : Z -> list (Z * Z)) : Z -> list (Z * Z) :=
  on_bucket (conn_hash_fd fd) (remove_first fd) h.

Definition new_connection (fd : Z) (ip : list Z) (thread_id now : Z) (id : list Z) : ConnectionInfo :=
  mkConnectionInfo fd thread_id (strncpy 15 ip) now now 0 0 0 false None 0 0 false id CONN_STATE_NEW None None false.

(** A pointer to a connection is its index in the array; [None] is NULL. *)
Definition add_connection_info (fd : Z) (ip : list Z) (thread_id now : Z) (id : list Z)
    (realloc_ok malloc_ok : bool) (t : ConnTable) : option nat * ConnTable :=
  let full := zlen (connections t) >=? connection_capacity t in
  if full && negb realloc_ok then (None, t)
  else
    let cap :=
      if full then (if connection_capacity t =? 0 then 128 else connection_capacity t * 2)
      else connection_capacity t in
    let info := new_connection fd ip thread_id now id in
    (Some (length (connections t)), mkConnTable (connections t ++ [info]) cap
                  (conn_hash_add malloc_ok fd (zlen (connections t)) (global_conn_hash t))).

(** The entry of the index that still names the right connection. *)
Fixpoint find_in_index (fd : Z) (conns : list ConnectionInfo) (l : list (Z * Z)) : option nat :=
  match l with
  | [] => None
  | (fd', i) :: l' =>
      if fd' =? fd then
        match znth conns i with
        | Some info => if client_fd info =? fd then Some (Z.to_nat i) else find_in_index fd conns l'
        | None => find_in_index fd conns l'
        end
      else find_in_index fd conns l'
  end.

Definition has_fd (fd : Z) (info : ConnectionInfo) : bool := client_fd info =? fd.

Definition find_connection_info (fd : Z) (malloc_ok : bool) (t : ConnTable) : option nat * ConnTable :=
  match find_in_index fd (connections t) (global_conn_hash t (conn_hash_fd fd)) with
  | Some i => (Some i, t)
  | None =>
      match find_index (has_fd fd) (connections t) with
      | Some i =>
          (Some i,
           mkConnTable (connections t) (connection_capacity t)
             (conn_hash_add malloc_ok fd (Z.of_nat i) (global_conn_hash t)))
      | None => (None, t)
      end
  end.

Definition remove_connection_info (fd : Z) (malloc_ok : bool) (t : ConnTable) : ConnTable :=
  let h := conn_hash_remove fd (global_conn_hash t) in
  match find_index (has_fd fd) (connections t) with
  | None => mkConnTable (connections t) (connection_capacity t) h
  | Some i =>
      let h :=
        match last (connections t) with
        | Some moved =>
            if (S i <? length (connections t))%nat
            then conn_hash_add malloc_ok (client_fd moved) (Z.of_nat i) h else h
        | None => h
        end in
      mkConnTable (swap_remove i (connections t)) (connection_capacity t) h
  end.

(** ** The table refines a map *)

Inductive conn_op :=
| Accept (fd : Z) (ip : list Z) (thread_id now : Z) (id : list Z)
| Lookup (fd : Z)
| Close (fd : Z).

(** Each operation with the answer of the [malloc] of the index. *)
Definition exec (o : conn_op) (malloc_ok : bool) (t : ConnTable) : option ConnectionInfo * ConnTable :=
  let pointee '(i, t) := (i ← i; connections t !! i, t) in
  match o with
  | Accept fd ip thread_id now id => pointee (add_connection_info fd ip thread_id now id true malloc_ok t)
  | Lookup fd => pointee (find_connection_info fd malloc_ok t)
  | Close fd => (None, remove_connection_info fd malloc_ok t)
  end.

Definition spec_exec (o : conn_op) (m : gmap Z ConnectionInfo)
  : option ConnectionInfo * gmap Z ConnectionInfo :=
  match o with
  | Accept fd ip thread_id now id =>
      (Some (new_connection fd ip thread_id now id), <[fd := new_connection fd ip thread_id now id]> m)
  | Lookup fd => (m !! fd, m)
  | Close fd => (None, delete fd m)
  end.

(** A descriptor that is accepted is not in use. *)
Definition op_ok (o : conn_op) (m : gmap Z ConnectionInfo) : Prop :=
  match o with Accept fd _ _ _ _ => m !! fd = None | _ => True end.

Definition represents (m : gmap Z ConnectionInfo) (t : ConnTable) : Prop :=
  NoDup (client_fd <$> connections t)
  /\ forall fd info, m !! fd = Some info <-> info ∈ connections t /\ client_fd info = fd.

Fixpoint runs (ops : list (conn_op * bool)) (t : ConnTable) : list (option ConnectionInfo) * ConnTable :=
  match ops with
  | [] => ([], t)
  | (o, b) :: ops' =>
      let '(a, t) := exec o b t in
      let '(l, t) := runs ops' t in (a :: l, t)
  end.

Fixpoint spec_runs (ops : list (conn_op * bool)) (m : gmap Z ConnectionInfo)
  : list (option ConnectionInfo) * gmap Z ConnectionInfo :=
  match ops with
  | [] => ([], m)
  | (o, _) :: ops' =>
      let '(a, m) := spec_exec o m in
      let '(l, m) := spec_runs ops' m in (a :: l, m)
  end.

Fixpoint ops_ok (ops : list (conn_op * bool)) (m : gmap Z ConnectionInfo) : Prop :=
  match ops with
  | [] => True
  | (o, _) :: ops' => op_ok o m /\ ops_ok ops' (spec_exec o m).2
  end.

Definition empty_table : ConnTable := mkConnTable [] 0 (fun _ => []).

Lemma find_in_index_sound fd conns l i :
  find_in_index fd conns l = Some i -> exists info, conns !! i = Some info /\ client_fd info = fd.
Proof.
  induction l as [|[fd' k] l IH]; [done|]. cbn [find_in_index]. destruct (fd' =? fd); [|done].
  destruct (znth conns k) as [x|] eqn:Hx; [|done]. destruct (Z.eqb_spec (client_fd x) fd); [|done].
  intros [= <-]. exists x. split; [|done]. unfold znth in Hx. by destruct (k <? 0).
Qed.

Lemma represents_absent m t fd :
  represents m t -> find_index (has_fd fd) (connections t) = None -> m !! fd = None.
Proof.
  intros [_ Hm] Hf. destruct (m !! fd) as [info|] eqn:E; [|done]. apply Hm in E as [Hin Hfd].
  rewrite find_index_None, Forall_forall in Hf. specialize (Hf info Hin). unfold has_fd in Hf.
  by apply Z.eqb_neq in Hf.
Qed.

Lemma represents_found m t fd i :
  represents m t -> find_index (has_fd fd) (connections t) = Some i ->
  exists info, connections t !! i = Some info /\ client_fd info = fd /\ m !! fd = Some info.
Proof.
  intros [_ Hm] (info & Hi & Hfd & _)%find_index_Some. apply Z.eqb_eq in Hfd. exists info. split_and!; try done.
  apply Hm. split; [by eapply list_elem_of_lookup_2|done].
Qed.

Lemma close_represents m t fd malloc_ok :
  represents m t -> represents (delete fd m) (remove_connection_info fd malloc_ok t).
Proof.
  intros R. unfold remove_connection_info. destruct (find_index (has_fd fd) (connections t)) as [i|] eqn:Ei.
  - destruct (represents_found m t fd i R Ei) as (x & Hx & Hfd & Hmx). destruct R as [Hnd Hm].
    pose proof (swap_remove_perm _ _ _ Hx) as Hp. remember (swap_remove i (connections t)) as rest eqn:Er. split; simpl.
    + rewrite Hp in Hnd. by apply NoDup_cons in Hnd as [_ Hnd].
    + rewrite Hp in Hnd. apply NoDup_cons in Hnd as [Hnew _]. intros fd' info.
      rewrite lookup_delete_Some, Hm, Hp, elem_of_cons. split.
      * intros (Hne & [->|Hin] & Hi); [by subst|done].
      * intros (Hin & Hi). split_and!; [|by right|done]. intros <-. apply Hnew. rewrite Hfd, <- Hi.
        by apply list_elem_of_fmap_2.
  - pose proof (represents_absent m t fd R Ei) as Habs. by rewrite delete_id.
Qed.

Lemma exec_represents o malloc_ok m t :
  represents m t -> op_ok o m ->
  (exec o malloc_ok t).1 = (spec_exec o m).1 /\ represents (spec_exec o m).2 (exec o malloc_ok t).2.
Proof.
  intros R Hok. destruct o as [fd ip thread_id now id|fd|fd]; cbn [exec spec_exec op_ok] in *.
  - unfold add_connection_info. rewrite andb_false_r. simpl. split; [by rewrite lookup_app_r, Nat.sub_diag by done|].
    destruct R as [Hnd Hm]. split; simpl.
    + rewrite fmap_app. apply NoDup_app. split_and!; [done| |repeat constructor; by intros ?%elem_of_nil].
      intros x (info & -> & Hin)%list_elem_of_fmap Hx%list_elem_of_singleton. simpl in Hx.
      assert (m !! fd = Some info) by (apply Hm; done). congruence.
    + intros fd' info. rewrite elem_of_app, list_elem_of_singleton. destruct (decide (fd' = fd)) as [->|Hne].
      * rewrite lookup_insert_eq. split; [intros [= <-]; auto|]. intros [[Hin| ->] Hi]; [|done].
        assert (m !! fd = Some info) by (apply Hm; done). congruence.
      * rewrite lookup_insert_ne, Hm by done. split; [intros [??]; auto|]. intros [[Hin| ->] Hi]; [done|].
        simpl in Hi. congruence.
  - unfold find_connection_info. destruct (find_in_index _ _ _) as [i|] eqn:E.
    + apply find_in_index_sound in E as (info & Hi & Hfd). simpl. rewrite Hi. split; [|done]. symmetry. apply R.
      split; [by eapply list_elem_of_lookup_2|done].
    + destruct (find_index (has_fd fd) (connections t)) as [i|] eqn:Ei; simpl.
      * destruct (represents_found m t fd i R Ei) as (x & -> & _ & ->). done.
      * split; [|done]. symmetry. by eapply represents_absent.
  - split; [done|]. by apply close_represents.
Qed.

(** C23: the table of connections with its index refines a map from descriptors to
    connections: any sequence of accepted, looked up and closed connections gives
    the answers of the map, whether or not the entries of the index could be
    allocated and however stale they are. *)
Theorem conn_table_refines_map ops :
  ops_ok ops ∅ ->
  (runs ops empty_table).1 = (spec_runs ops ∅).1
  /\ represents (spec_runs ops ∅).2 (runs ops empty_table).2.
Proof.
  assert (represents ∅ empty_table) as R.
  { split; [constructor|]. intros fd info. rewrite lookup_empty. split; [done|]. intros [Hin _]. by apply elem_of_nil in Hin. }
  revert R. generalize (∅ : gmap Z ConnectionInfo) empty_table.
  induction ops as [|[o b] ops IH]; intros m t R Hok; [done|]. destruct Hok as [Ho Hok].
  destruct (exec_represents o b m t R Ho) as [Ha R']. cbn [runs spec_runs].
  destruct (exec o b t) as [a t1], (spec_exec o m) as [a' m1]. simpl in Ha, R', Hok. subst.
  destruct (IH m1 t1 R' Hok) as [Hl R2]. destruct (runs ops t1), (spec_runs ops m1). simpl in *. by subst.
Qed.

End Table.

(** ** Base64 round trip *)

(** The encoding of RFC 4648. *)
Definition b64_char (n : Z) : Z :=
  if n <? 26 then 65 + n else if n <? 52 then 97 + (n - 26) else if n <? 62 then 48 + (n - 52)
  else if n =? 62 then 43 else 47.

Fixpoint b64_chars (l : list Z) : list Z :=
  match l with
  | a :: b :: c :: l' =>
      b64_char (a / 4) :: b64_char (a mod 4 * 16 + b / 16) :: b64_char (b mod 16 * 4 + c / 64)
      :: b64_char (c mod 64) :: b64_chars l'
  | [a; b] => [b64_char (a / 4); b64_char (a mod 4 * 16 + b / 16); b64_char (b mod 16 * 4)]
  | [a] => [b64_char (a / 4); b64_char (a mod 4 * 16)]
  | [] => []
  end.

Definition b64_encode (l : list Z) : list Z :=
  b64_chars l ++ match (length l mod 3)%nat with
                 | 1%nat => [c_EQUALS; c_EQUALS]
                 | 2%nat => [c_EQUALS]
                 | _ => []
                 end.

Lemma b64_char_value n : 0 <= n < 64 -> b64_value (b64_char n) = Some n /\ b64_char n <> c_EQUALS.
Proof.
  intros Hn.
  assert (forallb (fun k => match b64_value (b64_char (Z.of_nat k)) with
                            | Some v => (v =? Z.of_nat k) && negb (b64_char (Z.of_nat k) =? c_EQUALS)
                            | None => false end) (seq 0 64) = true) as H by (vm_compute; reflexivity).
  rewrite forallb_forall in H. specialize (H (Z.to_nat n)). rewrite in_seq, Z2Nat.id in H by lia.
  specialize (H ltac:(lia)). destruct (b64_value (b64_char n)) as [v|]; [|done].
  apply andb_true_iff in H as [->%Z.eqb_eq Hne]. split; [done|]. by apply negb_true_iff, Z.eqb_neq in Hne.
Qed.

Lemma lor_shift6 buf v : 0 <= v < 64 -> Z.lor (Z.shiftl buf 6) v = buf * 64 + v.
Proof.
  intros Hv. rewrite Z.shiftl_mul_pow2 by lia. change (2 ^ 6) with 64.
  pose proof (Z.add_lor_land (buf * 64) v) as E. assert (Z.land (buf * 64) v = 0) as H; [|lia].
  apply Z.bits_inj'. intros k Hk. rewrite Z.land_spec, Z.bits_0.
  destruct (decide (k < 6)).
  - change 64 with (2 ^ 6). rewrite Z.mul_pow2_bits_low by lia. done.
  - rewrite (Z.bits_above_log2 v k), andb_false_r; [done|lia|].
    destruct (decide (v = 0)) as [->|]; [simpl; lia|]. assert (Z.log2 v < 6) by (apply Z.log2_lt_pow2; lia). lia.
Qed.

(** The accumulator is only known modulo the bits that are still to come out. *)
Lemma i32_mod z k : 0 <= k <= 32 -> i32 z mod 2 ^ k = z mod 2 ^ k.
Proof.
  intros Hk. unfold i32. rewrite (Z.mod_eq (z + 2 ^ 31) (2 ^ 32)) by lia.
  assert (2 ^ 32 = 2 ^ (32 - k) * 2 ^ k) as E by (rewrite <- Z.pow_add_r by lia; f_equal; lia).
  assert (0 < 2 ^ k) by (apply Z.pow_pos_nonneg; lia).
  rewrite E at 1.
  replace (z + 2 ^ 31 - 2 ^ (32 - k) * 2 ^ k * ((z + 2 ^ 31) / 2 ^ 32) - 2 ^ 31)
    with (z + - (2 ^ (32 - k) * ((z + 2 ^ 31) / 2 ^ 32)) * 2 ^ k) by ring.
  apply Z.mod_add. lia.
Qed.

(** A character after [bits] pending bits, at least two, completes a byte. *)
Lemma b64_step c s max_out buf bits v out :
  b64_value c = Some v -> 0 <= v < 64 -> 2 <= bits <= 6 -> zlen out < max_out ->
  exists buf',
    b64_loop (c :: s) max_out buf bits out
    = b64_loop s max_out buf' (bits - 2) (out ++ [(buf mod 2 ^ bits * 64 + v) / 2 ^ (bits - 2)])
    /\ buf' mod 2 ^ (bits - 2) = v mod 2 ^ (bits - 2).
Proof.
  intros Hc Hv Hbits Hout. cbn [b64_loop]. rewrite Hc, lor_shift6 by done. cbv zeta.
  destruct (Z.geb_spec (bits + 6) 8); [|lia]. destruct (Z.geb_spec (zlen out) max_out); [lia|].
  replace (bits + 6 - 8) with (bits - 2) by lia. exists (i32 (buf * 64 + v)).
  assert (0 < 2 ^ (bits - 2)) by (apply Z.pow_pos_nonneg; lia).
  assert (0 < 2 ^ bits) by (apply Z.pow_pos_nonneg; lia).
  assert (2 ^ (bits + 6) = 2 ^ bits * 64) as E6 by (rewrite Z.pow_add_r by lia; done).
  assert (2 ^ (bits + 6) = 2 ^ (bits - 2) * 256) as E8
    by (change 256 with (2 ^ 8); rewrite <- Z.pow_add_r by lia; f_equal; lia).
  split.
  - do 3 f_equal. rewrite Z.shiftr_div_pow2 by lia. change 255 with (Z.ones 8). rewrite Z.land_ones by lia.
    change (2 ^ 8) with 256.
    pose proof (i32_mod (buf * 64 + v) (bits + 6) ltac:(lia)) as Hm.
    assert ((buf * 64 + v) mod 2 ^ (bits + 6) = buf mod 2 ^ bits * 64 + v) as Hl.
    { rewrite E6. pose proof (Z.mod_pos_bound buf (2 ^ bits) ltac:(lia)). symmetry.
      apply (Z.mod_unique_pos _ _ (buf / 2 ^ bits)); [nia|].
      pose proof (Z.div_mod buf (2 ^ bits) ltac:(lia)). nia. }
    rewrite <- Hl, <- Hm, E8. rewrite Z.rem_mul_r by lia.
    rewrite (Z.mul_comm (2 ^ (bits - 2))), Z.div_add by lia.
    rewrite (Z.div_small (_ mod 2 ^ (bits - 2))) by (apply Z.mod_pos_bound; lia). lia.
  - rewrite i32_mod by lia.
    assert (64 = 2 ^ (6 - (bits - 2)) * 2 ^ (bits - 2)) as -> by (rewrite <- Z.pow_add_r by lia; by ring_simplify (6 - (bits - 2) + (bits - 2))).
    rewrite Z.mul_assoc, Z.add_comm. apply Z.mod_add. lia.
Qed.

Lemma b64_first c s max_out buf v out :
  b64_value c = Some v -> 0 <= v < 64 ->
  exists buf', b64_loop (c :: s) max_out buf 0 out = b64_loop s max_out buf' 6 out /\ buf' mod 2 ^ 6 = v.
Proof.
  intros Hc Hv. cbn [b64_loop]. rewrite Hc, lor_shift6 by done. exists (i32 (buf * 64 + v)). split; [done|].
  rewrite i32_mod by lia. change (2 ^ 6) with 64. rewrite Z.add_comm, Z.mod_add by lia. by apply Z.mod_small.
Qed.

Lemma list_ind3 {A} (P : list A -> Prop) :
  P [] -> (forall a, P [a]) -> (forall a b, P [a; b]) -> (forall a b c l, P l -> P (a :: b :: c :: l)) ->
  forall l, P l.
Proof.
  intros H0 H1 H2 H3 l. remember (length l) as n eqn:Hn. revert l Hn.
  induction n as [n IH] using lt_wf_ind. intros [|a [|b [|c l]]] ->; auto.
  apply H3, (IH (length l)); [simpl; lia|done].
Qed.

(** The bytes that the characters of a group give. *)
Lemma b64_bytes a b c :
  is_byte a -> is_byte b -> is_byte c ->
  0 <= a / 4 < 64 /\ 0 <= a mod 4 * 16 + b / 16 < 64 /\ 0 <= b mod 16 * 4 + c / 64 < 64
  /\ (a / 4 * 64 + (a mod 4 * 16 + b / 16)) / 16 = a /\ (a mod 4 * 16 + b / 16) mod 16 = b / 16
  /\ (b / 16 * 64 + (b mod 16 * 4 + c / 64)) / 4 = b /\ (b mod 16 * 4 + c / 64) mod 4 = c / 64
  /\ c / 64 * 64 + c mod 64 = c /\ 0 <= c mod 64 < 64.
Proof. unfold is_byte. intros. split_and!; zdlia. Qed.

Lemma b64_loop_chars max_out l : forall buf out,
  Forall is_byte l -> zlen out + zlen l <= max_out ->
  b64_loop (b64_chars l) max_out buf 0 out = Some (out ++ l).
Proof.
  induction l as [|a|a b|a b c l IH] using list_ind3; intros buf out Hb Hlen.
  - by rewrite app_nil_r.
  - inv Hb. destruct (b64_bytes a 0 0) as (V1 & V2 & _ & B1 & _); [done|split; lia..|].
    change (0 / 16) with 0 in *. rewrite Z.add_0_r in *.
    destruct (b64_char_value _ V1) as [C1 _], (b64_char_value _ V2) as [C2 _]. unfold zlen in Hlen; simpl in Hlen.
    cbn [b64_chars]. destruct (b64_first _ [b64_char (a mod 4 * 16)] max_out buf _ out C1 V1) as (buf1 & -> & R1).
    destruct (b64_step _ [] max_out buf1 6 _ out C2 V2) as (buf2 & -> & _); [lia|unfold zlen; lia|].
    rewrite R1. change (2 ^ (6 - 2)) with 16. by rewrite B1.
  - inv Hb. match goal with H : Forall is_byte [b] |- _ => inv H end.
    destruct (b64_bytes a b 0) as (V1 & V2 & V3 & B1 & R12 & B2 & _); [done|done|split; lia|].
    change (0 / 64) with 0 in *. rewrite (Z.add_0_r (b mod 16 * 4)) in *.
    destruct (b64_char_value _ V1) as [C1 _], (b64_char_value _ V2) as [C2 _], (b64_char_value _ V3) as [C3 _].
    unfold zlen in Hlen; simpl in Hlen. cbn [b64_chars].
    destruct (b64_first _ [b64_char (a mod 4 * 16 + b / 16); b64_char (b mod 16 * 4)] max_out buf _ out C1 V1)
      as (buf1 & -> & R1).
    destruct (b64_step _ [b64_char (b mod 16 * 4)] max_out buf1 6 _ out C2 V2) as (buf2 & -> & R2);
      [lia|unfold zlen; lia|].
    rewrite R1. change (6 - 2) with 4 in *. change (2 ^ 4) with 16 in *. rewrite B1.
    destruct (b64_step _ [] max_out buf2 4 _ (out ++ [a]) C3 V3) as (buf3 & -> & _);
      [lia|unfold zlen; rewrite length_app; simpl; lia|].
    change (2 ^ 4) with 16. rewrite R2, R12. change (2 ^ (4 - 2)) with 4. rewrite B2, <- app_assoc. done.
  - inv Hb. repeat match goal with H : Forall is_byte (_ :: _) |- _ => inv H end.
    destruct (b64_bytes a b c) as (V1 & V2 & V3 & B1 & R12 & B2 & R23 & B3 & V4); [done..|].
    destruct (b64_char_value _ V1) as [C1 _], (b64_char_value _ V2) as [C2 _], (b64_char_value _ V3) as [C3 _],
      (b64_char_value _ V4) as [C4 _].
    unfold zlen in Hlen; simpl in Hlen. cbn [b64_chars].
    destruct (b64_first _ (b64_char (a mod 4 * 16 + b / 16) :: b64_char (b mod 16 * 4 + c / 64) :: b64_char (c mod 64)
                :: b64_chars l) max_out buf _ out C1 V1) as (buf1 & -> & R1).
    destruct (b64_step _ (b64_char (b mod 16 * 4 + c / 64) :: b64_char (c mod 64) :: b64_chars l) max_out buf1 6 _ out
                C2 V2) as (buf2 & -> & R2); [lia|unfold zlen; lia|].
    rewrite R1. change (6 - 2) with 4 in *. change (2 ^ 4) with 16 in *. rewrite B1.
    destruct (b64_step _ (b64_char (c mod 64) :: b64_chars l) max_out buf2 4 _ (out ++ [a]) C3 V3)
      as (buf3 & -> & R3); [lia|unfold zlen; rewrite length_app; simpl; lia|].
    change (2 ^ 4) with 16. rewrite R2, R12. change (4 - 2) with 2 in *. change (2 ^ 2) with 4 in *. rewrite B2.
    destruct (b64_step _ (b64_chars l) max_out buf3 2 _ ((out ++ [a]) ++ [b]) C4 V4) as (buf4 & -> & _);
      [lia|unfold zlen; rewrite !length_app; simpl; lia|].
    change (2 ^ 2) with 4. rewrite R3, R23, B3. change (2 - 2) with 0. change (2 ^ 0) with 1. rewrite Z.div_1_r.
    rewrite IH; [by rewrite <- !app_assoc|done|]. unfold zlen. rewrite !length_app. simpl. lia.
Qed.

Lemma strip_padding_snoc l : strip_padding (l ++ [c_EQUALS]) = strip_padding l.
Proof. induction l as [|c l IH]; [done|]. cbn [app strip_padding]. by rewrite IH. Qed.

Lemma strip_padding_none l : Forall (fun c => c <> c_EQUALS) l -> strip_padding l = l.
Proof.
  induction 1 as [|c l Hc _ IH]; [done|]. cbn [strip_padding]. rewrite IH.
  destruct l; [|done]. by destruct (Z.eqb_spec c c_EQUALS).
Qed.

Lemma b64_chars_plain l : Forall is_byte l -> Forall (fun c => c <> c_EQUALS) (b64_chars l).
Proof.
  induction l as [|a|a b|a b c l IH] using list_ind3; intros Hb; cbn [b64_chars];
    repeat match goal with H : Forall is_byte (_ :: _) |- _ => inv H end; unfold is_byte in *;
    repeat constructor; try (apply b64_char_value; zdlia). by apply IH.
Qed.

(** The decoder of the HTTP/2 settings is the inverse of base64: it reads back
    any bytes from their encoding, with its padding, although its accumulator is
    never reduced and overflows. *)
Theorem b64_roundtrip l outlen :
  Forall is_byte l -> zlen l <= outlen -> b64_decode (b64_encode l) outlen = Some l.
Proof.
  intros Hb Hlen. unfold b64_decode.
  assert (strip_padding (b64_encode l) = b64_chars l) as ->.
  { unfold b64_encode. pose proof (strip_padding_none _ (b64_chars_plain l Hb)) as E.
    destruct (length l mod 3)%nat as [|[|[|]]]; rewrite ?app_nil_r; try done.
    - change [c_EQUALS; c_EQUALS] with ([c_EQUALS] ++ [c_EQUALS]). by rewrite app_assoc, !strip_padding_snoc.
    - by rewrite strip_padding_snoc. }
  by apply (b64_loop_chars outlen l 0 []).
Qed.

(** ** Collecting a request *)

(** The capacities that [ensure_capacity] produces. *)
Definition cap_ok (cap : Z) : Prop := cap = 0 \/ exists k, 0 <= k <= 9 /\ cap = 65536 * 2 ^ k.

Lemma double_until_spec fuel k needed :
  0 <= k <= 9 -> 9 - k < Z.of_nat fuel -> needed <= 65536 * 2 ^ 9 ->
  exists k', 0 <= k' <= 9 /\ double_until fuel (65536 * 2 ^ k) needed = 65536 * 2 ^ k' /\ needed <= 65536 * 2 ^ k'.
Proof.
  revert k. induction fuel as [|fuel IH]; intros k Hk Hf Hn; [lia|]. cbn [double_until].
  destruct (Z.ltb_spec (65536 * 2 ^ k) needed) as [Hlt|]; [|by exists k].
  assert (k <> 9) by (intros ->; lia).
  replace (65536 * 2 ^ k * 2) with (65536 * 2 ^ (k + 1)) by (rewrite Z.pow_add_r by lia; lia).
  apply IH; lia.
Qed.

Lemma ensure_capacity_ok cap needed :
  cap_ok cap -> needed <= 2 ^ 25 ->
  exists cap', ensure_capacity cap needed true = Some cap' /\ needed <= cap' /\ cap_ok cap'.
Proof.
  intros Hcap Hn. unfold ensure_capacity. destruct (Z.leb_spec needed cap) as [|Hlt]; [by exists cap|].
  change (2 ^ 25) with (65536 * 2 ^ 9) in Hn.
  assert (exists k, 0 <= k <= 9 /\ (if cap =? 0 then 65536 else cap * 2) = 65536 * 2 ^ k) as (k & Hk & ->).
  { destruct Hcap as [->|(k & Hk & ->)]; [by exists 0|].
    assert (k <> 9) by (intros ->; lia). assert (0 < 2 ^ k) by (apply Z.pow_pos_nonneg; lia).
    destruct (Z.eqb_spec (65536 * 2 ^ k) 0); [lia|]. exists (k + 1). split; [lia|].
    rewrite Z.pow_add_r by lia. lia. }
  destruct (double_until_spec 48 k needed Hk ltac:(lia) Hn) as (k' & Hk' & -> & Hle).
  assert (2 ^ k' <= 2 ^ 9) by (apply Z.pow_le_mono_r; lia).
  destruct (Z.gtb_spec (65536 * 2 ^ k') (global_max_request_size + 65536)) as [Hgt|];
    [unfold global_max_request_size in Hgt; lia|].
  eexists. split_and!; [done|done|]. right. by exists k'.
Qed.

Lemma prefixb_app_l n s x : (length n <= length s)%nat -> prefixb n (s ++ x) = prefixb n s.
Proof.
  revert s. induction n as [|c n IH]; intros [|d s] Hl; simpl in *; try done; [lia|]. by rewrite IH by lia.
Qed.

Lemma strstr_bound h n k : strstr h n = Some k -> (k + length n <= length h)%nat.
Proof.
  revert k. induction h as [|c h IH]; intros k; cbn [strstr].
  - destruct n; [|done]. intros [= <-]. done.
  - destruct (prefixb n (c :: h)) eqn:Hp.
    + intros [= <-]. apply prefixb_spec in Hp as [r ->]. rewrite length_app. lia.
    + destruct (strstr h n) as [j|]; [|done]. intros [= <-]. specialize (IH j eq_refl). simpl. lia.
Qed.

Lemma strstr_app h n k x : strstr h n = Some k -> strstr (h ++ x) n = Some k.
Proof.
  revert k. induction h as [|c h IH]; intros k Hk; pose proof (strstr_bound _ _ _ Hk) as Hb.
  - destruct n; [|simpl in Hb; lia]. injection Hk as <-. by destruct x.
  - cbn [app strstr] in *. change (c :: h ++ x) with ((c :: h) ++ x). rewrite prefixb_app_l by lia.
    destruct (prefixb n (c :: h)); [done|]. destruct (strstr h n) as [j|]; [|done]. injection Hk as <-.
    by rewrite (IH j eq_refl).
Qed.

(** The head of a request: everything up to the first empty line. *)
Definition request_head (h : list Z) : Prop :=
  Forall (fun c => c <> 0) h /\ strstr h header_end_mark = Some (length h - 4)%nat.

Lemma body_missing_head h rest n :
  request_head h -> 0 < n ->
  body_missing (cstring ((h ++ rest) ++ [0])) (zlen (h ++ rest)) n = (zlen rest <? n).
Proof.
  intros [Hz Hs] Hn. unfold body_missing. rewrite <- app_assoc, cstring_past by done.
  rewrite (strstr_app _ _ _ _ Hs). apply strstr_bound in Hs. cbn [length header_end_mark] in Hs.
  destruct (Z.gtb_spec n 0); [|lia]. cbn [andb]. rewrite zlen_app. f_equal. unfold zlen. lia.
Qed.

Section Reads.
Context {TLSConn H2Session : Type}.
Abbreviation ConnectionInfo := (ConnectionInfo TLSConn H2Session).

(** Reads one after the other: their codes and the connection. *)
Fixpoint reads (now : Z) (chunks : list (list Z)) (info : ConnectionInfo) : list Z * ConnectionInfo :=
  match chunks with
  | [] => ([], info)
  | c :: chunks' =>
      let '(code, info) := read_request_data_impl (Some c) now true info in
      let '(codes, info) := reads now chunks' info in (code :: codes, info)
  end.

(** A connection that waits for the rest of a body of [n] bytes. *)
Definition waiting (all : list Z) (n : Z) (info : ConnectionInfo) : Prop :=
  partial_data info = Some all /\ cap_ok (partial_capacity info) /\ content_length info = n
  /\ headers_done info = true.

Lemma read_next h rest n now chunk info :
  request_head h -> 0 < n -> waiting (h ++ rest) n info -> chunk <> [] ->
  zlen (h ++ rest) + zlen chunk + 1 <= 2 ^ 25 ->
  exists info', read_request_data_impl (Some chunk) now true info
                = (if zlen (rest ++ chunk) <? n then 1 else 0, info')
                /\ waiting (h ++ rest ++ chunk) n info'.
Proof.
  intros Hh Hn (Hp & Hc & Hl & Hd) Hne Hroom. unfold read_request_data_impl, collect. destruct chunk as [|c chunk]; [done|].
  cbn [received partial_capacity partial_data content_length headers_done].
  unfold partial_size. cbn [partial_data received]. rewrite Hp. cbn [default from_option id].
  destruct (ensure_capacity_ok (partial_capacity info) (zlen (h ++ rest) + zlen (c :: chunk) + 1) Hc Hroom)
    as (cap & -> & _ & Hcap).
  cbn [set_partial headers_done content_length]. rewrite Hd, Hl.
  rewrite <- (app_assoc h rest), body_missing_head by done. eexists. split; [done|]. done.
Qed.

Lemma reads_rest h n now pieces : forall rest info,
  request_head h -> waiting (h ++ rest) n info -> Forall (fun p => p <> []) pieces -> pieces <> [] ->
  zlen rest + zlen (concat pieces) = n -> zlen h + n + 1 <= 2 ^ 25 ->
  exists info', reads now pieces info = (replicate (length pieces - 1) 1 ++ [0], info')
                /\ waiting (h ++ rest ++ concat pieces) n info'.
Proof.
  induction pieces as [|p pieces IH]; intros rest info Hh Hw Hall Hne Htot Hroom; [done|].
  apply Forall_cons in Hall as [Hp Hall]. cbn [reads concat] in *. rewrite zlen_app in Htot. pose proof (zlen_nonneg (concat pieces)).
  pose proof (zlen_nonneg rest).
  assert (0 < zlen p) by (destruct p; [done|unfold zlen; simpl; lia]).
  destruct (read_next h rest n now p info Hh ltac:(lia) Hw ltac:(done)) as (info1 & -> & Hw1);
    [rewrite zlen_app; lia|].
  rewrite zlen_app. destruct pieces as [|q pieces].
  - cbn [reads concat length] in *. change (zlen (@nil Z)) with 0 in Htot.
    destruct (Z.ltb_spec (zlen rest + zlen p) n); [lia|]. rewrite app_nil_r. by exists info1.
  - assert (0 < zlen (concat (q :: pieces))).
    { apply Forall_cons in Hall as [Hq _]. cbn [concat]. rewrite zlen_app.
      pose proof (zlen_nonneg (concat pieces)). destruct q; [done|]. unfold zlen in *. simpl. lia. }
    destruct (Z.ltb_spec (zlen rest + zlen p) n); [|lia].
    destruct (IH (rest ++ p) info1) as (info2 & -> & Hw2); try done; [rewrite zlen_app; lia|].
    exists info2. split; [|by rewrite <- app_assoc in Hw2]. cbn [length]. by rewrite !Nat.sub_succ, Nat.sub_0_r.
Qed.

(** C22: a request whose head arrives in one piece and announces the length of its
    body is put together whatever the pieces of the body: every read but the last
    asks to wait, and the last hands on exactly the bytes that were sent, for
    requests below 32 megabytes. *)
Theorem request_reassembled h b0 pieces n now (info : ConnectionInfo) :
  request_head h -> find_content_length (cstring ((h ++ b0) ++ [0])) = Some n ->
  Forall (fun p => p <> []) pieces -> pieces <> [] -> zlen b0 + zlen (concat pieces) = n ->
  zlen h + n + 1 <= 2 ^ 25 ->
  exists info',
    reads now ((h ++ b0) :: pieces) (free_partial_data info) = (replicate (length pieces) 1 ++ [0], info')
    /\ partial_data info' = Some (h ++ b0 ++ concat pieces).
Proof.
  intros Hh Hlen Hall Hne Htot Hroom. pose proof (zlen_nonneg b0). pose proof (zlen_nonneg h).
  assert (0 < zlen (concat pieces)) as Hpos.
  { destruct pieces as [|p pieces]; [done|]. apply Forall_cons in Hall as [Hp _]. cbn [concat]. rewrite zlen_app.
    pose proof (zlen_nonneg (concat pieces)). destruct p; [done|]. unfold zlen in *. simpl. lia. }
  cbn [reads]. unfold read_request_data_impl, collect. destruct (h ++ b0) as [|c text] eqn:Etext.
  { apply app_eq_nil in Etext as [-> _]. destruct Hh as [_ Hs]. done. }
  rewrite <- Etext in *. cbn [received free_partial_data set_partial partial_capacity partial_data content_length headers_done].
  unfold partial_size. cbn [partial_data received free_partial_data set_partial default from_option id].
  rewrite app_nil_l. change (zlen (@nil Z)) with 0.
  destruct (ensure_capacity_ok 0 (0 + zlen (h ++ b0) + 1)) as (cap & -> & _ & Hcap); [by left|rewrite zlen_app; lia|].
  assert (strstr (cstring ((h ++ b0) ++ [0])) header_end_mark = Some (length h - 4)%nat) as ->.
  { destruct Hh as [Hz Hs]. rewrite <- app_assoc, cstring_past by done. by apply strstr_app. }
  rewrite Hlen. destruct (Z.ltb_spec n 0); [lia|]. destruct (Z.gtb_spec n global_max_request_size) as [Hgt|];
    [unfold global_max_request_size in Hgt; lia|]. cbn [orb].
  rewrite body_missing_head by (done || lia). destruct (Z.ltb_spec (zlen b0) n); [|lia].
  set (info1 := set_partial _ _ _ _ _).
  destruct (reads_rest h n now pieces b0 info1 Hh) as (info2 & -> & Hw); try done.
  exists info2. split; [|apply Hw]. destruct pieces as [|p pieces]; [done|]. cbn [length]. by rewrite Nat.sub_succ, Nat.sub_0_r.
Qed.

(** But the head itself must arrive in one piece: what there is without an empty
    line is handed on at once as a whole request. *)
Theorem split_head_handed_on chunk now (info : ConnectionInfo) :
  chunk <> [] -> strstr (cstring (chunk ++ [0])) header_end_mark = None -> zlen chunk + 1 <= 2 ^ 25 ->
  exists info', read_request_data_impl (Some chunk) now true (free_partial_data info) = (0, info')
                /\ partial_data info' = Some chunk.
Proof.
  intros Hne Hs Hroom. unfold read_request_data_impl, collect. destruct chunk as [|c chunk]; [done|].
  cbn [received free_partial_data set_partial partial_capacity partial_data content_length headers_done].
  unfold partial_size. cbn [partial_data received free_partial_data set_partial default from_option id].
  rewrite app_nil_l. change (zlen (@nil Z)) with 0.
  destruct (ensure_capacity_ok 0 (0 + zlen (c :: chunk) + 1)) as (cap & -> & _ & _); [by left|lia|].
  rewrite Hs. eexists. done.
Qed.

End Reads.

(** ** Witnesses *)

Definition demo_ops : list (conn_op * bool) :=
  [(Accept 7 (lit "10.0.0.1") 0 100 (lit "a"), true); (Accept 8 (lit "10.0.0.2") 1 101 (lit "b"), false);
   (Lookup 8, true); (Close 7, true); (Lookup 8, true); (Lookup 7, true)].

(** A table of connections without sessions. *)
Definition plain_table : ConnTable unit unit := empty_table.

Lemma conn_table_refines_map_witness :
  (runs demo_ops plain_table).1 = (spec_runs demo_ops ∅).1
  /\ represents (spec_runs demo_ops ∅).2 (runs demo_ops plain_table).2.
Proof. apply (conn_table_refines_map demo_ops). split_and!; vm_compute; done. Defined.

Example lookups_after_close :
  option_map client_fd <$> (runs demo_ops plain_table).1
  = [Some 7; Some 8; Some 8; None; Some 8; None].
Proof. vm_compute. reflexivity. Qed.

Lemma b64_roundtrip_witness : b64_decode (b64_encode [0; 3; 0; 0; 0; 100; 255]) 128 = Some [0; 3; 0; 0; 0; 100; 255].
Proof.
  apply (b64_roundtrip [0; 3; 0; 0; 0; 100; 255] 128); [|vm_compute; discriminate].
  repeat constructor; vm_compute; discriminate || reflexivity.
Defined.

Definition demo_head : list Z :=
  lit "POST /v1/chat HTTP/1.1" ++ crlf ++ lit "Content-Length: 6" ++ crlf ++ crlf.
Definition demo_connection : ConnectionInfo unit unit := new_connection 7 (lit "10.0.0.1") 0 100 (lit "a").

Lemma demo_head_ok : request_head demo_head.
Proof.
  split; [|vm_compute; reflexivity].
  assert (forallb (fun c => negb (c =? 0)) demo_head = true) as H by (vm_compute; reflexivity).
  rewrite forallb_forall in H. apply Forall_forall. intros c Hc. rewrite list_elem_of_In in Hc.
  specialize (H c Hc). by apply negb_true_iff, Z.eqb_neq in H.
Qed.

Lemma request_reassembled_witness :
  exists info', reads 100 [demo_head ++ lit "ab"; lit "cd"; lit "ef"] (free_partial_data demo_connection)
                = ([1; 1; 0], info')
                /\ partial_data info' = Some (demo_head ++ lit "abcdef").
Proof.
  apply (request_reassembled demo_head (lit "ab") [lit "cd"; lit "ef"] 6 100 demo_connection);
    [exact demo_head_ok|vm_compute; reflexivity|repeat constructor; discriminate|discriminate|reflexivity
    |vm_compute; discriminate].
Defined.
