(* ===== verification/Io.v ===== *)
(** * The outside: sockets and the clock

    What the operating system answers.  A program that writes to sockets is a
    function of an [io]: the answers that [send] is going to give, in the order of
    the calls, and the readings of the monotonic clock.  It ends in a result, in
    a fault, or - when the answers are used up - is still waiting for the next
    one. *)

From S2P Require Import Prelude.

(** [Accepts n]: the socket takes up to [n] bytes of what it is offered;
    [Would_block] is EAGAIN; [Broken] any other error. *)
Inductive send_answer := Accepts (n : nat) | Would_block | Broken.

(** [Gets l]: the peer has sent [l], of which a call takes what it has room
    for; [Gets []] is the end of its input. *)
Inductive recv_answer := Gets (l : list Z) | Nothing_yet | Recv_broken.

(** [wire] holds the bytes each descriptor has taken, [closed] the descriptors
    that were closed, [trace] the calls of callbacks (function, data, user
    data).  [errno_again] is whether [errno] is EAGAIN: the last failure left it
    there, for a call that succeeds leaves it alone. *)
Record io := mkIo {
  sends : list send_answer;
  recvs : list recv_answer;
  clock : nat -> Z;
  reads : nat;
  wire : gmap Z (list Z);
  closed : list Z;
  trace : list (Z * list Z * Z);
  errno_again : bool
}.

Definition written (fd : Z) (i : io) : list Z := default [] (wire i !! fd).

Definition tick (i : io) : io :=
  mkIo (sends i) (recvs i) (clock i) (S (reads i)) (wire i) (closed i) (trace i) (errno_again i).
Definition set_sends (l : list send_answer) (i : io) : io :=
  mkIo l (recvs i) (clock i) (reads i) (wire i) (closed i) (trace i) (errno_again i).
Definition set_recvs (l : list recv_answer) (i : io) : io :=
  mkIo (sends i) l (clock i) (reads i) (wire i) (closed i) (trace i) (errno_again i).
Definition put (fd : Z) (bytes : list Z) (i : io) : io :=
  mkIo (sends i) (recvs i) (clock i) (reads i) (<[fd := written fd i ++ bytes]> (wire i)) (closed i) (trace i) (errno_again i).
Definition shut (fd : Z) (i : io) : io :=
  mkIo (sends i) (recvs i) (clock i) (reads i) (wire i) (closed i ++ [fd]) (trace i) (errno_again i).
Definition note (call : Z * list Z * Z) (i : io) : io :=
  mkIo (sends i) (recvs i) (clock i) (reads i) (wire i) (closed i) (trace i ++ [call]) (errno_again i).
Definition set_errno (again : bool) (i : io) : io :=
  mkIo (sends i) (recvs i) (clock i) (reads i) (wire i) (closed i) (trace i) again.

Inductive outcome (A : Type) : Type :=
| Done (a : A) (i : io)
| Waiting
| Crashed (f : fault).
Arguments Done {A} a i.
Arguments Waiting {A}.
Arguments Crashed {A} f.

Definition M (A : Type) : Type := io -> outcome A.

#[export] Instance M_ret : MRet M := fun A a i => Done a i.
#[export] Instance M_bind : MBind M := fun A B k m i =>
  match m i with Done a i => k a i | Waiting => Waiting | Crashed f => Crashed f end.

#[export] Instance M_fmap : FMap M := fun A B f m i =>
  match m i with Done a i => Done (f a) i | Waiting => Waiting | Crashed f => Crashed f end.

Definition crash {A} (f : fault) : M A := fun _ => Crashed f.
Definition of_res {A} (m : res A) : M A := fun i => match m with Ok a => Done a i | Fault f => Crashed f end.

(** ** The calls *)

Definition get_time_ns : M Z := fun i => Done (u64 (clock i (reads i))) (tick i).

(** The value of [send]: the count, or the two kinds of failure. *)
Inductive sent := Sent (n : Z) | Again | Failed.

#[export] Instance sent_eq_dec : EqDecision sent.
Proof. solve_decision. Defined.

Definition send (fd : Z) (data : list Z) : M sent := fun i =>
  match sends i with
  | [] => Waiting
  | Accepts n :: rest => Done (Sent (zlen (take n data))) (put fd (take n data) (set_sends rest i))
  | Would_block :: rest => Done Again (set_errno true (set_sends rest i))
  | Broken :: rest => Done Failed (set_errno false (set_sends rest i))
  end.

(** The value of [recv]: the bytes ([Received []]: the end), or a failure. *)
Inductive received := Received (l : list Z) | Recv_again | Recv_failed.

(** A call takes at most [len] bytes and leaves the rest for the next. *)
Definition recv (fd : Z) (len : nat) : M received := fun i =>
  match recvs i with
  | [] => Waiting
  | Gets l :: rest =>
      Done (Received (take len l)) (set_recvs (match drop len l with [] => rest | r => Gets r :: rest end) i)
  | Nothing_yet :: rest => Done Recv_again (set_errno true (set_recvs rest i))
  | Recv_broken :: rest => Done Recv_failed (set_errno false (set_recvs rest i))
  end.

Definition errno_is_again : M bool := fun i => Done (errno_again i) i.

Definition close (fd : Z) : M unit := fun i => Done tt (shut fd i).

(** A callback is code of the client; the call is recorded. *)
Definition callback (f : Z) (data : list Z) (user_data : Z) : M unit := fun i => Done tt (note (f, data, user_data) i).

(** ** Reasoning

    [ends m i Q]: no fault from [i], and if the program ends, then in [Q]. *)

Definition ends {A} (m : M A) (i : io) (Q : A -> io -> Prop) : Prop :=
  match m i with Done a i' => Q a i' | Waiting => True | Crashed _ => False end.

(** [returns m i Q]: the program ends, in [Q]. *)
Definition returns {A} (m : M A) (i : io) (Q : A -> io -> Prop) : Prop :=
  exists a i', m i = Done a i' /\ Q a i'.

Lemma ends_ret {A} (a : A) i (Q : A -> io -> Prop) : Q a i -> ends (mret a) i Q.
Proof. done. Qed.

Lemma ends_bind {A B} (m : M A) (k : A -> M B) i Q :
  ends m i (fun a i' => ends (k a) i' Q) -> ends (m ≫= k) i Q.
Proof. cbv [ends mbind M_bind]. by destruct (m i). Qed.

Lemma ends_mono {A} (m : M A) i (P Q : A -> io -> Prop) :
  ends m i P -> (forall a i', P a i' -> Q a i') -> ends m i Q.
Proof. unfold ends. destruct (m i); eauto. Qed.

Lemma ends_done {A} (m : M A) i Q a i' : ends m i Q -> m i = Done a i' -> Q a i'.
Proof. unfold ends. intros H E. by rewrite E in H. Qed.

Lemma returns_ret {A} (a : A) i (Q : A -> io -> Prop) : Q a i -> returns (mret a) i Q.
Proof. intros. by exists a, i. Qed.

Lemma returns_bind {A B} (m : M A) (k : A -> M B) i Q :
  returns m i (fun a i' => returns (k a) i' Q) -> returns (m ≫= k) i Q.
Proof.
  intros (a & i1 & Hm & b & i2 & Hk & HQ). exists b, i2. split; [|done].
  cbv [mbind M_bind]. by rewrite Hm.
Qed.

Lemma returns_mono {A} (m : M A) i (P Q : A -> io -> Prop) :
  returns m i P -> (forall a i', P a i' -> Q a i') -> returns m i Q.
Proof. intros (a & i' & Hm & HP) HPQ. exists a, i'. auto. Qed.

Lemma returns_ends {A} (m : M A) i (P Q : A -> io -> Prop) :
  returns m i P -> ends m i Q -> returns m i (fun a i' => P a i' /\ Q a i').
Proof. intros (a & i' & Hm & HP) HQ. exists a, i'. split_and!; [done..|]. by eapply ends_done. Qed.

Lemma returns_step {A B} (m : M A) (k : A -> M B) i a i1 Q :
  m i = Done a i1 -> returns (k a) i1 Q -> returns (m ≫= k) i Q.
Proof. intros Hm Hk. apply returns_bind. by exists a, i1. Qed.

Lemma bind_step {A B} (m : M A) (k : A -> M B) i a i1 : m i = Done a i1 -> (m ≫= k) i = k a i1.
Proof. cbv [mbind M_bind]. by intros ->. Qed.

Lemma bind_crashed {A B} (m : M A) (k : A -> M B) i f : m i = Crashed f -> (m ≫= k) i = Crashed f.
Proof. cbv [mbind M_bind]. by intros ->. Qed.

Lemma bind_Done {A B} (m : M A) (k : A -> M B) i b i' :
  (m ≫= k) i = Done b i' -> exists a i1, m i = Done a i1 /\ k a i1 = Done b i'.
Proof. cbv [mbind M_bind]. destruct (m i) as [a i1| |]; [eauto|done|done]. Qed.

Lemma written_put fd s i : written fd (put fd s i) = written fd i ++ s.
Proof. unfold written. simpl. by rewrite lookup_insert_eq. Qed.

Lemma written_put_ne fd fd' s i : fd <> fd' -> written fd (put fd' s i) = written fd i.
Proof. intros Hne. unfold written. simpl. by rewrite lookup_insert_ne. Qed.

(** The answers of a socket that always takes something. *)
Definition takes_some (a : send_answer) : Prop := match a with Accepts (S _) => True | _ => False end.

(** ** Sending everything, blocking

    The loop that the TLS and HTTP/2 layers share: as long as the socket is full
    they poll it.  One round asks [send] once.  A [send] that takes nothing is
    judged by what [errno] happens to be. *)

Fixpoint push_loop (rounds : nat) (fd : Z) (bytes : list Z) : M bool :=
  match bytes with
  | [] => mret true
  | _ =>
      match rounds with
      | O => fun _ => Waiting
      | S rounds' =>
          r ← send fd bytes;
          match r with
          | Sent n =>
              if n >? 0 then push_loop rounds' fd (drop (Z.to_nat n) bytes)
              else again ← errno_is_again; if again : bool then push_loop rounds' fd bytes else mret false
          | Again => push_loop rounds' fd bytes
          | Failed => mret false
          end
      end
  end.

Definition push (fd : Z) (bytes : list Z) : M bool := fun i => push_loop (length (sends i)) fd bytes i.

(** ** Which descriptors a program writes to *)

Definition only (fd : Z) (i i' : io) : Prop := forall fd', fd' <> fd -> written fd' i' = written fd' i.

#[export] Instance only_preorder fd : PreOrder (only fd).
Proof. split; [done|]. intros i1 i2 i3 H12 H23 fd' Hne. by rewrite H23, H12. Qed.

(** Whenever the program ends, it has written to [fd] at most. *)
Definition stays {A} (fd : Z) (m : M A) : Prop := forall i a i', m i = Done a i' -> only fd i i'.

Create HintDb stays.

Lemma stays_ret {A} fd (a : A) : stays fd (mret a).
Proof. by intros i b i' [= _ <-]. Qed.

Lemma stays_bind {A B} fd (m : M A) (k : A -> M B) : stays fd m -> (forall a, stays fd (k a)) -> stays fd (m ≫= k).
Proof. intros Hm Hk i b i' (a & i1 & E1 & E2)%bind_Done. etrans; [by eapply Hm|by eapply Hk]. Qed.

Lemma stays_of_res {A} fd (m : res A) : stays fd (of_res m).
Proof. intros i a i'. unfold of_res. by destruct m as [b|]; [intros [= _ <-]|]. Qed.

Lemma stays_crash {A} fd f : stays fd (crash (A := A) f).
Proof. by intros i a i'. Qed.

Lemma stays_waiting {A} fd : stays fd (fun _ : io => @Waiting A).
Proof. by intros i a i'. Qed.

Lemma stays_send fd data : stays fd (send fd data).
Proof.
  intros i a i'. unfold send. destruct (sends i) as [|[n| |] rest]; intros [= _ <-]; try done.
  intros fd' Hne. by rewrite written_put_ne by done.
Qed.

Lemma stays_recv fd fd' len : stays fd (recv fd' len).
Proof. intros i a i'. unfold recv. destruct (recvs i) as [|[l| |] rest]; by intros [= _ <-]. Qed.

Lemma stays_get_time_ns fd : stays fd get_time_ns.
Proof. by intros i a i' [= _ <-]. Qed.

Lemma stays_errno fd : stays fd errno_is_again.
Proof. by intros i a i' [= _ <-]. Qed.

Lemma stays_close fd fd' : stays fd (close fd').
Proof. by intros i a i' [= _ <-]. Qed.

Lemma stays_callback fd f data u : stays fd (callback f data u).
Proof. by intros i a i' [= _ <-]. Qed.

#[export] Hint Resolve stays_ret stays_of_res stays_crash stays_waiting stays_send stays_recv stays_get_time_ns
  stays_errno stays_close stays_callback : stays.

(** Follow the program to its calls. *)
Ltac stays :=
  intros;
  repeat first
    [ progress intros
    | progress cbv beta iota zeta
    | solve [eauto with stays]
    | apply stays_bind
    | match goal with
      | |- stays _ (match ?x with _ => _ end) => destruct x
      | |- stays _ (let '_ := ?x in _) => destruct x
      | |- stays _ (if ?x then _ else _) => destruct x
      end ].

Lemma stays_push_loop rounds fd bytes : stays fd (push_loop rounds fd bytes).
Proof. revert bytes. induction rounds as [|rounds IH]; intros [|c bytes]; cbn [push_loop]; stays. Qed.

Lemma stays_push fd bytes : stays fd (push fd bytes).
Proof. intros i a i'. apply stays_push_loop. Qed.
#[export] Hint Resolve stays_push : stays.

(** [closes_none m]: no fault, and nothing is closed. *)
Definition closes_none {A} (m : M A) : Prop := forall i, ends m i (fun _ i' => closed i' = closed i).

Lemma closes_none_bind {A B} (m : M A) (k : A -> M B) : closes_none m -> (forall a, closes_none (k a)) -> closes_none (m ≫= k).
Proof.
  intros Hm Hk i. apply ends_bind. eapply ends_mono; [apply Hm|]. intros a i1 E.
  eapply ends_mono; [apply Hk|]. cbn. by intros b i2 ->.
Qed.

Lemma send_closes_none fd data : closes_none (send fd data).
Proof. intros i. unfold ends, send. by destruct (sends i) as [|[n| |] rest]. Qed.

Lemma push_loop_closes_none rounds fd : forall bytes, closes_none (push_loop rounds fd bytes).
Proof.
  induction rounds as [|rounds IH]; intros [|c bytes]; cbn [push_loop]; try done.
  apply closes_none_bind; [apply send_closes_none|]. intros [n| |]; [|apply IH|done].
  destruct (n >? 0); [apply IH|]. apply closes_none_bind; [done|]. intros []; [apply IH|done].
Qed.

Lemma push_closes_none fd bytes : closes_none (push fd bytes).
Proof. intros i. apply push_loop_closes_none. Qed.

(** [yields fd P m]: whenever the program ends, it has written to [fd] at most, and
    its value satisfies [P]. *)
Definition yields {A} (fd : Z) (P : A -> Prop) (m : M A) : Prop :=
  forall i a i', m i = Done a i' -> P a /\ only fd i i'.

Lemma yields_ret {A} fd (P : A -> Prop) a : P a -> yields fd P (mret a).
Proof. by intros HP i b i' [= <- <-]. Qed.

Lemma yields_bind {A B} fd (P : A -> Prop) (Q : B -> Prop) (m : M A) (k : A -> M B) :
  yields fd P m -> (forall a, P a -> yields fd Q (k a)) -> yields fd Q (m ≫= k).
Proof.
  intros Hm Hk i b i' (a & i1 & E1 & E2)%bind_Done. apply Hm in E1 as [HP H1].
  destruct (Hk a HP _ _ _ E2) as [HQ H2]. split; [done|by etrans].
Qed.

Lemma yields_stays {A B} fd (Q : B -> Prop) (m : M A) (k : A -> M B) :
  stays fd m -> (forall a, yields fd Q (k a)) -> yields fd Q (m ≫= k).
Proof. intros Hm Hk. apply (yields_bind fd (fun _ => True)); [|auto]. intros i a i' E. split; [done|by eapply Hm]. Qed.

Lemma stays_yields {A} fd (P : A -> Prop) (m : M A) : yields fd P m -> stays fd m.
Proof. by intros Hm i a i' [_ ?]%Hm. Qed.

Lemma yields_mono {A} fd (P Q : A -> Prop) (m : M A) : yields fd P m -> (forall a, P a -> Q a) -> yields fd Q m.
Proof. intros Hm HPQ i a i' [HP ?]%Hm. auto. Qed.

Lemma yields_of_res {A} fd (P : A -> Prop) (m : res A) : (forall a, m = Ok a -> P a) -> yields fd P (of_res m).
Proof. intros HP i a i'. unfold of_res. destruct m; [|done]. intros [= <- <-]. split; [auto|done]. Qed.

Lemma yields_crash {A} fd (P : A -> Prop) f : yields fd P (crash f).
Proof. by intros i a i'. Qed.

Lemma yields_fmap {A B} fd (P : B -> Prop) (f : A -> B) (m : M A) :
  yields fd (fun a => P (f a)) m -> yields fd P (f <$> m).
Proof.
  intros Hm i b i'. unfold fmap, M_fmap. destruct (m i) as [a i1| |] eqn:E; try done. intros [= <- <-]. by apply Hm in E.
Qed.

(** ** What the loop delivers *)

Lemma drop_zlen_take {A} k (l : list A) : drop (Z.to_nat (zlen (take k l))) l = drop k l.
Proof.
  unfold zlen. rewrite Nat2Z.id, length_take. destruct (decide (k <= length l)%nat); [by rewrite Nat.min_l by lia|].
  rewrite Nat.min_r by lia. by rewrite !drop_ge by lia.
Qed.

(** On a socket that always takes something, everything is sent. *)
Lemma push_loop_all rounds fd : forall bytes i,
  Forall takes_some (sends i) -> (length bytes <= rounds)%nat -> (length bytes <= length (sends i))%nat ->
  returns (push_loop rounds fd bytes) i (fun ok i' =>
    ok = true /\ written fd i' = written fd i ++ bytes /\ recvs i' = recvs i /\ errno_again i' = errno_again i
    /\ Forall takes_some (sends i') /\ (length (sends i) <= length (sends i') + length bytes)%nat).
Proof.
  induction rounds as [|rounds IH]; intros [|c bytes] i Hf Hr Hl; cbn [push_loop];
    try (apply returns_ret; rewrite app_nil_r; split_and!; (done || lia)); [simpl in Hr; lia|].
  set (d := c :: bytes) in *. destruct (sends i) as [|[[|k]| |] rest] eqn:Es; try by inversion Hf; simpl in *.
  { subst d. simpl in Hl. lia. }
  eapply returns_step. { unfold send. rewrite Es. reflexivity. } cbv beta iota.
  assert (0 < length (take (S k) d))%nat as Hpos by (subst d; simpl; lia).
  destruct (Z.gtb_spec (zlen (take (S k) d)) 0) as [_|Hz]; [|unfold zlen in Hz; lia]. rewrite drop_zlen_take.
  assert (length (drop (S k) d) + length (take (S k) d) = length d)%nat as Hsplit
    by (rewrite Nat.add_comm, <- length_app; by rewrite take_drop).
  eapply returns_mono; [apply IH|].
  - simpl. by inversion Hf.
  - simpl in Hr. fold d in Hr. assert (length d = S (length bytes)) by done. lia.
  - simpl in *. assert (length d = S (length bytes)) by done. lia.
  - intros ok i' (-> & Hw & Hrv & He & Hf' & Hl'). split_and!; [done| |done|done|done|].
    + rewrite Hw, written_put. rewrite <- app_assoc. by rewrite take_drop.
    + simpl in *. lia.
Qed.

Lemma push_all fd bytes i :
  Forall takes_some (sends i) -> (length bytes <= length (sends i))%nat ->
  returns (push fd bytes) i (fun ok i' =>
    ok = true /\ written fd i' = written fd i ++ bytes /\ recvs i' = recvs i /\ errno_again i' = errno_again i
    /\ Forall takes_some (sends i') /\ (length (sends i) <= length (sends i') + length bytes)%nat).
Proof. intros Hf Hl. unfold returns, push. by apply push_loop_all. Qed.
