(* ===== verification/Stream.v ===== *)
(** * Streaming: src/stream.c

    Chunked output with a deadline over a socket, server-sent events, the
    streaming of a whole response, and the growing buffer.  The mutex of a stream
    is a state: taking it twice is [Deadlock], using it before it is made or after
    it is destroyed a fault.  A pointer argument that may be NULL is an
    [option]. *)

From S2P Require Import Prelude Io RouteTable Router.

(** ** Data *)

Inductive StreamResult :=
| STREAM_SUCCESS | STREAM_ERROR_NULL | STREAM_ERROR_INVALID_FD | STREAM_ERROR_MEMORY | STREAM_ERROR_TIMEOUT
| STREAM_ERROR_CLOSED | STREAM_ERROR_OVERFLOW.

#[export] Instance StreamResult_eq_dec : EqDecision StreamResult.
Proof. solve_decision. Defined.

Record StreamStats := mkStreamStats {
  bytes_sent : Z;
  bytes_received : Z;
  chunks_sent : Z;
  operations_count : Z;
  total_time_ns : Z;
  bytes_written : Z;
  bytes_read : Z
}.

Definition no_stats : StreamStats := mkStreamStats 0 0 0 0 0 0 0.

Record StreamConfig := mkStreamConfig {
  cfg_buffer_size : Z;
  cfg_chunked_encoding : bool;
  timeout_ms : Z;
  non_blocking : bool;
  priority : Z
}.

(** [buffer] is the block of [buffer_size] bytes that no function writes to;
    callbacks are function pointers. *)
Record StreamData := mkStreamData {
  client_fd : Z;
  buffer : ptr Z;
  buffer_size : Z;
  buffer_position : Z;
  is_active : bool;
  chunked_encoding : bool;
  mutex : mutex_state;
  config : StreamConfig;
  stats : StreamStats;
  data_callback : option Z;
  error_callback : option Z;
  user_data : Z;
  last_activity_ns : Z
}.

Definition DEFAULT_BUFFER_SIZE : Z := 8192.
Definition DEFAULT_TIMEOUT_MS : Z := 5000.

Definition set_stream_mutex (m : mutex_state) (s : StreamData) : StreamData :=
  mkStreamData (client_fd s) (buffer s) (buffer_size s) (buffer_position s) (is_active s) (chunked_encoding s)
    m (config s) (stats s) (data_callback s) (error_callback s) (user_data s) (last_activity_ns s).
Definition set_stats (st : StreamStats) (s : StreamData) : StreamData :=
  mkStreamData (client_fd s) (buffer s) (buffer_size s) (buffer_position s) (is_active s) (chunked_encoding s)
    (mutex s) (config s) st (data_callback s) (error_callback s) (user_data s) (last_activity_ns s).
Definition set_active (active : bool) (now : Z) (s : StreamData) : StreamData :=
  mkStreamData (client_fd s) (buffer s) (buffer_size s) (buffer_position s) active (chunked_encoding s)
    (mutex s) (config s) (stats s) (data_callback s) (error_callback s) (user_data s) now.
Definition set_callbacks (data_cb error_cb : option Z) (data : Z) (s : StreamData) : StreamData :=
  mkStreamData (client_fd s) (buffer s) (buffer_size s) (buffer_position s) (is_active s) (chunked_encoding s)
    (mutex s) (config s) (stats s) data_cb error_cb data (last_activity_ns s).

Definition lock (s : StreamData) : M StreamData :=
  of_res ((fun m => set_stream_mutex m s) <$> mutex_lock (mutex s)).
Definition unlock (s : StreamData) : StreamData := set_stream_mutex Unlocked s.

(** ** Sending with a deadline *)

(** One round of the loop asks [send] once, so there are at most as many rounds
    as answers. *)
Fixpoint send_loop (rounds : nat) (fd : Z) (data : list Z) (start_time timeout_ns : Z) : M StreamResult :=
  match data with
  | [] => mret STREAM_SUCCESS
  | _ =>
      match rounds with
      | O => fun _ => Waiting
      | S rounds' =>
          r ← send fd data;
          match r with
          | Sent n =>
              if n >? 0 then send_loop rounds' fd (drop (Z.to_nat n) data) start_time timeout_ns
              else mret STREAM_ERROR_CLOSED
          | Again =>
              t ← get_time_ns;
              if u64 (t - start_time) >=? timeout_ns then mret STREAM_ERROR_TIMEOUT
              else send_loop rounds' fd data start_time timeout_ns
          | Failed => mret STREAM_ERROR_CLOSED
          end
      end
  end.

Definition send_with_timeout (fd : Z) (data : list Z) (timeout_ms : Z) : M StreamResult := fun i =>
  (if timeout_ms =? 0 then
     r ← send fd data;
     mret (if bool_decide (r = Sent (zlen data)) then STREAM_SUCCESS else STREAM_ERROR_CLOSED)
   else
     start_time ← get_time_ns;
     send_loop (length (sends i)) fd data start_time (u64 (timeout_ms * 1000000))) i.

(** ** Opening and closing *)

(** [memset] makes the mutex that was just locked a fresh one; [mutex_ok] and
    [malloc_ok] are the answers of [pthread_mutex_init] and [malloc]. *)
Definition stream_init_ex (stream : option StreamData) (fd : Z) (cfg : option StreamConfig) (mutex_ok malloc_ok : bool)
  : M (StreamResult * option StreamData) :=
  match stream, cfg with
  | Some s, Some cfg =>
      if fd <? 0 then mret (STREAM_ERROR_NULL, stream)
      else if negb mutex_ok then mret (STREAM_ERROR_MEMORY, stream)
      else
        s ← lock (set_stream_mutex Unlocked s);
        let size := if cfg_buffer_size cfg >? 0 then cfg_buffer_size cfg else DEFAULT_BUFFER_SIZE in
        now ← get_time_ns;
        let opened b m :=
          mkStreamData fd b size 0 true (cfg_chunked_encoding cfg) m cfg no_stats None None 0 now in
        if malloc_ok then mret (STREAM_SUCCESS, Some (unlock (opened (PLive size) Unlocked)))
        else mret (STREAM_ERROR_MEMORY, Some (opened PNull Destroyed))
  | _, _ => mret (STREAM_ERROR_NULL, stream)
  end.

Definition default_config : StreamConfig := mkStreamConfig DEFAULT_BUFFER_SIZE true DEFAULT_TIMEOUT_MS false 0.

Definition stream_init (stream : option StreamData) (fd : Z) (mutex_ok malloc_ok : bool)
  : M (StreamResult * option StreamData) :=
  stream_init_ex stream fd (Some default_config) mutex_ok malloc_ok.

Definition stream_cleanup (stream : option StreamData) : M (option StreamData) :=
  match stream with
  | None => mret None
  | Some s =>
      s ← lock s;
      match buffer s with
      | PFreed => crash UseAfterFree
      | _ =>
          mret (Some (mkStreamData (client_fd s) PNull 0 0 false (chunked_encoding s) Destroyed (config s)
                        (stats s) (data_callback s) (error_callback s) (user_data s) (last_activity_ns s)))
      end
  end.

(** ** Chunks *)

(** [printf("%zx")]: hexadecimal digits, most significant first. *)
Definition hex_digit (d : Z) : Z := if d <? 10 then 48 + d else 87 + d.

Fixpoint hex_digits (fuel : nat) (n : Z) (acc : list Z) : list Z :=
  match fuel with
  | O => acc
  | S fuel' =>
      if n <? 16 then hex_digit n :: acc else hex_digits fuel' (n / 16) (hex_digit (n mod 16) :: acc)
  end.

Definition hex (n : Z) : list Z := hex_digits (S (Z.to_nat (Z.log2 n))) n [].

(** At most 18 bytes, in a buffer of 32. *)
Definition chunk_header (length : Z) : list Z := hex length ++ crlf.

Definition add_bytes (n : Z) (s : StreamData) : StreamData :=
  let st := stats s in
  set_stats (mkStreamStats (u64 (bytes_sent st + n)) (bytes_received st) (chunks_sent st) (operations_count st)
               (total_time_ns st) (bytes_written st) (bytes_read st)) s.

Definition count_chunk (time : Z) (s : StreamData) : StreamData :=
  let st := stats s in
  set_stats (mkStreamStats (bytes_sent st) (bytes_received st) (u64 (chunks_sent st + 1))
               (u64 (operations_count st + 1)) (u64 (total_time_ns st + time)) (bytes_written st) (bytes_read st)) s.

(** One part of a chunk: what was sent is counted. *)
Definition send_part (bytes : list Z) (timeout_ms : Z) (s : StreamData) : M (StreamResult * StreamData) :=
  r ← send_with_timeout (client_fd s) bytes timeout_ms;
  mret (r, if bool_decide (r = STREAM_SUCCESS) then add_bytes (zlen bytes) s else s).

(** The first [n] bytes behind a pointer. *)
Definition bytes_at (data : list Z) (n : Z) : M (list Z) :=
  if n <=? zlen data then mret (take (Z.to_nat n) data) else crash OutOfBounds.

Definition finish_chunk (data : list Z) (start_time : Z) (s : StreamData) : M (StreamResult * option StreamData) :=
  now ← get_time_ns;
  after ← get_time_ns;
  let s := count_chunk (u64 (after - start_time)) (set_active (is_active s) now s) in
  _ ← match data_callback s with Some f => callback f data (user_data s) | None => mret tt end;
  mret (STREAM_SUCCESS, Some (unlock s)).

Definition stream_send_chunk_ex (stream : option StreamData) (data : option (list Z)) (length timeout_ms : Z)
  : M (StreamResult * option StreamData) :=
  match stream, data with
  | Some s, Some d =>
      if (length =? 0) || negb (is_active s) then mret (STREAM_ERROR_NULL, stream)
      else
        s ← lock s;
        start_time ← get_time_ns;
        d ← bytes_at d length;
        '(r, s) ← if chunked_encoding s then send_part (chunk_header length) timeout_ms s
                   else mret (STREAM_SUCCESS, s);
        if negb (bool_decide (r = STREAM_SUCCESS)) then mret (r, Some (unlock s))
        else
          '(r, s) ← send_part d timeout_ms s;
          if negb (bool_decide (r = STREAM_SUCCESS)) then mret (r, Some (unlock s))
          else
            '(r, s) ← if chunked_encoding s then send_part crlf timeout_ms s else mret (STREAM_SUCCESS, s);
            if negb (bool_decide (r = STREAM_SUCCESS)) then mret (r, Some (unlock s))
            else finish_chunk d start_time s
  | _, _ => mret (STREAM_ERROR_NULL, stream)
  end.

(** The timeout is read from the stream before it is tested for NULL. *)
Definition stream_send_chunk (stream : option StreamData) (data : option (list Z)) (length : Z)
  : M (StreamResult * option StreamData) :=
  match stream with
  | None => crash NullDeref
  | Some s => stream_send_chunk_ex stream data length (timeout_ms (config s))
  end.

Definition final_chunk : list Z := [48] ++ crlf ++ crlf.

Definition stream_end (stream : option StreamData) : M (Z * option StreamData) :=
  match stream with
  | None => mret (-1, None)
  | Some s =>
      if negb (is_active s) then mret (-1, stream)
      else
        s ← lock s;
        r ← if chunked_encoding s
             then send_with_timeout (client_fd s) final_chunk (timeout_ms (config s))
             else mret STREAM_SUCCESS;
        if negb (bool_decide (r = STREAM_SUCCESS)) then mret (-1, Some (unlock s))
        else
          now ← get_time_ns;
          mret (0, Some (unlock (set_active false now s)))
  end.

(** ** A whole response *)

(** A local variable before it is initialised. *)
Definition local_stream : StreamData :=
  mkStreamData 0 PNull 0 0 false false Uninit default_config no_stats None None 0 0.

Definition stream_head (is_streaming : bool) : list Z :=
  lit "HTTP/1.1 200 OK" ++ crlf
  ++ lit "Content-Type: " ++ lit (if is_streaming then "text/plain" else "application/json") ++ crlf
  ++ lit "Transfer-Encoding: chunked" ++ crlf
  ++ lit "Connection: keep-alive" ++ crlf
  ++ crlf.

(** Pieces of 32 bytes; [false] when one could not be sent. *)
Fixpoint send_pieces (rounds : nat) (text : list Z) (stream : option StreamData) : M (bool * option StreamData) :=
  match rounds, text with
  | O, _ | _, [] => mret (true, stream)
  | S rounds', _ =>
      '(r, stream) ← stream_send_chunk stream (Some text) (zlen (take 32 text));
      if negb (bool_decide (r = STREAM_SUCCESS)) then mret (false, stream)
      else send_pieces rounds' (drop 32 text) stream
  end.

Definition stream_response (fd : Z) (response : option RouteResponse) (mutex_ok malloc_ok : bool) : M Z :=
  match response with
  | None => mret (-1)
  | Some response =>
      if fd <? 0 then mret (-1)
      else
        '(r, stream) ← stream_init (Some local_stream) fd mutex_ok malloc_ok;
        if negb (bool_decide (r = STREAM_SUCCESS)) then mret (-1)
        else
          r ← send fd (stream_head (is_streaming response));
          match r with
          | Sent _ =>
              '(ok, stream) ←
                match data response with
                | Some text =>
                    if is_streaming response then send_pieces (length (cstring text)) (cstring text) stream
                    else
                      '(r, stream) ← stream_send_chunk stream (Some text) (zlen text);
                      mret (bool_decide (r = STREAM_SUCCESS), stream)
                | None => mret (true, stream)
                end;
              if negb ok then _ ← stream_cleanup stream; mret (-1)
              else
                '(_, stream) ← stream_end stream;
                _ ← stream_cleanup stream;
                mret 0
          | _ => _ ← stream_cleanup stream; mret (-1)
          end
  end.

(** ** Server-sent events *)

(** [snprintf] into an array of [size] bytes: the length of the whole text and
    the bytes of the array that were written. *)
Definition snprintf (size : Z) (text : list Z) : Z * list Z :=
  (zlen text, take (Z.to_nat (size - 1)) text ++ [0]).

Definition send_line (line : list Z) (n : Z) (stream : option StreamData) : M (option StreamData) :=
  match stream with
  | None => crash NullDeref
  | Some s => '(_, stream) ← stream_send_chunk_ex stream (Some line) n (timeout_ms (config s)); mret stream
  end.

(** The results of the sends are not looked at. *)
Definition stream_send_sse (stream : option StreamData) (event data : option (list Z)) (data_len : Z)
  : M (Z * option StreamData) :=
  match stream, data with
  | Some _, Some d =>
      let '(hlen, header) :=
        match event with
        | Some e => snprintf 256 (lit "event: " ++ e ++ crlf)
        | None => (0, [])
        end in
      t ← get_time_ns;
      let '(_, id_buf) := snprintf 64 (lit "id: " ++ dec (t mod 1000000) ++ crlf) in
      stream ← send_line (cstring id_buf) (zlen (cstring id_buf)) stream;
      stream ← if hlen >? 0 then send_line header hlen stream else mret stream;
      let '(dhlen, data_header) := snprintf 32 (lit "data: ") in
      stream ← send_line data_header dhlen stream;
      stream ← send_line d data_len stream;
      stream ← send_line (crlf ++ crlf) 4 stream;
      mret (0, stream)
  | _, _ => mret (-1, stream)
  end.

(** ** Callbacks and statistics *)

Definition stream_send_with_callback (stream : option StreamData) (data : option (list Z)) (length : Z)
    (cb : option Z) (ud : Z) : M (StreamResult * option StreamData) :=
  match stream, data with
  | Some s, Some _ =>
      if length =? 0 then mret (STREAM_ERROR_NULL, stream)
      else
        '(r, after) ← stream_send_chunk_ex (Some (set_callbacks cb (error_callback s) ud s)) data length
                        (timeout_ms (config s));
        mret (r, (fun s' => set_callbacks (data_callback s) (error_callback s') (user_data s) s') <$> after)
  | _, _ => mret (STREAM_ERROR_NULL, stream)
  end.

Definition stream_get_stats (stream : option StreamData) : M (option StreamStats) :=
  match stream with
  | None => mret None
  | Some s => s ← lock s; mret (Some (stats s))
  end.

Definition stream_set_callbacks (stream : option StreamData) (data_cb error_cb : option Z) (ud : Z)
  : M (option StreamData) :=
  match stream with
  | None => mret None
  | Some s => s ← lock s; mret (Some (unlock (set_callbacks data_cb error_cb ud s)))
  end.

Definition stream_result_to_string (r : StreamResult) : list Z :=
  match r with
  | STREAM_SUCCESS => lit "SUCCESS"
  | STREAM_ERROR_NULL => lit "NULL_POINTER"
  | STREAM_ERROR_INVALID_FD => lit "INVALID_FD"
  | STREAM_ERROR_MEMORY => lit "MEMORY_ERROR"
  | STREAM_ERROR_TIMEOUT => lit "TIMEOUT"
  | STREAM_ERROR_CLOSED => lit "CONNECTION_CLOSED"
  | STREAM_ERROR_OVERFLOW => lit "BUFFER_OVERFLOW"
  end.

(** ** The buffer *)

(** [data] holds the first [size] bytes of the block, those that were written. *)
Record StreamBuffer := mkStreamBuffer {
  buf_data : ptr (list Z);
  size : Z;
  pos : Z;
  capacity : Z;
  buf_mutex : mutex_state;
  buf_stats : StreamStats;
  auto_expand : bool;
  max_capacity : Z
}.

Definition set_buf_mutex (m : mutex_state) (b : StreamBuffer) : StreamBuffer :=
  mkStreamBuffer (buf_data b) (size b) (pos b) (capacity b) m (buf_stats b) (auto_expand b) (max_capacity b).

Definition buf_lock (b : StreamBuffer) : res StreamBuffer := (fun m => set_buf_mutex m b) <$> mutex_lock (buf_mutex b).
Definition buf_unlock (b : StreamBuffer) : StreamBuffer := set_buf_mutex Unlocked b.

Definition stream_buffer_init_ex (stream : option StreamBuffer) (initial_size : Z) (auto_expand : bool) (max_capacity : Z)
    (mutex_ok malloc_ok : bool) : res (StreamResult * option StreamBuffer) :=
  match stream with
  | None => Ok (STREAM_ERROR_NULL, None)
  | Some b =>
      if negb mutex_ok then Ok (STREAM_ERROR_MEMORY, stream)
      else
        b ← buf_lock (set_buf_mutex Unlocked b);
        if negb malloc_ok then
          Ok (STREAM_ERROR_MEMORY,
              Some (mkStreamBuffer PNull (size b) (pos b) (capacity b) Destroyed (buf_stats b)
                      (Stream.auto_expand b) (Stream.max_capacity b)))
        else
          Ok (STREAM_SUCCESS,
              Some (buf_unlock (mkStreamBuffer (PLive []) 0 0 initial_size (buf_mutex b) no_stats auto_expand max_capacity)))
  end.

Definition stream_buffer_init (stream : option StreamBuffer) (initial_size : Z) (mutex_ok malloc_ok : bool)
  : res (StreamResult * option StreamBuffer) :=
  stream_buffer_init_ex stream initial_size true (1024 * 1024 * 10) mutex_ok malloc_ok.

(** [memcpy(stream->data + stream->pos, data, size)] and the accounts. *)
Definition buffer_store (bytes : list Z) (n cap : Z) (b : StreamBuffer) : res (StreamResult * option StreamBuffer) :=
  match buf_data b with
  | PLive old =>
      if pos b + n <=? cap then
        let pos' := u64 (pos b + n) in
        let st := buf_stats b in
        Ok (STREAM_SUCCESS,
            Some (buf_unlock (mkStreamBuffer
              (PLive (take (Z.to_nat (pos b)) old ++ bytes ++ drop (Z.to_nat (pos b + n)) old))
              (if pos' >? size b then pos' else size b) pos' cap (buf_mutex b)
              (mkStreamStats (bytes_sent st) (bytes_received st) (chunks_sent st) (u64 (operations_count st + 1))
                 (total_time_ns st) (u64 (bytes_written st + n)) (bytes_read st))
              (auto_expand b) (max_capacity b))))
      else Fault OutOfBounds
  | PNull => Fault NullDeref
  | PFreed => Fault UseAfterFree
  end.

Definition stream_buffer_write_ex (stream : option StreamBuffer) (data : option (list Z)) (n : Z) (expand realloc_ok : bool)
  : res (StreamResult * option StreamBuffer) :=
  match stream, data with
  | Some b, Some d =>
      if n =? 0 then Ok (STREAM_ERROR_NULL, stream)
      else
        b ← buf_lock b;
        if zlen d <? n then Fault OutOfBounds
        else if u64 (pos b + n) >? capacity b then
          if negb expand || negb (auto_expand b) then Ok (STREAM_ERROR_OVERFLOW, Some (buf_unlock b))
          else
            match double_cap 64 (u64 (capacity b * 2)) (u64 (pos b + n)) with
            | None => Fault Diverges
            | Some cap =>
                if cap >? max_capacity b then Ok (STREAM_ERROR_OVERFLOW, Some (buf_unlock b))
                else if negb realloc_ok then Ok (STREAM_ERROR_MEMORY, Some (buf_unlock b))
                else buffer_store (take (Z.to_nat n) d) n cap b
            end
        else buffer_store (take (Z.to_nat n) d) n (capacity b) b
  | _, _ => Ok (STREAM_ERROR_NULL, stream)
  end.

Definition stream_buffer_write (stream : option StreamBuffer) (data : option (list Z)) (n : Z) (realloc_ok : bool)
  : res (StreamResult * option StreamBuffer) := stream_buffer_write_ex stream data n true realloc_ok.

(** With the bytes that were copied out. *)
Definition stream_buffer_read_ex (stream : option StreamBuffer) (has_data : bool) (n : Z) (advance : bool)
  : res (StreamResult * list Z * option StreamBuffer) :=
  match stream with
  | Some b =>
      if negb has_data || (n =? 0) then Ok (STREAM_ERROR_NULL, [], stream)
      else
        b ← buf_lock b;
        if u64 (pos b + n) >? size b then Ok (STREAM_ERROR_OVERFLOW, [], Some (buf_unlock b))
        else
          match buf_data b with
          | PLive old =>
              if pos b + n <=? zlen old then
                let st := buf_stats b in
                Ok (STREAM_SUCCESS, take (Z.to_nat n) (drop (Z.to_nat (pos b)) old),
                    Some (buf_unlock (mkStreamBuffer (buf_data b) (size b)
                      (if advance then u64 (pos b + n) else pos b) (capacity b) (buf_mutex b)
                      (mkStreamStats (bytes_sent st) (bytes_received st) (chunks_sent st) (u64 (operations_count st + 1))
                         (total_time_ns st) (bytes_written st) (u64 (bytes_read st + n)))
                      (auto_expand b) (max_capacity b))))
              else Fault OutOfBounds
          | PNull => Fault NullDeref
          | PFreed => Fault UseAfterFree
          end
  | None => Ok (STREAM_ERROR_NULL, [], None)
  end.

Definition stream_buffer_read (stream : option StreamBuffer) (has_data : bool) (n : Z)
  : res (StreamResult * list Z * option StreamBuffer) := stream_buffer_read_ex stream has_data n true.

(** The bytes beyond [size] are no longer counted as written. *)
Definition stream_buffer_reset (stream : option StreamBuffer) : res (option StreamBuffer) :=
  match stream with
  | None => Ok None
  | Some b =>
      b ← buf_lock b;
      Ok (Some (buf_unlock (mkStreamBuffer (ptr_map (fun _ => []) (buf_data b)) 0 0 (capacity b) (buf_mutex b)
                              (buf_stats b) (auto_expand b) (max_capacity b))))
  end.

Definition stream_buffer_cleanup (stream : option StreamBuffer) : res (option StreamBuffer) :=
  match stream with
  | None => Ok None
  | Some b =>
      b ← buf_lock b;
      match buf_data b with
      | PFreed => Fault UseAfterFree
      | _ => Ok (Some (mkStreamBuffer PNull 0 0 0 Destroyed (buf_stats b) (auto_expand b) (max_capacity b)))
      end
  end.

Definition stream_buffer_get_stats (stream : option StreamBuffer) : res (option StreamStats) :=
  match stream with
  | None => Ok None
  | Some b => b ← buf_lock b; Ok (Some (buf_stats b))
  end.

(** ** Chunked bodies, as a client reads them *)

Definition hex_value (c : Z) : option Z :=
  if isdigit c then Some (c - 48) else if (97 <=? c) && (c <=? 102) then Some (c - 87) else None.

Fixpoint read_hex (acc : Z) (s : list Z) : Z * list Z :=
  match s with
  | c :: s' => match hex_value c with Some v => read_hex (acc * 16 + v) s' | None => (acc, s) end
  | [] => (acc, [])
  end.

(** Chunks until the one of length zero, which ends the body. *)
Fixpoint decode_chunks (fuel : nat) (s : list Z) : option (list Z) :=
  match fuel with
  | O => None
  | S fuel' =>
      let '(n, r) := read_hex 0 s in
      match r with
      | 13 :: 10 :: r =>
          if n =? 0 then (if bool_decide (r = crlf) then Some [] else None)
          else
            match drop (Z.to_nat n) r with
            | 13 :: 10 :: r' => (fun body => take (Z.to_nat n) r ++ body) <$> decode_chunks fuel' r'
            | _ => None
            end
      | _ => None
      end
  end.

Definition chunk (piece : list Z) : list Z := chunk_header (zlen piece) ++ piece ++ crlf.
Definition chunks (pieces : list (list Z)) : list Z := concat (map chunk pieces) ++ final_chunk.

(** What a client of the stream does: every piece, then the end. *)
Fixpoint send_all (pieces : list (list Z)) (stream : option StreamData) : M (bool * option StreamData) :=
  match pieces with
  | [] => '(r, stream) ← stream_end stream; mret (r =? 0, stream)
  | p :: pieces' =>
      '(r, stream) ← stream_send_chunk stream (Some p) (zlen p);
      if negb (bool_decide (r = STREAM_SUCCESS)) then mret (false, stream) else send_all pieces' stream
  end.

(** A stream ready to send. *)
Definition stream_open (s : StreamData) : Prop :=
  mutex s = Unlocked /\ is_active s = true /\ chunked_encoding s = true /\ timeout_ms (config s) <> 0
  /\ buffer s <> PFreed.

Lemma hex_digit_value d : 0 <= d < 16 -> hex_value (hex_digit d) = Some d.
Proof.
  intros Hd. unfold hex_value, hex_digit, isdigit. destruct (Z.ltb_spec d 10).
  - destruct (Z.leb_spec 48 (48 + d)), (Z.leb_spec (48 + d) 57); simpl; try lia. f_equal. lia.
  - destruct (Z.leb_spec 48 (87 + d)), (Z.leb_spec (87 + d) 57); simpl; try lia.
    destruct (Z.leb_spec 97 (87 + d)), (Z.leb_spec (87 + d) 102); simpl; try lia. f_equal. lia.
Qed.

Lemma read_hex_digits fuel n acc :
  (0 < fuel)%nat -> 0 <= n < 16 ^ Z.of_nat fuel -> read_hex 0 (hex_digits fuel n acc) = read_hex n acc.
Proof.
  revert n acc. induction fuel as [|fuel IH]; intros n acc Hf Hn; [lia|]. cbn [hex_digits].
  destruct (Z.ltb_spec n 16).
  - cbn [read_hex]. by rewrite hex_digit_value by lia.
  - replace (Z.of_nat (S fuel)) with (Z.succ (Z.of_nat fuel)) in Hn by lia. rewrite Z.pow_succ_r in Hn by lia.
    destruct fuel as [|fuel]; [change (16 ^ Z.of_nat 0) with 1 in Hn; lia|].
    rewrite IH; [|lia|split; [apply Z.div_pos; lia|apply Z.div_lt_upper_bound; lia]].
    cbn [read_hex]. rewrite hex_digit_value by (apply Z.mod_pos_bound; lia). f_equal.
    pose proof (Z.div_mod n 16). lia.
Qed.

Lemma read_hex_hex n r : 0 <= n -> read_hex 0 (hex n ++ crlf ++ r) = (n, crlf ++ r).
Proof.
  intros Hn. assert (forall fuel acc k, hex_digits fuel k acc ++ crlf ++ r = hex_digits fuel k (acc ++ crlf ++ r)) as E.
  { intros fuel. induction fuel as [|fuel IH]; intros acc k; [done|]. cbn [hex_digits]. destruct (k <? 16); [done|].
    by rewrite IH. }
  unfold hex. rewrite E, read_hex_digits; [done|lia|]. split; [done|].
  destruct (decide (n = 0)) as [->|]; [done|]. destruct (Z.log2_spec n); [lia|].
  apply Z.lt_le_trans with (2 ^ Z.succ (Z.log2 n)); [done|].
  transitivity (16 ^ Z.succ (Z.log2 n)); [apply Z.pow_le_mono_l; lia|]. apply Z.pow_le_mono_r; lia.
Qed.

Lemma decode_chunk_cons fuel p rest :
  p <> [] -> decode_chunks (S fuel) (chunk p ++ rest) = app p <$> decode_chunks fuel rest.
Proof.
  intros Hp. cbn [decode_chunks]. unfold chunk, chunk_header. rewrite <- !app_assoc.
  rewrite (read_hex_hex (zlen p)) by apply zlen_nonneg. cbn [crlf app].
  destruct (Z.eqb_spec (zlen p) 0) as [E|_]. { unfold zlen in E. destruct p; [done|]. simpl in E. lia. }
  unfold zlen. rewrite Nat2Z.id, drop_app_length, take_app_length. done.
Qed.

Lemma decode_print fuel pieces :
  Forall (fun p => p <> []) pieces -> (length pieces < fuel)%nat ->
  decode_chunks fuel (chunks pieces) = Some (concat pieces).
Proof.
  intros Hp. unfold chunks. revert fuel. induction Hp as [|p ps Hp _ IH]; intros fuel Hf; simpl in *.
  - by destruct fuel; [lia|].
  - destruct fuel as [|fuel]; [lia|]. rewrite <- app_assoc, decode_chunk_cons by done. by rewrite IH by lia.
Qed.

(** ** What a socket receives *)

(** A part of [data] has been added to the bytes of [fd]; all of it on success. *)
Definition wrote (fd : Z) (data : list Z) (i : io) (r : StreamResult) (i' : io) : Prop :=
  exists w, written fd i' = written fd i ++ w /\ w `prefix_of` data /\ (r = STREAM_SUCCESS -> w = data).

Lemma send_wire fd data i :
  ends (send fd data) i (fun r i' =>
    match r with
    | Sent n => exists k, n = zlen (take k data) /\ written fd i' = written fd i ++ take k data
    | _ => written fd i' = written fd i
    end).
Proof.
  unfold ends, send. destruct (sends i) as [|[n| |] rest]; try done. exists n. split; [done|]. by rewrite written_put.
Qed.

Lemma wrote_refused fd data i r i' : written fd i' = written fd i -> r <> STREAM_SUCCESS -> wrote fd data i r i'.
Proof. intros E Hr. exists []. rewrite app_nil_r. split_and!; [done|apply prefix_nil|done]. Qed.

Lemma send_loop_wire rounds fd data start t i : ends (send_loop rounds fd data start t) i (wrote fd data i).
Proof.
  revert data i. induction rounds as [|rounds IH]; intros [|c data] i; cbn [send_loop].
  1,3: apply ends_ret; exists []; by rewrite app_nil_r. { done. }
  apply ends_bind. eapply ends_mono; [apply send_wire|]. intros [n| |] i1 H.
  - destruct H as (k & -> & E). destruct (Z.gtb_spec (zlen (take k (c :: data))) 0) as [Hn|Hn].
    + eapply ends_mono; [apply IH|]. intros r i2 (w & E2 & Hw & Hs).
      unfold zlen in *. rewrite Nat2Z.id in *. rewrite E, <- app_assoc in E2. eexists. split; [done|].
      set (d := c :: data) in *. assert (drop (length (take k d)) d = drop k d) as Hd.
      { rewrite length_take. destruct (decide (k <= length d)%nat); [by rewrite Nat.min_l by lia|].
        rewrite Nat.min_r by lia. by rewrite !drop_ge by lia. }
      rewrite Hd in *. split.
      * rewrite <- (take_drop k d) at 2. by apply prefix_app.
      * intros Hr. rewrite Hs by done. apply take_drop.
    + apply ends_ret. unfold zlen in Hn. assert (take k (c :: data) = []) as Hk
        by (destruct (take k (c :: data)); [done|simpl in Hn; lia]).
      apply wrote_refused; [by rewrite E, Hk, app_nil_r|done].
  - apply ends_bind. unfold ends at 1, get_time_ns. destruct (_ >=? t).
    + apply ends_ret. by apply wrote_refused.
    + eapply ends_mono; [apply IH|]. intros r i2 (w & E2 & Hw & Hs). exists w. split_and!; [|done..].
      rewrite E2. unfold written in *. simpl. by rewrite H.
  - apply ends_ret. by apply wrote_refused.
Qed.

Lemma send_with_timeout_wire fd data t i : ends (send_with_timeout fd data t) i (wrote fd data i).
Proof.
  unfold send_with_timeout, ends. destruct (t =? 0).
  - change (ends (send fd data ≫= fun r => mret (if bool_decide (r = Sent (zlen data)) then STREAM_SUCCESS
      else STREAM_ERROR_CLOSED)) i (wrote fd data i)).
    apply ends_bind. eapply ends_mono; [apply send_wire|]. intros r i1 H. apply ends_ret.
    destruct r as [n| |]; case_bool_decide as Hb; try done; try by apply wrote_refused.
    + destruct H as (k & -> & E). injection Hb as Hb. exists (take k data). split; [done|].
      split; [apply prefix_take|]. intros _. apply take_ge. unfold zlen in Hb. rewrite length_take in Hb. lia.
    + destruct H as (k & -> & E). exists (take k data). split; [done|]. split; [apply prefix_take|done].
  - pose proof (send_loop_wire (length (sends i)) fd data (u64 (clock i (reads i))) (u64 (t * 1000000))
      (tick i)) as H. exact H.
Qed.

Lemma wrote_app fd a b i i1 r i2 :
  wrote fd a i STREAM_SUCCESS i1 -> wrote fd b i1 r i2 -> wrote fd (a ++ b) i r i2.
Proof.
  intros (w1 & E1 & _ & H1) (w2 & E2 & P2 & H2). rewrite H1 in E1 by done. exists (a ++ w2).
  rewrite E2, E1, app_assoc. split_and!; [done|by apply prefix_app|]. intros Hr. by rewrite H2.
Qed.

Lemma wrote_stopped fd a b i r i1 : wrote fd a i r i1 -> r <> STREAM_SUCCESS -> wrote fd (a ++ b) i r i1.
Proof. intros (w & E & P & _) Hr. exists w. split_and!; [done|by apply prefix_app_r|done]. Qed.

Lemma wrote_same_wire fd data i i1 r i2 i3 :
  wire i1 = wire i -> wire i3 = wire i2 -> wrote fd data i1 r i2 -> wrote fd data i r i3.
Proof. unfold wrote, written. by intros -> ->. Qed.

(** The same connection, with other counters. *)
Definition same_stream (s s' : StreamData) : Prop :=
  client_fd s' = client_fd s /\ mutex s' = mutex s /\ is_active s' = is_active s
  /\ chunked_encoding s' = chunked_encoding s /\ config s' = config s /\ buffer s' = buffer s.

Definition sent_part (bytes : list Z) (s : StreamData) (i : io) (x : StreamResult * StreamData) (i' : io) : Prop :=
  wrote (client_fd s) bytes i x.1 i' /\ same_stream s x.2.

Lemma send_part_wire bytes t s i : ends (send_part bytes t s) i (sent_part bytes s i).
Proof.
  apply ends_bind. eapply ends_mono; [apply send_with_timeout_wire|]. intros r i1 H. apply ends_ret.
  split; [done|]. unfold same_stream. simpl. by case_bool_decide.
Qed.

Definition open_after (s : StreamData) (o : option StreamData) : Prop :=
  exists s', o = Some s' /\ stream_open s' /\ client_fd s' = client_fd s.

Lemma open_unlock s s' : stream_open s -> same_stream (set_stream_mutex Locked s) s' -> open_after s (Some (unlock s')).
Proof.
  intros (_ & A & C & T & B) (F & _ & A' & C' & K & B'). exists (unlock s'). split; [done|]. split; [|done].
  unfold stream_open. simpl in *. rewrite A', C', K, B'. done.
Qed.

Lemma same_stream_trans s1 s2 s3 : same_stream s1 s2 -> same_stream s2 s3 -> same_stream s1 s3.
Proof. unfold same_stream. intuition congruence. Qed.

Lemma finish_chunk_wire data start s s0 i :
  stream_open s0 -> same_stream (set_stream_mutex Locked s0) s ->
  ends (finish_chunk data start s) i (fun x i' => x.1 = STREAM_SUCCESS /\ wire i' = wire i /\ open_after s0 x.2).
Proof.
  intros Ho Hs. unfold finish_chunk, ends, get_time_ns, callback, mbind, M_bind, mret, M_ret. simpl.
  destruct (data_callback s); simpl; (split_and!; [done|done|]); apply open_unlock; done.
Qed.

Lemma send_chunk_wire s p i :
  stream_open s -> p <> [] ->
  ends (stream_send_chunk (Some s) (Some p) (zlen p)) i
    (fun x i' => wrote (client_fd s) (chunk p) i x.1 i' /\ open_after s x.2).
Proof.
  intros Ho Hp. pose proof Ho as (Hm & Ha & Hc & Ht & Hb). unfold stream_send_chunk, stream_send_chunk_ex.
  rewrite Ha, orb_false_r. destruct (Z.eqb_spec (zlen p) 0) as [E|_].
  { unfold zlen in E. destruct p; [done|simpl in E; lia]. }
  apply ends_bind. unfold ends at 1, lock, of_res. rewrite Hm. simpl.
  apply ends_bind. unfold ends at 1, get_time_ns. set (i1 := tick _).
  apply ends_bind. unfold ends at 1, bytes_at. rewrite Z.leb_refl, take_zlen. simpl. rewrite Hc.
  set (s1 := set_stream_mutex Locked s).
  apply ends_bind. eapply ends_mono; [apply send_part_wire|]. intros [r s2] i2 [W2 S2]. simpl in W2, S2.
  assert (wrote (client_fd s) (chunk_header (zlen p)) i r i2) as W2' by exact W2. unfold chunk.
  case_bool_decide as Hr; simpl; [|apply ends_ret; split; [by apply wrote_stopped|by apply open_unlock]].
  subst r. apply ends_bind. eapply ends_mono; [apply send_part_wire|]. intros [r s3] i3 [W3 S3]. simpl in W3, S3.
  assert (wrote (client_fd s) p i2 r i3) as W3' by (destruct S2 as (F & _); rewrite F in W3; exact W3).
  pose proof (same_stream_trans _ _ _ S2 S3) as S13.
  pose proof (wrote_app _ _ _ _ _ _ _ W2' W3') as W13.
  case_bool_decide as Hr; simpl;
    [|apply ends_ret; split; [rewrite app_assoc; by apply wrote_stopped|by apply open_unlock]].
  subst r. assert (chunked_encoding s3 = true) as -> by (destruct S13 as (_ & _ & _ & -> & _); done).
  apply ends_bind. eapply ends_mono; [apply send_part_wire|]. intros [r s4] i4 [W4 S4]. simpl in W4, S4.
  assert (wrote (client_fd s) crlf i3 r i4) as W4' by (destruct S13 as (F & _); rewrite F in W4; exact W4).
  pose proof (same_stream_trans _ _ _ S13 S4) as S14.
  pose proof (wrote_app _ _ _ _ _ _ _ W13 W4') as W14. rewrite <- app_assoc in W14.
  case_bool_decide as Hr; simpl; [|apply ends_ret; split; [done|by apply open_unlock]].
  subst r. eapply ends_mono; [by apply (finish_chunk_wire _ _ _ s)|]. intros [r o] i5 (Hr & Hw & Hop). simpl in *. subst r.
  split; [|done]. by eapply wrote_same_wire.
Qed.

Lemma stream_end_wire s i :
  stream_open s ->
  ends (stream_end (Some s)) i (fun x i' => exists w, written (client_fd s) i' = written (client_fd s) i ++ w
    /\ w `prefix_of` final_chunk /\ (x.1 = 0 -> w = final_chunk)).
Proof.
  intros (Hm & Ha & Hc & Ht & Hb). unfold stream_end. rewrite Ha. simpl.
  apply ends_bind. unfold ends at 1, lock, of_res. rewrite Hm. simpl. rewrite Hc.
  apply ends_bind. eapply ends_mono; [apply send_with_timeout_wire|]. intros r i1 (w & E & P & Hs).
  case_bool_decide as Hr; simpl.
  - apply ends_bind. unfold ends at 1, get_time_ns. apply ends_ret. exists w. split_and!; try done. intros _. by apply Hs.
  - apply ends_ret. exists w. split_and!; done.
Qed.

Lemma send_all_wire pieces s i :
  stream_open s -> Forall (fun p => p <> []) pieces ->
  ends (send_all pieces (Some s)) i (fun x i' => exists w, written (client_fd s) i' = written (client_fd s) i ++ w
    /\ w `prefix_of` chunks pieces /\ (x.1 = true -> w = chunks pieces)).
Proof.
  intros Ho Hp. revert s i Ho. induction Hp as [|p ps Hp _ IH]; intros s i Ho; cbn [send_all].
  - apply ends_bind. eapply ends_mono; [by apply stream_end_wire|]. intros [r o] i1 (w & E & P & Hs). apply ends_ret.
    exists w. split_and!; try done. simpl in *. intros Hr. apply Hs. by apply Z.eqb_eq.
  - apply ends_bind. eapply ends_mono; [by apply send_chunk_wire|]. intros [r o] i1 [W (s' & Eo & Ho' & F)].
    simpl in W, Eo. subst o. change (chunks (p :: ps)) with ((chunk p ++ concat (map chunk ps)) ++ final_chunk). rewrite <- app_assoc.
    case_bool_decide as Hr; simpl.
    + eapply ends_mono; [by apply IH|]. intros [b o] i2 (w & E & P & Hs). simpl in *. rewrite F in E.
      destruct W as (w1 & E1 & _ & H1). rewrite H1 in E1 by done. exists (chunk p ++ w).
      rewrite E, E1, app_assoc. split_and!; [done|by apply prefix_app|]. intros Hb. by rewrite Hs.
    + apply ends_ret. destruct W as (w1 & E1 & P1 & _). exists w1. split_and!; [done|by apply prefix_app_r|done].
Qed.

(** ** A socket that keeps taking bytes *)

(** [n] more sends will each take something. *)
Definition ready (n : nat) (i : io) : Prop := Forall takes_some (sends i) /\ (n <= length (sends i))%nat.

Lemma ready_send fd data n i :
  data <> [] -> ready (length data + n) i ->
  exists k i', (0 < k)%nat /\ send fd data i = Done (Sent (zlen (take k data))) i' /\ ready (length (drop k data) + n) i'
    /\ reads i' = reads i /\ S (length (sends i')) = length (sends i).
Proof.
  intros Hd [Hf Hl]. unfold send. destruct (sends i) as [|[[|k]| |] rest] eqn:E; try by inversion Hf.
  - destruct data; [done|]. simpl in Hl. lia.
  - exists (S k). eexists. split; [lia|]. split; [reflexivity|]. split; [|done].
    inversion Hf; subst. split; [done|]. simpl in *. rewrite length_drop. destruct data; [done|]. simpl in *. lia.
Qed.

Lemma ready_loop rounds fd data n start t i :
  ready (length data + n) i -> (length data <= rounds)%nat ->
  returns (send_loop rounds fd data start t) i (fun r i' => r = STREAM_SUCCESS /\ ready n i').
Proof.
  revert data i. induction rounds as [|rounds IH]; intros [|c data] i Hr Hl; cbn [send_loop]; try by apply returns_ret.
  { simpl in Hl. lia. }
  destruct (ready_send fd (c :: data) n i) as (k & i1 & Hk & E & R & _); [done|done|].
  apply returns_bind. exists (Sent (zlen (take k (c :: data)))), i1. split; [done|]. cbv beta iota.
  assert (0 < length (take k (c :: data)))%nat as Hpos by (rewrite length_take; simpl; lia).
  destruct (Z.gtb_spec (zlen (take k (c :: data))) 0) as [_|Hz]; [|unfold zlen in Hz; lia].
  assert (length (drop (length (take k (c :: data))) (c :: data)) = length (drop k (c :: data))) as Hdrop
    by (rewrite !length_drop, length_take; lia).
  apply IH; unfold zlen; rewrite Nat2Z.id, Hdrop; [done|]. rewrite length_drop. simpl in *. lia.
Qed.

Lemma ready_send_timeout fd data t n i :
  t <> 0 -> ready (length data + n) i ->
  returns (send_with_timeout fd data t) i (fun r i' => r = STREAM_SUCCESS /\ ready n i').
Proof.
  intros Ht Hr. unfold send_with_timeout, returns. destruct (Z.eqb_spec t 0); [done|].
  unfold get_time_ns, mbind, M_bind at 1. destruct (ready_loop (length (sends i)) fd data n (u64 (clock i (reads i)))
    (u64 (t * 1000000)) (tick i)) as (r & i' & E & H); [done| |].
  - destruct Hr as [_ Hl]. lia.
  - exists r, i'. by split.
Qed.

Lemma ready_part bytes t s n i :
  t <> 0 -> ready (length bytes + n) i ->
  returns (send_part bytes t s) i (fun x i' => (x.1 = STREAM_SUCCESS /\ same_stream s x.2) /\ ready n i').
Proof.
  intros Ht Hr. apply returns_bind. eapply returns_mono; [by apply ready_send_timeout|]. intros r i1 [-> R].
  apply returns_ret. done.
Qed.

Lemma ready_finish_chunk data start s s0 n i :
  stream_open s0 -> same_stream (set_stream_mutex Locked s0) s -> ready n i ->
  returns (finish_chunk data start s) i (fun x i' => (x.1 = STREAM_SUCCESS /\ open_after s0 x.2) /\ ready n i').
Proof.
  intros Ho Hs Hr. unfold finish_chunk, returns, get_time_ns, callback, mbind, M_bind, mret, M_ret. simpl.
  destruct (data_callback s); simpl; (eexists _, _; split; [done|]; split; [split; [done|]|done]; by apply open_unlock).
Qed.

Lemma ready_chunk s p n i :
  stream_open s -> p <> [] -> ready (length (chunk p) + n) i ->
  returns (stream_send_chunk (Some s) (Some p) (zlen p)) i
    (fun x i' => (x.1 = STREAM_SUCCESS /\ open_after s x.2) /\ ready n i').
Proof.
  intros Ho Hp Hr. pose proof Ho as (Hm & Ha & Hc & Ht & Hb). unfold stream_send_chunk, stream_send_chunk_ex.
  rewrite Ha, orb_false_r. destruct (Z.eqb_spec (zlen p) 0) as [E|_].
  { unfold zlen in E. destruct p; [done|simpl in E; lia]. }
  unfold chunk in Hr. rewrite !length_app, <- !Nat.add_assoc in Hr.
  apply returns_bind. eexists _, _. split. { unfold lock, of_res. rewrite Hm. reflexivity. }
  apply returns_bind. eexists _, _. split; [reflexivity|].
  apply returns_bind. eexists _, _. split. { unfold bytes_at. rewrite Z.leb_refl, take_zlen. reflexivity. }
  cbn [chunked_encoding set_stream_mutex]. rewrite Hc. set (s1 := set_stream_mutex Locked s).
  apply returns_bind. eapply returns_mono; [apply ready_part; [done|]; exact Hr|].
  intros [r s2] i2 [[Hr2 S2] R2]. simpl in Hr2, S2. subst r. simpl.
  apply returns_bind. eapply returns_mono; [apply ready_part; [done|]; exact R2|].
  intros [r s3] i3 [[Hr3 S3] R3]. simpl in Hr3, S3. subst r. simpl.
  pose proof (same_stream_trans _ _ _ S2 S3) as S13.
  assert (chunked_encoding s3 = true) as -> by (destruct S13 as (_ & _ & _ & -> & _); done).
  apply returns_bind. eapply returns_mono; [apply ready_part; [done|]; exact R3|].
  intros [r s4] i4 [[Hr4 S4] R4]. simpl in Hr4, S4. subst r. simpl.
  apply ready_finish_chunk; try done. exact (same_stream_trans _ _ _ S13 S4).
Qed.

Lemma ready_end s n i :
  stream_open s -> ready (length final_chunk + n) i ->
  returns (stream_end (Some s)) i (fun x i' => x.1 = 0 /\ ready n i').
Proof.
  intros (Hm & Ha & Hc & Ht & Hb) Hr. unfold stream_end. rewrite Ha. simpl.
  apply returns_bind. eexists _, _. split. { unfold lock, of_res. rewrite Hm. reflexivity. }
  cbn [chunked_encoding set_stream_mutex]. rewrite Hc.
  apply returns_bind. eapply returns_mono; [apply ready_send_timeout; [done|]; exact Hr|]. intros r i1 [-> R]. simpl.
  apply returns_bind. eexists _, _. split; [reflexivity|]. by apply returns_ret.
Qed.

Lemma ready_all pieces s n i :
  stream_open s -> Forall (fun p => p <> []) pieces -> ready (length (chunks pieces) + n) i ->
  returns (send_all pieces (Some s)) i (fun x i' => x.1 = true /\ ready n i').
Proof.
  intros Ho Hp. revert s i Ho. induction Hp as [|p ps Hp _ IH]; intros s i Ho Hr; cbn [send_all].
  - apply returns_bind. eapply returns_mono; [apply ready_end; [done|exact Hr]|]. intros [r o] i1 [E R]. simpl in E. subst r.
    by apply returns_ret.
  - unfold chunks in Hr. cbn [map concat] in Hr. rewrite <- app_assoc, length_app, <- Nat.add_assoc in Hr.
    apply returns_bind. eapply returns_mono; [apply ready_chunk; [done|done|exact Hr]|].
    intros [r o] i1 [[E (s' & Eo & Ho' & F)] R]. simpl in E, Eo. subst r o. simpl. by apply IH.
Qed.

(** ** The deadline *)

(** At the reading [last] of the clock [timeout] has passed since [start]. *)
Definition passed (i : io) (start timeout : Z) (last : nat) : Prop := timeout <= u64 (u64 (clock i last) - start).

Lemma loop_returns rounds fd data start t last i :
  passed i start t last -> (reads i <= last)%nat -> (length data + (last - reads i) < rounds)%nat ->
  (rounds <= length (sends i))%nat ->
  returns (send_loop rounds fd data start t) i (fun _ _ => True).
Proof.
  revert data i. induction rounds as [|rounds IH]; intros [|c data] i Hp Hle Hl Hs; cbn [send_loop];
    try by apply returns_ret. { lia. }
  destruct (sends i) as [|[n| |] rest] eqn:E; [simpl in Hs; lia| | |]; simpl in Hs.
  - apply returns_bind. eexists _, _. split. { unfold send. rewrite E. reflexivity. } cbv beta iota.
    destruct (Z.gtb_spec (zlen (take n (c :: data))) 0) as [Hz|_]; [|by apply returns_ret].
    apply IH; simpl; [done|done| |lia]. unfold zlen in *. rewrite length_drop. simpl in *. lia.
  - apply returns_bind. eexists _, _. split. { unfold send. rewrite E. reflexivity. }
    apply returns_bind. eexists _, _. split; [reflexivity|]. simpl.
    destruct (Z.geb_spec (u64 (u64 (clock i (reads i)) - start)) t) as [|Hlt]; [by apply returns_ret|].
    destruct (decide (last = reads i)) as [->|Hne]; [unfold passed in Hp; lia|].
    apply IH; simpl in *; [done|lia|lia|lia].
  - apply returns_bind. eexists _, _. split. { unfold send. rewrite E. reflexivity. } by apply returns_ret.
Qed.

(** ** The buffer *)

Inductive buffer_op :=
| BWrite (data : list Z) (expand realloc_ok : bool)
| BRead (n : Z) (advance : bool)
| BReset.

Definition buffer_exec (o : buffer_op) (b : StreamBuffer) : res StreamBuffer :=
  default b <$>
  match o with
  | BWrite d expand realloc_ok => snd <$> stream_buffer_write_ex (Some b) (Some d) (zlen d) expand realloc_ok
  | BRead n advance => snd <$> stream_buffer_read_ex (Some b) true n advance
  | BReset => stream_buffer_reset (Some b)
  end.

Definition buffer_op_ok (o : buffer_op) (_ : StreamBuffer) : Prop :=
  match o with BWrite d _ _ => zlen d <= 2 ^ 62 | BRead n _ => 0 <= n <= 2 ^ 62 | BReset => True end.

(** The position is the end of what was written. *)
Record buffer_ok (limit : Z) (b : StreamBuffer) : Prop := {
  bo_mutex : buf_mutex b = Unlocked;
  bo_pos : pos b = size b;
  bo_data : exists d, buf_data b = PLive d /\ zlen d = size b;
  bo_room : size b <= capacity b;
  bo_capacity : 0 < capacity b <= limit;
  bo_limit : max_capacity b <= limit
}.

Definition BUFFER_LIMIT : Z := 2 ^ 62.

Lemma buffer_store_ok bytes n cap b :
  n = zlen bytes -> 0 <= n -> pos b + n <= cap -> 0 < cap <= BUFFER_LIMIT -> max_capacity b <= BUFFER_LIMIT ->
  pos b = size b -> (exists d, buf_data b = PLive d /\ zlen d = size b) ->
  exists b', buffer_store bytes n cap b = Ok (STREAM_SUCCESS, Some b') /\ buffer_ok BUFFER_LIMIT b'
    /\ buf_data b' = ptr_map (fun d => d ++ bytes) (buf_data b).
Proof.
  intros -> Hn Hcap Hc Hmax Hpos (d & Hd & Hlen). unfold BUFFER_LIMIT in *. unfold buffer_store. rewrite Hd.
  pose proof (zlen_nonneg d). destruct (Z.leb_spec (pos b + zlen bytes) cap); [|lia].
  rewrite !u64_small by lia.
  assert ((if pos b + zlen bytes >? size b then pos b + zlen bytes else size b) = pos b + zlen bytes) as E
    by (destruct (Z.gtb_spec (pos b + zlen bytes) (size b)); lia).
  assert (take (Z.to_nat (pos b)) d ++ bytes ++ drop (Z.to_nat (pos b + zlen bytes)) d = d ++ bytes) as E2.
  { unfold zlen in *. rewrite take_ge, drop_ge, app_nil_r by lia. done. }
  eexists. split; [reflexivity|]. rewrite E, E2. split; [|done]. split; simpl; try done; try lia.
  eexists. split; [reflexivity|]. rewrite zlen_app. lia.
Qed.

Lemma buffer_unlock_ok limit b :
  buffer_ok limit b -> buffer_ok limit (buf_unlock (set_buf_mutex Locked b)).
Proof. intros [? ? ? ? ? ?]. by split. Qed.

Lemma buffer_write_ok d expand realloc_ok b :
  buffer_ok BUFFER_LIMIT b -> zlen d <= BUFFER_LIMIT ->
  exists r b', stream_buffer_write_ex (Some b) (Some d) (zlen d) expand realloc_ok = Ok (r, Some b')
    /\ buffer_ok BUFFER_LIMIT b'
    /\ buf_data b' = (if bool_decide (r = STREAM_SUCCESS) then ptr_map (fun l => l ++ d) (buf_data b) else buf_data b).
Proof.
  intros Hok Hd. pose proof Hok as [Hm Hp (l & Hl & Hlen) Hr Hc Hx]. unfold BUFFER_LIMIT in *.
  pose proof (zlen_nonneg d). pose proof (zlen_nonneg l).
  unfold stream_buffer_write_ex. destruct (Z.eqb_spec (zlen d) 0). { by exists STREAM_ERROR_NULL, b. }
  unfold buf_lock. rewrite Hm. simpl. rewrite Z.ltb_irrefl, take_zlen, (u64_small (pos b + _)) by lia.
  destruct (Z.gtb_spec (pos b + zlen d) (capacity b)) as [Hgt|Hle].
  - destruct (negb expand || negb (auto_expand b)).
    { eexists _, _. split; [reflexivity|]. split; [|done]. by apply buffer_unlock_ok. }
    destruct (double_cap_total (u64 (capacity b * 2)) (pos b + zlen d)) as [cap Hcap]; [rewrite u64_small; lia|lia|].
    rewrite Hcap. apply double_cap_ge in Hcap. destruct (Z.gtb_spec cap (max_capacity b)).
    { eexists _, _. split; [reflexivity|]. split; [|done]. by apply buffer_unlock_ok. }
    destruct realloc_ok; simpl.
    + destruct (buffer_store_ok d (zlen d) cap (set_buf_mutex Locked b)) as (b' & E & Hb & Hdat);
        [simpl; unfold BUFFER_LIMIT; try done; try lia; eauto..|]. rewrite E. by exists STREAM_SUCCESS, b'.
    + eexists _, _. split; [reflexivity|]. split; [|done]. by apply buffer_unlock_ok.
  - destruct (buffer_store_ok d (zlen d) (capacity b) (set_buf_mutex Locked b)) as (b' & E & Hb & Hdat);
      [simpl; unfold BUFFER_LIMIT; try done; try lia; eauto..|]. rewrite E. by exists STREAM_SUCCESS, b'.
Qed.

Lemma buffer_read_fails n advance b :
  buffer_ok BUFFER_LIMIT b -> 0 < n <= BUFFER_LIMIT ->
  stream_buffer_read_ex (Some b) true n advance = Ok (STREAM_ERROR_OVERFLOW, [], Some b).
Proof.
  intros [Hm Hp (l & Hl & Hlen) Hr Hc Hx] Hn. unfold BUFFER_LIMIT in *. pose proof (zlen_nonneg l).
  unfold stream_buffer_read_ex. simpl. destruct (Z.eqb_spec n 0); [lia|].
  unfold buf_lock. rewrite Hm. simpl. rewrite u64_small by lia.
  destruct (Z.gtb_spec (pos b + n) (size b)); [|lia]. do 2 f_equal. destruct b. simpl in *. by subst.
Qed.

Lemma buffer_exec_ok o b :
  buffer_ok BUFFER_LIMIT b -> buffer_op_ok o b -> res_sat (buffer_ok BUFFER_LIMIT) (buffer_exec o b).
Proof.
  intros Hok Ho. destruct o as [d expand realloc_ok|n advance|]; unfold buffer_exec; cbn [buffer_op_ok] in Ho.
  - destruct (buffer_write_ok d expand realloc_ok b Hok Ho) as (r & b' & -> & Hb & _). exact Hb.
  - destruct (decide (n = 0)) as [->|Hn]; [done|].
    rewrite buffer_read_fails; [exact Hok|done|]. change BUFFER_LIMIT with (2 ^ 62). lia.
  - destruct Hok as [Hm Hp (l & Hl & Hlen) Hr Hc Hx]. unfold stream_buffer_reset, buf_lock. rewrite Hm. simpl.
    split; simpl; try done; try lia. exists []. by rewrite Hl.
Qed.

#[export] Instance buffer_component : Component StreamBuffer buffer_op := {|
  run_op := buffer_exec;
  allowed := buffer_op_ok;
  invariant := buffer_ok BUFFER_LIMIT;
  invariant_kept o b Hb Ho := buffer_exec_ok o b Hb Ho
|}.

Lemma buffer_init_ok stream initial_size b :
  0 < initial_size <= BUFFER_LIMIT ->
  stream_buffer_init (Some stream) initial_size true true = Ok (STREAM_SUCCESS, Some b) -> buffer_ok BUFFER_LIMIT b.
Proof.
  intros Hs. unfold BUFFER_LIMIT in *. cbn. intros [= <-]. split; simpl; try done; try lia. by exists [].
Qed.

(** ** Whole responses *)

(** The text in pieces of 32 bytes. *)
Fixpoint split32 (rounds : nat) (text : list Z) : list (list Z) :=
  match rounds, text with
  | O, _ | _, [] => []
  | S rounds', _ => take 32 text :: split32 rounds' (drop 32 text)
  end.

Lemma split32_concat rounds text : (length text <= rounds)%nat -> concat (split32 rounds text) = text.
Proof.
  revert text. induction rounds as [|rounds IH]; intros [|c text] Hl; try done. { simpl in Hl. lia. }
  cbn [split32 concat]. rewrite IH; [apply take_drop|]. rewrite length_drop. simpl in *. lia.
Qed.

Lemma split32_nonempty rounds text : Forall (fun p => p <> []) (split32 rounds text).
Proof.
  revert text. induction rounds as [|rounds IH]; intros [|c text]; cbn [split32]; constructor; [done|apply IH].
Qed.

Lemma split32_length rounds text : (length (split32 rounds text) <= rounds)%nat.
Proof.
  revert text. induction rounds as [|rounds IH]; intros [|c text]; cbn [split32 length]; try lia.
  specialize (IH (drop 32 (c :: text))). lia.
Qed.

(** Only the bytes that are sent matter. *)
Lemma send_chunk_take stream text n :
  0 <= n <= zlen text ->
  stream_send_chunk stream (Some text) n = stream_send_chunk stream (Some (take (Z.to_nat n) text)) n.
Proof.
  intros Hn. unfold stream_send_chunk, stream_send_chunk_ex. destruct stream as [s|]; [|done].
  assert (bytes_at text n = bytes_at (take (Z.to_nat n) text) n) as ->; [|done].
  unfold bytes_at. rewrite take_take, Nat.min_id. unfold zlen in *. rewrite length_take.
  destruct (Z.leb_spec n (Z.of_nat (length text))), (Z.leb_spec n (Z.of_nat (Z.to_nat n `min` length text))); done || lia.
Qed.

Definition sent_all (fd : Z) (bytes : list Z) (i i' : io) : Prop := written fd i' = written fd i ++ bytes.

Lemma chunk_run s p n i :
  stream_open s -> p <> [] -> ready (length (chunk p) + n) i ->
  returns (stream_send_chunk (Some s) (Some p) (zlen p)) i
    (fun x i' => x.1 = STREAM_SUCCESS /\ open_after s x.2 /\ ready n i' /\ sent_all (client_fd s) (chunk p) i i').
Proof.
  intros Ho Hp Hr. eapply returns_mono.
  - apply returns_ends; [by apply ready_chunk|by apply send_chunk_wire].
  - intros [r o] i' [[[E Hop] R] [(w & Ew & _ & Hw) _]]. simpl in *. subst r. rewrite Hw in Ew by done. done.
Qed.

Lemma pieces_run rounds text s n i :
  stream_open s -> ready (length (concat (map chunk (split32 rounds text))) + n) i ->
  returns (send_pieces rounds text (Some s)) i (fun x i' => x.1 = true /\ open_after s x.2 /\ ready n i'
    /\ sent_all (client_fd s) (concat (map chunk (split32 rounds text))) i i').
Proof.
  revert text s i. induction rounds as [|rounds IH]; intros [|c text] s i Ho Hr; cbn [send_pieces split32] in *;
    try (apply returns_ret; split_and!; [done|by exists s|done|]; unfold sent_all; by rewrite app_nil_r).
  cbn [map concat] in *. rewrite length_app, <- Nat.add_assoc in Hr.
  rewrite send_chunk_take by (unfold zlen; rewrite length_take; lia). rewrite take_zlen_take.
  apply returns_bind. eapply returns_mono; [apply chunk_run; [done|done|exact Hr]|].
  intros [r o] i1 (E & (s' & Eo & Ho' & F) & R & W). simpl in E, Eo. subst r o. simpl.
  eapply returns_mono; [by apply IH|]. intros [b o] i2 (Hb & (s2 & Eo & Ho2 & F2) & R2 & W2). simpl in *.
  split_and!; [done|exists s2; split_and!; [done|done|congruence]|done|].
  unfold sent_all in *. rewrite F in W2. by rewrite W2, W, app_assoc.
Qed.

Lemma init_open fd i :
  0 <= fd -> exists s i', stream_init (Some local_stream) fd true true i = Done (STREAM_SUCCESS, Some s) i'
    /\ stream_open s /\ client_fd s = fd /\ sends i' = sends i /\ wire i' = wire i.
Proof.
  intros Hfd. unfold stream_init, stream_init_ex. destruct (Z.ltb_spec fd 0); [lia|]. eexists _, _.
  split; [reflexivity|]. by repeat split.
Qed.

Lemma end_run s n i :
  stream_open s -> ready (length final_chunk + n) i ->
  returns (stream_end (Some s)) i (fun x i' => x.1 = 0 /\ sent_all (client_fd s) final_chunk i i'
    /\ exists s', x.2 = Some s' /\ mutex s' = Unlocked /\ buffer s' <> PFreed).
Proof.
  intros Ho Hr. pose proof Ho as (Hm & Ha & Hc & Ht & Hb).
  destruct (ready_end s n i Ho Hr) as ([r o] & i' & E & Hr0 & _). simpl in Hr0. subst r.
  exists (0, o), i'. split; [done|].
  pose proof (ends_done _ _ _ _ _ (stream_end_wire s i Ho) E) as (w & Ew & _ & Hw). rewrite Hw in Ew by done.
  split_and!; [done|done|]. revert E. unfold stream_end. rewrite Ha. simpl.
  unfold lock, of_res, mbind at 1, M_bind at 1. rewrite Hm. simpl. rewrite Hc. intros E.
  apply bind_Done in E as (r & i1 & _ & E). case_bool_decide; [|discriminate E].
  injection E as <- _. by eexists.
Qed.

Lemma cleanup_run s i :
  mutex s = Unlocked -> buffer s <> PFreed ->
  returns (stream_cleanup (Some s)) i (fun _ i' => i' = i).
Proof.
  intros Hm Hb. unfold stream_cleanup. eapply returns_step. { unfold lock, of_res. rewrite Hm. reflexivity. }
  cbn [buffer set_stream_mutex]. destruct (buffer s); [by apply returns_ret|by apply returns_ret|done].
Qed.

(** ** Properties *)

(** C14: Whatever the socket does - takes a few bytes at a time, blocks, fails -
    the bytes it has taken are a prefix of the chunks of the pieces; when every
    call has answered with success they decode to the pieces in order; and on a
    socket that always takes something every call does. *)
Theorem chunked_stream_decodes pieces s i :
  stream_open s -> Forall (fun p => p <> []) pieces ->
  ends (send_all pieces (Some s)) i (fun x i' => exists w, written (client_fd s) i' = written (client_fd s) i ++ w
    /\ w `prefix_of` chunks pieces
    /\ (x.1 = true -> decode_chunks (S (length pieces)) w = Some (concat pieces)))
  /\ (Forall takes_some (sends i) -> (length (chunks pieces) <= length (sends i))%nat ->
      returns (send_all pieces (Some s)) i (fun x _ => x.1 = true)).
Proof.
  intros Ho Hp. split.
  - eapply ends_mono; [by apply send_all_wire|]. intros [b o] i' (w & E & P & Hw). exists w. split_and!; [done|done|].
    cbn [fst] in *. intros Hb. rewrite Hw by done. apply decode_print; [done|lia].
  - intros Ht Hl. eapply returns_mono; [apply (ready_all pieces s 0 i); [done|done|]|by intros x i' [Hx _]].
    split; [done|lia].
Qed.

(** C20: A send with a deadline always comes to an end: if some later reading of
    the clock is past the deadline, the call returns after at most as many answers
    of the socket as there are bytes and readings until then, and one more. *)
Theorem send_with_timeout_returns fd data timeout_ms last i :
  timeout_ms <> 0 ->
  passed i (u64 (clock i (reads i))) (u64 (timeout_ms * 1000000)) last ->
  (reads i < last)%nat -> (length data + (last - S (reads i)) < length (sends i))%nat ->
  returns (send_with_timeout fd data timeout_ms) i (fun _ _ => True).
Proof.
  intros Ht Hp Hlast Hl. unfold send_with_timeout, returns. destruct (Z.eqb_spec timeout_ms 0); [done|].
  destruct (loop_returns (length (sends i)) fd data (u64 (clock i (reads i))) (u64 (timeout_ms * 1000000)) last
    (tick i)) as (r & i' & E & _); [done|done|done|done|].
  exists r, i'. by split.
Qed.

(** A response sent as a stream to a socket that takes the head and then
    always something: the call answers 0, and after the head come chunks that
    decode to the text of the response. *)
Theorem stream_response_decodes fd response text n rest i :
  0 <= fd -> data response = Some text -> is_streaming response = true ->
  sends i = Accepts n :: rest -> (length (stream_head true) <= n)%nat -> Forall takes_some rest ->
  (length (chunks (split32 (length (cstring text)) (cstring text))) <= length rest)%nat ->
  returns (stream_response fd (Some response) true true) i (fun r i' => r = 0
    /\ exists body, written fd i' = written fd i ++ stream_head true ++ body
       /\ forall fuel, (length text < fuel)%nat -> decode_chunks fuel body = Some (cstring text)).
Proof.
  intros Hfd Hd Hs Hsends Hn Hrest Hlen. unfold stream_response. destruct (Z.ltb_spec fd 0); [lia|]. rewrite Hd, Hs.
  destruct (init_open fd i Hfd) as (s & i1 & E1 & Ho & F & Hs1 & Hw1). eapply returns_step; [exact E1|]. cbv beta iota.
  cbn [negb bool_decide]. eapply returns_step. { unfold send. rewrite Hs1, Hsends, take_ge by done. reflexivity. }
  cbv beta iota. set (i2 := put _ _ _). unfold chunks in Hlen. rewrite length_app in Hlen.
  apply returns_bind. eapply returns_mono.
  { apply (pieces_run _ _ s (length final_chunk) i2); [done|]. split; [done|]. change (sends i2) with rest. lia. }
  intros [b o] i3 (Hb & (s' & Eo & Ho' & F') & R3 & W3). simpl in Hb, Eo. subst b o. cbn [negb].
  apply returns_bind. eapply returns_mono; [apply (end_run s' 0); [done|by rewrite Nat.add_0_r]|].
  intros [r o] i4 (_ & W4 & s4 & Eo & Hm4 & Hb4). simpl in Eo. subst o.
  apply returns_bind. eapply returns_mono; [by apply cleanup_run|]. intros o i5 ->. apply returns_ret.
  split; [done|]. exists (chunks (split32 (length (cstring text)) (cstring text))). split.
  - unfold sent_all in *. rewrite F', F in W4. rewrite F in W3. rewrite W4, W3. unfold i2.
    rewrite written_put. unfold chunks, written. cbn [wire set_sends]. by rewrite Hw1, <- !app_assoc.
  - intros fuel Hf. pose proof (split32_length (length (cstring text)) (cstring text)). pose proof (cstring_length text).
    rewrite decode_print by (apply split32_nonempty || lia). by rewrite split32_concat by lia.
Qed.

(** Writing, reading and resetting a buffer never faults, whatever
    allocations fail - and no read of at least one byte ever succeeds, because
    reads start at the position where the last write stopped: what is written can
    not be read back. *)
Theorem buffer_never_read_back stream initial_size b0 b n advance :
  0 < initial_size <= BUFFER_LIMIT ->
  stream_buffer_init (Some stream) initial_size true true = Ok (STREAM_SUCCESS, Some b0) ->
  rtc component_step b0 b ->
  (forall o, buffer_op_ok o b -> exists b', buffer_exec o b = Ok b')
  /\ (0 < n <= BUFFER_LIMIT -> stream_buffer_read_ex (Some b) true n advance = Ok (STREAM_ERROR_OVERFLOW, [], Some b)).
Proof.
  intros Hs Hi Hr. pose proof (buffer_init_ok _ _ _ Hs Hi) as Hok. split.
  - intros o Ho. destruct (component_safe (H := buffer_component) b0 b o Hok Hr Ho) as (b' & E & _). by exists b'.
  - intros Hn. apply buffer_read_fails; [|done]. exact (component_reachable (H := buffer_component) b0 b Hok Hr).
Qed.

(** A buffer made with no room: the first write doubles zero for ever. *)
Theorem empty_buffer_diverges stream b d realloc_ok :
  stream_buffer_init (Some stream) 0 true true = Ok (STREAM_SUCCESS, Some b) ->
  0 < zlen d < 2 ^ 64 -> stream_buffer_write (Some b) (Some d) (zlen d) realloc_ok = Fault Diverges.
Proof.
  cbn. intros [= <-] Hd. unfold stream_buffer_write, stream_buffer_write_ex. destruct (Z.eqb_spec (zlen d) 0); [lia|].
  cbn -[double_cap u64 zlen Z.gtb Z.mul Z.add]. rewrite Z.ltb_irrefl, Z.add_0_l, u64_small by lia.
  destruct (Z.gtb_spec (zlen d) 0); [|lia]. change (u64 (0 * 2)) with 0. by rewrite double_cap_zero by lia.
Qed.

Lemma hex_digits_length fuel n acc : (length (hex_digits fuel n acc) <= fuel + length acc)%nat.
Proof.
  revert n acc. induction fuel as [|fuel IH]; intros n acc; cbn [hex_digits]; [lia|].
  destruct (n <? 16); [simpl; lia|]. specialize (IH (n / 16) (hex_digit (n mod 16) :: acc)). simpl in IH. lia.
Qed.

Lemma short_chunk_length p : 0 < zlen p <= 64 -> (length (chunk p) <= 80)%nat.
Proof.
  intros Hp. unfold chunk, chunk_header, hex. rewrite !length_app. cbn [length crlf].
  pose proof (hex_digits_length (S (Z.to_nat (Z.log2 (zlen p)))) (zlen p) []).
  assert (Z.log2 (zlen p) <= 6) by (change 6 with (Z.log2 64); apply Z.log2_le_mono; lia).
  pose proof (Z.log2_nonneg (zlen p)). unfold zlen in *. simpl in *. lia.
Qed.

(** An event name of 248 bytes or more: the length that [snprintf] would have
    written is sent from an array of 256 bytes. *)
Theorem sse_event_overreads s event data n i :
  stream_open s -> 248 <= zlen event -> Forall takes_some (sends i) -> (80 <= length (sends i))%nat ->
  stream_send_sse (Some s) (Some event) (Some data) n i = Crashed OutOfBounds.
Proof.
  intros Ho He Hf Hl. unfold stream_send_sse, snprintf. erewrite bind_step by reflexivity.
  set (id := cstring _). set (i1 := tick _). cbv beta iota.
  assert (exists id', id = 105 :: id') as [id' Hid] by (eexists; reflexivity).
  assert (zlen id <= 64) as Hid64.
  { unfold zlen, id. etransitivity; [apply inj_le, cstring_length|]. rewrite length_app, length_take.
    change (length [0]) with 1%nat. lia. }
  destruct (chunk_run s id 0 i1) as ([r o] & i2 & E & _ & (s' & Eo & Ho' & _) & _); [done|by rewrite Hid| |].
  { split; [done|]. assert (0 < zlen id) by (rewrite Hid; unfold zlen; simpl; lia).
    pose proof (short_chunk_length id). simpl. lia. }
  simpl in Eo. subst o. rewrite (bind_step _ _ i1 (Some s') i2) by (unfold send_line; by rewrite (bind_step _ _ _ _ _ E)).
  apply bind_crashed. rewrite !zlen_app. change (zlen (lit "event: ")) with 7. change (zlen crlf) with 2.
  destruct (Z.gtb_spec (7 + (zlen event + 2)) 0); [|lia].
  apply bind_crashed. pose proof Ho' as (Hm & Ha & _).
  unfold stream_send_chunk_ex. rewrite Ha. destruct (Z.eqb_spec (7 + (zlen event + 2)) 0); [lia|]. cbn [orb negb].
  erewrite bind_step by (unfold lock, of_res; rewrite Hm; reflexivity). erewrite bind_step by reflexivity.
  apply bind_crashed. unfold bytes_at.
  match goal with |- context [?a <=? ?b] => destruct (Z.leb_spec a b) as [Hle|]; [|done] end.
  exfalso. revert Hle. unfold zlen at 2. rewrite length_app, length_take. change (length [0]) with 1%nat. lia.
Qed.

(** ** Witnesses *)

Definition demo_stream : StreamData :=
  mkStreamData 4 (PLive 8192) 8192 0 true true Unlocked default_config no_stats None None 0 0.

(** A socket that takes three bytes at a time; a clock of one second a reading. *)
Definition demo_io (n : nat) : io := mkIo (repeat (Accepts 3) n) [] (fun k => Z.of_nat k * 1000000000) 0 ∅ [] [] false.

Lemma demo_takes n : Forall takes_some (sends (demo_io n)).
Proof. simpl. induction n; by constructor. Qed.

Lemma chunked_stream_decodes_witness :
  returns (send_all [lit "hello"; lit "world!"] (Some demo_stream)) (demo_io 40) (fun x _ => x.1 = true).
Proof.
  apply (chunked_stream_decodes [lit "hello"; lit "world!"] demo_stream (demo_io 40)).
  - by repeat split.
  - by repeat constructor.
  - apply demo_takes.
  - vm_compute. lia.
Defined.

(** A socket that is never ready: the deadline of five seconds ends the call. *)
Definition silent_io : io := mkIo (repeat Would_block 8) [] (fun k => Z.of_nat k * 1000000000) 0 ∅ [] [] false.

Lemma send_with_timeout_returns_witness : returns (send_with_timeout 4 (lit "x") 5000) silent_io (fun _ _ => True).
Proof. apply (send_with_timeout_returns 4 (lit "x") 5000 5 silent_io); [done|by vm_compute|simpl; lia|simpl; lia]. Defined.

Lemma stream_response_decodes_witness :
  returns (stream_response 4 (Some (mkRouteResponse 200 None (Some (lit "one two three four five six seven")) true)) true true)
    (mkIo (Accepts 1000 :: repeat (Accepts 3) 80) [] (fun _ => 0) 0 ∅ [] [] false)
    (fun r _ => r = 0).
Proof.
  eapply returns_mono.
  - apply (stream_response_decodes 4 _ (lit "one two three four five six seven") 1000 (repeat (Accepts 3) 80));
      [lia|done|done|done|vm_compute; lia|apply (demo_takes 80)|vm_compute; lia].
  - by intros r i [-> _].
Defined.

Definition any_buffer : StreamBuffer := mkStreamBuffer PNull 0 0 0 Uninit no_stats false 0.

Lemma buffer_never_read_back_witness :
  exists b, buffer_exec (BWrite (lit "abc") true true) (mkStreamBuffer (PLive []) 0 0 16 Unlocked no_stats true 10485760) = Ok b
    /\ stream_buffer_read_ex (Some b) true 3 true = Ok (STREAM_ERROR_OVERFLOW, [], Some b).
Proof.
  eexists. split; [reflexivity|].
  apply (buffer_never_read_back any_buffer 16 (mkStreamBuffer (PLive []) 0 0 16 Unlocked no_stats true 10485760));
    [vm_compute; split; [reflexivity|discriminate]|reflexivity| |vm_compute; split; [reflexivity|discriminate]].
  eapply rtc_once, (component_call (BWrite (lit "abc") true true)); [vm_compute; discriminate|reflexivity].
Defined.
