(* ===== verification/RequestParser.v ===== *)
(** * The one-shot request parser: src/parser.c

    [parse_http_request_dynamic] parses a request that is complete in memory,
    with the headers stored in an arena of its own.  The copy of the text is the
    list of the bytes from the current position to the end of its block, the
    terminator included. *)

From S2P Require Import Prelude Arena HttpParser.

(** ** The arena *)

Record Arena := mkArena { capacity : Z; offset : Z; dynamic : bool }.

Definition ARENA_SIZE : Z := 65536.

(** What [realloc] answers when the arena grows: failure, or a block that may be
    elsewhere. *)
Inductive grown := Grow_fails | Grow_moves | Grow_in_place.

(** [None] is the NULL return; otherwise the offset of the new object and
    whether the block has moved. *)
Definition arena_alloc (a : Arena) (size : Z) (g : grown) : res (option (Z * bool) * Arena) :=
  let aligned_size := Z.ldiff (u64 (size + 7)) 7 in
  let take_from a moved := Ok (Some (offset a, moved), mkArena (capacity a) (u64 (offset a + aligned_size)) (dynamic a)) in
  if u64 (offset a + aligned_size) >? capacity a then
    if negb (dynamic a) then Ok (None, a)
    else
      match double_cap 64 (u64 (capacity a * 2)) (u64 (offset a + aligned_size)) with
      | None => Fault Diverges
      | Some cap =>
          match g with
          | Grow_fails => Ok (None, a)
          | Grow_moves => take_from (mkArena cap (offset a) (dynamic a)) true
          | Grow_in_place => take_from (mkArena cap (offset a) (dynamic a)) false
          end
      end
  else take_from a false.

(** ** The request *)

(** A header points into the arena. *)
Record HTTPRequest := mkHTTPRequest {
  method : HTTPMethod;
  path : option (list Z);
  query_string : option (list Z);
  headers : list (ptr (list Z));
  body : option (list Z);
  body_length : Z;
  content_type : option (list Z)
}.

Definition empty_request : HTTPRequest := mkHTTPRequest HTTP_GET None None [] None 0 None.

(** The answers of the allocator: the arena, the copy of the text, and the
    growth of the arena at each header.  The copies of single fields succeed. *)
Record allocs := mkAllocs { arena_ok : bool; copy_ok : bool; growth : nat -> grown }.

(** ** Text *)

Fixpoint until_space (s : list Z) : list Z :=
  match s with
  | c :: s' => if isspace c then [] else c :: until_space s'
  | [] => []
  end.

(** [%<width>s] *)
Definition scan_word (width : nat) (s : list Z) : option (list Z * list Z) :=
  let t := skip_spaces s in
  match take width (until_space t) with
  | [] => None
  | w => Some (w, drop (length w) t)
  end.

Definition lower (c : Z) : Z := if isupper c then c + 32 else c.

(** [fast_casecmp_len(a, b, n) == 0], both of at least [n] bytes. *)
Definition fast_casecmp_len (a b : list Z) (n : nat) : bool :=
  bool_decide (map lower (take n a) = map lower (take n b)).

Definition method_of_name (m : list Z) : HTTPMethod :=
  if streq m (lit "GET") then HTTP_GET
  else if streq m (lit "POST") then HTTP_POST
  else if streq m (lit "PUT") then HTTP_PUT
  else if streq m (lit "DELETE") then HTTP_DELETE
  else if streq m (lit "HEAD") then HTTP_HEAD
  else if streq m (lit "OPTIONS") then HTTP_OPTIONS
  else if streq m (lit "PATCH") then HTTP_PATCH
  else HTTP_UNKNOWN.

(** Four bytes as a little-endian number, compared with constants of which only
    some spell their method in that order. *)
Definition le32 (s : list Z) : Z :=
  match s with
  | a :: b :: c :: d :: _ => a + 256 * b + 65536 * c + 16777216 * d
  | _ => 0
  end.

Definition parse_method_fast (line : list Z) : HTTPMethod :=
  let magic := le32 line in
  if magic =? 0x20544547 then HTTP_GET
  else if magic =? 0x504F5354 then HTTP_POST
  else if magic =? 0x20555054 then HTTP_PUT
  else if magic =? 0x454C4544 then HTTP_DELETE
  else if magic =? 0x44414548 then HTTP_HEAD
  else if magic =? 0x48435041 then HTTP_PATCH
  else HTTP_UNKNOWN.

(** ** The request line *)

(** [None] is the -1 return. *)
Definition parse_request_line_safe (line : list Z) (r : HTTPRequest) : option HTTPRequest :=
  match scan_word 15 line with
  | None => None
  | Some (m, rest) =>
      match scan_word 4095 rest with
      | None => None
      | Some (p, _) =>
          let q := strchr p c_QMARK in
          Some (mkHTTPRequest (method_of_name m)
                  (Some (match q with Some k => take k p | None => p end))
                  ((fun k => drop (S k) p) <$> q)
                  (headers r) (body r) (body_length r) (content_type r))
      end
  end.

(** ** Headers *)

(** The blanks before a value, and the value up to the end of the line. *)
Fixpoint until_eol (s : list Z) : list Z :=
  match s with
  | c :: s' => if (c =? c_CR) || (c =? c_LF) then [] else c :: until_eol s'
  | [] => []
  end.

(** Growing the arena by a move leaves the headers stored so far behind. *)
Definition store_header (text : list Z) (moved : bool) (hs : list (ptr (list Z))) : list (ptr (list Z)) :=
  (if moved then map (fun _ => PFreed) hs else hs) ++ [PLive text].

(** [line] is the line without its end. *)
Definition parse_header_line (line : list Z) (g : grown) (st : HTTPRequest * Arena) : res (HTTPRequest * Arena) :=
  let '(r, a) := st in
  match strchr line c_COLON with
  | None => Ok (r, a)
  | Some name_len =>
      if ((name_len =? 0) || (64 <=? name_len))%nat then Ok (r, a)
      else
        let name := take name_len line in
        let val := take 4096 (until_eol (skip_spaces (drop (S name_len) line))) in
        '(hs, a) ←
          (if zlen (headers r) <? 32 then
             '(o, a) ← arena_alloc a (Z.of_nat name_len + 2 + zlen val + 1) g;
             Ok (match o with
                 | Some (_, moved) => store_header (name ++ lit ": " ++ val) moved (headers r)
                 | None => headers r
                 end, a)
           else Ok (headers r, a));
        let ct :=
          if (name_len =? 12)%nat && fast_casecmp_len line (lit "Content-Type") 12 then Some (cstring (val ++ [0]))
          else content_type r in
        Ok (mkHTTPRequest (method r) (path r) (query_string r) hs (body r) (body_length r) ct, a)
  end.

(** [memchr(line, '\n', remaining)]: [line] holds the bytes to the end of the
    block. *)
Definition find_newline (line : list Z) (remaining : Z) : res (option nat) :=
  match strchr (take (Z.to_nat remaining) line) c_LF with
  | Some k => Ok (Some k)
  | None => if remaining <=? zlen line then Ok None else Fault OutOfBounds
  end.

Definition drop_cr (s : list Z) : list Z :=
  match last s with
  | Some c => if c =? c_CR then removelast s else s
  | None => s
  end.

(** The loop over the header lines.  After a last line without a newline the
    position stays where it is.  Each round consumes a byte. *)
Fixpoint header_loop (rounds : nat) (count : nat) (growth : nat -> grown) (line : list Z) (remaining : Z)
    (st : HTTPRequest * Arena) : res (list Z * Z * (HTTPRequest * Arena)) :=
  match rounds with
  | O => Ok (line, remaining, st)
  | S rounds' =>
      if remaining >? 0 then
        match line with
        | [] => Fault OutOfBounds
        | c :: _ =>
            if (c =? 0) || (c =? c_CR) || (c =? c_LF) then Ok (line, remaining, st)
            else
              nl ← find_newline line remaining;
              match nl with
              | Some k =>
                  st ← parse_header_line (drop_cr (take k line)) (growth count) st;
                  header_loop rounds' (S count) growth (drop (S k) line) (remaining - (Z.of_nat k + 1)) st
              | None =>
                  st ← parse_header_line (drop_cr (take (Z.to_nat remaining) line)) (growth count) st;
                  Ok (line, remaining, st)
              end
        end
      else Ok (line, remaining, st)
  end.

(** [\r\n] or [\n] before the body. *)
Definition skip_separator (line : list Z) (remaining : Z) : list Z * Z :=
  if (remaining >=? 2) && prefixb crlf line then (drop 2 line, remaining - 2)
  else if (remaining >=? 1) && prefixb [c_LF] line then (drop 1 line, remaining - 1)
  else (line, remaining).

Definition take_body (line : list Z) (remaining : Z) (r : HTTPRequest) : HTTPRequest :=
  if remaining >? 0
  then mkHTTPRequest (method r) (path r) (query_string r) (headers r)
         (Some (cstring (take (Z.to_nat remaining) line))) remaining (content_type r)
  else r.

(** [arena_cleanup]: the headers point into a freed block. *)
Definition release (r : HTTPRequest) : HTTPRequest :=
  mkHTTPRequest (method r) (path r) (query_string r) (map (fun _ => PFreed) (headers r)) (body r) (body_length r)
    (content_type r).

(** ** The parser *)

Definition parse_http_request_dynamic (al : allocs) (raw : option (list Z)) (raw_len : Z) : res (Z * HTTPRequest) :=
  match raw with
  | None => Ok (-1, empty_request)
  | Some raw =>
      if raw_len =? 0 then Ok (-1, empty_request)
      else if zlen raw <? raw_len then Fault OutOfBounds
      else if negb (arena_ok al) then Ok (-1, empty_request)
      else if negb (copy_ok al) then Ok (-1, empty_request)
      else
        let copy := cstring (take (Z.to_nat raw_len) raw ++ [0]) ++ [0] in
        let arena := mkArena ARENA_SIZE 0 true in
        nl ← find_newline copy raw_len;
        let '(first, line, remaining) :=
          match nl with
          | Some k => (cstring (take k copy ++ [0]), drop (S k) copy, raw_len - (Z.of_nat k + 1))
          | None => (cstring copy, copy, 0)
          end in
        match parse_request_line_safe first empty_request with
        | None => Ok (-1, empty_request)
        | Some r =>
            '(line, remaining, (r, _)) ← header_loop (length copy) 0 (growth al) line remaining (r, arena);
            let '(line, remaining) := skip_separator line remaining in
            Ok (0, release (take_body line remaining r))
        end
  end.

Definition parse_http_request (al : allocs) (raw : option (list Z)) : res (Z * HTTPRequest) :=
  parse_http_request_dynamic al raw (match raw with Some s => zlen s | None => 0 end).

(** [free] of a pointer into a block that is gone. *)
Definition free_header (h : ptr (list Z)) : res unit :=
  match h with PFreed => Fault UseAfterFree | _ => Ok tt end.

Fixpoint free_headers (hs : list (ptr (list Z))) : res unit :=
  match hs with
  | [] => Ok tt
  | h :: hs' => _ ← free_header h; free_headers hs'
  end.

Definition free_http_request (r : option HTTPRequest) : res (option HTTPRequest) :=
  match r with
  | None => Ok None
  | Some r => _ ← free_headers (take 32 (headers r)); Ok (Some empty_request)
  end.

Definition demo_allocs : allocs := mkAllocs true true (fun _ => Grow_in_place).

Example demo_parse :
  parse_http_request demo_allocs
    (Some (lit "POST /v1/chat?x=1 HTTP/1.1" ++ crlf ++ lit "Host: a" ++ crlf ++ lit "content-type: text/plain" ++ crlf
           ++ crlf ++ lit "hello"))
  = Ok (0, mkHTTPRequest HTTP_POST (Some (lit "/v1/chat")) (Some (lit "x=1")) [PFreed; PFreed] (Some (lit "hello")) 5
             (Some (lit "text/plain"))).
Proof. vm_compute. reflexivity. Qed.

(** ** Lemmas: lines *)

Lemma find_newline_line s t :
  Forall (fun c => c <> c_LF) s -> find_newline (s ++ c_LF :: t ++ [0]) (zlen (s ++ c_LF :: t)) = Ok (Some (length s)).
Proof.
  intros Hs. unfold find_newline, zlen. rewrite Nat2Z.id.
  replace (s ++ c_LF :: t ++ [0]) with ((s ++ c_LF :: t) ++ [0]) by (by rewrite <- app_assoc).
  by rewrite take_app_length, strchr_app.
Qed.

Lemma find_newline_none s : Forall (fun c => c <> c_LF) s -> find_newline (s ++ [0]) (zlen s) = Ok None.
Proof.
  intros Hs. unfold find_newline. rewrite zlen_app. unfold zlen at 1. rewrite Nat2Z.id, take_app_length.
  rewrite strchr_absent by done. destruct (Z.leb_spec (zlen s) (zlen s + zlen [0])); [done|]. unfold zlen in *. simpl in *. lia.
Qed.

Lemma drop_line s t : drop (S (length s)) (s ++ c_LF :: t) = t.
Proof. induction s as [|c s IH]; [done|]. exact IH. Qed.

Lemma drop_cr_line s : drop_cr (s ++ [c_CR]) = s.
Proof. unfold drop_cr. by rewrite last_snoc, removelast_last. Qed.

(** ** Lemmas: the arena *)

Definition arena_inv (stored : Z) (a : Arena) : Prop :=
  dynamic a = true /\ 65536 <= capacity a <= 2 ^ 20 /\ 0 <= offset a <= 4200 * stored.

Lemma arena_alloc_ok a size g stored :
  arena_inv stored a -> 0 <= stored < 32 -> 0 <= size <= 4190 -> g <> Grow_fails ->
  exists o moved a', arena_alloc a size g = Ok (Some (o, moved), a') /\ arena_inv (stored + 1) a'.
Proof.
  intros (Hd & Hc & Ho) Hs Hsize Hg. unfold arena_alloc. rewrite (u64_small (size + 7)) by lia.
  pose proof (round_up_bounds size 3 ltac:(lia)) as Hr. change (2 ^ 3 - 1) with 7 in Hr. change (2 ^ 3) with 8 in Hr.
  set (n := Z.ldiff (size + 7) 7) in *. rewrite (u64_small (offset a + n)) by lia.
  destruct (Z.gtb_spec (offset a + n) (capacity a)).
  - rewrite Hd. cbn [negb]. rewrite (u64_small (capacity a * 2)) by lia.
    destruct (double_cap_total (capacity a * 2) (offset a + n)) as [c Hdc]; [lia..|].
    pose proof (double_cap_ge _ _ _ _ Hdc). pose proof (double_cap_le 64 (capacity a * 2) (offset a + n) c ltac:(lia) ltac:(lia) Hdc).
    rewrite Hdc. destruct g; [congruence| |]; (eexists _, _, _; split; [reflexivity|]; split_and!; simpl;
      done || (rewrite ?u64_small by lia; lia)).
  - eexists _, _, _. split; [reflexivity|]. split_and!; simpl; done || (rewrite ?u64_small by lia; lia).
Qed.

(** ** Lemmas: one header *)

(** What a header must be for its line to stand for it. *)
Definition plain_header (h : list Z * list Z) : Prop :=
  0 < zlen h.1 < 64 /\ zlen h.2 <= 4096
  /\ Forall (fun c => c <> 0 /\ c <> c_CR /\ c <> c_LF /\ c <> c_COLON) h.1
  /\ Forall (fun c => c <> 0 /\ c <> c_CR /\ c <> c_LF) h.2
  /\ match h.2 with [] => False | c :: _ => isspace c = false end.

Definition is_content_type (name : list Z) : bool :=
  (zlen name =? 12) && bool_decide (map lower name = lit "content-type").

Definition content_type_of (hs : list (list Z * list Z)) (ct : option (list Z)) : option (list Z) :=
  fold_left (fun ct h => if is_content_type h.1 then Some h.2 else ct) hs ct.

(** The request after some headers: [n] is how many are stored. *)
Definition after_headers (hs : list (list Z * list Z)) (st st' : HTTPRequest * Arena) : Prop :=
  let '(r, _) := st in let '(r', a') := st' in
  method r' = method r /\ path r' = path r /\ query_string r' = query_string r /\ body r' = body r
  /\ body_length r' = body_length r /\ zlen (headers r') = Z.min 32 (zlen (headers r) + zlen hs)
  /\ content_type r' = content_type_of hs (content_type r) /\ arena_inv (zlen (headers r')) a'.

Lemma until_eol_plain s : Forall (fun c => c <> 0 /\ c <> c_CR /\ c <> c_LF) s -> until_eol s = s.
Proof.
  induction 1 as [|c s (_ & H1 & H2) _ IH]; [done|]. simpl. destruct (Z.eqb_spec c c_CR), (Z.eqb_spec c c_LF); try done.
  simpl. by rewrite IH.
Qed.

Lemma content_type_test name rest :
  ((length name =? 12)%nat && fast_casecmp_len (name ++ rest) (lit "Content-Type") 12) = is_content_type name.
Proof.
  unfold is_content_type, fast_casecmp_len, zlen.
  destruct (Nat.eqb_spec (length name) 12) as [E|E], (Z.eqb_spec (Z.of_nat (length name)) 12) as [E'|E']; try lia.
  assert (take 12 (name ++ rest) = name) as Ht by (rewrite <- E; apply take_app_length).
  cbn [andb]. apply bool_decide_ext. by rewrite Ht.
Qed.

Lemma parse_header_plain h g r a :
  plain_header h -> g <> Grow_fails -> zlen (headers r) <= 32 -> arena_inv (zlen (headers r)) a ->
  exists st', parse_header_line (header_text h) g (r, a) = Ok st' /\ after_headers [h] (r, a) st'.
Proof.
  intros (Hn & Hv & Hname & Hval & Hfirst) Hg H32 Ha. destruct h as [name val]. simpl in *.
  unfold parse_header_line, header_text. cbn [fst snd]. change (lit ": ") with [c_COLON; c_SP].
  change (name ++ [c_COLON; c_SP] ++ val) with (name ++ c_COLON :: c_SP :: val).
  rewrite strchr_app by (eapply Forall_impl; [exact Hname|]; by intros c (_ & _ & _ & ?)).
  match goal with |- context [if ?b then Ok (r, a) else _] => assert (b = false) as -> end.
  { change (((length name =? 0) || (64 <=? length name))%nat = false). unfold zlen in Hn. destruct (Nat.eqb_spec (length name) 0), (Nat.leb_spec 64 (length name)); done || lia. }
  assert (drop (S (length name)) (name ++ c_COLON :: c_SP :: val) = c_SP :: val) as ->
    by (clear; induction name as [|c name IH]; [done|exact IH]).
  assert (skip_spaces (c_SP :: val) = val) as ->.
  { simpl. destruct val as [|c val]; [done|]. simpl. by rewrite Hfirst. }
  rewrite until_eol_plain by done. rewrite (take_ge val) by (unfold zlen in Hv; lia).
  rewrite content_type_test, cstring_app
    by (eapply Forall_impl; [exact Hval|]; by intros c (? & _)). rewrite take_app_length.
  pose proof (zlen_nonneg (headers r)). pose proof (zlen_nonneg val).
  destruct (Z.ltb_spec (zlen (headers r)) 32) as [Hlt|Hge].
  - destruct (arena_alloc_ok a (Z.of_nat (length name) + 2 + zlen val + 1) g (zlen (headers r))) as
      (o & moved & a' & E & Ha'); [done|lia|unfold zlen in *; lia|done|]. rewrite E. eexists. split; [reflexivity|].
    assert (forall text, zlen (store_header text moved (headers r)) = zlen (headers r) + 1) as Hlen.
    { intros text. unfold store_header. rewrite zlen_app. f_equal. destruct moved; [|done]. unfold zlen. by rewrite length_map. }
    cbn -[zlen store_header Z.min]. rewrite !Hlen. split_and!; try done. change (zlen [(name, val)]) with 1. lia.
  - eexists. split; [reflexivity|]. simpl. split_and!; try done. unfold zlen in *. simpl. lia.
Qed.

Lemma header_text_clean h :
  plain_header h -> Forall (fun c => c <> 0 /\ c <> c_CR /\ c <> c_LF) (header_text h)
  /\ exists c t, header_text h = c :: t.
Proof.
  intros (Hn & _ & Hname & Hval & _). destruct h as [[|c name] val]; [unfold zlen in Hn; simpl in Hn; lia|].
  split; [|by eexists _, _]. apply Forall_app. split; [|by repeat constructor].
  eapply Forall_impl; [exact Hname|]. by intros d (? & ? & ? & _).
Qed.

Lemma after_headers_cons h hs st st1 st2 :
  zlen (headers st.1) <= 32 -> after_headers [h] st st1 -> after_headers hs st1 st2 -> after_headers (h :: hs) st st2.
Proof.
  destruct st as [r a], st1 as [r1 a1], st2 as [r2 a2]. simpl.
  intros H0 (E1 & E2 & E3 & E4 & E5 & E6 & E7 & E8) (F1 & F2 & F3 & F4 & F5 & F6 & F7 & F8).
  change (zlen [h]) with 1 in E6. pose proof (zlen_nonneg hs).
  split_and!; try congruence. rewrite F6, E6, zlen_cons. lia.
Qed.

(** The header lines of a request, up to the line that ends them. *)
Lemma header_loop_lines rounds count g hs t st :
  Forall plain_header hs -> (forall k, g k <> Grow_fails) -> zlen (headers st.1) <= 32 ->
  arena_inv (zlen (headers st.1)) st.2 -> (length hs < rounds)%nat ->
  exists st', header_loop rounds count g (header_lines hs ++ c_CR :: t ++ [0]) (zlen (header_lines hs ++ c_CR :: t)) st
      = Ok (c_CR :: t ++ [0], zlen (c_CR :: t), st') /\ after_headers hs st st'.
Proof.
  intros Hhs Hg. revert rounds count st. induction Hhs as [|h hs Hh Hhs IH]; intros rounds count [r a] H32 Ha Hr;
    (destruct rounds as [|rounds]; [simpl in Hr; lia|]); cbn [header_loop header_lines map concat app].
  - destruct (Z.gtb_spec (zlen (c_CR :: t)) 0) as [_|Hz]; [|unfold zlen in Hz; simpl in Hz; lia].
    cbn [Z.eqb Pos.eqb orb]. eexists. split; [reflexivity|]. simpl in *. change (zlen []) with 0.
    split_and!; done || lia.
  - fold (header_lines hs). destruct (header_text_clean h Hh) as [Hclean (c & txt & Hc)].
    assert (Forall (fun d => d <> c_LF) (header_text h ++ [c_CR])) as Hlf.
    { apply Forall_app. split; [|by repeat constructor]. eapply Forall_impl; [exact Hclean|]. by intros d (_ & _ & ?). }
    replace (((header_text h ++ crlf) ++ header_lines hs) ++ c_CR :: t ++ [0])
      with ((header_text h ++ [c_CR]) ++ c_LF :: (header_lines hs ++ c_CR :: t) ++ [0])
      by (rewrite <- !app_assoc; reflexivity).
    replace (((header_text h ++ crlf) ++ header_lines hs) ++ c_CR :: t)
      with ((header_text h ++ [c_CR]) ++ c_LF :: (header_lines hs ++ c_CR :: t)) by (rewrite <- !app_assoc; reflexivity).
    set (text := header_text h ++ [c_CR]) in *. set (rest := header_lines hs ++ c_CR :: t) in *.
    rewrite (find_newline_line text rest Hlf).
    destruct (Z.gtb_spec (zlen (text ++ c_LF :: rest)) 0) as [_|Hz].
    2: { unfold zlen in Hz. rewrite length_app in Hz. simpl in Hz. lia. }
    assert (exists txt', text ++ c_LF :: rest ++ [0] = c :: txt') as [txt' Htxt] by (unfold text; rewrite Hc; by eexists).
    rewrite Hc in Hclean. apply Forall_cons in Hclean as [(Hc0 & Hc1 & Hc2) _].
    rewrite Htxt. destruct (Z.eqb_spec c 0), (Z.eqb_spec c c_CR), (Z.eqb_spec c c_LF); try done. rewrite <- Htxt.
    cbn [orb mbind res_bind].
    rewrite take_app_length, drop_line. replace (drop_cr text) with (header_text h) by (symmetry; apply drop_cr_line).
    destruct (parse_header_plain h (g count) r a) as (st1 & E & A1); [done|done|done|done|]. rewrite E. cbn [mbind res_bind].
    replace (zlen (text ++ c_LF :: rest) - (Z.of_nat (length text) + 1)) with (zlen rest)
      by (unfold zlen; rewrite length_app; simpl; lia).
    unfold rest. rewrite <- app_assoc. pose proof A1 as A1'. destruct st1 as [r1 a1]. simpl in A1'.
    destruct A1' as (_ & _ & _ & _ & _ & Hl & _ & Ha1).
    destruct (IH rounds (S count) (r1, a1)) as (st2 & E2 & A2); [simpl; lia|done|simpl in *; lia|].
    exists st2. split; [exact E2|]. by eapply (after_headers_cons h hs (r, a) (r1, a1)).
Qed.

(** ** The request a text stands for *)

Definition plain_request (r : request) : Prop :=
  rq_method r <> HTTP_UNKNOWN /\ rq_path r <> [] /\ zlen (target r) <= 4095
  /\ Forall (fun c => isspace c = false /\ c <> 0 /\ c <> c_QMARK) (rq_path r)
  /\ (forall q, rq_query r = Some q -> Forall (fun c => isspace c = false /\ c <> 0) q)
  /\ 0 <= rq_major r <= 9 /\ 0 <= rq_minor r <= 9
  /\ Forall plain_header (rq_headers r) /\ Forall (fun c => c <> 0) (rq_body r).

(** What the parser returns for it. *)
Definition parsed (r : request) : HTTPRequest :=
  mkHTTPRequest (rq_method r) (Some (rq_path r)) (rq_query r)
    (replicate (Nat.min 32 (length (rq_headers r))) PFreed)
    (if bool_decide (rq_body r = []) then None else Some (rq_body r)) (zlen (rq_body r))
    (content_type_of (rq_headers r) None).

Lemma until_space_app s t : Forall (fun c => isspace c = false) s -> until_space (s ++ c_SP :: t) = s.
Proof. induction 1 as [|c s Hc _ IH]; [done|]. simpl. by rewrite Hc, IH. Qed.

Lemma scan_word_app width s t :
  s <> [] -> (length s <= width)%nat -> Forall (fun c => isspace c = false) s ->
  scan_word width (s ++ c_SP :: t) = Some (s, c_SP :: t) /\ scan_word width (c_SP :: s ++ c_SP :: t) = Some (s, c_SP :: t).
Proof.
  intros Hne Hl Hs. assert (skip_spaces (s ++ c_SP :: t) = s ++ c_SP :: t) as E.
  { destruct Hs as [|c s Hc _]; [done|]. simpl. by rewrite Hc. }
  unfold scan_word. change (skip_spaces (c_SP :: s ++ c_SP :: t)) with (skip_spaces (s ++ c_SP :: t)).
  rewrite E, until_space_app, take_ge by done.
  destruct s as [|c s]; [done|]. split; do 2 f_equal; apply (drop_app_length (c :: s)).
Qed.

Lemma method_name_word m :
  m <> HTTP_UNKNOWN -> method_name m <> [] /\ (length (method_name m) <= 15)%nat
  /\ Forall (fun c => isspace c = false) (method_name m) /\ method_of_name (method_name m) = m.
Proof. intros Hm. destruct m; try done; (split_and!; [done|simpl; lia|by repeat constructor|reflexivity]). Qed.

Lemma target_clean r :
  plain_request r -> Forall (fun c => isspace c = false) (target r) /\ Forall (fun c => c <> 0) (target r).
Proof.
  intros (_ & _ & _ & Hp & Hq & _). unfold target. split; apply Forall_app; split.
  1,3: eapply Forall_impl; [exact Hp|]; naive_solver.
  all: destruct (rq_query r) as [q|]; [|done]; constructor; [done|]; eapply Forall_impl; [by apply Hq|]; naive_solver.
Qed.

Lemma request_line_parsed r t r0 :
  plain_request r ->
  parse_request_line_safe ((method_name (rq_method r) ++ [c_SP]) ++ (target r ++ [c_SP]) ++ t) r0
  = Some (mkHTTPRequest (rq_method r) (Some (rq_path r)) (rq_query r) (headers r0) (body r0) (body_length r0)
            (content_type r0)).
Proof.
  intros Hr. pose proof Hr as (Hm & Hne & Hlen & Hp & Hq & _).
  destruct (method_name_word _ Hm) as (M1 & M2 & M3 & M4). destruct (target_clean r Hr) as [T1 _].
  unfold parse_request_line_safe. rewrite <- !app_assoc. cbn [app].
  rewrite (proj1 (scan_word_app 15 _ _ M1 M2 M3)).
  assert (target r <> []) as Ht by (unfold target; by destruct (rq_path r)).
  rewrite (proj2 (scan_word_app 4095 (target r) t Ht ltac:(unfold zlen in Hlen; lia) T1)).
  rewrite M4. f_equal. unfold target. destruct (rq_query r) as [q|].
  - rewrite strchr_app by (eapply Forall_impl; [exact Hp|]; naive_solver).
    cbn [fmap option_fmap option_map]. rewrite take_app_length. do 2 f_equal.
    clear. induction (rq_path r) as [|c p IH]; [done|exact IH].
  - rewrite app_nil_r, strchr_absent by (eapply Forall_impl; [exact Hp|]; naive_solver). done.
Qed.

Lemma map_freed (hs : list (ptr (list Z))) : map (fun _ => PFreed) hs = replicate (length hs) (PFreed (A := list Z)).
Proof. induction hs as [|h hs IH]; [done|]. simpl. by rewrite IH. Qed.

(** The request line and the rest of the printed text. *)
Definition first_line (r : request) : list Z :=
  (method_name (rq_method r) ++ [c_SP]) ++ (target r ++ [c_SP])
  ++ lit "HTTP/" ++ [48 + rq_major r; c_DOT; 48 + rq_minor r] ++ [c_CR].
Definition after_line (r : request) : list Z := header_lines (rq_headers r) ++ c_CR :: c_LF :: rq_body r.

Lemma print_request_lines r : print_request r = first_line r ++ c_LF :: after_line r.
Proof. unfold print_request, first_line, after_line. rewrite <- !app_assoc. reflexivity. Qed.

Lemma first_line_clean r : plain_request r -> Forall (fun c => c <> c_LF /\ c <> 0) (first_line r).
Proof.
  intros Hr. pose proof Hr as (Hm & _ & _ & _ & _ & H1 & H2 & _). destruct (target_clean r Hr) as [T1 T2].
  unfold first_line. rewrite !Forall_app. split_and!; try (by repeat constructor); try (repeat constructor; lia).
  - destruct (rq_method r); try done; repeat constructor; done.
  - apply Forall_and. split; [|done]. eapply Forall_impl; [exact T1|]. by intros c Hc ->.
Qed.

Lemma after_line_clean r : plain_request r -> Forall (fun c => c <> 0) (after_line r).
Proof.
  intros (_ & _ & _ & _ & _ & _ & _ & Hh & Hb). unfold after_line. apply Forall_app. split.
  - unfold header_lines. apply Forall_concat. apply Forall_map. eapply Forall_impl; [exact Hh|].
    intros h Hp%header_text_clean. apply Forall_app. split; [|by repeat constructor].
    eapply Forall_impl; [apply Hp|]. by intros c (? & _).
  - by repeat constructor.
Qed.

Lemma header_count_le hs : (length hs <= length (header_lines hs))%nat.
Proof.
  induction hs as [|h hs IH]; [done|]. unfold header_lines in *. cbn [map concat]. rewrite !length_app. cbn [length crlf]. lia.
Qed.

(** ** Properties *)

(** C15: A request printed as text and parsed in one call gives back its method,
    path, query string, body and content type, however the arena of the headers grows - but of each of
    the headers, 32 at most, only a pointer into freed memory.  The request has a known method, a path that is
    not empty and has no blank, zero byte or question mark, a query string without blanks and zero bytes, together
    at most 4095 bytes (a longer target is cut), a version of two single digits, a body without zero bytes; a name of a
    header has 1 to 63 bytes and no colon, a value 1 to 4096 and no blank in front, neither has CR, LF or zero bytes.  All
    allocations succeed. *)
Theorem dynamic_parse_print al r :
  plain_request r -> arena_ok al = true -> copy_ok al = true -> (forall k, growth al k <> Grow_fails) ->
  parse_http_request al (Some (print_request r)) = Ok (0, parsed r).
Proof.
  intros Hr Ha Hc Hg. pose proof (first_line_clean r Hr) as [Hl1 Hl0]%Forall_and. pose proof (after_line_clean r Hr) as Ht0.
  pose proof Hr as (_ & _ & _ & _ & _ & _ & _ & Hh & Hb).
  unfold parse_http_request, parse_http_request_dynamic. rewrite print_request_lines.
  set (text := first_line r ++ c_LF :: after_line r).
  assert (0 < zlen text) as Hpos by (unfold text, zlen; rewrite length_app; simpl; lia).
  destruct (Z.eqb_spec (zlen text) 0); [lia|]. rewrite Z.ltb_irrefl, Ha, Hc. cbn [negb].
  assert (Forall (fun c => c <> 0) text) as Htext by (unfold text; apply Forall_app; split; [done|by constructor]).
  rewrite take_zlen, (cstring_app text []) by done. unfold text.
  replace ((first_line r ++ c_LF :: after_line r) ++ [0]) with (first_line r ++ c_LF :: after_line r ++ [0])
    by (by rewrite <- app_assoc).
  rewrite (find_newline_line _ _ Hl1). cbn [mbind res_bind].
  rewrite take_app_length, drop_line, (cstring_app _ []) by done. unfold first_line at 1.
  rewrite request_line_parsed by done.
  replace (zlen (first_line r ++ c_LF :: after_line r) - (Z.of_nat (length (first_line r)) + 1)) with (zlen (after_line r))
    by (unfold zlen; rewrite length_app; simpl; lia).
  set (r1 := mkHTTPRequest (rq_method r) _ _ _ _ _ _). set (rounds := length _).
  replace (after_line r ++ [0]) with (header_lines (rq_headers r) ++ c_CR :: c_LF :: rq_body r ++ [0])
    by (unfold after_line; by rewrite <- app_assoc).
  change (zlen (after_line r)) with (zlen (header_lines (rq_headers r) ++ c_CR :: c_LF :: rq_body r)).
  destruct (header_loop_lines rounds 0 (growth al) (rq_headers r) (c_LF :: rq_body r) (r1, mkArena ARENA_SIZE 0 true))
    as ([r2 a2] & E & A); [done|done|done|by split_and!| |].
  { unfold rounds. rewrite length_app. cbn [length]. rewrite length_app. unfold after_line. rewrite length_app.
    pose proof (header_count_le (rq_headers r)). lia. }
  cbn [app] in E. rewrite E. cbn [mbind res_bind]. unfold skip_separator. rewrite !zlen_cons. pose proof (zlen_nonneg (rq_body r)).
  destruct (Z.geb_spec (zlen (rq_body r) + 1 + 1) 2); [|lia]. cbn [prefixb crlf Z.eqb Pos.eqb andb].
  change (drop 2 (c_CR :: c_LF :: rq_body r ++ [0])) with (rq_body r ++ [0]).
  replace (zlen (rq_body r) + 1 + 1 - 2) with (zlen (rq_body r)) by lia.
  destruct A as (A1 & A2 & A3 & A4 & A5 & A6 & A7 & _). simpl in A1, A2, A3, A4, A5, A7. 
  do 2 f_equal. unfold release, take_body, parsed.
  assert (length (headers r2) = Nat.min 32 (length (rq_headers r))) as Hn by (unfold zlen in A6; simpl in A6; lia).
  destruct (Z.gtb_spec (zlen (rq_body r)) 0) as [Hz|Hz]; cbn [method path query_string headers body body_length content_type];
    rewrite map_freed, Hn, A1, A2, A3, A7.
  - rewrite take_zlen_app, cstring_clean by done. rewrite bool_decide_false; [done|]. intros He. by rewrite He in Hz.
  - assert (rq_body r = []) as He by (destruct (rq_body r); [done|unfold zlen in Hz; simpl in Hz; lia]).
    by rewrite A4, A5, He.
Qed.

Lemma parse_releases al raw n code r :
  parse_http_request_dynamic al raw n = Ok (code, r) -> Forall (fun h => h = PFreed) (headers r).
Proof.
  unfold parse_http_request_dynamic. intros H.
  assert (forall r', Forall (fun h => h = PFreed) (headers (release r'))) as Hrel
    by (intros r'; apply Forall_map, Forall_true; done).
  repeat (match type of H with
          | context [if ?b then _ else _] => destruct b
          | match ?x with _ => _ end = _ => destruct x
          end; res_inv; simplify_eq; try (by constructor)).
  destruct (match _ with Some _ => _ | None => _ end) as [[first line] remaining].
  destruct (parse_request_line_safe first empty_request); res_inv; simplify_eq; [|by constructor].
  match goal with x : _ * _ * (_ * _) |- _ => destruct x as [[? ?] [? ?]] end.
  destruct (skip_separator _ _). res_inv. simplify_eq. apply Hrel.
Qed.

(** Whatever the text and whatever allocations do, every header of the request
    that the parser returns is a pointer into the arena that the parser has
    freed; so freeing a request that has any header is a fault. *)
Theorem returned_headers_dangle al raw n code r :
  parse_http_request_dynamic al raw n = Ok (code, r) ->
  Forall (fun h => h = PFreed) (headers r)
  /\ free_http_request (Some r) = (if bool_decide (headers r = []) then Ok (Some empty_request) else Fault UseAfterFree).
Proof.
  intros H%parse_releases. split; [done|]. unfold free_http_request.
  destruct H as [|h hs -> _]; [done|]. by rewrite bool_decide_false.
Qed.

(** A last header line without a newline is parsed and then taken for the body
    as well. *)
Theorem cut_header_becomes_body al line h :
  Forall (fun c => c <> 0 /\ c <> c_LF) line -> Forall (fun c => c <> 0 /\ c <> c_LF) h ->
  match h with [] => False | c :: _ => c <> c_CR end ->
  (forall r, parse_request_line_safe line empty_request = Some r ->
   forall st, parse_header_line (drop_cr h) (growth al 0) (r, mkArena ARENA_SIZE 0 true) = Ok st ->
   arena_ok al = true -> copy_ok al = true ->
   exists r', parse_http_request al (Some (line ++ c_LF :: h)) = Ok (0, r') /\ body r' = Some h).
Proof.
  intros [Hl0 Hl1]%Forall_and Hh Hfirst r Hr [r2 a2] Hst Ha Hc. pose proof Hh as [Hh0 Hh1]%Forall_and.
  unfold parse_http_request, parse_http_request_dynamic.
  assert (0 < zlen h) as Hpos by (destruct h; [done|unfold zlen; simpl; lia]).
  destruct (Z.eqb_spec (zlen (line ++ c_LF :: h)) 0) as [E|_]; [unfold zlen in E; rewrite length_app in E; simpl in E; lia|].
  rewrite Z.ltb_irrefl, Ha, Hc. cbn [negb]. rewrite take_zlen, (cstring_app _ []) by (apply Forall_app; split; [done|by constructor]).
  replace ((line ++ c_LF :: h) ++ [0]) with (line ++ c_LF :: h ++ [0]) by (by rewrite <- app_assoc).
  rewrite (find_newline_line _ _ Hl1). cbn [mbind res_bind]. rewrite take_app_length, drop_line, (cstring_app _ []) by done.
  rewrite Hr.
  replace (zlen (line ++ c_LF :: h) - (Z.of_nat (length line) + 1)) with (zlen h)
    by (unfold zlen; rewrite length_app; simpl; lia).
  set (rounds := length _). assert (exists n, rounds = S n) as [n ->]
    by (unfold rounds; rewrite length_app; simpl; eexists; by rewrite Nat.add_succ_r).
  cbn [header_loop]. destruct (Z.gtb_spec (zlen h) 0) as [_|]; [|lia]. rewrite (find_newline_none h Hh1).
  assert (exists c t, h = c :: t /\ c <> 0 /\ c <> c_CR /\ c <> c_LF) as (c & t & E & H0 & H1 & H2).
  { destruct h as [|c t]; [done|]. apply Forall_cons in Hh as [[? ?] _]. by exists c, t. }
  assert (skip_separator (h ++ [0]) (zlen h) = (h ++ [0], zlen h)) as Hskip.
  { unfold skip_separator. rewrite E. cbn [app prefixb crlf].
    destruct (Z.eqb_spec c_CR c), (Z.eqb_spec c_LF c); try congruence. by rewrite !andb_false_r. }
  assert (take (Z.to_nat (zlen h)) (h ++ [0]) = h) as Htake by apply take_zlen_app.
  cbn [mbind res_bind]. rewrite Htake, Hst. cbn [mbind res_bind].
  assert (h ++ [0] = c :: t ++ [0]) as E' by (by rewrite E). rewrite E'.
  destruct (Z.eqb_spec c 0), (Z.eqb_spec c c_CR), (Z.eqb_spec c c_LF); try done. rewrite <- E'. cbn [orb mbind res_bind].
  rewrite Hskip. eexists. split; [reflexivity|]. unfold release, take_body. cbn [body].
  destruct (Z.gtb_spec (zlen h) 0); [|lia]. cbn [body]. by rewrite Htake, cstring_clean.
Qed.

(** A text with a zero byte and no newline before it: the search for the end of
    the line runs past the copy, which stops at the zero. *)
Theorem zero_byte_overreads al s t :
  Forall (fun c => c <> 0 /\ c <> c_LF) s -> 1 < zlen t -> arena_ok al = true -> copy_ok al = true ->
  parse_http_request_dynamic al (Some (s ++ 0 :: t)) (zlen (s ++ 0 :: t)) = Fault OutOfBounds.
Proof.
  intros [Hs0 Hs1]%Forall_and Ht Ha Hc. unfold parse_http_request_dynamic.
  assert (zlen (s ++ 0 :: t) = zlen s + 1 + zlen t) as Hlen by (unfold zlen; rewrite length_app; simpl; lia).
  pose proof (zlen_nonneg s). destruct (Z.eqb_spec (zlen (s ++ 0 :: t)) 0); [lia|].
  rewrite Z.ltb_irrefl, Ha, Hc. cbn [negb]. rewrite take_zlen, <- app_assoc. cbn [app]. rewrite cstring_app by done.
  unfold find_newline. rewrite take_ge by (unfold zlen; rewrite Nat2Z.id, !length_app; simpl; lia).
  rewrite strchr_absent by (apply Forall_app; split; [done|by constructor]).
  destruct (Z.leb_spec (zlen (s ++ 0 :: t)) (zlen (s ++ [0]))) as [Hle|]; [|done].
  unfold zlen in *. rewrite !length_app in *. simpl in *. lia.
Qed.

(** Three methods are spelled so that no request line matches them. *)
Theorem fast_method_misses :
  parse_method_fast (lit "POST /x") = HTTP_UNKNOWN /\ parse_method_fast (lit "PUT /x") = HTTP_UNKNOWN
  /\ parse_method_fast (lit "PATCH /x") = HTTP_UNKNOWN /\ parse_method_fast (lit "GET /x") = HTTP_GET.
Proof. by vm_compute. Qed.

(** ** Witnesses *)

Definition demo_request : request :=
  mkRequest HTTP_POST (lit "/v1/chat") (Some (lit "x=1")) 1 1
    [(lit "Host", lit "a"); (lit "Content-Type", lit "text/plain")] (lit "hello").

Lemma dynamic_parse_print_witness :
  parse_http_request demo_allocs (Some (print_request demo_request)) = Ok (0, parsed demo_request).
Proof.
  apply (dynamic_parse_print demo_allocs demo_request); [|done|done|done].
  split_and!; try done; try (vm_compute; lia || by split); try (by repeat constructor).
  - intros q [= <-]. by repeat constructor.
Defined.

Lemma returned_headers_dangle_witness :
  free_http_request (Some (parsed demo_request)) = Fault UseAfterFree.
Proof.
  apply (returned_headers_dangle demo_allocs (Some (print_request demo_request)) (zlen (print_request demo_request)) 0
    (parsed demo_request)). vm_compute. reflexivity.
Defined.
