(* ===== verification/Moderation.v ===== *)
(** * Content moderation: src/ai/content_moderation.c

    A growing table of patterns.  The regular expressions are those of the C
    library: [regcomp] and [regexec] are parameters. *)

From S2P Require Import Prelude.

(** ** Data *)

Inductive ModerationCategory :=
| MODERATION_CATEGORY_HATE | MODERATION_CATEGORY_HARASSMENT | MODERATION_CATEGORY_SEXUAL
| MODERATION_CATEGORY_VIOLENCE | MODERATION_CATEGORY_SELF_HARM | MODERATION_CATEGORY_SPAM
| MODERATION_CATEGORY_MALICIOUS_CODE | MODERATION_CATEGORY_PII.

Definition moderation_category_name (c : ModerationCategory) : list Z :=
  match c with
  | MODERATION_CATEGORY_HATE => lit "hate"
  | MODERATION_CATEGORY_HARASSMENT => lit "harassment"
  | MODERATION_CATEGORY_SEXUAL => lit "sexual"
  | MODERATION_CATEGORY_VIOLENCE => lit "violence"
  | MODERATION_CATEGORY_SELF_HARM => lit "self_harm"
  | MODERATION_CATEGORY_SPAM => lit "spam"
  | MODERATION_CATEGORY_MALICIOUS_CODE => lit "malicious_code"
  | MODERATION_CATEGORY_PII => lit "pii"
  end.

(** The confidence of every result is 0.95. *)
Record ModerationResult := mkModerationResult { res_category : ModerationCategory; matched_pattern : list Z }.

Record ModerationDecision := mkModerationDecision { flagged : bool; results : list ModerationResult }.

Section Moderation.
Context {Regex : Type} (regcomp : list Z -> option Regex) (regexec : Regex -> list Z -> bool).

(** A rule; [regex] is [None] until [compiled]. *)
Record ModerationRule := mkModerationRule {
  category : ModerationCategory;
  regex : option Regex;
  pattern_str : ptr (list Z)
}.

(** [rules] is the block of [rule_capacity] slots, of which the first
    [rule_count] are in use; an unused slot is [None]. *)
Record ModerationEngine := mkModerationEngine {
  rules : ptr (list (option ModerationRule));
  rule_count : Z;
  rule_capacity : Z;
  mutex : mutex_state;
  initialized : bool
}.

(** The engine before it is initialised. *)
Definition engine : ModerationEngine := mkModerationEngine PNull 0 0 Unlocked false.

Definition set_mutex (m : mutex_state) (e : ModerationEngine) : ModerationEngine :=
  mkModerationEngine (rules e) (rule_count e) (rule_capacity e) m (initialized e).
Definition set_rules (r : ptr (list (option ModerationRule))) (count capacity : Z) (e : ModerationEngine)
  : ModerationEngine := mkModerationEngine r count capacity (mutex e) (initialized e).

Definition lock (e : ModerationEngine) : res ModerationEngine := (fun m => set_mutex m e) <$> mutex_lock (mutex e).
Definition unlock (e : ModerationEngine) : ModerationEngine := set_mutex Unlocked e.

Definition default_patterns : list (ModerationCategory * list Z) :=
  [(MODERATION_CATEGORY_HATE, lit "hate speech|racial slurs?|white power|nazi");
   (MODERATION_CATEGORY_HARASSMENT, lit "harass|bully|doxx|kill yourself");
   (MODERATION_CATEGORY_SEXUAL, lit "explicit sexual|nsfw|onlyfans|porn");
   (MODERATION_CATEGORY_VIOLENCE, lit "bomb|terrorist|mass shooting|kill (?:everyone|people|them)");
   (MODERATION_CATEGORY_SELF_HARM, lit "suicide|self-harm|kill myself|cut myself|end my life");
   (MODERATION_CATEGORY_SPAM, lit "buy followers|click here|crypto giveaway|free money");
   (MODERATION_CATEGORY_MALICIOUS_CODE, lit "(?:exec|system|shell_exec|passthru|eval)\s*\(")].

(** ** Adding a pattern *)

(** The block after [realloc], its new slots cleared.  [None] is a failure. *)
Definition grow_rules (realloc_ok : bool) (e : ModerationEngine) : res (option ModerationEngine) :=
  if rule_count e >=? rule_capacity e then
    let new_cap := i32 (rule_capacity e * 2) in
    match rules e with
    | PFreed => Fault UseAfterFree
    | r =>
        if negb realloc_ok then Ok None
        else
          let old := match r with PLive l => l | _ => [] end in
          Ok (Some (set_rules (PLive (old ++ replicate (Z.to_nat (new_cap - rule_capacity e)) None)) (rule_count e) new_cap e))
    end
  else Ok (Some e).

(** The slot of the new rule is written before the pattern is compiled. *)
Definition moderation_add_pattern (cat : ModerationCategory) (pattern : option (list Z)) (realloc_ok strdup_ok : bool)
    (e : ModerationEngine) : res (Z * ModerationEngine) :=
  match pattern with
  | None => Ok (-1, e)
  | Some pattern =>
      e ← lock e;
      grown ← grow_rules realloc_ok e;
      match grown with
      | None => Ok (-1, unlock e)
      | Some e =>
          match rules e with
          | PLive l =>
              if negb ((0 <=? rule_count e) && (rule_count e <? zlen l)) then Fault OutOfBounds
              else
                let store r := PLive (zset l (rule_count e) (Some r)) in
                if negb strdup_ok then
                  Ok (-1, unlock (set_rules (store (mkModerationRule cat None PNull)) (rule_count e) (rule_capacity e) e))
                else
                  match regcomp pattern with
                  | None =>
                      Ok (-1, unlock (set_rules (store (mkModerationRule cat None PFreed)) (rule_count e) (rule_capacity e) e))
                  | Some rx =>
                      Ok (0, unlock (set_rules (store (mkModerationRule cat (Some rx) (PLive pattern)))
                                       (rule_count e + 1) (rule_capacity e) e))
                  end
          | PNull => Fault NullDeref
          | PFreed => Fault UseAfterFree
          end
      end
  end.

Fixpoint add_defaults (patterns : list (ModerationCategory * list Z)) (e : ModerationEngine) : res ModerationEngine :=
  match patterns with
  | [] => Ok e
  | (cat, p) :: patterns' =>
      '(_, e) ← moderation_add_pattern cat (Some p) true true e;
      add_defaults patterns' e
  end.

(** The count of rules is left as it was. *)
Definition moderation_init (calloc_ok : bool) (e : ModerationEngine) : res (Z * ModerationEngine) :=
  let e := mkModerationEngine (rules e) (rule_count e) 64 Unlocked (initialized e) in
  if negb calloc_ok then Ok (-1, set_rules PNull (rule_count e) 64 e)
  else
    e ← add_defaults default_patterns (set_rules (PLive (replicate 64 None)) (rule_count e) 64 e);
    Ok (0, mkModerationEngine (rules e) (rule_count e) (rule_capacity e) (mutex e) true).

(** ** Checking a text *)

Definition rule_matches (text : list Z) (r : option ModerationRule) : option ModerationResult :=
  match r with
  | Some r =>
      match regex r, pattern_str r with
      | Some rx, PLive p => if regexec rx text then Some (mkModerationResult (category r) p) else None
      | _, _ => None
      end
  | None => None
  end.

(** The loop over the rules, which stops at 16 results. *)
Fixpoint check_rules (l : list (option ModerationRule)) (text : list Z) (found : list ModerationResult)
  : list ModerationResult :=
  match l with
  | [] => found
  | r :: l' =>
      if zlen found <? 16 then
        check_rules l' text (match rule_matches text r with Some x => found ++ [x] | None => found end)
      else found
  end.

(** [None] is a decision that is not touched. *)
Definition moderation_check (text : option (list Z)) (e : ModerationEngine)
  : res (Z * option ModerationDecision * ModerationEngine) :=
  match text with
  | None => Ok (-1, None, e)
  | Some text =>
      if negb (initialized e) then Ok (-1, None, e)
      else
        e ← lock e;
        match rules e with
        | PLive l =>
            if rule_count e >? zlen l then Fault OutOfBounds
            else
              let found := check_rules (take (Z.to_nat (rule_count e)) l) text [] in
              let hit := negb (bool_decide (found = [] :> list ModerationResult)) in
              Ok (if hit then 1 else 0, Some (mkModerationDecision hit found), unlock e)
        | PNull => if rule_count e >? 0 then Fault NullDeref else Ok (0, Some (mkModerationDecision false []), unlock e)
        | PFreed => if rule_count e >? 0 then Fault UseAfterFree else Ok (0, Some (mkModerationDecision false []), unlock e)
        end
  end.

Definition moderation_check_prompt := moderation_check.
Definition moderation_check_response := moderation_check.

(** [initialized] stays set and [rules] keeps its value. *)
Definition moderation_cleanup (e : ModerationEngine) : res ModerationEngine :=
  e ← lock e;
  Ok (mkModerationEngine (match rules e with PNull => PNull | _ => PFreed end) 0 0 Destroyed (initialized e)).

(** ** What the engine stands for: a list of compiled patterns *)

Definition compiled_rule : Type := ModerationCategory * list Z * Regex.

Definition compile (p : ModerationCategory * list Z) : option compiled_rule :=
  (fun rx => (p.1, p.2, rx)) <$> regcomp p.2.

Definition slot (r : compiled_rule) : option ModerationRule :=
  Some (mkModerationRule r.1.1 (Some r.2) (PLive r.1.2)).

Definition hit_of (text : list Z) (r : compiled_rule) : option ModerationResult :=
  if regexec r.2 text then Some (mkModerationResult r.1.1 r.1.2) else None.

(** The first sixteen patterns that match, in order. *)
Definition hits (rs : list compiled_rule) (text : list Z) : list ModerationResult := take 16 (omap (hit_of text) rs).

Definition table_holds (rs : list compiled_rule) (e : ModerationEngine) : Prop :=
  rule_count e = zlen rs
  /\ exists l, rules e = PLive l /\ take (length rs) l = map slot rs /\ zlen l = rule_capacity e
     /\ 0 < rule_capacity e /\ rule_capacity e <= Z.max 64 (2 * zlen rs).

Definition holds (rs : list compiled_rule) (e : ModerationEngine) : Prop := mutex e = Unlocked /\ table_holds rs e.

Lemma holds_room rs e l :
  rules e = PLive l -> take (length rs) l = map slot rs -> zlen rs <= zlen l.
Proof.
  intros _ Ht. apply (f_equal length) in Ht. rewrite length_take, length_map in Ht. unfold zlen. lia.
Qed.

Lemma grow_holds rs e :
  table_holds rs e -> zlen rs < 2 ^ 28 ->
  exists e' l, grow_rules true e = Ok (Some e') /\ mutex e' = mutex e /\ initialized e' = initialized e
    /\ rule_count e' = zlen rs /\ rules e' = PLive l /\ take (length rs) l = map slot rs /\ zlen l = rule_capacity e'
    /\ zlen rs < zlen l /\ rule_capacity e' <= Z.max 64 (2 * zlen rs).
Proof.
  intros (Hc & l & Hl & Ht & Hz & Hpos & Hcap) Hn. pose proof (holds_room rs e l Hl Ht).
  unfold grow_rules. rewrite Hc, Hl. destruct (Z.geb_spec (zlen rs) (rule_capacity e)) as [Hge|Hlt].
  - rewrite i32_small by (unfold INT_MAX; lia). eexists _, _. split; [reflexivity|]. simpl. split_and!; try done.
    + rewrite take_app_le; [done|]. unfold zlen in *. lia.
    + rewrite zlen_app. unfold zlen at 2. rewrite length_replicate. lia.
    + rewrite zlen_app. unfold zlen at 3. rewrite length_replicate. lia.
    + lia.
  - exists e, l. split_and!; try done; lia.
Qed.

Lemma zset_middle {A} (l : list A) n x y :
  n = zlen x -> take (length x) l = x -> zlen x < zlen l -> take (S (length x)) (zset l n y) = x ++ [y].
Proof.
  intros -> Ht Hl. unfold zset, zlen in *. destruct (Z.ltb_spec (Z.of_nat (length x)) 0); [lia|]. rewrite Nat2Z.id.
  rewrite insert_take_drop by lia. rewrite Ht. rewrite take_app_ge by lia.
  by replace (S (length x) - length x)%nat with 1%nat by lia.
Qed.

(** Adding a pattern with enough memory: it joins the list exactly when it
    compiles. *)
Lemma add_holds rs e cat p :
  holds rs e -> zlen rs < 2 ^ 28 ->
  exists code e', moderation_add_pattern cat (Some p) true true e = Ok (code, e')
    /\ initialized e' = initialized e
    /\ holds (rs ++ match compile (cat, p) with Some r => [r] | None => [] end) e'.
Proof.
  intros Hh Hn. pose proof Hh as (Hm & _). unfold moderation_add_pattern, lock. rewrite Hm. cbn [mutex_lock fmap res_fmap mbind res_bind].
  destruct (grow_holds rs (set_mutex Locked e)) as (e1 & l & E & _ & Hi1 & Hc1 & Hl1 & Ht1 & Hz1 & Hroom & Hcap1); [apply Hh|done|].
  rewrite E. cbn [mbind res_bind]. rewrite Hl1, Hc1. pose proof (zlen_nonneg rs).
  destruct (Z.leb_spec 0 (zlen rs)); [|lia]. destruct (Z.ltb_spec (zlen rs) (zlen l)); [|lia]. cbn [andb negb].
  unfold compile. cbn [fst snd]. destruct (regcomp p) as [rx|]; cbn [fmap option_fmap option_map].
  - eexists _, _. split; [reflexivity|]. split; [done|]. split; [done|]. cbn [rule_count unlock set_mutex set_rules].
    split; [by rewrite zlen_app|]. eexists. split; [reflexivity|]. cbn [rule_capacity unlock set_mutex set_rules].
    rewrite zlen_zset, length_app, Nat.add_1_r, map_app. split.
    + rewrite <- (length_map slot rs). apply zset_middle; unfold zlen in *; by rewrite ?length_map.
    + split_and!; try done; try lia. rewrite zlen_app. change (zlen [(cat, p, rx)]) with 1. lia.
  - eexists _, _. split; [reflexivity|]. split; [done|]. rewrite app_nil_r. split; [done|]. split; [done|].
    eexists. split; [reflexivity|]. cbn [rule_capacity unlock set_mutex set_rules]. rewrite zlen_zset.
    split_and!; [|done|lia|lia].
    unfold zset. destruct (zlen rs <? 0); [done|]. rewrite take_insert_ge; [done|]. unfold zlen. lia.
Qed.

Lemma adds_hold rs patterns e :
  holds rs e -> zlen rs + zlen patterns < 2 ^ 28 ->
  exists e', add_defaults patterns e = Ok e' /\ initialized e' = initialized e /\ holds (rs ++ omap compile patterns) e'.
Proof.
  revert rs e. induction patterns as [|[cat p] ps IH]; intros rs e Hh Hn; cbn [add_defaults].
  - exists e. by rewrite app_nil_r.
  - rewrite zlen_cons in Hn. pose proof (zlen_nonneg ps).
    destruct (add_holds rs e cat p Hh) as (code & e1 & E & Hi & H1); [lia|]. rewrite E. cbn [mbind res_bind].
    edestruct (IH _ e1 H1) as (e2 & E2 & Hi2 & H2).
    { rewrite zlen_app. destruct (compile (cat, p)); unfold zlen in *; simpl; lia. }
    exists e2. split_and!; [done|congruence|]. rewrite <- app_assoc in H2. cbn [omap list_omap].
    by destruct (compile (cat, p)).
Qed.

Lemma init_holds :
  exists e, moderation_init true engine = Ok (0, e) /\ initialized e = true /\ holds (omap compile default_patterns) e.
Proof.
  set (e0 := set_rules (PLive (replicate 64 None)) 0 64 (mkModerationEngine PNull 0 64 Unlocked false)).
  assert (moderation_init true engine = (e ← add_defaults default_patterns e0;
    Ok (0, mkModerationEngine (rules e) (rule_count e) (rule_capacity e) (mutex e) true))) as -> by reflexivity.
  destruct (adds_hold [] default_patterns e0) as (e & E & _ & Hm & Hh).
  - split; [done|]. split; [done|]. exists (replicate 64 None). by split_and!.
  - vm_compute. reflexivity.
  - rewrite E. eexists. split; [reflexivity|]. split; [done|]. by split.
Qed.

Lemma check_rules_take l rs text found :
  l = map slot rs -> zlen found <= 16 -> check_rules l text found = take 16 (found ++ omap (hit_of text) rs).
Proof.
  intros ->. revert found. induction rs as [|r rs IH]; intros found Hf; cbn [map check_rules].
  - rewrite app_nil_r, take_ge; [done|]. unfold zlen in Hf. lia.
  - destruct (Z.ltb_spec (zlen found) 16).
    + assert (rule_matches text (slot r) = hit_of text r) as -> by reflexivity. cbn [omap list_omap].
      destruct (hit_of text r); rewrite IH by (rewrite ?zlen_app; change (zlen [_]) with 1 || idtac; lia || done);
        by rewrite <- ?app_assoc.
    + rewrite take_app_le by (unfold zlen in *; lia). rewrite take_ge; [done|]. unfold zlen in *. lia.
Qed.

(** What a check answers, when the engine holds [rs]. *)
Lemma check_holds rs text e :
  holds rs e -> initialized e = true ->
  exists e', moderation_check (Some text) e
    = Ok (if bool_decide (hits rs text = []) then 0 else 1,
          Some (mkModerationDecision (negb (bool_decide (hits rs text = []))) (hits rs text)), e') /\ holds rs e'.
Proof.
  intros (Hm & Hc & l & Hl & Ht & Hz & Hpos & Hcap) Hi. unfold moderation_check. rewrite Hi. cbn [negb].
  unfold lock. rewrite Hm. cbn [mutex_lock fmap res_fmap mbind res_bind rules set_mutex]. rewrite Hl.
  pose proof (holds_room rs e l Hl Ht) as Hroom. cbn [rule_count set_mutex]. rewrite Hc.
  destruct (Z.gtb_spec (zlen rs) (zlen l)); [lia|].
  replace (take (Z.to_nat (zlen rs)) l) with (map slot rs) by (unfold zlen; by rewrite Nat2Z.id).
  rewrite (check_rules_take _ rs) by done. cbn [app]. eexists. split.
  - fold (hits rs text). by case_bool_decide.
  - split; [done|]. split; [done|]. by exists l.
Qed.

(** C19: The engine refines a list of compiled patterns.  Initialised, and given any
    patterns - of which those that do not compile are left out - a check of a text
    answers 1 exactly when some pattern matches it, and records the first
    sixteen that match, in the order in which they were added, whatever the
    regular expressions are. *)
Theorem moderation_refines_patterns (added : list (ModerationCategory * list Z)) text :
  zlen added <= 2 ^ 20 ->
  let rs := omap compile (default_patterns ++ added) in
  exists e0 e e',
    moderation_init true engine = Ok (0, e0) /\ add_defaults added e0 = Ok e
    /\ moderation_check_prompt (Some text) e
       = Ok (if bool_decide (hits rs text = []) then 0 else 1,
             Some (mkModerationDecision (negb (bool_decide (hits rs text = []))) (hits rs text)), e').
Proof.
  intros Hn rs. destruct init_holds as (e0 & E0 & Hi0 & H0). exists e0.
  destruct (adds_hold (omap compile default_patterns) added e0 H0) as (e & E & Hi & H1).
  { assert (zlen (omap compile default_patterns) <= 7); [|lia].
    unfold zlen. etransitivity; [apply inj_le, (length_omap_le compile)|]. by vm_compute. }
  destruct (check_holds _ text e H1) as (e' & E' & _); [congruence|]. exists e, e'. split_and!; [done|done|].
  unfold rs. rewrite omap_app. exact E'.
Qed.

(** The engine still counts as initialised after the clean-up, so the next check
    takes a mutex that has been destroyed. *)
Theorem check_after_cleanup_faults rs text e e' :
  holds rs e -> initialized e = true -> moderation_cleanup e = Ok e' ->
  moderation_check (Some text) e' = Fault UseAfterFree.
Proof.
  intros (Hm & _) Hi. unfold moderation_cleanup, lock. rewrite Hm. cbn [mutex_lock fmap res_fmap mbind res_bind].
  intros [= <-]. unfold moderation_check. cbn [initialized set_mutex]. by rewrite Hi.
Qed.
End Moderation.

(** ** Witness: patterns that are plain words *)

Lemma moderation_refines_patterns_witness :
  exists e0 e e',
    moderation_init Some true (engine (Regex := list Z)) = Ok (0, e0)
    /\ add_defaults Some [(MODERATION_CATEGORY_SPAM, lit "limited offer")] e0 = Ok e
    /\ moderation_check_prompt (fun p t => contains t p) (Some (lit "buy now limited offer")) e
       = Ok (1, Some (mkModerationDecision true [mkModerationResult MODERATION_CATEGORY_SPAM (lit "limited offer")]), e').
Proof.
  apply (moderation_refines_patterns Some (fun p t => contains t p) [(MODERATION_CATEGORY_SPAM, lit "limited offer")]
    (lit "buy now limited offer")). vm_compute. discriminate.
Defined.
