(* ===== verification/Plugin.v ===== *)
(** * Plugins: src/plugin.c

    The table of shared objects that the server has loaded, and the calls of
    their hooks.  Loading an object is the business of the dynamic linker
    ([dlopen]) and its functions are arbitrary code; listing a directory, running
    a shell command and making a temporary file are arguments too. *)

From S2P Require Import Prelude.

(** ** Data *)

Inductive PluginHookPoint :=
| PLUGIN_HOOK_PRE_REQUEST | PLUGIN_HOOK_POST_REQUEST | PLUGIN_HOOK_AI_PROMPT | PLUGIN_HOOK_AI_RESPONSE
| PLUGIN_HOOK_ON_CONNECT | PLUGIN_HOOK_ON_DISCONNECT.

Section Plugins.
Context {Ctx : Type}.

(** What [dlsym] finds in an object: the value its [plugin_init] returns, whether
    there is a [plugin_cleanup], and the two functions on requests, which read
    and change a context. *)
Record Dso := mkDso {
  dso_init : option Z;
  dso_process : option (Ctx -> Z * Ctx);
  dso_cleanup : bool;
  dso_hook : option (PluginHookPoint -> Ctx -> Z * Ctx)
}.

(** Every plugin of the table is loaded. *)
Record Plugin := mkPlugin { name : list Z; path : list Z; handle : Dso; is_enabled : bool }.

(** [plugins] holds the first [plugin_count] slots of the block; [handles] are the
    paths of the objects that are open. *)
Record PluginManager := mkPluginManager {
  plugins : ptr (list Plugin);
  plugin_capacity : Z;
  mutex : mutex_state;
  plugin_dir : option (list Z);
  handles : list (list Z)
}.

Definition global_plugin_manager : PluginManager := mkPluginManager PNull 0 Uninit None [].

Definition set_mutex (m : mutex_state) (pm : PluginManager) : PluginManager :=
  mkPluginManager (plugins pm) (plugin_capacity pm) m (plugin_dir pm) (handles pm).
Definition set_plugins (l : ptr (list Plugin)) (cap : Z) (pm : PluginManager) : PluginManager :=
  mkPluginManager l cap (mutex pm) (plugin_dir pm) (handles pm).
Definition set_handles (l : list (list Z)) (pm : PluginManager) : PluginManager :=
  mkPluginManager (plugins pm) (plugin_capacity pm) (mutex pm) (plugin_dir pm) l.

Definition lock (pm : PluginManager) : res PluginManager := (fun m => set_mutex m pm) <$> mutex_lock (mutex pm).
Definition unlock (pm : PluginManager) : PluginManager := set_mutex Unlocked pm.

(** [dlclose] of an object that was opened by its path. *)
Fixpoint close_one (p : list Z) (l : list (list Z)) : list (list Z) :=
  match l with
  | [] => []
  | q :: l' => if streq p q then l' else q :: close_one p l'
  end.

Definition dlclose (p : list Z) (pm : PluginManager) : PluginManager := set_handles (close_one p (handles pm)) pm.

(** The table where the code reads it: [plugin_count] is 0 for a null pointer. *)
Definition table (pm : PluginManager) : res (list Plugin) :=
  match plugins pm with PLive l => Ok l | PNull => Ok [] | PFreed => Fault UseAfterFree end.

(** ** Loading and unloading *)

Definition file_name (p : list Z) : list Z :=
  match strrchr p c_SLASH with Some k => drop (S k) p | None => p end.
Definition plugin_name (p : list Z) : list Z :=
  let n := file_name p in match strrchr n c_DOT with Some k => take k n | None => n end.

(** [None]: [realloc] failed. *)
Definition grow_plugins (realloc_ok : bool) (pm : PluginManager) : res (option PluginManager) :=
  l ← table pm;
  if zlen l >=? plugin_capacity pm then
    if realloc_ok then Ok (Some (set_plugins (PLive l) (i32 (plugin_capacity pm * 2)) pm)) else Ok None
  else Ok (Some pm).

Context (dlopen : list Z -> option Dso).

(** The new plugin takes the slot after the others, and keeps it if its
    [plugin_init] returns 0. *)
Definition add_plugin (p : list Z) (d : Dso) (started : Z) (strdup_ok : bool) (pm : PluginManager)
  : res (Z * PluginManager) :=
  if negb strdup_ok then Fault NullDeref
  else
    match plugins pm with
    | PLive l =>
        if zlen l >=? plugin_capacity pm then Fault OutOfBounds
        else if negb (started =? 0) then Ok (-1, unlock (dlclose p pm))
        else
          Ok (0, unlock (set_plugins (PLive (l ++ [mkPlugin (plugin_name p) p d true])) (plugin_capacity pm) pm))
    | PNull => Fault NullDeref
    | PFreed => Fault UseAfterFree
    end.

Definition load_plugin (p : list Z) (realloc_ok strdup_ok : bool) (pm : PluginManager) : res (Z * PluginManager) :=
  match dlopen p with
  | None => Ok (-1, pm)
  | Some d =>
      let pm := set_handles (p :: handles pm) pm in
      match dso_init d, dso_cleanup d with
      | Some started, true =>
          pm ← lock pm;
          grown ← grow_plugins realloc_ok pm;
          match grown with
          | None => Ok (-1, dlclose p (unlock pm))
          | Some pm => add_plugin p d started strdup_ok pm
          end
      | _, _ => Ok (-1, dlclose p pm)
      end
  end.

Definition plugin_load := load_plugin.

(** Entries that end in ".so" and have a name before it. *)
Definition is_object (entry : list Z) : bool :=
  negb (streq entry (lit ".")) && negb (streq entry (lit ".."))
  && ((3 <? zlen entry) && streq (drop (length entry - 3) entry) (lit ".so")).

(** The loop over the entries; [n] counts the objects loaded. *)
Fixpoint load_entries (dir : list Z) (ok : nat -> bool * bool) (k : nat) (entries : list (list Z)) (n : Z)
    (pm : PluginManager) : res (Z * PluginManager) :=
  match entries with
  | [] => Ok (n, pm)
  | entry :: entries' =>
      if is_object entry then
        '(code, pm) ← load_plugin (take 1023 (dir ++ lit "/" ++ entry)) (ok k).1 (ok k).2 pm;
        load_entries dir ok (S k) entries' (if code =? 0 then n + 1 else n) pm
      else load_entries dir ok (S k) entries' n pm
  end.

Context (readdir : list Z -> option (list (list Z))).

Definition load_plugins_from_directory (dir : list Z) (ok : nat -> bool * bool) (pm : PluginManager)
  : res (Z * PluginManager) :=
  match readdir dir with
  | None => Ok (-1, pm)
  | Some entries => load_entries dir ok 0 entries 0 pm
  end.

Definition plugin_init (dir : option (list Z)) (calloc_ok strdup_ok mutex_ok : bool) (ok : nat -> bool * bool)
    (pm : PluginManager) : res (Z * PluginManager) :=
  if negb calloc_ok then Ok (-1, set_plugins PNull 16 pm)
  else
    let dir := default (lit "plugins") dir in
    let pm := mkPluginManager (PLive []) 16 (mutex pm) (if strdup_ok then Some dir else None) (handles pm) in
    if negb mutex_ok then Ok (-1, set_plugins PFreed 16 pm)
    else if negb strdup_ok then Fault NullDeref
    else
      '(_, pm) ← load_plugins_from_directory dir ok (set_mutex Unlocked pm);
      Ok (0, pm).

Definition has_name (n : list Z) (p : Plugin) : bool := streq (name p) n.

Definition plugin_unload (n : list Z) (pm : PluginManager) : res (Z * PluginManager) :=
  pm ← lock pm;
  l ← table pm;
  match find_index (has_name n) l with
  | Some i =>
      let p := default [] (path <$> l !! i) in
      Ok (0, unlock (set_plugins (PLive (delete i l)) (plugin_capacity pm) (dlclose p pm)))
  | None => Ok (-1, unlock pm)
  end.

Definition set_plugin_enabled (enabled : bool) (p : Plugin) : Plugin := mkPlugin (name p) (path p) (handle p) enabled.

Definition plugin_set_enabled (n : list Z) (enabled : bool) (pm : PluginManager) : res (Z * PluginManager) :=
  pm ← lock pm;
  l ← table pm;
  match find_index (has_name n) l with
  | Some i => Ok (0, unlock (set_plugins (PLive (alter (set_plugin_enabled enabled) i l)) (plugin_capacity pm) pm))
  | None => Ok (-1, unlock pm)
  end.

(** ** Calling the plugins *)

(** The loop of [plugin_process_request] and [plugin_process_hooks]: the enabled
    plugins that have the function, in order; the last failure is the result. *)
Fixpoint call_plugins (f : Dso -> option (Ctx -> Z * Ctx)) (l : list Plugin) (result : Z) (ctx : Ctx) : Z * Ctx :=
  match l with
  | [] => (result, ctx)
  | p :: l' =>
      match (if is_enabled p then f (handle p) else None) with
      | Some call =>
          let '(r, ctx) := call ctx in
          call_plugins f l' (if negb (r =? 0) then r else result) ctx
      | None => call_plugins f l' result ctx
      end
  end.

Definition plugin_process_request (ctx : Ctx) (pm : PluginManager) : res (Z * Ctx * PluginManager) :=
  pm ← lock pm;
  l ← table pm;
  Ok (call_plugins dso_process l 0 ctx, unlock pm).

Definition hook_at (point : PluginHookPoint) (d : Dso) : option (Ctx -> Z * Ctx) := (fun h => h point) <$> dso_hook d.

Definition plugin_process_hooks (point : PluginHookPoint) (ctx : Ctx) (pm : PluginManager)
  : res (Z * Ctx * PluginManager) :=
  pm ← lock pm;
  l ← table pm;
  Ok (call_plugins (hook_at point) l 0 ctx, unlock pm).

(** A copy of the names, into a block that may not have been allocated. *)
Definition plugin_get_list (malloc_ok : bool) (pm : PluginManager) : res (list (list Z) * PluginManager) :=
  pm ← lock pm;
  l ← table pm;
  if malloc_ok then Ok (map name l, unlock pm)
  else match l with [] => Ok ([], unlock pm) | _ => Fault NullDeref end.

Fixpoint close_all (l : list Plugin) (hs : list (list Z)) : list (list Z) :=
  match l with [] => hs | p :: l' => close_all l' (close_one (path p) hs) end.

(** From the last plugin to the first; the table and the directory are freed but
    not reset. *)
Definition plugin_cleanup (pm : PluginManager) : res PluginManager :=
  pm ← lock pm;
  l ← table pm;
  Ok (mkPluginManager (match plugins pm with PNull => PNull | _ => PFreed end) (plugin_capacity pm) Destroyed
        (plugin_dir pm) (close_all (rev l) (handles pm))).

(** ** Installing from the network *)

Context (system : list Z -> Z).

(** The command line that the shell gets. *)
Definition curl_cmd (tmp_path url : list Z) : list Z :=
  take 2047 (lit "curl -sL -o " ++ tmp_path ++ lit " " ++ [c_QUOTE] ++ url ++ [c_QUOTE]).

(** [tmp] is the file that [mkstemps] made.  The second result is the name it is
    given when it was loaded. *)
Definition plugin_install_from_url (url : option (list Z)) (tmp : option (list Z)) (realloc_ok strdup_ok : bool)
    (pm : PluginManager) : res (Z * option (list Z) * PluginManager) :=
  match url, tmp with
  | Some url, Some tmp_path =>
      if negb (system (curl_cmd tmp_path url) =? 0) then Ok (-1, None, pm)
      else
        '(ret, pm) ← load_plugin tmp_path realloc_ok strdup_ok pm;
        if negb (ret =? 0) then Ok (-1, None, pm)
        else Ok (0, (fun dir => take 1023 (dir ++ lit "/" ++ file_name url)) <$> plugin_dir pm, pm)
  | _, _ => Ok (-1, None, pm)
  end.

Definition browser_key : list Z := [c_QUOTE] ++ lit "browser_download_url" ++ [c_QUOTE].

(** The text from the first byte [c] on. *)
Fixpoint drop_until (c : Z) (s : list Z) : list Z :=
  match s with
  | [] => []
  | x :: s' => if x =? c then s else drop_until c s'
  end.

(** From the next key on: its value and what follows the closing quote. *)
Definition next_url (json : list Z) : option (list Z * list Z) :=
  match strstr json browser_key with
  | None => None
  | Some k =>
      let value := drop 1 (drop_until c_QUOTE (drop (k + length browser_key) json)) in
      (fun n => (take n value, drop (S n) value)) <$> strchr value c_QUOTE
  end.

(** The loop; [found] is [download_url].  Every round consumes the key. *)
Fixpoint find_asset (fuel : nat) (pattern json found : list Z) : list Z :=
  match fuel with
  | O => found
  | S fuel' =>
      match next_url json with
      | None => found
      | Some (url, rest) =>
          if zlen url <? 1023 then
            if contains url pattern then url else find_asset fuel' pattern rest url
          else find_asset fuel' pattern rest found
      end
  end.

Definition github_cmd (repo tmp_json : list Z) : list Z :=
  take 2047
    (lit "curl -sL -H " ++ [c_QUOTE] ++ lit "Accept: application/vnd.github.v3+json" ++ [c_QUOTE] ++ lit " " ++ [c_QUOTE]
     ++ take 511 (lit "https://api.github.com/repos/" ++ repo ++ lit "/releases/latest") ++ [c_QUOTE] ++ lit " -o "
     ++ [c_QUOTE] ++ tmp_json ++ [c_QUOTE]).

(** [json_file] is the temporary file, [content] what it holds after the command. *)
Definition plugin_install_from_github (repo asset_pattern : option (list Z)) (json_file content tmp : option (list Z))
    (realloc_ok strdup_ok : bool) (pm : PluginManager) : res (Z * option (list Z) * PluginManager) :=
  match repo, asset_pattern, json_file with
  | Some repo, Some pattern, Some tmp_json =>
      if negb (system (github_cmd repo tmp_json) =? 0) then Ok (-1, None, pm)
      else
        match content with
        | None => Ok (-1, None, pm)
        | Some json =>
            match find_asset (length json) pattern json [] with
            | [] => Ok (-1, None, pm)
            | url => plugin_install_from_url (Some url) tmp realloc_ok strdup_ok pm
            end
        end
  | _, _, _ => Ok (-1, None, pm)
  end.

(** ** Lemmas: the handles *)

Lemma close_one_perm p l : p ∈ l -> l ≡ₚ p :: close_one p l.
Proof.
  induction l as [|q l IH]; [by intros ?%elem_of_nil|]. cbn [close_one].
  destruct (streq p q) eqn:E; [apply streq_true in E as ->; done|]. apply streq_false in E.
  intros [->|Hin]%elem_of_cons; [done|]. rewrite Permutation_swap. by rewrite <- IH.
Qed.

Lemma close_one_cons p l : close_one p (p :: l) = l.
Proof. cbn [close_one]. by rewrite streq_refl. Qed.

Lemma close_all_perm l hs : map path l ≡ₚ hs -> close_all l hs ≡ₚ [].
Proof.
  revert hs. induction l as [|p l IH]; intros hs Hp; [done|]. cbn [close_all map] in *. apply IH.
  apply (Permutation_cons_inv (a := path p)). rewrite Hp. apply close_one_perm. rewrite <- Hp. by left.
Qed.

(** The table between two calls: the open objects are those of its plugins. *)
Record manager_ok (pm : PluginManager) : Prop := {
  pm_unlocked : mutex pm = Unlocked;
  pm_table : exists l, plugins pm = PLive l /\ map path l ≡ₚ handles pm
    /\ 0 < plugin_capacity pm /\ zlen l <= plugin_capacity pm
}.

(** The operations on the table. *)
Inductive plugin_op :=
| Load (p : list Z) (realloc_ok : bool)
| Unload (n : list Z)
| Enable (n : list Z) (enabled : bool)
| Hooks (point : PluginHookPoint) (ctx : Ctx)
| List_names.

Definition plugin_exec (o : plugin_op) (pm : PluginManager) : res PluginManager :=
  match o with
  | Load p realloc_ok => snd <$> load_plugin p realloc_ok true pm
  | Unload n => snd <$> plugin_unload n pm
  | Enable n enabled => snd <$> plugin_set_enabled n enabled pm
  | Hooks point ctx => snd <$> plugin_process_hooks point ctx pm
  | List_names => snd <$> plugin_get_list true pm
  end.

(** The capacity is doubled without a check: below 2^30 it cannot overflow. *)
Definition plugin_op_ok (o : plugin_op) (pm : PluginManager) : Prop := plugin_capacity pm < 2 ^ 30.

Lemma manager_lock pm : mutex pm = Unlocked -> lock pm = Ok (set_mutex Locked pm).
Proof. unfold lock. by intros ->. Qed.

Lemma holds_table l cap dir hs :
  0 < cap -> zlen l <= cap -> map path l ≡ₚ hs -> manager_ok (mkPluginManager (PLive l) cap Unlocked dir hs).
Proof. intros. split; [done|]. by exists l. Qed.

(** What a load does: nothing, or one plugin more at the end, with its handle. *)
Definition loaded (p : list Z) (l : list Plugin) (hs : list (list Z)) (code : Z) (pm' : PluginManager) : Prop :=
  plugins pm' = PLive l /\ handles pm' = hs /\ code = -1
  \/ exists d, dlopen p = Some d /\ plugins pm' = PLive (l ++ [mkPlugin (plugin_name p) p d true])
     /\ handles pm' = p :: hs /\ code = 0.

Lemma add_plugin_spec p d started l cap dir hs :
  dlopen p = Some d -> 0 < cap -> zlen l < cap -> map path l ≡ₚ hs ->
  exists code pm', add_plugin p d started true (mkPluginManager (PLive l) cap Locked dir (p :: hs)) = Ok (code, pm')
    /\ manager_ok pm' /\ loaded p l hs code pm' /\ plugin_capacity pm' = cap.
Proof.
  intros Hd Hc Hlt Hp. unfold add_plugin. cbn [negb plugins plugin_capacity].
  destruct (Z.geb_spec (zlen l) cap); [lia|].
  destruct (started =? 0); cbn [negb]; eexists _, _; (split; [reflexivity|]); unfold unlock, set_plugins, dlclose;
    cbn [set_mutex set_handles plugins plugin_capacity mutex plugin_dir handles].
  - split; [|split; [right; by exists d|done]]. apply holds_table; [done|rewrite zlen_snoc; simpl; lia|].
    rewrite map_app, Permutation_app_comm. cbn [map path app]. by rewrite Hp.
  - rewrite close_one_cons. split_and!; [apply holds_table; [done|simpl; lia|done]|by left|done].
Qed.

(** Loading never faults. *)
Lemma load_spec p realloc_ok pm l :
  manager_ok pm -> plugin_capacity pm < 2 ^ 30 -> plugins pm = PLive l ->
  exists code pm', load_plugin p realloc_ok true pm = Ok (code, pm') /\ manager_ok pm' /\ loaded p l (handles pm) code pm'
    /\ plugin_capacity pm' <= Z.max (plugin_capacity pm) (2 * zlen l).
Proof.
  intros [Hm (l' & Hl & Hp & Hpos & Hle)] Hcap Hl'. assert (l' = l) as -> by congruence. clear Hl'.
  destruct pm as [ps cap m dir hs]. cbn [mutex plugins handles plugin_capacity] in *. subst ps m.
  unfold load_plugin. destruct (dlopen p) as [d|] eqn:Hd; 
    [|eexists _, _; split_and!; [reflexivity|by apply holds_table|by left|simpl; lia]].
  assert (exists code pm', Ok (-1, dlclose p (mkPluginManager (PLive l) cap Unlocked dir (p :: hs))) = Ok (code, pm')
            /\ manager_ok pm' /\ loaded p l hs code pm' /\ plugin_capacity pm' <= Z.max cap (2 * zlen l)) as Hback.
  { eexists _, _. split; [reflexivity|]. unfold dlclose, set_handles. cbn [handles plugins plugin_capacity mutex plugin_dir].
    rewrite close_one_cons. split_and!; [by apply holds_table|by left|lia]. }
  destruct (dso_init d) as [started|]; [destruct (dso_cleanup d)|]; [|exact Hback|exact Hback].
  rewrite manager_lock by done. unfold grow_plugins, table.
  cbn [mbind res_bind set_mutex set_handles plugins plugin_capacity mutex plugin_dir handles].
  destruct (Z.geb_spec (zlen l) cap) as [Hge|Hlt]; [destruct realloc_ok|]; cbn [mbind res_bind].
  - rewrite i32_small by (unfold INT_MAX; lia).
    destruct (add_plugin_spec p d started l (cap * 2) dir hs Hd) as (code & pm' & E & H1 & H2 & Hc); [lia|lia|done|].
    exists code, pm'. split_and!; [done..|lia].
  - exact Hback.
  - destruct (add_plugin_spec p d started l cap dir hs Hd) as (code & pm' & E & H1 & H2 & Hc); [done..|].
    exists code, pm'. split_and!; [done..|lia].
Qed.

Lemma unload_spec n pm l :
  manager_ok pm -> plugins pm = PLive l ->
  exists pm', plugin_unload n pm = Ok (match find_index (has_name n) l with Some _ => 0 | None => -1 end, pm')
    /\ manager_ok pm'
    /\ plugins pm' = PLive (match find_index (has_name n) l with Some i => delete i l | None => l end)
    /\ plugin_capacity pm' = plugin_capacity pm.
Proof.
  intros [Hm (l' & Hl & Hp & Hpos & Hle)] Hl'. assert (l' = l) as -> by congruence. clear Hl'.
  unfold plugin_unload. rewrite manager_lock by done. unfold table. cbn [mbind res_bind plugins set_mutex]. rewrite Hl.
  cbn [mbind res_bind]. destruct (find_index (has_name n) l) as [i|] eqn:Hi.
  2:{ eexists. split; [reflexivity|]. split_and!; [split; [done|by exists l]|done|done]. }
  apply find_index_Some in Hi as (x & Hx & _). rewrite Hx. cbn [fmap option_fmap option_map default].
  eexists. split; [reflexivity|]. split_and!; [|done|done]. pose proof (delete_Permutation l i x Hx) as Hd.
  pose proof (Permutation_map path Hd) as Hpd. cbn [map] in Hpd. split; [done|]. eexists. split; [reflexivity|]. cbn [unlock set_mutex set_plugins dlclose set_handles handles plugin_capacity].
  split_and!; [|done|].
  - apply (Permutation_cons_inv (a := path x)). rewrite <- close_one_perm; [by rewrite <- Hp, Hpd|].
    rewrite <- Hp, Hpd. by left.
  - apply Permutation_length in Hd. unfold zlen in *. simpl in Hd. lia.
Qed.

Lemma plugin_exec_ok o pm : manager_ok pm -> plugin_op_ok o pm -> res_sat manager_ok (plugin_exec o pm).
Proof.
  intros Hok Hcap. pose proof Hok as [Hm (l & Hl & Hp & Hpos & Hle)].
  destruct o as [p realloc_ok|n|n enabled|point ctx|]; cbn [plugin_exec].
  - by destruct (load_spec p realloc_ok pm l Hok Hcap Hl) as (code & pm' & -> & H & _).
  - destruct (unload_spec n pm l Hok Hl) as (pm' & -> & H & _). exact H.
  - unfold plugin_set_enabled. rewrite manager_lock by done. unfold table. cbn [mbind res_bind plugins set_mutex].
    rewrite Hl. cbn [mbind res_bind]. destruct (find_index _ _) as [i|]; (split; [done|]).
    + eexists. split; [reflexivity|]. cbn [unlock set_mutex set_plugins handles plugin_capacity]. split_and!; [|done|].
      * change (map path (alter ?f i l)) with (path <$> alter f i l). by rewrite fmap_alter_same.
      * unfold zlen in *. by rewrite length_alter.
    + by exists l.
  - unfold plugin_process_hooks. rewrite manager_lock by done. unfold table. cbn [mbind res_bind plugins set_mutex].
    rewrite Hl. cbn. split; [done|by exists l].
  - unfold plugin_get_list. rewrite manager_lock by done. unfold table. cbn [mbind res_bind plugins set_mutex].
    rewrite Hl. cbn. split; [done|by exists l].
Qed.

#[export] Instance plugin_component : Component PluginManager plugin_op := {|
  run_op := plugin_exec;
  allowed := plugin_op_ok;
  invariant := manager_ok;
  invariant_kept := plugin_exec_ok
|}.

(** ** Theorems *)

(** Loading a directory keeps the table in order. *)
Lemma load_entries_ok dir ok bound entries : forall k n pm l,
  manager_ok pm -> plugins pm = PLive l -> plugin_capacity pm <= Z.max 16 (2 * bound) ->
  zlen l + zlen entries <= bound -> bound < 2 ^ 28 ->
  (forall j, (ok j).2 = true) ->
  exists code pm' l', load_entries dir ok k entries n pm = Ok (code, pm') /\ manager_ok pm' /\ plugins pm' = PLive l'.
Proof.
  induction entries as [|e es IH]; intros k n pm l Hok Hl Hcap Hlen Hn Hdup; cbn [load_entries]; [by eexists _, _, _|].
  rewrite zlen_cons in *. pose proof (zlen_nonneg es). destruct (is_object e); [|by apply (IH _ _ _ l); try done; lia].
  rewrite Hdup. destruct (load_spec (take 1023 (dir ++ lit "/" ++ e)) (ok k).1 pm l Hok ltac:(lia) Hl)
    as (code & pm1 & -> & Hok1 & Hld & Hc1). cbn [mbind res_bind].
  destruct Hld as [(Hl1 & _)|(d & _ & Hl1 & _)]; (eapply IH; [done|exact Hl1|..|done]); rewrite ?zlen_snoc; lia.
Qed.

(** Calling with the [i]-th plugin disabled is calling without it. *)
Lemma call_disabled f i : forall l r ctx,
  call_plugins f (alter (set_plugin_enabled false) i l) r ctx = call_plugins f (delete i l) r ctx.
Proof.
  induction i as [|i IH]; intros [|p l] r ctx; try done.
  cbn [alter list_alter delete list_delete call_plugins].
  destruct (if is_enabled p then f (handle p) else None) as [call|]; [|apply IH].
  destruct (call ctx) as [r' ctx']. apply IH.
Qed.

(** C16: Initialisation, then any loads, unloads and calls, in any order: the objects
    that are open are exactly those of the plugins in the table, each as often as
    it was loaded, and the clean-up closes them all. *)
Theorem plugin_handles_balanced dir ok pm0 pm pm' entries :
  handles pm0 = [] -> (forall j, (ok j).2 = true) ->
  readdir (default (lit "plugins") dir) = Some entries -> zlen entries < 2 ^ 28 ->
  plugin_init dir true true true ok pm0 = Ok (0, pm) ->
  rtc component_step pm pm' ->
  (exists l, plugins pm' = PLive l /\ map path l ≡ₚ handles pm')
  /\ exists pm'', plugin_cleanup pm' = Ok pm'' /\ handles pm'' = [].
Proof.
  intros Hh Hdup Hdir Hn Hinit Hsteps.
  assert (manager_ok pm) as Hok.
  { unfold plugin_init, load_plugins_from_directory in Hinit. cbn [negb] in Hinit. rewrite Hdir in Hinit.
    destruct (load_entries_ok (default (lit "plugins") dir) ok (zlen entries) entries 0 0
      (set_mutex Unlocked (mkPluginManager (PLive []) 16 (mutex pm0) (Some (default (lit "plugins") dir)) (handles pm0))) [])
      as (code & pm1 & l1 & E & H1 & _); [|done|simpl; lia|change (zlen []) with 0; lia|done|done|].
    - unfold set_mutex. simpl. rewrite Hh. by apply holds_table.
    - rewrite E in Hinit. cbn in Hinit. by injection Hinit as <-. }
  assert (manager_ok pm') as [Hm (l & Hl & Hp & _)] by exact (component_reachable (H := plugin_component) pm pm' Hok Hsteps). split; [by exists l|].
  unfold plugin_cleanup. rewrite manager_lock by done. unfold table. cbn [mbind res_bind plugins set_mutex]. rewrite Hl.
  cbn [mbind res_bind]. eexists. split; [reflexivity|]. cbn [handles set_mutex].
  apply Permutation_nil_r, close_all_perm. by rewrite map_rev, <- Permutation_rev.
Qed.

(** A plugin that is disabled has no more influence on a request than one that is
    unloaded: the hooks give the same result and leave the same context. *)
Theorem disabled_like_unloaded n pm l point ctx :
  manager_ok pm -> plugins pm = PLive l -> is_Some (find_index (has_name n) l) ->
  exists pm1 pm2 r pm1' pm2',
    plugin_set_enabled n false pm = Ok (0, pm1) /\ plugin_unload n pm = Ok (0, pm2)
    /\ plugin_process_hooks point ctx pm1 = Ok (r, pm1') /\ plugin_process_hooks point ctx pm2 = Ok (r, pm2').
Proof.
  intros Hok Hl [i Hi]. destruct (unload_spec n pm l Hok Hl) as (pm2 & E2 & [Hm2 _] & Hl2 & _). rewrite Hi in E2, Hl2.
  unfold plugin_set_enabled. rewrite manager_lock by apply Hok. unfold table. cbn [mbind res_bind plugins set_mutex]. rewrite Hl.
  cbn [mbind res_bind]. rewrite Hi. exists (unlock (set_plugins (PLive (alter (set_plugin_enabled false) i l)) (plugin_capacity pm) (set_mutex Locked pm))).
  exists pm2, (call_plugins (hook_at point) (delete i l) 0 ctx). eexists _, _. split_and!; [reflexivity|exact E2| |].
  - unfold plugin_process_hooks. rewrite manager_lock by done. unfold table. cbn [mbind res_bind plugins set_mutex unlock set_plugins].
    by rewrite call_disabled.
  - unfold plugin_process_hooks. rewrite manager_lock by done. unfold table. cbn [mbind res_bind plugins set_mutex]. by rewrite Hl2.
Qed.

(** Loading an object and unloading it under its name leaves the table and the
    open objects as they were, when no other plugin has that name. *)
Theorem load_unload p realloc_ok pm l pm1 :
  manager_ok pm -> plugin_capacity pm < 2 ^ 30 -> plugins pm = PLive l ->
  Forall (fun q => name q <> plugin_name p) l ->
  load_plugin p realloc_ok true pm = Ok (0, pm1) ->
  exists pm2, plugin_unload (plugin_name p) pm1 = Ok (0, pm2) /\ plugins pm2 = PLive l /\ handles pm2 = handles pm.
Proof.
  intros Hok Hcap Hl Hnew Hload. destruct (load_spec p realloc_ok pm l Hok Hcap Hl) as (code & pm' & E & [Hm1 _] & Hld & _).
  rewrite Hload in E. injection E as <- <-. destruct Hld as [(_ & _ & ?)|(d & _ & Hl1 & Hh1 & _)]; [done|].
  unfold plugin_unload. rewrite manager_lock by done. unfold table. cbn [mbind res_bind plugins set_mutex]. rewrite Hl1.
  cbn [mbind res_bind]. rewrite find_index_last.
  - rewrite lookup_app_r, Nat.sub_diag by done. cbn. eexists. split; [reflexivity|].
    unfold dlclose. cbn. rewrite Hh1, close_one_cons. split; [|done]. f_equal. apply delete_last.
  - unfold has_name. cbn. apply streq_refl.
  - eapply Forall_impl; [exact Hnew|]. intros q Hq. by apply streq_false.
Qed.

(** The addresses of a release, but for the ones that do not fit. *)
Fixpoint assets (fuel : nat) (json : list Z) : list (list Z) :=
  match fuel with
  | O => []
  | S fuel' =>
      match next_url json with
      | None => []
      | Some (url, rest) => if zlen url <? 1023 then url :: assets fuel' rest else assets fuel' rest
      end
  end.

Lemma find_asset_spec fuel pattern : forall json found,
  find_asset fuel pattern json found
  = match List.find (fun u => contains u pattern) (assets fuel json) with
    | Some u => u
    | None => default found (last (assets fuel json))
    end.
Proof.
  induction fuel as [|fuel IH]; intros json found; [done|]. cbn [find_asset assets].
  destruct (next_url json) as [[u rest]|]; [|done]. destruct (zlen u <? 1023); [|apply IH]. cbn [List.find].
  destruct (contains u pattern); [done|]. rewrite IH. destruct (List.find _ _); [done|]. rewrite last_cons.
  by destruct (last (assets fuel rest)).
Qed.

(** A release none of whose files fits the pattern that was asked for: the last
    file is downloaded and loaded all the same. *)
Theorem unmatched_asset_installed repo pattern json_file json tmp realloc_ok strdup_ok pm url :
  system (github_cmd repo json_file) = 0 ->
  Forall (fun u => contains u pattern = false) (assets (length json) json) ->
  last (assets (length json) json) = Some url -> url <> [] ->
  plugin_install_from_github (Some repo) (Some pattern) (Some json_file) (Some json) tmp realloc_ok strdup_ok pm
  = plugin_install_from_url (Some url) tmp realloc_ok strdup_ok pm.
Proof.
  intros Hsys Hnone Hlast Hne. unfold plugin_install_from_github. rewrite Hsys. cbn [Z.eqb negb].
  rewrite find_asset_spec, Hlast. destruct (List.find _ _) as [u|] eqn:E; [|by destruct url].
  apply find_some in E as [Hin Hu]. rewrite Forall_forall in Hnone.
  rewrite (Hnone u) in Hu; [done|]. by apply list_elem_of_In.
Qed.
End Plugins.

(** ** Witnesses: an object that counts the requests *)

Definition counter : Dso := mkDso (Ctx := Z) (Some 0) None true (Some (fun _ n => (0, n + 1))).
Definition refusing : Dso := mkDso (Ctx := Z) (Some 0) None true (Some (fun _ n => (-1, 2 * n))).

Definition demo_dlopen (p : list Z) : option (Dso (Ctx := Z)) :=
  if contains p (lit "count") then Some counter else if contains p (lit "refuse") then Some refusing else None.
Definition demo_readdir (dir : list Z) : option (list (list Z)) :=
  Some [lit "."; lit ".."; lit "count.so"; lit "README"; lit "refuse.so"].

Definition started_manager : PluginManager :=
  match plugin_init demo_dlopen demo_readdir None true true true (fun _ => (true, true)) global_plugin_manager with
  | Ok (_, pm) => pm
  | Fault _ => global_plugin_manager
  end.

Example hooks_in_order :
  (fun x => x.1) <$> plugin_process_hooks PLUGIN_HOOK_PRE_REQUEST 20 started_manager = Ok (-1, 42).
Proof. vm_compute. reflexivity. Qed.

Lemma plugin_handles_balanced_witness :
  exists l, plugins started_manager = PLive l /\ map path l ≡ₚ handles started_manager.
Proof.
  refine (proj1 (plugin_handles_balanced demo_dlopen demo_readdir None (fun _ => (true, true)) global_plugin_manager
    started_manager started_manager [lit "."; lit ".."; lit "count.so"; lit "README"; lit "refuse.so"] _ _ _ _ _ _));
    [reflexivity|reflexivity|reflexivity|vm_compute; reflexivity|vm_compute; reflexivity|apply rtc_refl].
Defined.

Lemma started_ok : manager_ok started_manager.
Proof.
  assert (exists l c d h, started_manager = mkPluginManager (PLive l) c Unlocked d h /\ map path l = rev h
    /\ 0 < c /\ zlen l <= c) as (l & c & d & h & -> & Hp & Hc & Hl).
  { vm_compute. eexists _, _, _, _. split; [reflexivity|]. split; [reflexivity|]. split; [reflexivity|discriminate]. }
  split; [done|]. exists l. split_and!; [done| |done|done]. rewrite Hp. symmetry. apply Permutation_rev.
Qed.

Definition started_plugins : list (Plugin (Ctx := Z)) :=
  match plugins started_manager with PLive l => l | _ => [] end.

Lemma disabled_like_unloaded_witness :
  exists pm1 pm2 r pm1' pm2',
    plugin_set_enabled (lit "refuse") false started_manager = Ok (0, pm1)
    /\ plugin_unload (lit "refuse") started_manager = Ok (0, pm2)
    /\ plugin_process_hooks PLUGIN_HOOK_PRE_REQUEST 20 pm1 = Ok (r, pm1')
    /\ plugin_process_hooks PLUGIN_HOOK_PRE_REQUEST 20 pm2 = Ok (r, pm2').
Proof.
  apply (disabled_like_unloaded (lit "refuse") started_manager started_plugins PLUGIN_HOOK_PRE_REQUEST 20);
    [exact started_ok|vm_compute; reflexivity|vm_compute; eexists; reflexivity].
Defined.
