(* ===== verification/Tls.v ===== *)
(** * TLS: src/tls.c

    Protocol negotiation and the connections, which run OpenSSL over two memory
    buffers: the bytes of the socket go into the one, the bytes that OpenSSL
    produces are taken from the other.  What OpenSSL makes of them is a parameter
    of class [OpenSSL].  The contexts are in
    [TlsContext]. *)

From S2P Require Import Prelude Io.

(** ** Data *)

Inductive TLSError :=
| TLS_OK | TLS_ERR_WANT_READ | TLS_ERR_WANT_WRITE | TLS_ERR_WANT_CONNECT | TLS_ERR_WANT_ACCEPT
| TLS_ERR_CLOSED | TLS_ERR_SYSTEM | TLS_ERR_MEMORY | TLS_ERR_CERT | TLS_ERR_VERIFY | TLS_ERR_OCSP.

Definition tls_code (e : TLSError) : Z :=
  match e with
  | TLS_OK => 0 | TLS_ERR_WANT_READ => -1 | TLS_ERR_WANT_WRITE => -2 | TLS_ERR_WANT_CONNECT => -3
  | TLS_ERR_WANT_ACCEPT => -4 | TLS_ERR_CLOSED => -5 | TLS_ERR_SYSTEM => -6 | TLS_ERR_MEMORY => -7
  | TLS_ERR_CERT => -8 | TLS_ERR_VERIFY => -9 | TLS_ERR_OCSP => -10
  end.

Definition tls_error_string (e : TLSError) : list Z :=
  match e with
  | TLS_OK => lit "success" | TLS_ERR_WANT_READ => lit "want read" | TLS_ERR_WANT_WRITE => lit "want write"
  | TLS_ERR_WANT_CONNECT => lit "want connect" | TLS_ERR_WANT_ACCEPT => lit "want accept"
  | TLS_ERR_CLOSED => lit "connection closed" | TLS_ERR_SYSTEM => lit "system error"
  | TLS_ERR_MEMORY => lit "memory error" | TLS_ERR_CERT => lit "certificate error"
  | TLS_ERR_VERIFY => lit "verification error" | TLS_ERR_OCSP => lit "OCSP error"
  end.

(** ** Protocol negotiation *)

Definition AIONIC_TLS_ALPN_STRING_LEN : Z := 128.

(** The protocols up to the comma, each with its length before it.  [room] is
    what [out_len - 3] leaves, [fuel] the length of the text. *)
Fixpoint alpn_loop (fuel : nat) (p : list Z) (out_len : Z) (out : list Z) : list Z :=
  match fuel with
  | O => out
  | S fuel' =>
      match p with
      | [] => out
      | _ =>
          if zlen out <? out_len - 3 then
            let proto := until c_COMMA p in
            let rest := drop (length proto) p in
            let next := drop 1 rest in
            if (zlen proto <? 1) || (zlen proto >? 255) then alpn_loop fuel' next out_len out
            else if zlen out + zlen proto + 1 >? out_len then out
            else
              let out := out ++ zlen proto :: proto in
              match rest with [] => out | _ => alpn_loop fuel' next out_len out end
          else out
      end
  end.

(** The bytes written of which the result counts. *)
Definition build_alpn_string (protos : option (list Z)) (out_len : Z) : list Z :=
  match protos with
  | None | Some [] => if out_len <? 16 then [] else take 8 (8 :: lit "http/1.1")
  | Some p => alpn_loop (length p) p out_len []
  end.

(** One pass over the client's list for one protocol: the offset of its name. *)
Fixpoint alpn_find (fuel : nat) (proto input : list Z) (i : nat) : option nat :=
  match fuel with
  | O => None
  | S fuel' =>
      match drop i input with
      | [] => None
      | len :: rest =>
          if Z.of_nat (S i) + len >? zlen input then None
          else if (len =? zlen proto) && prefixb proto rest then Some (S i)
          else alpn_find fuel' proto input (S i + Z.to_nat len)
      end
  end.

Definition http1 : list Z := lit "http/1.1".
Definition h2 : list Z := lit "h2".

(** The protocol selected, or [None] for no acknowledgement. *)
Definition alpn_select_cb (input : list Z) : option (list Z) :=
  let slice proto := (fun i => take (length proto) (drop i input)) <$> alpn_find (length input) proto input 0 in
  match slice http1 with
  | Some p => Some p
  | None => slice h2
  end.

(** The size of the buffers on the stack. *)
Definition BUF : nat := Z.to_nat 65536.
Lemma BUF_pos : (0 < BUF)%nat.
Proof. unfold BUF. lia. Qed.
Lemma BUF_eq : BUF = Z.to_nat 65536.
Proof. reflexivity. Qed.
#[global] Opaque BUF.

(** ** The library *)

Inductive ssl_error :=
| SSL_ERROR_WANT_READ | SSL_ERROR_WANT_WRITE | SSL_ERROR_SYSCALL | SSL_ERROR_SSL | SSL_ERROR_ZERO_RETURN | SSL_ERROR_OTHER.

#[export] Instance ssl_error_eq_dec : EqDecision ssl_error.
Proof. solve_decision. Defined.

(** A call reads from the front of the first buffer and adds to the end of the
    second: it answers with its value or an error, the state, what is left of the
    input, and the output. *)
Definition ssl_step (SSL A : Type) : Type := SSL -> list Z -> (A + ssl_error) * SSL * list Z * list Z.

(** [clears_errno]: whether a call leaves [errno] at 0. *)
Class OpenSSL (SSL : Type) := {
  SSL_accept : ssl_step SSL unit;
  SSL_read : nat -> ssl_step SSL (list Z);
  SSL_write : list Z -> ssl_step SSL Z;
  SSL_shutdown : ssl_step SSL unit;
  SSL_pending : SSL -> Z;
  SSL_get_cipher : SSL -> option (list Z);
  SSL_get_version : SSL -> list Z;
  SSL_get_servername : SSL -> option (list Z);
  SSL_get0_alpn_selected : SSL -> list Z;
  clears_errno : bool
}.

Section Connection.
Context {SSL : Type} `{OpenSSL SSL}.

Record TLSConn := mkTLSConn {
  ssl : SSL;
  rbio : list Z;
  wbio : list Z;
  fd : Z;
  handshake_done : bool;
  ocsp_stapled : bool;
  cipher : list Z;
  version : list Z;
  servername : list Z
}.

Definition set_buffers (s : SSL) (r w : list Z) (c : TLSConn) : TLSConn :=
  mkTLSConn s r w (fd c) (handshake_done c) (ocsp_stapled c) (cipher c) (version c) (servername c).
Definition set_handshake (b : bool) (c : TLSConn) : TLSConn :=
  mkTLSConn (ssl c) (rbio c) (wbio c) (fd c) b (ocsp_stapled c) (cipher c) (version c) (servername c).
Definition set_fd (n : Z) (c : TLSConn) : TLSConn :=
  mkTLSConn (ssl c) (rbio c) (wbio c) n (handshake_done c) (ocsp_stapled c) (cipher c) (version c) (servername c).

(** [SSL_new] on the context, and whether the other allocations work. *)
Definition tls_conn_new (ctx : option (option SSL)) (n : Z) (calloc_ok bio_ok : bool) : option TLSConn :=
  match ctx with
  | None => None
  | Some new_ssl =>
      if negb calloc_ok then None
      else
        match new_ssl with
        | Some s => if bio_ok then Some (mkTLSConn s [] [] n false false [] [] []) else None
        | None => None
        end
  end.

(** The connection of the library is freed with it. *)
Definition tls_conn_destroy (conn : ptr TLSConn) : res (ptr TLSConn) := free_owned conn.

(** One call of the library on a connection. *)
Definition call_ssl {A} (f : ssl_step SSL A) (c : TLSConn) : M ((A + ssl_error) * TLSConn) := fun i =>
  let '(r, s, rest, out) := f (ssl c) (rbio c) in
  Done (r, set_buffers s rest (wbio c ++ out) c) (if clears_errno then set_errno false i else i).

(** ** Flushing

    The buffer is taken out 65536 bytes at a time.  The value is the number of
    bytes sent, or an error: what was taken out is then lost. *)

Fixpoint flush_loop (rounds : nat) (c : TLSConn) (total : Z) : M (Z * TLSConn) :=
  match wbio c, rounds with
  | [], _ | _, O => mret (total, c)
  | _, S rounds' =>
      let buf := take BUF (wbio c) in
      let c := set_buffers (ssl c) (rbio c) (drop BUF (wbio c)) c in
      ok ← push (fd c) buf;
      if ok : bool then flush_loop rounds' c (total + zlen buf) else mret (tls_code TLS_ERR_SYSTEM, c)
  end.

Definition tls_flush_write (c : TLSConn) : M (Z * TLSConn) :=
  if fd c <? 0 then mret (tls_code TLS_ERR_CLOSED, c) else flush_loop (length (wbio c)) c 0.

Definition flushed (c : TLSConn) : M TLSConn := '(_, c) ← tls_flush_write c; mret c.

(** ** The handshake *)

Definition finish_handshake (c : TLSConn) : TLSConn :=
  mkTLSConn (ssl c) (rbio c) (wbio c) (fd c) true (ocsp_stapled c)
    (match SSL_get_cipher (ssl c) with Some n => take 63 n | None => cipher c end)
    (take 31 (SSL_get_version (ssl c)))
    (match SSL_get_servername (ssl c) with Some n => take 255 n | None => servername c end).

Definition add_rbio (l : list Z) (c : TLSConn) : TLSConn := set_buffers (ssl c) (rbio c ++ l) (wbio c) c.

(** How often [recv] can answer before it has to wait. *)
Definition recv_rounds (i : io) : nat :=
  fold_right (fun a n => match a with Gets l => S (length l + n) | _ => S n end) 1%nat (recvs i).

(** After [SSL_accept]: the value to return, or [None] for the next round. *)
Definition after_accept (blocked : bool) (r : unit + ssl_error) (c : TLSConn) : M (option TLSError * TLSConn) :=
  match r with
  | inl _ => c ← flushed (finish_handshake c); mret (Some TLS_OK, c)
  | inr SSL_ERROR_WANT_READ =>
      c ← flushed c;
      again ← errno_is_again;
      mret (if blocked && again then Some TLS_ERR_WANT_READ else None, c)
  | inr SSL_ERROR_WANT_WRITE => c ← flushed c; mret (Some TLS_ERR_WANT_WRITE, c)
  | inr SSL_ERROR_ZERO_RETURN => mret (Some TLS_ERR_CLOSED, c)
  | inr _ => mret (Some TLS_ERR_SYSTEM, c)
  end.

Fixpoint accept_loop (rounds : nat) (c : TLSConn) : M (TLSError * TLSConn) :=
  match rounds with
  | O => fun _ => Waiting
  | S rounds' =>
      n ← recv (fd c) BUF;
      let go blocked c :=
        '(r, c) ← call_ssl SSL_accept c;
        '(e, c) ← after_accept blocked r c;
        match e with Some e => mret (e, c) | None => accept_loop rounds' c end in
      match n with
      | Received [] => mret (TLS_ERR_CLOSED, c)
      | Received l => go false (add_rbio l c)
      | Recv_again => go true c
      | Recv_failed => mret (TLS_ERR_SYSTEM, c)
      end
  end.

Definition tls_conn_accept (c : TLSConn) : M (TLSError * TLSConn) := fun i =>
  (if handshake_done c then mret (TLS_OK, c) else accept_loop (recv_rounds i) c) i.

(** ** Reading and writing *)

(** Take what the socket has: [None] is the end of the input, otherwise whether
    there was anything. *)
Fixpoint gather (rounds : nat) (got : bool) (c : TLSConn) : M (option bool * TLSConn) :=
  match rounds with
  | O => fun _ => Waiting
  | S rounds' =>
      n ← recv (fd c) BUF;
      match n with
      | Received [] => mret (None, c)
      | Received l => gather rounds' true (add_rbio l c)
      | Recv_again | Recv_failed => mret (Some got, c)
      end
  end.

(** The value: the bytes read, or an error. *)
Definition tls_value : Type := list Z + TLSError.

Fixpoint read_loop (rounds : nat) (len : nat) (c : TLSConn) : M (tls_value * TLSConn) :=
  match rounds with
  | O => fun _ => Waiting
  | S rounds' =>
      '(got, c) ← (fun i => gather (recv_rounds i) false c i);
      match got with
      | None => mret (inr TLS_ERR_CLOSED, c)
      | Some got =>
          '(r, c) ← call_ssl (SSL_read len) c;
          match r with
          | inl data => c ← flushed c; mret (inl data, c)
          | inr SSL_ERROR_WANT_READ =>
              c ← flushed c;
              if got : bool then read_loop rounds' len c else mret (inr TLS_ERR_WANT_READ, c)
          | inr SSL_ERROR_WANT_WRITE => c ← flushed c; mret (inr TLS_ERR_WANT_WRITE, c)
          | inr SSL_ERROR_ZERO_RETURN => mret (inr TLS_ERR_CLOSED, c)
          | inr _ => mret (inr TLS_ERR_SYSTEM, c)
          end
      end
  end.

(** The handshake first, if it is not done; then [f]. *)
Definition with_handshake {A} (refused : TLSError -> A) (c : TLSConn) (f : TLSConn -> M (A * TLSConn))
  : M (A * TLSConn) :=
  if fd c <? 0 then mret (refused TLS_ERR_CLOSED, c)
  else if handshake_done c then f c
  else
    '(e, c) ← tls_conn_accept c;
    match e with
    | TLS_OK => f c
    | e => mret (refused e, c)
    end.

Definition tls_conn_read (c : TLSConn) (len : nat) : M (tls_value * TLSConn) :=
  with_handshake inr c (fun c i => read_loop (recv_rounds i) len c i).

(** The value: how many bytes the library took, or an error. *)
Definition tls_conn_write (c : TLSConn) (data : list Z) : M ((Z + TLSError) * TLSConn) :=
  with_handshake inr c (fun c =>
    '(r, c) ← call_ssl (SSL_write data) c;
    match r with
    | inl n => c ← flushed c; mret (inl n, c)
    | inr SSL_ERROR_WANT_WRITE | inr SSL_ERROR_WANT_READ => c ← flushed c; mret (inr TLS_ERR_WANT_WRITE, c)
    | inr SSL_ERROR_ZERO_RETURN => mret (inr TLS_ERR_CLOSED, c)
    | inr _ => mret (inr TLS_ERR_SYSTEM, c)
    end).

Definition tls_conn_pending (c : option TLSConn) : Z := match c with Some c => SSL_pending (ssl c) | None => 0 end.
Definition tls_conn_get_fd (c : option TLSConn) : Z := match c with Some c => fd c | None => -1 end.
Definition tls_conn_get_cipher (c : option TLSConn) : option (list Z) := cipher <$> c.
Definition tls_conn_get_version (c : option TLSConn) : option (list Z) := version <$> c.
Definition tls_conn_get_servername (c : option TLSConn) : option (list Z) := servername <$> c.
Definition tls_conn_is_ocsp_stapled (c : option TLSConn) : bool := match c with Some c => ocsp_stapled c | None => false end.
Definition tls_conn_set_fd (c : option TLSConn) (n : Z) : option TLSConn := set_fd n <$> c.

(** The code and the string in the buffer. *)
Definition tls_conn_get_alpn (c : option TLSConn) (len : Z) : Z * option (list Z) :=
  match c with
  | None => (-1, None)
  | Some c =>
      if len =? 0 then (-1, None)
      else
        match SSL_get0_alpn_selected (ssl c) with
        | [] => (-1, Some [])
        | alpn => (0, Some (take (Z.to_nat (len - 1)) alpn))
        end
  end.

Definition tls_conn_shutdown (c : TLSConn) : M TLSConn :=
  '(_, c) ← call_ssl SSL_shutdown c;
  c ← flushed c;
  mret (set_handshake false c).

Definition tls_conn_close (c : TLSConn) : M TLSConn :=
  c ← tls_conn_shutdown c;
  if fd c >=? 0 then close (fd c);; mret (set_fd (-1) c) else mret c.

(** ** Lemmas *)

(** The same connection, to the same descriptor. *)
Lemma call_ssl_eq {A} (f : ssl_step SSL A) c i r s rest out :
  f (ssl c) (rbio c) = (r, s, rest, out) ->
  call_ssl f c i = Done (r, set_buffers s rest (wbio c ++ out) c) (if clears_errno then set_errno false i else i).
Proof. unfold call_ssl. by intros ->. Qed.

(** What the buffer holds is sent, and nothing else. *)
Lemma flush_loop_all rounds : forall c total i,
  Forall takes_some (sends i) -> (length (wbio c) <= rounds)%nat -> (length (wbio c) <= length (sends i))%nat ->
  returns (flush_loop rounds c total) i (fun x i' =>
    x = (total + zlen (wbio c), set_buffers (ssl c) (rbio c) [] c)
    /\ written (fd c) i' = written (fd c) i ++ wbio c /\ recvs i' = recvs i /\ errno_again i' = errno_again i
    /\ Forall takes_some (sends i') /\ (length (sends i) <= length (sends i') + length (wbio c))%nat).
Proof.
  induction rounds as [|rounds IH]; intros c total i Hf Hr Hl; cbn [flush_loop]; destruct (wbio c) as [|b w] eqn:Ew;
    try (apply returns_ret; rewrite app_nil_r, Z.add_0_r; destruct c; simpl in *; subst; split_and!; (done || lia));
    [simpl in Hr; lia|].
  rewrite <- Ew in *. set (buf := take BUF (wbio c)).
  assert (length buf + length (drop BUF (wbio c)) = length (wbio c))%nat as Hsplit
    by (unfold buf; rewrite <- length_app; by rewrite take_drop).
  assert (0 < length buf)%nat as Hpos.
  { unfold buf. rewrite length_take, Ew. pose proof BUF_pos. cbn [length]. lia. }
  apply returns_bind. eapply returns_mono; [apply push_all; [done|lia]|].
  intros ok i1 (-> & Hw & Hrv & He & Hf1 & Hl1). eapply returns_mono; [apply IH; simpl; [done|lia|lia]|].
  simpl in *. intros x i2 (-> & Hw2 & Hrv2 & He2 & Hf2 & Hl2). split_and!; [|..|done|lia]; try congruence.
  - f_equal. unfold zlen. lia.
  - rewrite Hw2, Hw, <- app_assoc. unfold buf. by rewrite take_drop.
Qed.

Lemma flushed_all c i :
  0 <= fd c -> Forall takes_some (sends i) -> (length (wbio c) <= length (sends i))%nat ->
  returns (flushed c) i (fun c' i' =>
    c' = set_buffers (ssl c) (rbio c) [] c
    /\ written (fd c) i' = written (fd c) i ++ wbio c /\ recvs i' = recvs i /\ errno_again i' = errno_again i
    /\ Forall takes_some (sends i') /\ (length (sends i) <= length (sends i') + length (wbio c))%nat).
Proof.
  intros Hfd Hf Hl. unfold flushed, tls_flush_write. destruct (Z.ltb_spec (fd c) 0); [lia|].
  apply returns_bind. eapply returns_mono; [by apply flush_loop_all|]. intros x i' (-> & H').
  apply returns_ret. by split.
Qed.

(** Every operation writes to the descriptor of its connection at most, and keeps
    it: [tied n m]. *)
Definition tied {A} (n : Z) (m : M (A * TLSConn)) : Prop :=
  forall i a c i', m i = Done (a, c) i' -> fd c = n /\ only n i i'.

Lemma tied_ret {A} n (a : A) c : fd c = n -> tied n (mret (a, c)).
Proof. by intros Hc i b c' i' [= _ <- <-]. Qed.

Lemma tied_bind {A B} n (m : M (A * TLSConn)) (k : A * TLSConn -> M (B * TLSConn)) :
  tied n m -> (forall a c, fd c = n -> tied n (k (a, c))) -> tied n (m ≫= k).
Proof.
  intros Hm Hk i b c' i' ([a c] & i1 & E1 & E2)%bind_Done. apply Hm in E1 as [Hc H1].
  destruct (Hk a c Hc _ _ _ _ E2) as [Hc' H2]. split; [done|by etrans].
Qed.

Lemma tied_stays {A B} n (m : M A) (k : A -> M (B * TLSConn)) :
  stays n m -> (forall a, tied n (k a)) -> tied n (m ≫= k).
Proof.
  intros Hm Hk i b c' i' (a & i1 & E1 & E2)%bind_Done. apply Hm in E1.
  destruct (Hk a _ _ _ _ E2) as [Hc' H2]. split; [done|by etrans].
Qed.

Lemma tied_waiting {A} n : tied n (fun _ : io => @Waiting (A * TLSConn)).
Proof. by intros i a c i'. Qed.

Lemma tied_call_ssl {A} n (f : ssl_step SSL A) c : fd c = n -> tied n (call_ssl f c).
Proof.
  intros Hc i a c' i'. unfold call_ssl. destruct (f (ssl c) (rbio c)) as [[[r s] rest] out].
  intros [= _ <- <-]. split; [done|]. by destruct clears_errno.
Qed.

Lemma tied_flush n c : fd c = n -> tied n (tls_flush_write c).
Proof.
  intros Hc. unfold tls_flush_write. destruct (fd c <? 0); [by apply tied_ret|].
  generalize (length (wbio c)) 0. intros rounds. revert c Hc. induction rounds as [|rounds IH]; intros c Hc total;
    cbn [flush_loop]; destruct (wbio c); try by apply tied_ret.
  apply tied_stays; [cbn [fd set_buffers]; rewrite Hc; stays|]. intros ok. destruct ok; [by apply IH|by apply tied_ret].
Qed.

Lemma flushed_tied n c i c' i' : fd c = n -> flushed c i = Done c' i' -> fd c' = n /\ only n i i'.
Proof.
  intros Hc E. unfold flushed in E. apply bind_Done in E as ([t c2] & i2 & E & [= -> ->]).
  by apply (tied_flush n c Hc) in E.
Qed.

Lemma tied_flushed {A} n c (k : TLSConn -> M (A * TLSConn)) :
  fd c = n -> (forall c, fd c = n -> tied n (k c)) -> tied n (flushed c ≫= k).
Proof.
  intros Hc Hk i a c' i' (c1 & i1 & E1 & E2)%bind_Done. apply (flushed_tied n) in E1 as [Hc1 H1]; [|done].
  destruct (Hk _ Hc1 _ _ _ _ E2) as [Hc' H2]. split; [done|by etrans].
Qed.

Ltac tied :=
  repeat first
    [ progress intros
    | progress cbv beta iota zeta
    | solve [apply tied_ret; done]
    | solve [apply tied_waiting]
    | apply tied_flushed; [done|]
    | apply tied_bind; [solve [apply tied_call_ssl; done | eauto]|]
    | apply tied_stays; [solve [eauto with stays]|]
    | match goal with
      | |- tied _ (match ?x with _ => _ end) => destruct x
      | |- tied _ (if ?x then _ else _) => destruct x
      end ].

Lemma tied_fueled {A} n (g : io -> nat) (m : nat -> M (A * TLSConn)) :
  (forall k, tied n (m k)) -> tied n (fun i => m (g i) i).
Proof. intros Hm i. apply Hm. Qed.

Lemma tied_accept n c : fd c = n -> tied n (tls_conn_accept c).
Proof.
  intros Hc. apply (tied_fueled n recv_rounds (fun k => if handshake_done c then mret (TLS_OK, c) else accept_loop k c)).
  intros rounds. destruct (handshake_done c); [by apply tied_ret|].
  revert c Hc. induction rounds as [|rounds IH]; intros c Hc; cbn [accept_loop]; tied;
    (apply tied_bind; [unfold after_accept; by tied|tied; by apply IH]).
Qed.

Lemma tied_with_handshake {A} n (refused : TLSError -> A) c f :
  fd c = n -> (forall c, fd c = n -> tied n (f c)) -> tied n (with_handshake refused c f).
Proof.
  intros Hc Hf. unfold with_handshake. destruct (fd c <? 0); [by apply tied_ret|].
  destruct (handshake_done c); [by apply Hf|]. apply tied_bind; [by apply tied_accept|].
  intros [] c1 Hc1; try by apply tied_ret. by apply Hf.
Qed.

Lemma tied_gather n rounds : forall got c, fd c = n -> tied n (gather rounds got c).
Proof. induction rounds as [|rounds IH]; intros got c Hc; cbn [gather]; tied. by apply IH. Qed.

Lemma tied_read n c len : fd c = n -> tied n (tls_conn_read c len).
Proof.
  intros Hc. apply tied_with_handshake; [done|]. clear c Hc. intros c Hc.
  apply (tied_fueled n recv_rounds (fun k => read_loop k len c)). intros rounds. revert c Hc.
  induction rounds as [|rounds IH]; intros c Hc; cbn [read_loop]; [apply tied_waiting|].
  apply tied_bind; [apply (tied_fueled n recv_rounds (fun k => gather k false c)); intros k; by apply tied_gather|].
  tied. by apply IH.
Qed.

Lemma tied_write n c data : fd c = n -> tied n (tls_conn_write c data).
Proof. intros Hc. apply tied_with_handshake; [done|]. tied. Qed.

Lemma shutdown_tied n c i c' i' : fd c = n -> tls_conn_shutdown c i = Done c' i' -> fd c' = n /\ only n i i'.
Proof.
  intros Hc ([r c2] & i2 & E1 & E2)%bind_Done. apply (tied_call_ssl n) in E1 as [Hc2 H1]; [|done].
  apply bind_Done in E2 as (c3 & i3 & E2 & [= <- <-]). apply (flushed_tied n) in E2 as [Hc3 H2]; [|done].
  split; [done|by etrans].
Qed.

Lemma stays_close_conn n c : fd c = n -> stays n (tls_conn_close c).
Proof.
  intros Hc i c' i' (c1 & i1 & E1 & E2)%bind_Done. apply (shutdown_tied n) in E1 as [_ H1]; [|done].
  etrans; [exact H1|]. revert E2. destruct (fd c1 >=? 0); [|by intros [= _ <-]].
  by intros ([] & i2 & [= <-] & [= _ <-])%bind_Done.
Qed.

Lemma flush_closes_none rounds : forall c total i,
  ends (flush_loop rounds c total) i (fun x i' => closed i' = closed i /\ fd x.2 = fd c).
Proof.
  induction rounds as [|rounds IH]; intros c total i; cbn [flush_loop]; destruct (wbio c); try done.
  apply ends_bind. eapply ends_mono; [apply push_closes_none|]. intros [] i1 Hc; [|done].
  eapply ends_mono; [apply IH|]. cbn. by intros x i2 [-> ->].
Qed.

(** Closing a connection does not fault; it closes the descriptor of the connection, once,
    when there is one, and nothing else. *)
Lemma close_conn_closes c i :
  ends (tls_conn_close c) i (fun _ i' => closed i' = closed i ++ if fd c >=? 0 then [fd c] else []).
Proof.
  unfold tls_conn_close, tls_conn_shutdown. do 2 apply ends_bind.
  destruct (SSL_shutdown (ssl c) (rbio c)) as [[[r s] rest] out] eqn:E.
  assert (call_ssl SSL_shutdown c i = Done (r, set_buffers s rest (wbio c ++ out) c) (if clears_errno then set_errno false i else i)) as Ec
    by (by apply call_ssl_eq).
  set (c1 := set_buffers s rest _ c) in *. set (i1 := if clears_errno then _ else _) in *.
  assert (closed i1 = closed i) as Hi1 by (unfold i1; by destruct clears_errno).
  unfold ends at 1. rewrite Ec. apply ends_bind. unfold flushed. apply ends_bind.
  assert (ends (tls_flush_write c1) i1 (fun x i' => closed i' = closed i1 /\ fd x.2 = fd c1)) as Hf.
  { unfold tls_flush_write. destruct (fd c1 <? 0); [done|apply flush_closes_none]. }
  eapply ends_mono; [exact Hf|]. intros [z c2] i2 [Hc Hfd]. cbn in Hfd. cbn. rewrite Hfd. change (fd c1) with (fd c).
  rewrite <- Hi1, <- Hc. destruct (fd c >=? 0); [done|]. unfold ends. cbn. by rewrite app_nil_r.
Qed.

(** ** Theorems *)

(** C21: When the library takes [n] bytes and produces [out] for them, exactly what was
    waiting to be sent and [out] reach the socket, in this order, and nothing is
    left, on any socket that keeps taking something. *)
Theorem tls_write_delivers c data n s rest out i :
  0 <= fd c -> handshake_done c = true -> SSL_write data (ssl c) (rbio c) = (inl n, s, rest, out) ->
  Forall takes_some (sends i) -> (length (wbio c ++ out) <= length (sends i))%nat ->
  returns (tls_conn_write c data) i (fun x i' =>
    x = (inl n, set_buffers s rest [] c) /\ written (fd c) i' = written (fd c) i ++ wbio c ++ out).
Proof.
  intros Hfd Hd Hw Hf Hl. unfold tls_conn_write, with_handshake. destruct (Z.ltb_spec (fd c) 0); [lia|]. rewrite Hd.
  eapply returns_step; [by apply call_ssl_eq|]. cbv beta iota. apply returns_bind.
  set (i1 := if clears_errno then set_errno false i else i).
  assert (sends i1 = sends i /\ written (fd c) i1 = written (fd c) i) as [Es Ew] by (unfold i1; by destruct clears_errno).
  eapply returns_mono; [apply flushed_all; simpl; [done|by rewrite Es|by rewrite Es]|].
  intros c' i' (-> & Hw' & _). apply returns_ret. simpl in *. by rewrite Hw', Ew.
Qed.

(** What a client sends just before it closes its side is never read: the end of
    the input is returned before the library is asked for the data, whatever the
    library does. *)
Theorem data_before_eof_lost c l rest len i :
  0 <= fd c -> handshake_done c = true -> l <> [] -> (length l <= BUF)%nat -> recvs i = Gets l :: Gets [] :: rest ->
  exists c' i', tls_conn_read c len i = Done (inr TLS_ERR_CLOSED, c') i'.
Proof.
  intros Hfd Hd Hne Hl Hr. unfold tls_conn_read, with_handshake. destruct (Z.ltb_spec (fd c) 0); [lia|]. rewrite Hd.
  assert (exists k, recv_rounds i = S (S k)) as [k ->].
  { unfold recv_rounds. rewrite Hr. destruct l; [done|]. by eexists. }
  cbn [read_loop]. set (g := fun j : io => gather (recv_rounds j) false c j).
  assert (exists c1 i1, g i = Done (None, c1) i1) as (c1 & i1 & E).
  { unfold g. assert (exists k', recv_rounds i = S (S k')) as [k' ->].
    { unfold recv_rounds. rewrite Hr. destruct l; [done|]. by eexists. }
    cbn [gather]. erewrite bind_step; [|unfold recv; rewrite Hr; reflexivity]. rewrite take_ge, drop_ge by done.
    destruct l as [|b l]; [done|]. cbv beta iota. erewrite bind_step; [|reflexivity]. rewrite take_nil. by eexists _, _. }
  erewrite bind_step by exact E. by eexists _, _.
Qed.
End Connection.

(** ** Protocol negotiation *)

(** The wire form of a list of protocols. *)
Definition alpn_wire (ps : list (list Z)) : list Z := concat (map (fun p => zlen p :: p) ps).

Definition alpn_ok (p : list Z) : Prop := (1 <= length p <= 255)%nat.

Lemma alpn_wire_length ps : Forall alpn_ok ps -> (length ps <= length (alpn_wire ps))%nat.
Proof.
  induction 1 as [|p ps [Hp _] _ IH]; [done|]. unfold alpn_wire in *. cbn [map concat length app].
  rewrite length_app. lia.
Qed.

Lemma alpn_find_wire fuel proto : forall ps pre,
  Forall alpn_ok ps -> (length ps < fuel)%nat ->
  (if bool_decide (proto ∈ ps)
   then exists i, alpn_find fuel proto (pre ++ alpn_wire ps) (length pre) = Some i
        /\ take (length proto) (drop i (pre ++ alpn_wire ps)) = proto
   else alpn_find fuel proto (pre ++ alpn_wire ps) (length pre) = None).
Proof.
  induction fuel as [|fuel IH]; intros ps pre Hps Hf; [lia|]. cbn [alpn_find]. rewrite drop_app_length.
  destruct Hps as [|p ps [Hp1 Hp2] Hps]; [done|]. unfold alpn_wire. cbn [map concat]. fold (alpn_wire ps).
  set (input := pre ++ (zlen p :: p) ++ alpn_wire ps). cbn [app].
  assert (zlen input = Z.of_nat (length pre) + 1 + zlen p + zlen (alpn_wire ps)) as Hlen.
  { unfold input. rewrite !zlen_app, zlen_cons. unfold zlen. lia. }
  pose proof (zlen_nonneg (alpn_wire ps)). destruct (Z.gtb_spec (Z.of_nat (S (length pre)) + zlen p) (zlen input)); [lia|].
  assert (input = (pre ++ [zlen p]) ++ p ++ alpn_wire ps) as Einput by (unfold input; by rewrite <- app_assoc).
  assert (length (pre ++ [zlen p]) = S (length pre)) as Epre by (rewrite length_app; simpl; lia).
  destruct (decide (p = proto)) as [->|Hne].
  - rewrite Z.eqb_refl, prefixb_app. rewrite bool_decide_eq_true_2 by left. cbn [andb]. eexists. split; [done|].
    rewrite Einput, <- Epre, drop_app_length, take_app_length. done.
  - assert ((zlen p =? zlen proto) && prefixb proto (p ++ alpn_wire ps) = false) as ->.
    { destruct (Z.eqb_spec (zlen p) (zlen proto)) as [El|]; [|done]. apply not_true_is_false. intros Hpre.
      apply prefixb_spec in Hpre as [r Hr]. apply Hne. unfold zlen in El. apply app_inj_1 in Hr; [by destruct Hr|lia]. }
    replace (S (length pre) + Z.to_nat (zlen p))%nat with (length (pre ++ zlen p :: p)).
    2:{ rewrite length_app. unfold zlen. simpl. lia. }
    assert (input = (pre ++ zlen p :: p) ++ alpn_wire ps) as -> by (unfold input; by rewrite <- app_assoc).
    specialize (IH ps (pre ++ zlen p :: p) Hps ltac:(simpl in Hf; lia)).
    assert (bool_decide (proto ∈ p :: ps) = bool_decide (proto ∈ ps)) as ->; [|exact IH].
    apply bool_decide_ext. rewrite elem_of_cons. split; [intros [->|]; done|auto].
Qed.

(** The callback takes "http/1.1" if the client offers it anywhere in its list,
    "h2" if it offers that but not "http/1.1", and nothing else - although "h2"
    comes first in the list that the server is configured with. *)
Theorem alpn_prefers_http1 ps :
  Forall alpn_ok ps ->
  alpn_select_cb (alpn_wire ps)
  = if bool_decide (http1 ∈ ps) then Some http1 else if bool_decide (h2 ∈ ps) then Some h2 else None.
Proof.
  intros Hps. unfold alpn_select_cb.
  pose proof (alpn_wire_length ps Hps) as Hl. destruct ps as [|p ps]; [done|].
  assert (length (p :: ps) < length (alpn_wire (p :: ps)))%nat as Hlt.
  { inversion Hps as [|? ? [Hp _] Hps']; subst. pose proof (alpn_wire_length ps Hps').
    unfold alpn_wire. cbn [map concat length app]. rewrite length_app. unfold alpn_wire in *. lia. }
  pose proof (alpn_find_wire _ http1 (p :: ps) [] Hps Hlt) as H1. pose proof (alpn_find_wire _ h2 (p :: ps) [] Hps Hlt) as H2.
  cbn [app length] in H1, H2. destruct (bool_decide (http1 ∈ p :: ps)).
  - destruct H1 as (i & -> & E). cbn [fmap option_fmap option_map]. by rewrite E.
  - rewrite H1. cbn [fmap option_fmap option_map]. destruct (bool_decide (h2 ∈ p :: ps)).
    + destruct H2 as (i & -> & E). cbn [fmap option_fmap option_map]. by rewrite E.
    + by rewrite H2.
Qed.

(** The configured list, separated by commas. *)
Fixpoint alpn_text (ps : list (list Z)) : list Z :=
  match ps with
  | [] => []
  | [p] => p
  | p :: ps' => p ++ c_COMMA :: alpn_text ps'
  end.

Lemma until_stop c p s : Forall (fun x => x <> c) p -> until c (p ++ c :: s) = p.
Proof. induction 1 as [|x p Hx _ IH]; cbn; [by rewrite Z.eqb_refl|]. destruct (Z.eqb_spec x c); [done|]. by rewrite IH. Qed.

Lemma until_none c p : Forall (fun x => x <> c) p -> until c p = p.
Proof. induction 1 as [|x p Hx _ IH]; [done|]. cbn. destruct (Z.eqb_spec x c); [done|]. by rewrite IH. Qed.

Lemma alpn_loop_text fuel : forall ps out_len out,
  Forall (fun p => alpn_ok p /\ Forall (fun x => x <> c_COMMA) p) ps -> (length (alpn_text ps) <= fuel)%nat ->
  zlen out + zlen (alpn_wire ps) + 2 <= out_len ->
  alpn_loop fuel (alpn_text ps) out_len out = out ++ alpn_wire ps.
Proof.
  induction fuel as [|fuel IH]; intros ps out_len out Hps Hf Hl; destruct ps as [|p ps];
    try (cbn; by rewrite app_nil_r); inversion Hps as [|? ? [[Hp1 Hp2] Hc] Hps']; subst;
    (assert (exists x q, p = x :: q) as (x & q & Ep) by (destruct p; [simpl in Hp1; lia|eauto])).
  { exfalso. subst p. destruct ps; cbn [alpn_text app length] in Hf; lia. }
  unfold alpn_wire in Hl. cbn [map concat] in Hl. fold (alpn_wire ps) in Hl.
  rewrite zlen_app, zlen_cons in Hl. pose proof (zlen_nonneg (alpn_wire ps)).
  unfold alpn_wire at 1. cbn [map concat]. fold (alpn_wire ps). cbn [alpn_loop].
  assert (exists y t, alpn_text (p :: ps) = y :: t) as (y & t & Et).
  { destruct ps; subst p; cbn [alpn_text app]; eauto. }
  rewrite Et. rewrite <- Et. assert (zlen p = Z.of_nat (length p)) as Ezp by done.
  destruct (Z.ltb_spec (zlen out) (out_len - 3)); [|lia].
  assert (until c_COMMA (alpn_text (p :: ps)) = p) as ->.
  { destruct ps; cbn [alpn_text]; [by apply until_none|by apply until_stop]. }
  destruct (Z.ltb_spec (zlen p) 1); [lia|]. destruct (Z.gtb_spec (zlen p) 255); [lia|]. cbn [orb].
  destruct (Z.gtb_spec (zlen out + zlen p + 1) out_len); [lia|].
  destruct ps as [|p2 ps].
  - cbn [alpn_text]. by rewrite drop_ge, app_nil_r by done.
  - change (alpn_text (p :: p2 :: ps)) with (p ++ c_COMMA :: alpn_text (p2 :: ps)) in *. rewrite drop_app_length. cbv iota. change (drop 1 (c_COMMA :: alpn_text (p2 :: ps))) with (alpn_text (p2 :: ps)). rewrite IH; [by rewrite <- app_assoc|done| |].
    + rewrite length_app in Hf. cbn [length] in Hf. lia.
    + rewrite zlen_app, zlen_cons. lia.
Qed.

(** The text of the configuration is put in wire form and read back: a client that
    offers the list the server was configured with gets "http/1.1", or "h2", when
    they are in it, for lists of at most 126 bytes. *)
Theorem alpn_configured ps :
  ps <> [] -> Forall (fun p => alpn_ok p /\ Forall (fun x => x <> c_COMMA) p) ps -> zlen (alpn_wire ps) <= 126 ->
  build_alpn_string (Some (alpn_text ps)) AIONIC_TLS_ALPN_STRING_LEN = alpn_wire ps
  /\ alpn_select_cb (build_alpn_string (Some (alpn_text ps)) AIONIC_TLS_ALPN_STRING_LEN)
     = if bool_decide (http1 ∈ ps) then Some http1 else if bool_decide (h2 ∈ ps) then Some h2 else None.
Proof.
  intros Hne Hps Hl.
  assert (build_alpn_string (Some (alpn_text ps)) AIONIC_TLS_ALPN_STRING_LEN = alpn_wire ps) as E.
  { unfold build_alpn_string. rewrite alpn_loop_text; [|done..|unfold AIONIC_TLS_ALPN_STRING_LEN; change (zlen []) with 0; lia].
    destruct (alpn_text ps) eqn:Et; [|done]. destruct ps as [|p ps]; [done|]. exfalso.
    inversion Hps as [|? ? [[Hp _] _] _]; subst. destruct p; [simpl in Hp; lia|]. by destruct ps. }
  split; [done|]. rewrite E. apply alpn_prefers_http1. eapply Forall_impl; [exact Hps|]. by intros p [? _].
Qed.

(** Without a configured list the string is cut after eight of its nine bytes, and
    no protocol is found in it. *)
Theorem default_alpn_cut : alpn_select_cb (build_alpn_string None AIONIC_TLS_ALPN_STRING_LEN) = None.
Proof. vm_compute. reflexivity. Qed.

(** ** Witnesses: a library that neither encrypts nor greets *)

#[export] Instance plain_ssl : OpenSSL unit := {|
  SSL_accept s input := (inl tt, s, input, []);
  SSL_read len s input :=
    match input with
    | [] => (inr SSL_ERROR_WANT_READ, s, [], [])
    | _ => (inl (take len input), s, drop len input, [])
    end;
  SSL_write data s input := (inl (zlen data), s, input, data);
  SSL_shutdown s input := (inl tt, s, input, []);
  SSL_pending _ := 0;
  SSL_get_cipher _ := None;
  SSL_get_version _ := lit "none";
  SSL_get_servername _ := None;
  SSL_get0_alpn_selected _ := [];
  clears_errno := false
|}.

Definition demo_conn : TLSConn (SSL := unit) := mkTLSConn tt [] (lit "abc") 7 true false [] [] [].

Lemma tls_write_delivers_witness :
  returns (tls_conn_write demo_conn (lit "hello")) (mkIo (repeat (Accepts 3) 8) [] (fun _ => 0) 0 ∅ [] [] false)
    (fun x i' => x = (inl 5, set_buffers tt [] [] demo_conn)
       /\ written 7 i' = written 7 (mkIo (repeat (Accepts 3) 8) [] (fun _ => 0) 0 ∅ [] [] false) ++ lit "abchello").
Proof.
  apply (tls_write_delivers demo_conn (lit "hello") 5 tt [] (lit "hello"));
    [simpl; lia|reflexivity|reflexivity|repeat constructor|vm_compute; lia].
Defined.

Lemma data_before_eof_lost_witness :
  exists c' i', tls_conn_read demo_conn 100 (mkIo [] [Gets (lit "GET /"); Gets []] (fun _ => 0) 0 ∅ [] [] false)
    = Done (inr TLS_ERR_CLOSED, c') i'.
Proof.
  apply (data_before_eof_lost demo_conn (lit "GET /") [] 100); [simpl; lia|reflexivity|discriminate| |reflexivity].
  apply Nat2Z.inj_le. vm_compute. discriminate.
Defined.

Lemma alpn_configured_witness :
  build_alpn_string (Some (alpn_text [h2; http1])) AIONIC_TLS_ALPN_STRING_LEN = alpn_wire [h2; http1]
  /\ alpn_select_cb (build_alpn_string (Some (alpn_text [h2; http1])) AIONIC_TLS_ALPN_STRING_LEN)
     = if bool_decide (http1 ∈ [h2; http1]) then Some http1
       else if bool_decide (h2 ∈ [h2; http1]) then Some h2 else None.
Proof.
  apply (alpn_configured [h2; http1]); [discriminate| |vm_compute; discriminate].
  repeat constructor; simpl; lia || discriminate.
Defined.
