(* ===== verification/TlsContext.v ===== *)
(** * TLS contexts: src/tls.c

    Making, changing and destroying a context, and fetching the staple of OCSP.  The
    library OpenSSL is known by its answers (a [context_env], a [reload_env], an [ocsp_env]) and by
    what it is asked: the objects of it that are held, and the settings that a context
    is told. *)

From S2P Require Import Prelude Io Tls.

(** ** Data *)

Inductive TLSMethod : Set := TLS_METHOD_AUTO | TLS_METHOD_TLSv1_2 | TLS_METHOD_TLSv1_3.

Record TLSConfig := mkTLSConfig {
  cert_file : list Z;
  key_file : list Z;
  ca_file : list Z;
  ca_path : list Z;
  cipher_list : list Z;
  cipher_suites_tls13 : list Z;
  session_ticket_key_file : list Z;
  min_method : TLSMethod;
  enable_ocsp_stapling : Z;
  enable_session_tickets : Z;
  prefer_server_ciphers : Z;
  verify_client : Z;
  verify_depth : Z;
  session_cache_size : Z;
  ocsp_refresh_interval : Z;
  enable_renegotiation : Z;
  enable_early_data : Z;
  hsts_max_age : Z;
  hsts_include_subdomains : Z;
  alpn_protocols : list Z
}.

(** A certificate of the library, by its address. *)
Definition X509 : Set := Z.

Record TLSCtx := mkTLSCtx {
  config : TLSConfig;
  ocsp_mutex : mutex_state;
  ocsp_response : ptr (list Z);
  ocsp_response_len : Z;
  ocsp_last_update : Z;
  cert : option X509;
  alpn_string : list Z
}.

Definition set_mutex (m : mutex_state) (c : TLSCtx) : TLSCtx :=
  mkTLSCtx (config c) m (ocsp_response c) (ocsp_response_len c) (ocsp_last_update c) (cert c) (alpn_string c).
Definition set_staple (r : ptr (list Z)) (n t : Z) (c : TLSCtx) : TLSCtx :=
  mkTLSCtx (config c) (ocsp_mutex c) r n t (cert c) (alpn_string c).
Definition set_cert (x : option X509) (c : TLSCtx) : TLSCtx :=
  mkTLSCtx (config c) (ocsp_mutex c) (ocsp_response c) (ocsp_response_len c) (ocsp_last_update c) x (alpn_string c).

(** ** What is held and what a context is told *)

Inductive object : Set :=
| CONTEXT | OCSP_MUTEX | SSL_CTX | CERTIFICATE (x : X509) | STAPLE
| CERTID | ACCESS | BIO | REQUEST | RESPONSE | BASIC | DER.

#[export] Instance object_eq_dec : EqDecision object.
Proof. unfold X509. solve_decision. Defined.

Inductive protocol : Set := TLS1_2_VERSION | TLS1_3_VERSION.
Inductive ssl_mode : Set :=
  SSL_MODE_ENABLE_PARTIAL_WRITE | SSL_MODE_ACCEPT_MOVING_WRITE_BUFFER | SSL_MODE_RELEASE_BUFFERS.
Inductive ssl_op : Set :=
| SSL_OP_CIPHER_SERVER_PREFERENCE | SSL_OP_NO_COMPRESSION | SSL_OP_NO_SESSION_RESUMPTION_ON_RENEGOTIATION
| SSL_OP_NO_TICKET | SSL_OP_SINGLE_DH_USE | SSL_OP_SINGLE_ECDH_USE | SSL_OP_NO_RENEGOTIATION.
Inductive cache_mode : Set := SSL_SESS_CACHE_SERVER | SSL_SESS_CACHE_NO_INTERNAL.

(** The calls of [SSL_CTX_...] that change a context. *)
Inductive setting : Set :=
| set_min_proto_version (p : protocol)
| set_max_proto_version (p : protocol)
| set_mode (l : list ssl_mode)
| use_certificate_chain_file (file : list Z)
| use_PrivateKey_file (file : list Z)
| load_verify_locations (file : list Z) (path : option (list Z))
| set_verify_peer
| set_verify_depth (n : Z)
| set_cipher_list (text : list Z)
| set_ciphersuites (text : list Z)
| set_options (l : list ssl_op)
| set_session_cache_mode (l : list cache_mode)
| sess_set_cache_size (n : Z)
| set1_groups_list (text : list Z)
| set_alpn_select_cb
| set_alpn_protos (text : list Z)
| set_tlsext_status_cb.

Record lib := mkLib { held : object -> Z; told : list setting }.

Definition no_objects : lib := mkLib (fun _ => 0) [].

(** A call of the library takes and gives objects; giving back one that is not held is
    freeing it twice. *)
Definition Lib (A : Type) : Type := lib -> res (A * lib).

#[export] Instance Lib_ret : MRet Lib := fun A a l => Ok (a, l).
#[export] Instance Lib_bind : MBind Lib := fun A B k m l => '(a, l) ← m l; k a l.

Definition plus (n : Z) (o : object) (l : lib) : lib :=
  mkLib (fun x => if decide (x = o) then held l x + n else held l x) (told l).

Definition took (o : object) : Lib unit := fun l => Ok (tt, plus 1 o l).
Definition gave (o : object) : Lib unit := fun l => if held l o >? 0 then Ok (tt, plus (-1) o l) else Fault UseAfterFree.
Definition tell (s : list setting) : Lib unit := fun l => Ok (tt, mkLib (held l) (told l ++ s)).
Definition lift {A} (m : res A) : Lib A := fun l => a ← m; Ok (a, l).

(** A certificate that the context counts a reference of. *)
Definition took_cert (x : option X509) : Lib unit := match x with Some x => took (CERTIFICATE x) | None => mret tt end.
Definition gave_cert (x : option X509) : Lib unit := match x with Some x => gave (CERTIFICATE x) | None => mret tt end.
Definition gave_staple (p : ptr (list Z)) : Lib unit :=
  match p with PLive _ => gave STAPLE | PNull => mret tt | PFreed => lift (Fault UseAfterFree) end.

(** ** Making a context *)

(** The value of a setting, or its default. *)
Definition text_or (s d : list Z) : list Z := match s with [] => d | _ => s end.
Definition positive_or (v d : Z) : Z := if v >? 0 then v else d.

Definition default_ciphers : list Z :=
  lit "ECDHE-ECDSA-AES128-GCM-SHA256:ECDHE-RSA-AES128-GCM-SHA256:ECDHE-ECDSA-AES256-GCM-SHA384:ECDHE-RSA-AES256-GCM-SHA384".
Definition default_ciphersuites : list Z := lit "TLS_AES_128_GCM_SHA256:TLS_AES_256_GCM_SHA384:TLS_CHACHA20_POLY1305_SHA256".

Definition AIONIC_TLS_SESSION_CACHE_SIZE : Z := 2048.

Definition versions : list setting :=
  [set_min_proto_version TLS1_2_VERSION; set_max_proto_version TLS1_3_VERSION;
   set_mode [SSL_MODE_ENABLE_PARTIAL_WRITE; SSL_MODE_ACCEPT_MOVING_WRITE_BUFFER; SSL_MODE_RELEASE_BUFFERS]].

Definition verification (cfg : TLSConfig) : list setting :=
  match ca_file cfg with
  | [] => []
  | ca =>
      load_verify_locations ca (match ca_path cfg with [] => None | p => Some p end)
      :: (if verify_client cfg =? 0 then []
          else [set_verify_peer; set_verify_depth (positive_or (verify_depth cfg) 10)])
  end.

Definition ciphers (cfg : TLSConfig) : list setting :=
  [set_cipher_list (text_or (cipher_list cfg) default_ciphers);
   set_ciphersuites (text_or (cipher_suites_tls13 cfg) default_ciphersuites)].

Definition options (cfg : TLSConfig) : list setting :=
  (if prefer_server_ciphers cfg =? 0 then [] else [set_options [SSL_OP_CIPHER_SERVER_PREFERENCE]])
  ++ [set_options [SSL_OP_NO_COMPRESSION; SSL_OP_NO_SESSION_RESUMPTION_ON_RENEGOTIATION; SSL_OP_NO_TICKET;
                   SSL_OP_SINGLE_DH_USE; SSL_OP_SINGLE_ECDH_USE]]
  ++ (if enable_renegotiation cfg =? 0 then [set_options [SSL_OP_NO_RENEGOTIATION]] else []).

Definition sessions (cfg : TLSConfig) : list setting :=
  [set_session_cache_mode [SSL_SESS_CACHE_SERVER; SSL_SESS_CACHE_NO_INTERNAL];
   sess_set_cache_size (positive_or (session_cache_size cfg) AIONIC_TLS_SESSION_CACHE_SIZE);
   set1_groups_list (lit "P-256:P-384:P-521")].

Definition negotiation (cfg : TLSConfig) (alpn : list Z) : list setting :=
  [set_alpn_select_cb; set_alpn_protos alpn]
  ++ (if enable_ocsp_stapling cfg =? 0 then [] else [set_tlsext_status_cb]).

(** What [calloc] and OpenSSL answer: whether the files load and match, and the
    certificate of the context. *)
Record context_env := mkContextEnv {
  calloc_ok : bool;
  new_ok : bool;
  chain_ok : bool;
  key_ok : bool;
  match_ok : bool;
  certificate : option X509
}.

Definition tls_ctx_create (v : context_env) (cfg : TLSConfig) : Lib (option TLSCtx) :=
  if negb (calloc_ok v) then mret None
  else
    _ ← took CONTEXT;
    _ ← took OCSP_MUTEX;
    let error (ssl_ctx : bool) : Lib (option TLSCtx) :=
      _ ← (if ssl_ctx then gave SSL_CTX else mret tt);
      _ ← gave OCSP_MUTEX;
      _ ← gave CONTEXT;
      mret None in
    match cert_file cfg, key_file cfg with
    | [], _ | _, [] => error false
    | certificate_file, private_key_file =>
        if negb (new_ok v) then error false
        else
          _ ← took SSL_CTX;
          _ ← tell (versions ++ [use_certificate_chain_file certificate_file]);
          if negb (chain_ok v) then error true
          else
            _ ← tell [use_PrivateKey_file private_key_file];
            if negb (key_ok v) then error true
            else if negb (match_ok v) then error true
            else
              _ ← took_cert (certificate v);
              let alpn := build_alpn_string (Some (alpn_protocols cfg)) AIONIC_TLS_ALPN_STRING_LEN in
              _ ← tell (verification cfg ++ ciphers cfg ++ options cfg ++ sessions cfg ++ negotiation cfg alpn);
              mret (Some (mkTLSCtx cfg Unlocked PNull 0 0 (certificate v) alpn))
    end.

Definition tls_ctx_destroy (ctx : option TLSCtx) : Lib unit :=
  match ctx with
  | None => mret tt
  | Some c =>
      _ ← gave SSL_CTX;
      _ ← gave_cert (cert c);
      _ ← gave_staple (ocsp_response c);
      _ ← gave OCSP_MUTEX;
      gave CONTEXT
  end.

(** The result of loading the chain is not looked at. *)
Record reload_env := mkReloadEnv { new_key_ok : bool; new_match_ok : bool; new_certificate : option X509 }.

Definition tls_ctx_reload_cert (v : reload_env) (certificate_file private_key_file : list Z) (ctx : option TLSCtx)
  : Lib (Z * option TLSCtx) :=
  match ctx with
  | None => mret (-1, None)
  | Some c =>
      _ ← tell [use_certificate_chain_file certificate_file; use_PrivateKey_file private_key_file];
      if negb (new_key_ok v) then mret (-1, Some c)
      else if negb (new_match_ok v) then mret (-1, Some c)
      else
        _ ← gave_cert (cert c);
        _ ← took_cert (new_certificate v);
        mret (0, Some (set_cert (new_certificate v) c))
  end.

(** ** The staple *)

(** A description in the certificate: whether it is for OCSP, whether it is an
    address, and its text. *)
Record access := mkAccess { is_ocsp : bool; is_uri : bool; location : list Z }.

(** The chain of the context, its first certificate the issuer; whether the identifier, the
    connection, the request and the answer could be made; the encoded answer. *)
Record ocsp_env := mkOcspEnv {
  chain : option (list (option X509));
  certid_ok : bool;
  accesses : option (list access);
  bio_ok : bool;
  request_ok : bool;
  add_ok : bool;
  response_ok : bool;
  basic_ok : bool;
  der : option (list Z);
  staple_ok : bool;
  ocsp_now : Z
}.

Fixpoint responder (l : list access) : option (list Z) :=
  match l with
  | [] => None
  | a :: l' => if is_ocsp a && is_uri a then Some (location a) else responder l'
  end.

(** The text of an address is part of the descriptions: it goes when they are freed. *)
Definition find_url (v : ocsp_env) : Lib (ptr (list Z)) :=
  match accesses v with
  | None => mret PNull
  | Some l =>
      _ ← took ACCESS;
      let url := match responder l with Some u => PLive u | None => PNull end in
      _ ← gave ACCESS;
      mret (match url with PLive _ => PFreed | p => p end)
  end.

(** What is done with the answer. *)
Definition keep_response (v : ocsp_env) (c : TLSCtx) : Lib (Z * TLSCtx) :=
  _ ← gave_staple (ocsp_response c);
  let c := set_staple PNull 0 (ocsp_last_update c) c in
  c ← match der v with
      | Some d =>
          _ ← took DER;
          c ← (if staple_ok v then _ ← took STAPLE; mret (set_staple (PLive d) (zlen d) (ocsp_now v) c) else mret c);
          _ ← gave DER;
          mret c
      | None => mret c
      end;
  _ ← gave BASIC;
  _ ← gave RESPONSE;
  _ ← gave REQUEST;
  mret (match ocsp_response c with PNull => -1 | _ => 0 end, c).

(** The request owns the identifier once it is added. *)
Definition ask_responder (v : ocsp_env) (c : TLSCtx) : Lib (Z * TLSCtx) :=
  if negb (bio_ok v) then _ ← gave CERTID; mret (-1, c)
  else
    _ ← took BIO;
    if negb (request_ok v) then _ ← gave BIO; _ ← gave CERTID; mret (-1, c)
    else
      _ ← took REQUEST;
      _ ← (if add_ok v then gave CERTID else mret tt);
      _ ← gave BIO;
      if negb (response_ok v) then _ ← gave REQUEST; mret (-1, c)
      else
        _ ← took RESPONSE;
        if negb (basic_ok v) then _ ← gave RESPONSE; _ ← gave REQUEST; mret (-1, c)
        else _ ← took BASIC; keep_response v c.

Definition ocsp_update_internal (v : ocsp_env) (c : TLSCtx) : Lib (Z * TLSCtx) :=
  match cert c, chain v with
  | Some _, Some (Some _ :: _) =>
      if negb (certid_ok v) then mret (-1, c)
      else
        _ ← took CERTID;
        url ← find_url v;
        match url with
        | PNull => _ ← gave CERTID; mret (-1, c)
        | PFreed => lift (Fault UseAfterFree)
        | PLive _ => ask_responder v c
        end
  | _, _ => mret (-1, c)
  end.

Definition tls_ctx_ocsp_update (v : ocsp_env) (ctx : option TLSCtx) : Lib (Z * option TLSCtx) :=
  match ctx with
  | None => mret (-1, None)
  | Some c =>
      m ← lift (mutex_lock (ocsp_mutex c));
      '(r, c) ← ocsp_update_internal v (set_mutex m c);
      mret (r, Some (set_mutex Unlocked c))
  end.

(** The callback takes the library's [SSL_CTX] for the [TLSCtx]: [as_context] is what its
    bytes say when they are read as the two fields of the staple.  The result is the
    staple, if one is sent, and whether the connection is marked. *)
Definition ocsp_resp_cb (as_context : option (ptr (list Z) * Z)) (have_conn malloc_ok : bool) : res (option (list Z) * bool) :=
  match as_context with
  | None | Some (PNull, _) => Ok (None, false)
  | Some (p, n) =>
      if n =? 0 then Ok (None, false)
      else if negb malloc_ok then Ok (None, have_conn)
      else
        match p with
        | PLive s => if zlen s <? n then Fault OutOfBounds else Ok (Some (take (Z.to_nat n) s), have_conn)
        | _ => Fault UseAfterFree
        end
  end.

(** ** The library as a whole *)

(** [pthread_once] runs its function once in the life of the process. *)
Record tls_global := mkTlsGlobal { once : bool; initialized : bool }.

Definition tls_do_global_init (g : tls_global) : tls_global := mkTlsGlobal (once g) true.
Definition tls_global_init (g : tls_global) : tls_global :=
  if once g then g else tls_do_global_init (mkTlsGlobal true (initialized g)).
Definition tls_global_cleanup (g : tls_global) : tls_global :=
  if initialized g then mkTlsGlobal (once g) false else g.

(** ** Lemmas: calls of the library *)

(** The call ends without a fault, and its result satisfies [Q]. *)
Definition lib_post {A} (m : Lib A) (l : lib) (Q : A -> lib -> Prop) : Prop :=
  match m l with Ok (a, l') => Q a l' | Fault _ => False end.

Lemma lib_bind {A B} (m : Lib A) (k : A -> Lib B) l Q :
  lib_post m l (fun a l' => lib_post (k a) l' Q) -> lib_post (m ≫= k) l Q.
Proof. unfold lib_post, mbind, Lib_bind. cbn [mbind res_bind]. by destruct (m l) as [[a l']|]. Qed.

Lemma lib_ret {A} (a : A) l (Q : A -> lib -> Prop) : Q a l -> lib_post (mret a) l Q.
Proof. done. Qed.

Lemma lib_took o l (Q : unit -> lib -> Prop) : Q tt (plus 1 o l) -> lib_post (took o) l Q.
Proof. done. Qed.

Lemma lib_tell s l (Q : unit -> lib -> Prop) : Q tt (mkLib (held l) (told l ++ s)) -> lib_post (tell s) l Q.
Proof. done. Qed.

Lemma lib_gave o l (Q : unit -> lib -> Prop) : 0 < held l o -> Q tt (plus (-1) o l) -> lib_post (gave o) l Q.
Proof. intros Ho HQ. unfold lib_post, gave. by rewrite (proj2 (Z.gtb_lt _ _)). Qed.

Lemma held_plus n o x l : held (plus n o l) x = if decide (x = o) then held l x + n else held l x.
Proof. done. Qed.

(** [m] gives back what [before] counts and takes what [after] counts, beside anything
    else that is held. *)
Definition moves {A} (before : object -> Z) (m : Lib A) (after : A -> object -> Z) : Prop :=
  forall l, (forall o, before o <= held l o) ->
  lib_post m l (fun a l' => forall o, held l' o = held l o - before o + after a o).

(** What a context holds. *)
Definition owned (ctx : option TLSCtx) (o : object) : Z :=
  match ctx with
  | None => 0
  | Some c =>
      match o with
      | CONTEXT | OCSP_MUTEX | SSL_CTX => 1
      | CERTIFICATE x => if decide (cert c = Some x) then 1 else 0
      | STAPLE => match ocsp_response c with PLive _ => 1 | _ => 0 end
      | _ => 0
      end
  end.

Definition nothing (_ : object) : Z := 0.

Ltac count := repeat (cbn [held told]; rewrite held_plus); cbn [held told owned cert set_cert set_mutex set_staple ocsp_response]; try unfold nothing;
  repeat (case_decide; simplify_eq); try lia.

(** Run the calls one after the other. *)
Ltac lib_step :=
  match goal with
  | |- lib_post (_ ≫= _) _ _ => apply lib_bind
  | |- lib_post (mret _) _ _ => apply lib_ret
  | |- lib_post (took _) _ _ => apply lib_took
  | |- lib_post (tell _) _ _ => apply lib_tell
  | |- lib_post (gave _) _ _ => apply lib_gave; [count|]
  end.

Lemma create_moves v cfg : moves nothing (tls_ctx_create v cfg) owned.
Proof.
  intros l Hl. pose proof Hl as Hn. unfold nothing in Hn. unfold tls_ctx_create, took_cert.
  pose proof (Hn CONTEXT). pose proof (Hn OCSP_MUTEX). pose proof (Hn SSL_CTX).
  destruct (calloc_ok v); cbn [negb]; [|lib_step; intros o; count].
  do 4 lib_step.
  destruct (cert_file cfg), (key_file cfg); try (repeat lib_step; intros o; count; fail).
  destruct (new_ok v); cbn [negb]; [|repeat lib_step; intros o; count].
  do 4 lib_step. destruct (chain_ok v); cbn [negb]; [|repeat lib_step; intros o; count].
  do 2 lib_step. destruct (key_ok v); cbn [negb]; [|repeat lib_step; intros o; count].
  destruct (match_ok v); cbn [negb]; [|repeat lib_step; intros o; count].
  destruct (certificate v) as [x|]; repeat lib_step; intros o; destruct o; count.
Qed.

(** Between two calls the mutex is free and there is no staple. *)
Definition idle (ctx : option TLSCtx) : Prop :=
  match ctx with None => True | Some c => ocsp_mutex c = Unlocked /\ ocsp_response c = PNull end.

Lemma create_idle v cfg l c l' : tls_ctx_create v cfg l = Ok (c, l') -> idle c.
Proof.
  unfold tls_ctx_create. cbv [mbind Lib_bind res_bind mret Lib_ret took tell gave took_cert].
  repeat case_match; simplify_eq; intros; simplify_eq; done.
Qed.

Lemma destroy_moves ctx : idle ctx -> moves (owned ctx) (tls_ctx_destroy ctx) (fun _ => nothing).
Proof.
  intros Hi l Hl. destruct ctx as [c|]; cbn [tls_ctx_destroy]; [|lib_step; intros o; count].
  destruct Hi as [_ Hs]. unfold gave_cert, gave_staple. rewrite Hs.
  assert (forall x, cert c = Some x -> 0 < held l (CERTIFICATE x)) as Hc.
  { intros x Hx. specialize (Hl (CERTIFICATE x)). cbn [owned] in Hl. rewrite decide_True in Hl by done. lia. }
  pose proof (Hl CONTEXT) as H1. pose proof (Hl OCSP_MUTEX) as H2. pose proof (Hl SSL_CTX) as H3. cbn [owned] in *.
  destruct (cert c) as [x|] eqn:E; [specialize (Hc x eq_refl)|clear Hc]; repeat lib_step; intros o; destruct o; count;
    by rewrite ?E, ?Hs; count.
Qed.

Lemma reload_moves v a b ctx :
  moves (owned ctx) (tls_ctx_reload_cert v a b ctx) (fun r => owned r.2).
Proof.
  intros l Hl. destruct ctx as [c|]; cbn [tls_ctx_reload_cert]; [|lib_step; intros o; cbn [snd]; lia].
  do 2 lib_step. unfold gave_cert, took_cert.
  destruct (new_key_ok v); cbn [negb]; [|repeat lib_step; intros o; cbn [held snd]; lia].
  destruct (new_match_ok v); cbn [negb]; [|repeat lib_step; intros o; cbn [held snd]; lia].
  assert (forall x, cert c = Some x -> 0 < held l (CERTIFICATE x)) as Hc.
  { intros x Hx. specialize (Hl (CERTIFICATE x)). cbn [owned] in Hl. rewrite decide_True in Hl by done. lia. }
  destruct (cert c) as [x|] eqn:E; [specialize (Hc x eq_refl)|clear Hc]; destruct (new_certificate v) as [y|];
    repeat lib_step; intros o; cbn [snd]; destruct o; count; by rewrite ?E; count.
Qed.

Lemma reload_idle v a b ctx l r ctx' l' :
  idle ctx -> tls_ctx_reload_cert v a b ctx l = Ok (r, ctx', l') -> idle ctx'.
Proof.
  intros Hi. destruct ctx as [c|]; cbn [tls_ctx_reload_cert]; [|by intros [= <- <- <-]].
  cbv [mbind Lib_bind res_bind mret Lib_ret took tell gave took_cert gave_cert].
  repeat case_match; simplify_eq; intros; simplify_eq; done.
Qed.

(** The certificate names a responder, and everything up to its address is there. *)
Definition names_responder (v : ocsp_env) (c : TLSCtx) : bool :=
  match cert c, chain v, accesses v with
  | Some _, Some (Some _ :: _), Some l => certid_ok v && match responder l with Some _ => true | None => false end
  | _, _, _ => false
  end.

Definition same_objects (l l' : lib) : Prop := (forall o, held l' o = held l o) /\ told l' = told l.

Lemma update_internal v c l :
  (forall o, 0 <= held l o) ->
  if names_responder v c then ocsp_update_internal v c l = Fault UseAfterFree
  else lib_post (ocsp_update_internal v c) l (fun r l' => r = (-1, c) /\ same_objects l l').
Proof.
  intros Hl. pose proof (Hl CERTID). pose proof (Hl ACCESS). unfold names_responder, ocsp_update_internal, find_url.
  assert (lib_post (mret (-1, c)) l (fun r l' => r = (-1, c) /\ same_objects l l')) as Hnone by done.
  destruct (cert c) as [x|]; [|done]. destruct (chain v) as [[|[issuer|] rest]|]; try done.
  destruct (certid_ok v); cbn [negb andb]; [|by destruct (accesses v)].
  destruct (accesses v) as [ads|].
  - destruct (responder ads) as [u|]; cbn [negb andb].
    + unfold took, gave, lift. cbv [mbind Lib_bind res_bind mret Lib_ret].
      rewrite (proj2 (Z.gtb_lt _ _)); [done|]. count.
    + repeat lib_step. split; [done|]. split; [|done]. intros o. count.
  - repeat lib_step. split; [done|]. split; [|done]. intros o. count.
Qed.

Lemma update_spec v c l :
  ocsp_mutex c = Unlocked -> (forall o, 0 <= held l o) ->
  if names_responder v c then tls_ctx_ocsp_update v (Some c) l = Fault UseAfterFree
  else lib_post (tls_ctx_ocsp_update v (Some c)) l (fun r l' => r = (-1, Some c) /\ same_objects l l').
Proof.
  intros Hm Hl. pose proof (update_internal v (set_mutex Locked c) l Hl) as Hu.
  change (names_responder v (set_mutex Locked c)) with (names_responder v c) in Hu.
  unfold tls_ctx_ocsp_update. rewrite Hm. unfold lib_post in *. cbv [lift mbind Lib_bind mutex_lock res_bind mret Lib_ret] in *.
  destruct (names_responder v c); [by rewrite Hu|].
  destruct (ocsp_update_internal v (set_mutex Locked c) l) as [[[r c'] l']|]; [|done].
  destruct Hu as [[= -> ->] Hs]. split; [|done]. by destruct c; cbn in *; subst.
Qed.

(** ** The life of a context *)

Inductive ctx_op : Type :=
| Reload (v : reload_env) (certificate_file private_key_file : list Z)
| Update (v : ocsp_env).

Fixpoint run_ops (ops : list ctx_op) (ctx : option TLSCtx) : Lib (option TLSCtx) :=
  match ops with
  | [] => mret ctx
  | Reload v a b :: ops' => '(_, ctx) ← tls_ctx_reload_cert v a b ctx; run_ops ops' ctx
  | Update v :: ops' => '(_, ctx) ← tls_ctx_ocsp_update v ctx; run_ops ops' ctx
  end.

(** No responder is named. *)
Definition unnamed (op : ctx_op) : Prop :=
  match op with
  | Reload _ _ _ => True
  | Update v => match accesses v with Some l => responder l = None | None => True end
  end.

Definition exactly (ctx : option TLSCtx) (l : lib) : Prop := idle ctx /\ forall o, held l o = owned ctx o.

Lemma owned_nonneg ctx o : 0 <= owned ctx o.
Proof. destruct ctx as [c|]; [|done]. destruct o; cbn [owned]; try done; [by case_decide|by destruct (ocsp_response c)]. Qed.

Lemma names_unnamed v c : names_responder v c = true -> ~ unnamed (Update v).
Proof.
  unfold names_responder. cbn [unnamed]. destruct (cert c), (chain v) as [[|[]]|], (accesses v) as [ads|]; try done.
  destruct (responder ads); [done|by rewrite andb_false_r].
Qed.

Lemma run_exactly ops : forall ctx l,
  exactly ctx l ->
  match run_ops ops ctx l with
  | Ok (ctx', l') => exactly ctx' l'
  | Fault f => f = UseAfterFree /\ ~ Forall unnamed ops
  end.
Proof.
  induction ops as [|op ops IH]; intros ctx l Hx; [done|]. destruct Hx as [Hi Hx].
  assert (forall ctx' l', exactly ctx' l' ->
          match run_ops ops ctx' l' with Ok (c, l2) => exactly c l2 | Fault f => f = UseAfterFree /\ ~ Forall unnamed (op :: ops) end) as Hgo.
  { intros ctx' l' He. apply IH in He. destruct (run_ops ops ctx' l') as [[? ?]|]; [done|].
    destruct He as [-> Hn]. split; [done|]. by intros [_ Hu]%Forall_cons. }
  destruct op as [v a b|v]; cbn [run_ops]; cbv [mbind Lib_bind res_bind].
  - pose proof (reload_moves v a b ctx l ltac:(intros o; rewrite Hx; lia)) as Hmv. unfold lib_post in Hmv.
    destruct (tls_ctx_reload_cert v a b ctx l) as [[[r ctx'] l']|] eqn:E; [|done].
    apply Hgo. split; [by eapply reload_idle|]. intros o. rewrite Hmv, Hx. cbn [snd]. lia.
  - destruct ctx as [c|]; [|by apply Hgo]. destruct Hi as [Hm Hs].
    pose proof (update_spec v c l Hm ltac:(intros o; rewrite Hx; apply owned_nonneg)) as Hp.
    destruct (names_responder v c) eqn:Hn.
    + rewrite Hp. split; [done|]. intros [Hu _]%Forall_cons. by eapply names_unnamed.
    + unfold lib_post in Hp. destruct (tls_ctx_ocsp_update v (Some c) l) as [[[r ctx'] l']|]; [|done].
      destruct Hp as [[= -> ->] [Hh _]]. apply Hgo. split; [done|]. intros o. by rewrite Hh, Hx.
Qed.

Lemma update_exactly v ctx l :
  unnamed (Update v) -> exactly ctx l -> exists r ctx' l', tls_ctx_ocsp_update v ctx l = Ok (r, ctx', l') /\ exactly ctx' l'.
Proof.
  intros Hu Hx. pose proof (run_exactly [Update v] ctx l Hx) as Hr. revert Hr. cbn [run_ops]. cbv [mbind Lib_bind res_bind].
  destruct (tls_ctx_ocsp_update v ctx l) as [[[r ctx'] l']|]; [intros Hr; by exists r, ctx', l'|].
  intros [_ Hn]. destruct Hn. by constructor.
Qed.

(** A context from its creation on. *)
Definition life (v : context_env) (cfg : TLSConfig) (ops : list ctx_op) : Lib (option TLSCtx) :=
  ctx ← tls_ctx_create v cfg; run_ops ops ctx.

Lemma life_exactly v cfg ops :
  match life v cfg ops no_objects with
  | Ok (ctx, l) => exactly ctx l
  | Fault f => f = UseAfterFree /\ ~ Forall unnamed ops
  end.
Proof.
  pose proof (create_moves v cfg no_objects ltac:(intros o; reflexivity)) as Hmv. unfold lib_post in Hmv.
  unfold life. cbv [mbind Lib_bind res_bind].
  destruct (tls_ctx_create v cfg no_objects) as [[ctx l]|] eqn:E; [|done].
  apply run_exactly. split; [by eapply create_idle|]. intros o. rewrite Hmv. cbn. unfold nothing. lia.
Qed.

(** The staple of OCSP is never there.  At any point of the life of a context, when
    the certificate names a responder - the only case in which one could be asked - the
    update reads the address that it found after the descriptions it is part of were
    freed; in every other case it answers -1, changes nothing, holds nothing that it did
    not hold before and gives the mutex back. *)
Theorem stapling_never_works v cfg ops c l e :
  life v cfg ops no_objects = Ok (Some c, l) ->
  ocsp_response c = PNull
  /\ if names_responder e c then tls_ctx_ocsp_update e (Some c) l = Fault UseAfterFree
     else lib_post (tls_ctx_ocsp_update e (Some c)) l (fun r l' => r = (-1, Some c) /\ same_objects l l').
Proof.
  intros E. pose proof (life_exactly v cfg ops) as Hx. rewrite E in Hx. destruct Hx as [[Hm Hs] Hx].
  split; [done|]. apply update_spec; [done|]. intros o. rewrite Hx. apply owned_nonneg.
Qed.

(** C12: Objects of the library, references of certificates, the mutex and the blocks are
    balanced through the life of a context.  Whatever the library answers, if making it
    fails nothing is held; otherwise, after any reloads and updates in which no
    certificate names a responder, exactly what the context points to is held, and
    destroying it gives all of that back, nothing twice. *)
Theorem context_resources_balanced v cfg ops :
  Forall unnamed ops ->
  lib_post (life v cfg ops) no_objects (fun ctx l =>
    (forall o, held l o = owned ctx o)
    /\ lib_post (tls_ctx_destroy ctx) l (fun _ l' => forall o, held l' o = 0)).
Proof.
  intros Hu. pose proof (life_exactly v cfg ops) as Hx. unfold lib_post at 1.
  destruct (life v cfg ops no_objects) as [[ctx l]|]; [|by destruct Hx].
  destruct Hx as [Hi Hx]. split; [done|].
  pose proof (destroy_moves ctx Hi l ltac:(intros o; rewrite Hx; lia)) as Hd. unfold lib_post in *.
  destruct (tls_ctx_destroy ctx l) as [[u l']|]; [|done]. intros o. rewrite Hd, Hx. unfold nothing. lia.
Qed.

(** ** What a context asks of its clients *)

Lemma create_told v cfg l c l' :
  tls_ctx_create v cfg l = Ok (Some c, l') ->
  told l' = told l ++ versions ++ [use_certificate_chain_file (cert_file cfg); use_PrivateKey_file (key_file cfg)]
              ++ verification cfg ++ ciphers cfg ++ options cfg ++ sessions cfg ++ negotiation cfg (alpn_string c).
Proof.
  unfold tls_ctx_create. cbv [mbind Lib_bind res_bind mret Lib_ret took tell gave took_cert].
  repeat case_match; simplify_eq; intros; simplify_eq; cbn [told plus alpn_string]; by rewrite <- !app_assoc.
Qed.

(** What the settings say of versions, of certificates of clients, of staples, and the
    options that are set. *)
Definition least_version (s : setting) : option protocol := match s with set_min_proto_version p => Some p | _ => None end.
Definition most_version (s : setting) : option protocol := match s with set_max_proto_version p => Some p | _ => None end.
Definition asks_certificate (s : setting) : bool := match s with set_verify_peer => true | _ => false end.
Definition staples (s : setting) : bool := match s with set_tlsext_status_cb => true | _ => false end.
Definition ops_of (s : setting) : list ssl_op := match s with set_options l => l | _ => [] end.

(** C11: What a context asks of its clients.  The lowest version it is told to speak is
    TLS 1.2, also when the configuration asks for 1.3 alone, and the highest is TLS 1.3; it never compresses and never uses tickets,
    whatever is configured; renegotiation is off unless it is enabled; and a client
    must show a certificate exactly when that is configured and there is a file of
    authorities - without the file the configured demand is dropped. *)
Theorem context_policy v cfg l c l' :
  tls_ctx_create v cfg l = Ok (Some c, l') -> told l = [] ->
  omap least_version (told l') = [TLS1_2_VERSION] /\ omap most_version (told l') = [TLS1_3_VERSION]
  /\ existsb asks_certificate (told l') = negb (verify_client cfg =? 0) && negb (bool_decide (ca_file cfg = []))
  /\ concat (map ops_of (told l'))
     = (if prefer_server_ciphers cfg =? 0 then [] else [SSL_OP_CIPHER_SERVER_PREFERENCE])
       ++ [SSL_OP_NO_COMPRESSION; SSL_OP_NO_SESSION_RESUMPTION_ON_RENEGOTIATION; SSL_OP_NO_TICKET; SSL_OP_SINGLE_DH_USE;
           SSL_OP_SINGLE_ECDH_USE]
       ++ (if enable_renegotiation cfg =? 0 then [SSL_OP_NO_RENEGOTIATION] else [])
  /\ existsb staples (told l') = negb (enable_ocsp_stapling cfg =? 0).
Proof.
  intros E%create_told Hl. rewrite Hl in E. cbn [app] in E. rewrite E. clear.
  unfold verification, options, negotiation, versions, ciphers, sessions.
  destruct (ca_file cfg) as [|ch f], (verify_client cfg =? 0), (prefer_server_ciphers cfg =? 0),
    (enable_renegotiation cfg =? 0), (enable_ocsp_stapling cfg =? 0); split_and!; reflexivity.
Qed.

(** ** Witnesses *)

(** Certificates of clients are demanded, but no file of authorities is named. *)
Definition demo_config : TLSConfig :=
  mkTLSConfig (lit "server.crt") (lit "server.key") [] [] [] [] [] TLS_METHOD_TLSv1_3 1 0 0 1 0 0 3600 0 0 0 0
    (lit "h2,http/1.1").

Definition demo_loads : context_env := mkContextEnv true true true true true (Some 7).

Definition demo_responder (l : option (list access)) : ocsp_env :=
  mkOcspEnv (Some [Some 8]) true l true true true true true (Some [1; 2; 3]) true 1000.

Definition demo_ops : list ctx_op :=
  [Update (demo_responder None); Reload (mkReloadEnv true true (Some 9)) (lit "new.crt") (lit "new.key");
   Update (demo_responder (Some [mkAccess false true (lit "ca.example")]))].

Lemma demo_life : exists c l, life demo_loads demo_config demo_ops no_objects = Ok (Some c, l) /\ cert c = Some 9.
Proof. eexists _, _. split; reflexivity. Qed.

Lemma stapling_never_works_witness :
  exists c l, life demo_loads demo_config demo_ops no_objects = Ok (Some c, l)
    /\ tls_ctx_ocsp_update (demo_responder (Some [mkAccess true true (lit "ocsp.example")])) (Some c) l = Fault UseAfterFree.
Proof.
  destruct demo_life as (c & l & E & Hc). exists c, l. split; [exact E|].
  pose proof (stapling_never_works demo_loads demo_config demo_ops c l
                (demo_responder (Some [mkAccess true true (lit "ocsp.example")])) E) as [_ Hs].
  assert (names_responder (demo_responder (Some [mkAccess true true (lit "ocsp.example")])) c = true) as Hn.
  { unfold names_responder. rewrite Hc. reflexivity. }
  rewrite Hn in Hs. exact Hs.
Defined.

Lemma context_resources_balanced_witness :
  lib_post (life demo_loads demo_config demo_ops) no_objects (fun ctx l =>
    (forall o, held l o = owned ctx o)
    /\ lib_post (tls_ctx_destroy ctx) l (fun _ l' => forall o, held l' o = 0)).
Proof. apply (context_resources_balanced demo_loads demo_config demo_ops). repeat constructor. Defined.

Lemma demo_created : exists c l, tls_ctx_create demo_loads demo_config no_objects = Ok (Some c, l).
Proof.
  assert (match tls_ctx_create demo_loads demo_config no_objects with Ok (Some _, _) => true | _ => false end = true) as Hc
    by (by vm_compute).
  destruct (tls_ctx_create _ _ _) as [[[c|] l]|]; [|done..]. by exists c, l.
Qed.

Lemma context_policy_witness :
  exists c l, tls_ctx_create demo_loads demo_config no_objects = Ok (Some c, l)
    /\ omap least_version (told l) = [TLS1_2_VERSION] /\ omap most_version (told l) = [TLS1_3_VERSION]
    /\ existsb asks_certificate (told l) = false.
Proof.
  destruct demo_created as (c & l & E). exists c, l. split; [exact E|].
  pose proof (context_policy demo_loads demo_config no_objects c l E eq_refl) as (Hv & Hm & Hc & _).
  split; [exact Hv|]. split; [exact Hm|exact Hc].
Defined.
