(* ===== verification/Http2.v ===== *)
(** * HTTP/2 sessions: src/http2.c

    A session runs the library nghttp2: bytes of the socket are given to it, the
    frames it wants to send are collected in a block and sent.  What nghttp2 makes
    of the bytes is a parameter of class [Nghttp2].  Most callbacks that the source
    registers do nothing; the others are modelled. *)

From S2P Require Import Prelude Io.

(** ** Data *)

Inductive H2Error :=
| H2_OK | H2_ERR_WANT_READ | H2_ERR_WANT_WRITE | H2_ERR_CLOSED | H2_ERR_MEMORY | H2_ERR_PROTOCOL | H2_ERR_INTERNAL
| H2_ERR_GOAWAY | H2_ERR_REFUSED | H2_ERR_FLOW_CONTROL | H2_ERR_STREAM_CLOSED | H2_ERR_STREAM_ID_REUSE.

#[export] Instance H2Error_eq_dec : EqDecision H2Error.
Proof. solve_decision. Defined.

Definition h2_error_string (e : H2Error) : list Z :=
  match e with
  | H2_OK => lit "success" | H2_ERR_WANT_READ => lit "want read" | H2_ERR_WANT_WRITE => lit "want write"
  | H2_ERR_CLOSED => lit "closed" | H2_ERR_MEMORY => lit "memory error" | H2_ERR_PROTOCOL => lit "protocol error"
  | H2_ERR_INTERNAL => lit "internal error" | H2_ERR_GOAWAY => lit "goaway" | H2_ERR_REFUSED => lit "refused"
  | H2_ERR_FLOW_CONTROL => lit "flow control" | H2_ERR_STREAM_CLOSED => lit "stream closed"
  | H2_ERR_STREAM_ID_REUSE => lit "stream id reuse"
  end.

Inductive H2ConnState :=
| H2_CONN_STATE_IDLE | H2_CONN_STATE_OPEN | H2_CONN_STATE_GOAWAY_SENT | H2_CONN_STATE_CLOSING | H2_CONN_STATE_CLOSED.

Definition AIONIC_HTTP2_MAX_CONCURRENT_STREAMS : Z := 256.
Definition AIONIC_HTTP2_MAX_HEADER_LIST_SIZE : Z := 65536.
Definition AIONIC_HTTP2_INITIAL_WINDOW_SIZE : Z := 65535.
Definition AIONIC_HTTP2_DEFAULT_MAX_FRAME_SIZE : Z := 16384.

(** [on_data] is the callback for data; [on_request] is never called. *)
Record H2Config := mkH2Config {
  max_concurrent_streams : Z;
  max_header_list_size : Z;
  initial_window_size : Z;
  max_frame_size : Z;
  enable_push : bool;
  on_data : option Z;
  user_data : Z
}.

(** What the callbacks see of the frames received. *)
Inductive h2_event := Goaway_frame (stream_id : Z) | Data_chunk (stream_id : Z) (data : list Z).

Definition NGHTTP2_ERR_EOF : Z := -507.
Definition NGHTTP2_ERR_NOMEM : Z := -901.

(** [session_send] also answers the pieces that it hands to [send_callback]; the
    settings are pairs of identifier and value. *)
Class Nghttp2 (S : Type) := {
  session_new : bool -> Z -> Z * S;
  session_mem_recv : S -> list Z -> Z * S * list h2_event;
  session_send : S -> Z * S * list (list Z);
  session_upgrade2 : S -> list Z -> Z * S;
  session_want_write : S -> bool;
  session_want_read : S -> bool;
  submit_settings : S -> list (Z * Z) -> Z * S;
  submit_response2 : S -> Z -> list (list Z * list Z) -> bool -> Z * S;
  submit_headers : S -> Z -> list (list Z * list Z) -> Z * S;
  submit_data2 : S -> Z -> bool -> Z * S;
  submit_goaway : S -> Z -> Z -> Z * S;
  submit_rst_stream : S -> Z -> Z -> Z * S
}.

Section Session.
Context {S : Type} `{Nghttp2 S}.

(** [out_block] holds the [out_block_len] bytes collected. *)
Record H2Session := mkH2Session {
  session : S;
  fd : Z;
  is_server : bool;
  state : H2ConnState;
  config : H2Config;
  mutex : mutex_state;
  out_block : list Z;
  out_block_cap : Z;
  want_write : bool
}.

Definition set_session (s : S) (h : H2Session) : H2Session :=
  mkH2Session s (fd h) (is_server h) (state h) (config h) (mutex h) (out_block h) (out_block_cap h) (want_write h).
Definition set_state (st : H2ConnState) (h : H2Session) : H2Session :=
  mkH2Session (session h) (fd h) (is_server h) st (config h) (mutex h) (out_block h) (out_block_cap h) (want_write h).
Definition set_mutex (m : mutex_state) (h : H2Session) : H2Session :=
  mkH2Session (session h) (fd h) (is_server h) (state h) (config h) m (out_block h) (out_block_cap h) (want_write h).
Definition set_out (l : list Z) (cap : Z) (want : bool) (h : H2Session) : H2Session :=
  mkH2Session (session h) (fd h) (is_server h) (state h) (config h) (mutex h) l cap want.

Definition lock (h : H2Session) : M H2Session := m ← of_res (mutex_lock (mutex h)); mret (set_mutex m h).
Definition unlock (h : H2Session) : H2Session := set_mutex Unlocked h.

(** [cfg] is read also when it is null. *)
Definition h2_session_new (n : Z) (cfg : option H2Config) (server calloc_ok : bool) : res (option H2Session) :=
  if negb calloc_ok then Ok None
  else
    match cfg with
    | None => Fault NullDeref
    | Some cfg =>
        let max_streams :=
          if max_concurrent_streams cfg >? 0 then max_concurrent_streams cfg else AIONIC_HTTP2_MAX_CONCURRENT_STREAMS in
        let '(rv, s) := session_new server max_streams in
        if negb (rv =? 0) then Ok None
        else Ok (Some (mkH2Session s n server H2_CONN_STATE_OPEN cfg Unlocked [] 0 false))
    end.

(** The session of the library and the block of output are freed with it. *)
Definition h2_session_destroy (s : ptr H2Session) : res (ptr H2Session) := free_owned s.

(** ** The callbacks *)

(** [None]: [realloc] failed. *)
Definition send_callback (data : list Z) (realloc_ok : bool) (h : H2Session) : res (option H2Session) :=
  let new_len := zlen (out_block h) + zlen data in
  let store cap := Ok (Some (set_out (out_block h ++ data) cap true h)) in
  if new_len >? out_block_cap h then
    match double_cap 64 (if out_block_cap h =? 0 then 65536 else u64 (out_block_cap h * 2)) new_len with
    | None => Fault Diverges
    | Some cap => if realloc_ok then store cap else Ok None
    end
  else store (out_block_cap h).

(** The calls of the callback during one send. *)
Fixpoint collect_pieces (pieces : list (list Z)) (realloc_ok : bool) (h : H2Session) : res (bool * H2Session) :=
  match pieces with
  | [] => Ok (true, h)
  | p :: pieces' =>
      next ← send_callback p realloc_ok h;
      match next with
      | Some h => collect_pieces pieces' realloc_ok h
      | None => Ok (false, h)
      end
  end.

Fixpoint run_events (events : list h2_event) (h : H2Session) : M H2Session :=
  match events with
  | [] => mret h
  | Goaway_frame id :: events' =>
      run_events events' (if id =? 0 then set_state H2_CONN_STATE_GOAWAY_SENT h else h)
  | Data_chunk id data :: events' =>
      match on_data (config h) with
      | Some f => callback f data (user_data (config h));; run_events events' h
      | None => run_events events' h
      end
  end.

(** ** Sending and receiving *)

Definition h2_session_send (realloc_ok : bool) (h : H2Session) : M (H2Error * H2Session) :=
  let h := set_out [] (out_block_cap h) (want_write h) h in
  let '(rv, s, pieces) := session_send (session h) in
  '(ok, h) ← of_res (collect_pieces pieces realloc_ok (set_session s h));
  let rv := if ok : bool then rv else NGHTTP2_ERR_NOMEM in
  if negb (rv =? 0) && negb (rv =? NGHTTP2_ERR_EOF) then mret (H2_ERR_INTERNAL, h)
  else
    sent ← (if (0 <? zlen (out_block h)) && (fd h >=? 0) then push (fd h) (out_block h) else mret true);
    if negb sent then mret (H2_ERR_INTERNAL, h)
    else
      let h := set_out (out_block h) (out_block_cap h) (session_want_write (session h)) h in
      if rv =? NGHTTP2_ERR_EOF then mret (H2_ERR_CLOSED, set_state H2_CONN_STATE_CLOSED h) else mret (H2_OK, h).

(** What [h2_session_recv] and [h2_session_feed_data] do with bytes, under the
    mutex. *)
Definition digest (data : list Z) (realloc_ok : bool) (h : H2Session) : M (H2Error * H2Session) :=
  let '(rv, s, events) := session_mem_recv (session h) data in
  h ← run_events events (set_session s h);
  if rv <? 0 then mret (H2_ERR_PROTOCOL, unlock h)
  else if session_want_write (session h) then
    '(r, h) ← h2_session_send realloc_ok h;
    mret (r, unlock h)
  else mret (H2_OK, unlock h).

Definition H2_BUF : nat := Z.to_nat 65536.

Definition h2_session_recv (realloc_ok : bool) (h : H2Session) : M (H2Error * H2Session) :=
  h ← lock h;
  if fd h <? 0 then mret (H2_ERR_CLOSED, unlock h)
  else
    n ← recv (fd h) H2_BUF;
    match n with
    | Recv_again => mret (H2_OK, unlock h)
    | Recv_failed => mret (H2_ERR_INTERNAL, unlock h)
    | Received [] => mret (H2_ERR_CLOSED, unlock h)
    | Received data => digest data realloc_ok h
    end.

Definition h2_session_feed_data (data : option (list Z)) (realloc_ok : bool) (h : H2Session) : M (H2Error * H2Session) :=
  match data with
  | None | Some [] => mret (H2_OK, h)
  | Some data => h ← lock h; digest data realloc_ok h
  end.

(** Identifiers 3 and 4 of the standard. *)
Definition h2_session_submit_settings (h : H2Session) : H2Error * H2Session :=
  let cfg := config h in
  let streams := if max_concurrent_streams cfg >? 0 then max_concurrent_streams cfg else 256 in
  let window := if initial_window_size cfg >? 0 then initial_window_size cfg else 65535 in
  let '(rv, s) := submit_settings (session h) [(3, streams); (4, window)] in
  (if negb (rv =? 0) then H2_ERR_INTERNAL else H2_OK, set_session s h).

Definition h2_session_upgrade (settings : list Z) (realloc_ok : bool) (h : H2Session) : M (H2Error * H2Session) :=
  h ← lock h;
  let '(rv, s) := session_upgrade2 (session h) settings in
  let h := set_session s h in
  if negb (rv =? 0) then mret (H2_ERR_PROTOCOL, unlock h)
  else
    let '(r, h) := h2_session_submit_settings h in
    if bool_decide (r = H2_OK) then
      '(r, h) ← h2_session_send realloc_ok h;
      mret (r, unlock h)
    else mret (r, unlock h).

(** ** Submitting *)

Fixpoint skip_spaces (s : list Z) : list Z :=
  match s with c :: s' => if c =? c_SP then skip_spaces s' else s | [] => [] end.

(** "name: value" *)
Definition header_pair (line : list Z) : option (list Z * list Z) :=
  (fun k => (take k line, skip_spaces (drop (Datatypes.S k) line))) <$> strchr line c_COLON.

Fixpoint header_pairs (lines : list (list Z)) : option (list (list Z * list Z)) :=
  match lines with
  | [] => Some []
  | l :: lines' => p ← header_pair l; ps ← header_pairs lines'; Some (p :: ps)
  end.

(** After a submission: 0 goes on to send. *)
Definition submitted (x : Z * S) (realloc_ok : bool) (h : H2Session) : M (H2Error * H2Session) :=
  let h := set_session x.2 h in
  if negb (x.1 =? 0) then mret (H2_ERR_INTERNAL, h) else h2_session_send realloc_ok h.

(** The provider of the body is given to nghttp2 without its callback. *)
Definition h2_submit_response (stream_id : Z) (headers : list (list Z)) (body : option (list Z))
    (malloc_ok body_ok realloc_ok : bool) (h : H2Session) : M (H2Error * H2Session) :=
  if negb malloc_ok then mret (H2_ERR_MEMORY, h)
  else
    match header_pairs headers with
    | None => mret (H2_ERR_PROTOCOL, h)
    | Some nv =>
        match body with
        | None | Some [] => submitted (submit_response2 (session h) stream_id nv false) realloc_ok h
        | Some _ =>
            if negb body_ok then mret (H2_ERR_MEMORY, h)
            else submitted (submit_response2 (session h) stream_id nv true) realloc_ok h
        end
    end.

Definition h2_submit_headers (stream_id : Z) (headers : list (list Z)) (malloc_ok realloc_ok : bool) (h : H2Session)
  : M (H2Error * H2Session) :=
  if negb malloc_ok then mret (H2_ERR_MEMORY, h)
  else
    match header_pairs headers with
    | None => mret (H2_ERR_PROTOCOL, h)
    | Some nv => submitted (submit_headers (session h) stream_id nv) realloc_ok h
    end.

(** The data are not used. *)
Definition h2_submit_data (stream_id : Z) (data : list Z) (complete realloc_ok : bool) (h : H2Session)
  : M (H2Error * H2Session) := submitted (submit_data2 (session h) stream_id complete) realloc_ok h.

Definition h2_submit_goaway (last_stream_id error_code : Z) (realloc_ok : bool) (h : H2Session)
  : M (H2Error * H2Session) :=
  let '(_, s) := submit_goaway (session h) last_stream_id (u32 error_code) in
  h2_session_send realloc_ok (set_state H2_CONN_STATE_GOAWAY_SENT (set_session s h)).

Definition h2_submit_rst_stream (stream_id error_code : Z) (realloc_ok : bool) (h : H2Session)
  : M (H2Error * H2Session) :=
  let '(_, s) := submit_rst_stream (session h) stream_id (u32 error_code) in
  h2_session_send realloc_ok (set_session s h).

Definition h2_session_want_write (h : option H2Session) : bool :=
  match h with Some h => want_write h || session_want_write (session h) | None => false end.
Definition h2_session_want_read (h : option H2Session) : bool :=
  match h with Some h => session_want_read (session h) | None => false end.
Definition h2_session_get_state (h : option H2Session) : H2ConnState :=
  match h with Some h => state h | None => H2_CONN_STATE_CLOSED end.
Definition h2_session_set_user_data (u : Z) (h : option H2Session) : option H2Session :=
  (fun h => let c := config h in
     mkH2Session (session h) (fd h) (is_server h) (state h)
       (mkH2Config (max_concurrent_streams c) (max_header_list_size c) (initial_window_size c) (max_frame_size c)
          (enable_push c) (on_data c) u)
       (mutex h) (out_block h) (out_block_cap h) (want_write h)) <$> h.

(** ** Lemmas *)

Lemma block_growth cap needed :
  0 <= cap < needed -> needed < 2 ^ 60 ->
  exists c, double_cap 64 (if cap =? 0 then 65536 else u64 (cap * 2)) needed = Some c /\ needed <= c < 2 ^ 62.
Proof.
  intros Hc Hn. set (start := if cap =? 0 then 65536 else u64 (cap * 2)).
  assert (0 < start < 2 ^ 61) as Hs.
  { unfold start. destruct (Z.eqb_spec cap 0); [lia|]. rewrite u64_small; lia. }
  destruct (double_cap_total start needed) as [c E]; [lia|lia|]. exists c. split; [done|].
  pose proof (double_cap_ge _ _ _ _ E). pose proof (double_cap_le 64 start needed c ltac:(lia) ltac:(lia) E). lia.
Qed.

(** The block holds the pieces, in order, within its capacity. *)
Lemma collect_pieces_spec pieces : forall h,
  zlen (out_block h) <= out_block_cap h < 2 ^ 62 -> zlen (out_block h) + zlen (concat pieces) < 2 ^ 60 ->
  exists cap want, collect_pieces pieces true h = Ok (true, set_out (out_block h ++ concat pieces) cap want h)
    /\ zlen (out_block h ++ concat pieces) <= cap < 2 ^ 62.
Proof.
  induction pieces as [|p pieces IH]; intros h Hc Hl; cbn [collect_pieces concat].
  - exists (out_block_cap h), (want_write h). rewrite app_nil_r. split; [by destruct h|done].
  - cbn [concat] in Hl. rewrite zlen_app in Hl. pose proof (zlen_nonneg (concat pieces)).
    pose proof (zlen_nonneg (out_block h)). pose proof (zlen_nonneg p).
    assert (exists cap, send_callback p true h = Ok (Some (set_out (out_block h ++ p) cap true h))
      /\ zlen (out_block h ++ p) <= cap < 2 ^ 62) as (cap & -> & Hcap).
    { unfold send_callback. rewrite zlen_app. destruct (Z.gtb_spec (zlen (out_block h) + zlen p) (out_block_cap h)) as [Hgt|].
      - destruct (block_growth (out_block_cap h) (zlen (out_block h) + zlen p)) as (cap & -> & Hcap); [lia|lia|].
        exists cap. split; [done|lia].
      - eexists. split; [done|lia]. }
    cbn [mbind res_bind]. destruct (IH (set_out (out_block h ++ p) cap true h)) as (cap' & want & -> & Hcap').
    + done.
    + cbn [out_block set_out]. rewrite zlen_app. lia.
    + cbn [out_block set_out] in *. exists cap', want. by rewrite <- app_assoc in *.
Qed.

(** Every operation writes to the descriptor of its session at most, keeps it, and
    releases the mutex: [tied n m]. *)
Definition tied {A} (n : Z) (mx : mutex_state) (m : M (A * H2Session)) : Prop :=
  forall i a h i', m i = Done (a, h) i' -> (fd h = n /\ mutex h = mx) /\ only n i i'.

Lemma h2_tied_ret {A} n mx (a : A) h : fd h = n -> mutex h = mx -> tied n mx (mret (a, h)).
Proof. by intros Hn Hm i b h' i' [= _ <- <-]. Qed.

Lemma h2_tied_bind {A B} n mx my (m : M (A * H2Session)) (k : A * H2Session -> M (B * H2Session)) :
  tied n mx m -> (forall a h, fd h = n -> mutex h = mx -> tied n my (k (a, h))) -> tied n my (m ≫= k).
Proof.
  intros Hm Hk i b h' i' ([a h] & i1 & E1 & E2)%bind_Done. apply Hm in E1 as [[Hn Hx] H1].
  destruct (Hk a h Hn Hx _ _ _ _ E2) as [Hh H2]. split; [done|by etrans].
Qed.

Lemma h2_tied_stays {A B} n mx (m : M A) (k : A -> M (B * H2Session)) :
  stays n m -> (forall a, tied n mx (k a)) -> tied n mx (m ≫= k).
Proof.
  intros Hm Hk i b h' i' (a & i1 & E1 & E2)%bind_Done. apply Hm in E1.
  destruct (Hk a _ _ _ _ E2) as [Hh H2]. split; [done|by etrans].
Qed.

Lemma tied_lock {A} n mx h (k : H2Session -> M (A * H2Session)) :
  fd h = n -> (forall h, fd h = n -> tied n mx (k h)) -> tied n mx (lock h ≫= k).
Proof.
  intros Hn Hk i a h' i' (h1 & i1 & E1 & E2)%bind_Done. unfold lock, of_res in E1.
  destruct (mutex_lock (mutex h)); [|done]. cbv [mbind M_bind mret M_ret] in E1. injection E1 as <- <-.
  by apply Hk in E2.
Qed.

Lemma collect_pieces_same pieces realloc_ok : forall h ok h',
  collect_pieces pieces realloc_ok h = Ok (ok, h') -> fd h' = fd h /\ mutex h' = mutex h.
Proof.
  induction pieces as [|p pieces IH]; intros h ok h'; cbn [collect_pieces]; [by intros [= _ <-]|].
  intros (next & E1 & E2)%bind_Ok. assert (forall h1, next = Some h1 -> fd h1 = fd h /\ mutex h1 = mutex h) as Hn.
  { intros h1 ->. unfold send_callback in E1. destruct (_ >? _); [|by injection E1 as <-].
    destruct (double_cap _ _ _); [|done]. destruct realloc_ok; [|done]. by injection E1 as <-. }
  destruct next as [h1|]; [|by injection E2 as _ <-]. apply IH in E2 as [-> ->]. by apply Hn.
Qed.

Lemma tied_collect {A} n mx pieces realloc_ok h (k : bool * H2Session -> M (A * H2Session)) :
  fd h = n -> mutex h = mx -> (forall ok h, fd h = n -> mutex h = mx -> tied n mx (k (ok, h))) ->
  tied n mx (of_res (collect_pieces pieces realloc_ok h) ≫= k).
Proof.
  intros Hn Hx Hk i a h' i' ([ok h1] & i1 & E1 & E2)%bind_Done. unfold of_res in E1.
  destruct (collect_pieces pieces realloc_ok h) as [[b h2]|] eqn:E; [|done]. injection E1 as -> -> ->.
  apply collect_pieces_same in E as [? ?]. apply Hk in E2; [done|congruence|congruence].
Qed.

Lemma tied_send n mx realloc_ok h : fd h = n -> mutex h = mx -> tied n mx (h2_session_send realloc_ok h).
Proof.
  intros Hn Hx. unfold h2_session_send. destruct (session_send (session (set_out [] _ _ h))) as [[rv s] pieces].
  apply tied_collect; [done|done|]. intros ok h1 Hn1 Hx1. cbv beta iota zeta.
  set (v := if ok then rv else NGHTTP2_ERR_NOMEM). destruct (_ && _); [by apply h2_tied_ret|].
  apply h2_tied_stays; [rewrite Hn1; stays|]. intros sent. destruct (negb sent); [by apply h2_tied_ret|].
  destruct (v =? NGHTTP2_ERR_EOF); by apply h2_tied_ret.
Qed.

Lemma tied_events {A} n mx my events (k : H2Session -> M (A * H2Session)) : forall h,
  fd h = n -> mutex h = mx -> (forall h, fd h = n -> mutex h = mx -> tied n my (k h)) ->
  tied n my (run_events events h ≫= k).
Proof.
  induction events as [|[id|id data] events IH]; intros h Hn Hx Hk; cbn [run_events].
  - intros i. erewrite bind_step by reflexivity. by apply Hk.
  - destruct (id =? 0); by apply IH.
  - destruct (on_data (config h)) as [f|]; [|by apply IH]. intros i a h' i' (h1 & i1 & E1 & E2)%bind_Done.
    apply bind_Done in E1 as ([] & i2 & E3 & E1). injection E3 as <-.
    assert ((fd h' = n /\ mutex h' = my) /\ only n (note (f, data, user_data (config h)) i) i') as [? Ho];
      [|by split; [done|]].
    eapply (IH h Hn Hx Hk). by erewrite bind_step by exact E1.
Qed.

Lemma tied_digest n data realloc_ok h : fd h = n -> tied n Unlocked (digest data realloc_ok h).
Proof.
  intros Hn. unfold digest. destruct (session_mem_recv (session h) data) as [[rv s] events].
  apply (tied_events n (mutex h)); [done|done|]. intros h1 Hn1 Hx1. destruct (rv <? 0); [by apply h2_tied_ret|].
  destruct (session_want_write (session h1)); [|by apply h2_tied_ret].
  apply (h2_tied_bind n (mutex h)); [by apply tied_send|]. intros r h2 Hn2 Hx2. by apply h2_tied_ret.
Qed.

Lemma tied_recv n realloc_ok h : fd h = n -> tied n Unlocked (h2_session_recv realloc_ok h).
Proof.
  intros Hn. apply tied_lock; [done|]. intros h1 Hn1. destruct (fd h1 <? 0); [by apply h2_tied_ret|].
  apply h2_tied_stays; [stays|]. intros [[|b l]| |]; try by apply h2_tied_ret. by apply tied_digest.
Qed.

Lemma tied_feed n data realloc_ok h :
  fd h = n -> mutex h = Unlocked -> tied n Unlocked (h2_session_feed_data data realloc_ok h).
Proof.
  intros Hn Hx. unfold h2_session_feed_data. destruct data as [[|b l]|]; try by apply h2_tied_ret.
  apply tied_lock; [done|]. intros h1 Hn1. by apply tied_digest.
Qed.

Lemma tied_upgrade n settings realloc_ok h : fd h = n -> tied n Unlocked (h2_session_upgrade settings realloc_ok h).
Proof.
  intros Hn. apply tied_lock; [done|]. intros h1 Hn1. destruct (session_upgrade2 (session h1) settings) as [rv s].
  destruct (negb (rv =? 0)); [by apply h2_tied_ret|]. unfold h2_session_submit_settings.
  destruct (submit_settings _ _) as [rv2 s2]. destruct (bool_decide _); [|by apply h2_tied_ret].
  apply (h2_tied_bind n (mutex h1)); [by apply tied_send|]. intros r h2 Hn2 Hx2. by apply h2_tied_ret.
Qed.

(** What the library produces for the bytes it is given is sent, all of it and in
    order, and the mutex is free again, on any socket that keeps taking
    something. *)
Theorem h2_answers_sent h data s events s' pieces i :
  mutex h = Unlocked -> 0 <= fd h -> on_data (config h) = None -> data <> [] ->
  zlen (out_block h) <= out_block_cap h < 2 ^ 62 -> zlen (concat pieces) < 2 ^ 60 ->
  session_mem_recv (session h) data = (zlen data, s, events) -> session_want_write s = true ->
  session_send s = (0, s', pieces) ->
  Forall takes_some (sends i) -> (length (concat pieces) <= length (sends i))%nat ->
  returns (h2_session_feed_data (Some data) true h) i (fun x i' =>
    x.1 = H2_OK /\ mutex x.2 = Unlocked /\ session x.2 = s' /\ written (fd h) i' = written (fd h) i ++ concat pieces).
Proof.
  intros Hm Hfd Hcb Hne Hcap Hl Hrecv Hww Hsend Hf Hn. unfold h2_session_feed_data. destruct data as [|b l]; [done|].
  eapply returns_step; [unfold lock; rewrite Hm; reflexivity|]. unfold digest. cbn [session set_mutex]. rewrite Hrecv.
  assert (exists h1, run_events events (set_session s (set_mutex Locked h)) i = Done h1 i
    /\ session h1 = s /\ fd h1 = fd h /\ out_block_cap h1 = out_block_cap h) as (h1 & E & Hs1 & Hn1 & Hc1).
  { set (h0 := set_session s (set_mutex Locked h)). assert (on_data (config h0) = None) as H0 by done.
    assert (session h0 = s /\ fd h0 = fd h /\ out_block_cap h0 = out_block_cap h) as H1 by done. clearbody h0.
    clear Hrecv. revert h0 H0 H1. induction events as [|[id|id d] events IH]; intros h0 H0 H1; cbn [run_events].
    - by eexists.
    - destruct (id =? 0); by apply IH.
    - rewrite H0. by apply IH. }
  eapply returns_step; [exact E|]. pose proof (zlen_nonneg (b :: l)). destruct (Z.ltb_spec (zlen (b :: l)) 0); [lia|].
  rewrite Hs1, Hww. unfold h2_session_send. cbn [session set_out]. rewrite Hs1, Hsend.
  pose proof (zlen_nonneg (out_block h)).
  destruct (collect_pieces_spec pieces (set_session s' (set_out [] (out_block_cap h1) (want_write h1) h1)))
    as (cap & want & Ec & _).
  { cbn [out_block out_block_cap set_out set_session]. change (zlen []) with 0. rewrite Hc1. lia. } { cbn [out_block set_out set_session]. change (zlen []) with 0. lia. }
  apply returns_bind. rewrite Ec. eapply returns_step; [reflexivity|]. cbn [Z.eqb negb andb out_block set_out set_session fd app].
  rewrite Hn1. destruct (Z.geb_spec (fd h) 0); [|lia]. rewrite andb_true_r.
  apply returns_bind. destruct (Z.ltb_spec 0 (zlen (concat pieces))) as [Hpos|Hzero].
  - eapply returns_mono; [by apply push_all|]. intros ok i1 (-> & Hw & _). cbn [negb]. apply returns_ret. by apply returns_ret.
  - apply returns_ret. cbn [negb]. apply returns_ret. apply returns_ret.
    assert (concat pieces = []) as -> by (destruct (concat pieces); [done|unfold zlen in Hzero; simpl in Hzero; lia]).
    by rewrite app_nil_r.
Qed.
End Session.

(** ** Witness: a library that sends back what it got *)

#[export] Instance echo : Nghttp2 (list Z) := {|
  session_new _ _ := (0, []);
  session_mem_recv s data := (zlen data, s ++ data, []);
  session_send s := (0, [], [s]);
  session_upgrade2 s _ := (0, s);
  session_want_write s := negb (bool_decide (s = []));
  session_want_read _ := true;
  submit_settings s l := (0, s ++ concat (map (fun p => [p.1; p.2]) l));
  submit_response2 s _ _ _ := (0, s);
  submit_headers s _ _ := (0, s);
  submit_data2 s _ _ := (0, s);
  submit_goaway s _ _ := (0, s);
  submit_rst_stream s _ _ := (0, s)
|}.

Definition demo_h2 : H2Session (S := list Z) :=
  mkH2Session [] 7 true H2_CONN_STATE_OPEN (mkH2Config 256 65536 65535 16384 false None 0) Unlocked [] 0 false.

Definition demo_h2_io : io := mkIo (repeat (Accepts 3) 8) [] (fun _ => 0) 0 ∅ [] [] false.

Lemma h2_answers_sent_witness :
  returns (h2_session_feed_data (Some (lit "ping")) true demo_h2) demo_h2_io (fun x i' =>
    x.1 = H2_OK /\ mutex x.2 = Unlocked /\ session x.2 = [] /\ written 7 i' = written 7 demo_h2_io ++ concat [lit "ping"]).
Proof.
  apply (h2_answers_sent demo_h2 (lit "ping") (lit "ping") [] [] [lit "ping"]); try reflexivity;
    [simpl; lia|discriminate|split; [vm_compute; discriminate|reflexivity]|repeat constructor|vm_compute; lia].
Defined.
