(* ===== verification/Sessions.v ===== *)
(** * What the server needs of TLS and HTTP/2

    Two interfaces: the operations that [src/server.c] calls, with the law that a
    session writes to the descriptor it was made for and to no other, and that closing it
    closes this descriptor, once.  The modules
    [Tls] and [Http2] implement them, over any library. *)

From S2P Require Import Prelude Io Tls Http2.

Abbreviation bound ok n m := (yields n (fun x => ok x.2) m).

(** [tls_of n c]: the connection [c] belongs to the descriptor [n]. *)
Class TlsLayer (T : Type) := {
  tls_new : Z -> option T;
  tls_accept : T -> M (TLSError * T);
  tls_read : T -> nat -> M ((list Z + TLSError) * T);
  tls_write : T -> list Z -> M ((Z + TLSError) * T);
  tls_close : T -> M T;
  tls_of : Z -> T -> Prop;
  tls_new_of : forall n c, tls_new n = Some c -> tls_of n c;
  tls_accept_of : forall n c, tls_of n c -> bound (tls_of n) n (tls_accept c);
  tls_read_of : forall n c len, tls_of n c -> bound (tls_of n) n (tls_read c len);
  tls_write_of : forall n c data, tls_of n c -> bound (tls_of n) n (tls_write c data);
  tls_close_of : forall n c, tls_of n c -> stays n (tls_close c);
  tls_close_closes : forall n c i, tls_of n c ->
    ends (tls_close c) i (fun _ i' => closed i' = closed i ++ if n >=? 0 then [n] else [])
}.

(** [h2_of n h]: the session [h] belongs to the descriptor [n] and is not in a
    call. *)
Class H2Layer (H : Type) := {
  h2_new : Z -> res (option H);
  h2_recv : H -> M (H2Error * H);
  h2_feed : list Z -> H -> M (H2Error * H);
  h2_upgrade : list Z -> H -> M (H2Error * H);
  h2_settings : H -> H2Error * H;
  h2_send : H -> M (H2Error * H);
  h2_of : Z -> H -> Prop;
  h2_new_of : forall n h, h2_new n = Ok (Some h) -> h2_of n h;
  h2_recv_of : forall n h, h2_of n h -> bound (h2_of n) n (h2_recv h);
  h2_feed_of : forall n data h, h2_of n h -> bound (h2_of n) n (h2_feed data h);
  h2_upgrade_of : forall n s h, h2_of n h -> bound (h2_of n) n (h2_upgrade s h);
  h2_settings_of : forall n h, h2_of n h -> h2_of n (h2_settings h).2;
  h2_send_of : forall n h, h2_of n h -> bound (h2_of n) n (h2_send h)
}.

(** ** The implementations

    [ctx]: the context of the server, with what [SSL_new] answers; the flags are
    answers of the allocator. *)

#[export] Instance tls_openssl {SSL} `{OpenSSL SSL} (ctx : option (option SSL)) (calloc_ok bio_ok : bool)
  : TlsLayer (TLSConn (SSL := SSL)).
Proof.
  refine {|
    tls_new n := tls_conn_new ctx n calloc_ok bio_ok;
    tls_accept := tls_conn_accept;
    tls_read := tls_conn_read;
    tls_write := tls_conn_write;
    tls_close := tls_conn_close;
    tls_of n c := Tls.fd c = n |}.
  - intros n c. unfold tls_conn_new. destruct ctx as [[s|]|]; [|by destruct calloc_ok|done].
    destruct calloc_ok, bio_ok; try done. by intros [= <-].
  - intros n c Hc i [r c'] i'. by apply Tls.tied_accept.
  - intros n c len Hc i [r c'] i'. by apply Tls.tied_read.
  - intros n c data Hc i [r c'] i'. by apply Tls.tied_write.
  - apply stays_close_conn.
  - intros n c i <-. apply close_conn_closes.
Defined.

(** The configuration that the server gives to every session. *)
Definition server_h2_config : H2Config :=
  mkH2Config AIONIC_HTTP2_MAX_CONCURRENT_STREAMS AIONIC_HTTP2_MAX_HEADER_LIST_SIZE AIONIC_HTTP2_INITIAL_WINDOW_SIZE
    AIONIC_HTTP2_DEFAULT_MAX_FRAME_SIZE false None 0.

#[export] Instance h2_nghttp2 {S} `{Nghttp2 S} (calloc_ok realloc_ok : bool) : H2Layer (H2Session (S := S)).
Proof.
  refine {|
    h2_new n := h2_session_new n (Some server_h2_config) true calloc_ok;
    h2_recv := h2_session_recv realloc_ok;
    h2_feed data := h2_session_feed_data (Some data) realloc_ok;
    h2_upgrade s := h2_session_upgrade s realloc_ok;
    h2_settings := h2_session_submit_settings;
    h2_send := h2_session_send realloc_ok;
    h2_of n h := Http2.fd h = n /\ Http2.mutex h = Unlocked |}.
  - intros n h. unfold h2_session_new. destruct calloc_ok; [|done]. cbn [negb].
    destruct (session_new _ _) as [rv s]. destruct (negb (rv =? 0)); [done|]. by intros [= <-].
  - intros n h [Hn _] i [r h'] i'. by apply Http2.tied_recv.
  - intros n data h [Hn Hm] i [r h'] i'. by apply Http2.tied_feed.
  - intros n s h [Hn _] i [r h'] i'. by apply Http2.tied_upgrade.
  - intros n h Hn. unfold h2_session_submit_settings. by destruct (submit_settings _ _).
  - intros n h [Hn Hm] i [r h'] i'. by apply Http2.tied_send.
Defined.
