(* ===== verification/Server.v ===== *)
(** * The server: src/server.c

    How a request travels through the parts: [server_handle_request] reads it from
    its connection, parses it, asks the plugins, the blacklist, the content
    moderation and the rate limiter, and sends what the router answers, over TLS
    or plainly.  The calls of
    one thread are one after the other; TLS and HTTP/2 are the interfaces of
    [Sessions]; the clocks and the answers of the allocator are in a [call_env]. *)

From S2P Require Import Prelude Io Tls Http2 Sessions.
From S2P Require Import Arena RateLimiter Cache HttpParser Firewall JsonText PromptRouter Observability.
From S2P Require Import Moderation Plugin RouteTable Stream Router Connections.

(** ** Data *)

(** What a hook sees of a request, and changes. *)
Record PluginContext := mkPluginContext {
  ctx_request : Connections.request;
  ctx_response : option RouteResponse;
  ctx_client_fd : Z;
  ctx_client_ip : list Z
}.

Record ServerStats := mkServerStats {
  total_requests : Z;
  total_responses : Z;
  bytes_sent : Z;
  bytes_received : Z
}.

(** The fields that [server_init] sets once. *)
Record ServerSettings := mkServerSettings {
  thread_count : Z;
  epoll_fds : list Z;
  use_streaming : bool;
  keepalive_timeout : Z;
  enable_tls : bool;
  tls_port : Z;
  enable_http2 : bool;
  middlewares : list MiddlewareFunc;
  shutdown_timeout : Z;
  server_fd : Z;
  tls_server_fd : Z
}.

(** What the outside answers during one call.  [base] is the address of the
    request's buffer, [mono] the clock of the rate limiter, [self] the thread. *)
Record call_env := mkCallEnv {
  renv : Router.env;
  mono : Z;
  base : Z;
  self : Z;
  realloc_ok : bool;
  index_ok : bool;
  blacklist_ok : bool;
  bucket_ok : bool;
  stream_ok : bool;
  stream_buffer_ok : bool;
  ai_buf_ok : bool;
  latency_us : Z;
  sse_request_id : list Z
}.

Section Server.
Context {T H Regex : Type} `{TlsLayer T} `{H2Layer H}.
Context (crc32_asm : list Z -> Z) (regexec : Regex -> list Z -> bool).

(** The globals of the parts are fields; the count of active connections is the
    field [active] of [app]. *)
Record Server := mkServer {
  running : bool;
  settings : ServerSettings;
  stats : ServerStats;
  ratelimiter : option RateLimiter;
  arenapool : option ArenaPool;
  table : ConnTable T H;
  firewall : Firewall.Firewall;
  moderation : ModerationEngine (Regex := Regex);
  manager : PluginManager (Ctx := PluginContext);
  app : Router.world
}.

Definition set_running (b : bool) (s : Server) : Server :=
  mkServer b (settings s) (stats s) (ratelimiter s) (arenapool s) (table s) (firewall s) (moderation s) (manager s) (app s).
Definition set_stats (x : ServerStats) (s : Server) : Server :=
  mkServer (running s) (settings s) x (ratelimiter s) (arenapool s) (table s) (firewall s) (moderation s) (manager s) (app s).
Definition set_ratelimiter (x : option RateLimiter) (s : Server) : Server :=
  mkServer (running s) (settings s) (stats s) x (arenapool s) (table s) (firewall s) (moderation s) (manager s) (app s).
Definition set_arenapool (x : option ArenaPool) (s : Server) : Server :=
  mkServer (running s) (settings s) (stats s) (ratelimiter s) x (table s) (firewall s) (moderation s) (manager s) (app s).
Definition set_table (x : ConnTable T H) (s : Server) : Server :=
  mkServer (running s) (settings s) (stats s) (ratelimiter s) (arenapool s) x (firewall s) (moderation s) (manager s) (app s).
Definition set_firewall (x : Firewall.Firewall) (s : Server) : Server :=
  mkServer (running s) (settings s) (stats s) (ratelimiter s) (arenapool s) (table s) x (moderation s) (manager s) (app s).
Definition set_moderation (x : ModerationEngine) (s : Server) : Server :=
  mkServer (running s) (settings s) (stats s) (ratelimiter s) (arenapool s) (table s) (firewall s) x (manager s) (app s).
Definition set_manager (x : PluginManager) (s : Server) : Server :=
  mkServer (running s) (settings s) (stats s) (ratelimiter s) (arenapool s) (table s) (firewall s) (moderation s) x (app s).
Definition set_app (x : Router.world) (s : Server) : Server :=
  mkServer (running s) (settings s) (stats s) (ratelimiter s) (arenapool s) (table s) (firewall s) (moderation s) (manager s) x.

Definition set_active (n : Z) (s : Server) : Server :=
  let w := app s in
  set_app (mkWorld (Router.cache w) (Router.router w) (Router.metrics w) (i32 n) (Router.not_found w) (Router.root w)) s.
Definition record_request (status : Z) (error : bool) (s : Server) : Server :=
  let w := app s in
  set_app (mkWorld (Router.cache w) (Router.router w) (obs_record_request status error (Router.metrics w))
             (Router.active w) (Router.not_found w) (Router.root w)) s.

(** ** The connection at hand: [info] is a pointer, an index of the table *)

Definition at_conn (k : nat) (f : ConnectionInfo T H -> ConnectionInfo T H) (s : Server) : Server :=
  let t := table s in
  set_table (mkConnTable (alter f k (connections t)) (connection_capacity t) (global_conn_hash t)) s.

Definition conn (k : nat) (s : Server) : M (ConnectionInfo T H) :=
  match connections (table s) !! k with Some info => mret info | None => crash OutOfBounds end.

(** [if (info->tls_conn) tls_conn_write(...); else send(...);]: whether it failed. *)
Definition tell (k : nat) (fd : Z) (data : list Z) (s : Server) : M (bool * Server) :=
  info ← conn k s;
  match tls_conn info with
  | Some c =>
      '(r, c) ← tls_write c data;
      mret (match r with inl _ => false | inr _ => true end, at_conn k (set_tls (Some c)) s)
  | None =>
      r ← send fd data;
      mret (match r with Sent _ => false | _ => true end, s)
  end.

(** Answer with an error, give up the request. *)
Definition refuse (k : nat) (fd : Z) (text : list Z) (s : Server) : M (Z * Server) :=
  '(_, s) ← tell k fd text s;
  mret (-1, at_conn k free_partial_data s).

Definition drop_request (k : nat) (s : Server) : M (Z * Server) := mret (-1, at_conn k free_partial_data s).

Definition payload_too_large : list Z :=
  lit "HTTP/1.1 413 Payload Too Large" ++ crlf ++ lit "Content-Length: 0" ++ crlf ++ lit "Connection: close" ++ crlf ++ crlf.
Definition bad_request : list Z :=
  lit "HTTP/1.1 400 Bad Request" ++ crlf ++ lit "Content-Length: 0" ++ crlf ++ lit "Connection: close" ++ crlf ++ crlf.
Definition too_many_requests : list Z :=
  lit "HTTP/1.1 429 Too Many Requests" ++ crlf ++ lit "Content-Length: 0" ++ crlf ++ lit "Connection: close" ++ crlf ++ crlf.
Definition server_error : list Z :=
  lit "HTTP/1.1 500 Internal Server Error" ++ crlf ++ lit "Content-Length: 0" ++ crlf ++ lit "Connection: close" ++ crlf
  ++ crlf.
Definition policy_violation : list Z :=
  lit "HTTP/1.1 400 Bad Request" ++ crlf ++ lit "Content-Type: application/json" ++ crlf
  ++ lit "X-Content-Type-Options: nosniff" ++ crlf ++ lit "Content-Security-Policy: default-src 'none'" ++ crlf ++ crlf
  ++ qlit "{'error': 'Content policy violation', 'code': 'content_moderation'}".
Definition switching_protocols : list Z :=
  lit "HTTP/1.1 101 Switching Protocols" ++ crlf ++ lit "Connection: Upgrade" ++ crlf ++ lit "Upgrade: h2c" ++ crlf ++ crlf.

(** ** TLS *)

(** The code of [handle_tls_accept]. *)
Definition handle_tls_accept (k : nat) (s : Server) : M (Z * Server) :=
  info ← conn k s;
  let made := match tls_conn info with Some c => Some c | None => tls_new (client_fd info) end in
  match made with
  | None => mret (-1, at_conn k (set_conn_state CONN_STATE_CLOSED) s)
  | Some c =>
      let s := match tls_conn info with
               | Some _ => s
               | None => at_conn k (set_conn_state CONN_STATE_TLS_HANDSHAKE) s
               end in
      '(r, c) ← tls_accept c;
      let s := at_conn k (set_tls (Some c)) s in
      match r with
      | TLS_ERR_WANT_READ | TLS_ERR_WANT_WRITE => mret (0, s)
      | TLS_OK => mret (0, at_conn k (set_conn_state CONN_STATE_ACTIVE) s)
      | _ => mret (-1, at_conn k (set_conn_state CONN_STATE_CLOSED) s)
      end
  end.

(** The code of [tls_read_request_data], when there is a TLS connection. *)
Definition tls_read_request_data (v : call_env) (k : nat) (c : T) (s : Server) : M (Z * Server) :=
  '(r, c) ← tls_read c BUF;
  let s := at_conn k (set_tls (Some c)) s in
  match r with
  | inr TLS_ERR_WANT_READ | inr TLS_ERR_WANT_WRITE => mret (1, s)
  | inr _ | inl [] => mret (-1, s)
  | inl data =>
      info ← conn k s;
      let '(code, info) := collect data (Router.now (renv v)) (realloc_ok v) info in
      mret (code, at_conn k (fun _ => info) s)
  end.

(** Not called by the server itself. *)
Definition tls_send_response (k : nat) (data : list Z) (s : Server) : M (Z * Server) :=
  info ← conn k s;
  match tls_conn info with
  | None => mret (-1, s)
  | Some c =>
      '(r, c) ← tls_write c data;
      mret (match r with
            | inl _ | inr TLS_OK | inr TLS_ERR_WANT_READ | inr TLS_ERR_WANT_WRITE => 0
            | inr _ => -1
            end, at_conn k (set_tls (Some c)) s)
  end.

Definition add_received (n : Z) (s : Server) : Server :=
  let x := stats s in
  set_stats (mkServerStats (total_requests x) (total_responses x) (bytes_sent x) (u64 (bytes_received x + n))) s.

Definition plain_read_request_data (v : call_env) (k : nat) (fd : Z) (s : Server) : M (Z * Server) :=
  n ← recv fd BUF;
  let chunk := match n with Received l => Some l | _ => None end in
  info ← conn k s;
  let '(code, info) := read_request_data_impl chunk (Router.now (renv v)) (realloc_ok v) info in
  mret (code, at_conn k (fun _ => info) (add_received (zlen (default [] chunk)) s)).

(** ** HTTP/2 *)

Definition after_h2 (k : nat) (r : H2Error) (s : Server) : M (Z * Server) :=
  match r with
  | H2_ERR_CLOSED | H2_ERR_PROTOCOL => mret (-1, at_conn k (set_conn_state CONN_STATE_CLOSED) s)
  | _ => mret (0, s)
  end.

(** Input for a connection in state [CONN_STATE_H2_SESSION]. *)
Definition handle_h2_input (k : nat) (s : Server) : M (Z * Server) :=
  info ← conn k s;
  match h2_session info with
  | None => mret (0, s)
  | Some h =>
      match tls_conn info with
      | None =>
          '(r, h) ← h2_recv h;
          after_h2 k r (at_conn k (set_h2 (Some h)) s)
      | Some c =>
          '(r, c) ← tls_read c BUF;
          let s := at_conn k (set_tls (Some c)) s in
          match r with
          | inr TLS_ERR_WANT_READ | inr TLS_ERR_WANT_WRITE => mret (0, s)
          | inr TLS_OK => mret (0, s)
          | inr _ => mret (-1, at_conn k (set_conn_state CONN_STATE_CLOSED) s)
          | inl data =>
              '(r, h) ← h2_feed data h;
              after_h2 k r (at_conn k (set_h2 (Some h)) s)
          end
      end
  end.

(** The value of the header [HTTP2-Settings], in one of three spellings. *)
Definition settings_value (text : list Z) : option (list Z) :=
  let after name := (fun k => drop (k + 15) text) <$> strstr text (lit name) in
  let found :=
    match after "HTTP2-Settings:"%string with
    | Some t => Some t
    | None =>
        match after "Http2-Settings:"%string with
        | Some t => Some t
        | None => after "http2-settings:"%string
        end
    end in
  t ← found;
  let t := Http2.skip_spaces t in
  match strchr t c_CR with
  | Some n => Some (take n t)
  | None => (fun n => take n t) <$> strchr t c_LF
  end.

(** [Some code]: the connection has become one of HTTP/2. *)
Definition upgrade_to_h2 (k : nat) (fd : Z) (s : Server) : M (option Z * Server) :=
  made ← of_res (h2_new fd);
  match made with
  | None => mret (None, s)
  | Some h =>
      let s := at_conn k (set_conn_state CONN_STATE_H2_SESSION) s in
      _ ← send fd switching_protocols;
      info ← conn k s;
      h ← match settings_value (cstring (default [] (partial_data info) ++ [0])) with
          | Some b64val =>
              match b64_decode b64val 128 with
              | Some (b :: settings) => '(_, h) ← h2_upgrade (b :: settings) h; mret h
              | _ => mret h
              end
          | None => mret h
          end;
      mret (Some 0, at_conn k (set_h2 (Some h)) s)
  end.

Definition start_h2 (k : nat) (fd : Z) (s : Server) : M (option Z * Server) :=
  made ← of_res (h2_new fd);
  match made with
  | None => mret (None, s)
  | Some h =>
      info ← conn k s;
      let '(_, h) := h2_settings h in
      '(_, h) ← h2_send h;
      '(_, h) ← h2_feed (default [] (partial_data info)) h;
      mret (Some 0, at_conn k (fun info =>
        free_partial_data (set_upgrade (set_conn_state CONN_STATE_H2_SESSION (set_h2 (Some h) info)))) s)
  end.

Definition try_h2 (k : nat) (fd : Z) (s : Server) : M (option Z * Server) :=
  if negb (enable_http2 (settings s)) then mret (None, s)
  else
    info ← conn k s;
    let s := if check_h2_upgrade info then at_conn k set_upgrade s else s in
    if check_h2_upgrade info then upgrade_to_h2 k fd s
    else if check_h2_prior_knowledge info then start_h2 k fd s
    else mret (None, s).

(** ** Streaming an answer *)

Definition sse_head : list Z :=
  lit "HTTP/1.1 200 OK" ++ crlf ++ lit "Content-Type: text/event-stream" ++ crlf ++ lit "Cache-Control: no-cache" ++ crlf
  ++ lit "Connection: keep-alive" ++ crlf ++ lit "Access-Control-Allow-Origin: *" ++ crlf
  ++ lit "Content-Security-Policy: default-src 'none'; script-src 'none'; frame-ancestors 'none'" ++ crlf
  ++ lit "X-Content-Type-Options: nosniff" ++ crlf ++ lit "X-Frame-Options: DENY" ++ crlf
  ++ lit "X-XSS-Protection: 0" ++ crlf ++ lit "Referrer-Policy: no-referrer" ++ crlf ++ crlf.

Definition sse_data (piece : list Z) : list Z := lit "data: " ++ piece ++ crlf ++ crlf.

(** The loop over the answer, 128 bytes at a time, until a send fails. *)
Fixpoint sse_pieces (rounds : nat) (k : nat) (fd : Z) (text : list Z) (s : Server) : M Server :=
  match text, rounds with
  | [], _ | _, O => mret s
  | _, S rounds' =>
      '(failed, s) ← tell k fd (sse_data (take 128 text)) s;
      if failed : bool then mret s else sse_pieces rounds' k fd (drop 128 text) s
  end.

Definition sse_config : StreamConfig := mkStreamConfig 8192 true 30000 false 0.

Definition AI_BUF_SIZE : Z := 1048576.

Definition sse_model (used : list Z) : list Z :=
  take 511 (qlit "data: {'model': '" ++ used ++ qlit "'}" ++ crlf ++ crlf).
Definition sse_error (used : list Z) (latency : Z) : list Z :=
  take 1023 (qlit "data: {'error': 'All models failed', 'last_model': '" ++ used ++ qlit "', 'latency_us': " ++ dec latency
             ++ lit "}" ++ crlf ++ crlf).
Definition sse_done : list Z := lit "data: [DONE]" ++ crlf ++ crlf.

(** What is sent for the answer of the router. *)
Definition sse_answer (v : call_env) (k : nat) (fd : Z) (prompt : list Z) (model_name : option (list Z)) (s : Server)
  : M Server :=
  '(result, ai_buf, actual_model, router') ←
    of_res (prompt_router_route prompt model_name AI_BUF_SIZE 128 (Router.now (renv v)) (Router.calls (renv v))
              (Router.router (app s)));
  let s := set_app (Router.set_router router' (app s)) s in
  let used := match actual_model with [] => default (lit "default") model_name | m => m end in
  if (result =? 0) && negb (bool_decide (ai_buf = [])) then
    '(_, s) ← tell k fd (sse_model used) s;
    sse_pieces (length ai_buf) k fd ai_buf s
  else
    '(_, s) ← tell k fd (sse_error used (latency_us v)) s;
    mret s.

Definition stream_ai_response_worker (v : call_env) (fd : Z) (prompt : list Z) (model_name : option (list Z)) (s : Server)
  : M (Z * Server) :=
  if negb (use_streaming (settings s)) then mret (-1, s)
  else
    let '(found, t) := find_connection_info fd (index_ok v) (table s) in
    let s := set_table t s in
    match found with
    | None => mret (-1, s)
    | Some k =>
        '(r, stream) ← stream_init_ex (Some local_stream) fd (Some sse_config) (stream_ok v) (stream_buffer_ok v);
        if negb (bool_decide (r = STREAM_SUCCESS)) then mret (-1, s)
        else
          '(_, s) ← tell k fd sse_head s;
          '(_, s) ← tell k fd (take 63 (lit "id: " ++ sse_request_id v ++ crlf)) s;
          '(_, s) ← tell k fd (lit "event: message" ++ crlf) s;
          if negb (ai_buf_ok v) then _ ← stream_cleanup stream; mret (-1, s)
          else
            s ← sse_answer v k fd prompt model_name s;
            '(_, s) ← tell k fd sse_done s;
            _ ← stream_cleanup stream;
            mret (0, s)
    end.

(** The prompt of a streaming request: the first of four ways that gives one, and
    the name of the model, if it is not empty.  The last way copies [body_length]
    bytes, although the text of the body may end before. *)
Definition stream_prompt (body : list Z) (body_length : Z) : res (list Z * option (list Z)) :=
  model ← json_get_value (Some body) (Some (lit "model")) 128;
  let model_name := match model with Some (c :: m) => Some (take 127 (c :: m)) | _ => None end in
  match parse_json (Some body) 16384 with
  | Some p => Ok (p, model_name)
  | None =>
      p ← json_get_value (Some body) (Some (lit "messages")) 16384;
      match p with
      | Some p => Ok (p, model_name)
      | None =>
          p ← json_get_value (Some body) (Some (lit "content")) 16384;
          match p with
          | Some p => Ok (p, model_name)
          | None =>
              let cl := if body_length <? 16383 then u64 body_length else 16383 in
              if cl <=? zlen body + 1 then Ok (cstring (take (Z.to_nat cl) (body ++ [0])), model_name)
              else Fault OutOfBounds
          end
      end
  end.

(** ** The checks on a request

    A check lets the request through ([inr]) or ends it ([inl]). *)

Definition verdict : Type := (Z * Server) + Server.

Definition check_blacklist (k : nat) (s : Server) : M verdict :=
  info ← conn k s;
  '(listed, fw) ← of_res (firewall_is_blacklisted (Some (ip_address info)) (firewall s));
  let s := set_firewall fw s in
  if listed : bool then mret (inl (-1, at_conn k (fun c => free_partial_data (flag c)) s)) else mret (inr s).

Definition reason_code (r : BlockReason) : Z :=
  match r with
  | BLOCK_REASON_RATE_LIMIT => 0 | BLOCK_REASON_BRUTE_FORCE => 1 | BLOCK_REASON_ATTACK_PATTERN => 2
  | BLOCK_REASON_SUSPICIOUS => 3
  end.

Definition check_suspicion (v : call_env) (k : nat) (req : Connections.request) (s : Server) : M verdict :=
  if is_suspicious_request req then
    let s := at_conn k flag s in
    if is_suspicious_user_agent (get_header_value (lit "User-Agent") req) then
      info ← conn k s;
      '(_, fw) ← of_res (firewall_add_to_blacklist (Some (ip_address info)) (reason_code BLOCK_REASON_SUSPICIOUS)
                           (Some (lit "Malicious user agent")) (Router.now (renv v)) (blacklist_ok v) (firewall s));
      mret (inl (-1, at_conn k free_partial_data (set_firewall fw s)))
    else mret (inr s)
  else mret (inr s).

Definition check_moderation (k : nat) (fd : Z) (req : Connections.request) (s : Server) : M verdict :=
  match req_body (rq req) with
  | Some body =>
      if body_length (rq req) >? 0 then
        '(code, _, e) ← of_res (moderation_check_prompt regexec (Some body) (moderation s));
        let s := set_moderation e s in
        if code >? 0 then inl <$> refuse k fd policy_violation (at_conn k flag s) else mret (inr s)
      else mret (inr s)
  | None => mret (inr s)
  end.

Definition check_rate (v : call_env) (k : nat) (fd : Z) (s : Server) : M verdict :=
  match ratelimiter s with
  | None => mret (inr s)
  | Some rl =>
      info ← conn k s;
      let '(ok, rl) := ratelimiter_allow (Some rl) (Some (ip_address info)) (mono v) (bucket_ok v) in
      let s := set_ratelimiter rl s in
      if ok then mret (inr s) else inl <$> refuse k fd too_many_requests s
  end.

(** Run a check and go on with what it lets through. *)
Definition checked (m : M verdict) (go : Server -> M (Z * Server)) : M (Z * Server) :=
  r ← m; match r with inl x => mret x | inr s => go s end.

(** ** The answer *)

Definition reset_request_arena (self : Z) (s : Server) : res Server :=
  match arenapool s with
  | None => Ok s
  | Some pool =>
      let i := i32 (u64 self mod count pool) in
      match znth (arenas pool) i with
      | None => Fault OutOfBounds
      | Some a =>
          Ok (set_arenapool (Some (mkArenaPool (pool_self pool) (arenas_self pool) (zset (arenas pool) i (arena_reset a))
                                     (count pool) (arena_size pool))) s)
      end
  end.

Definition keep_alive_of (req : Connections.request) : bool :=
  match get_header_value (lit "Connection") req with
  | Some h => contains h (lit "keep-alive")
  | None => false
  end.

(** The bytes of the response go out in one call, or as a stream. *)
Definition send_answer (k : nat) (fd : Z) (keep_alive : bool) (r : RouteResponse) (v : call_env) (s : Server) : M Server :=
  if negb (keep_alive && (status_code r =? 200)) && is_streaming r then
    _ ← stream_response fd (Some r) (stream_ok v) (stream_buffer_ok v);
    mret s
  else '(_, s) ← tell k fd (default [] (data r)) s; mret s.

Definition count_response (k : nat) (status n : Z) (s : Server) : Server :=
  let x := stats s in
  record_request status false
    (at_conn k (add_sent n)
       (set_stats (mkServerStats (u64 (total_requests x + 1)) (u64 (total_responses x + 1)) (u64 (bytes_sent x + n))
                     (bytes_received x)) s)).

Definition run_hooks (point : PluginHookPoint) (ctx : PluginContext) (s : Server) : M (PluginContext * Server) :=
  '(_, ctx, pm) ← of_res (plugin_process_hooks point ctx (manager s));
  mret (ctx, set_manager pm s).

(** From the router to the connection. *)
Definition respond (v : call_env) (k : nat) (fd : Z) (ctx : PluginContext) (s : Server) : M (Z * Server) :=
  let req := ctx_request ctx in
  let keep_alive := keep_alive_of req in
  s ← of_res (reset_request_arena (self v) s);
  '(code, r, w) ← of_res (route_request crc32_asm (renv v) (init_routes crc32_asm) (middlewares (settings s)) (rq req)
                            (app s));
  let s := set_app w s in
  if negb (code =? 0) then refuse k fd server_error s
  else
    '(ctx, s) ← run_hooks PLUGIN_HOOK_POST_REQUEST
                  (mkPluginContext req (Some r) (ctx_client_fd ctx) (ctx_client_ip ctx)) s;
    let r := default r (ctx_response ctx) in
    s ← send_answer k fd keep_alive r v s;
    let s := count_response k (status_code r) (zlen (default [] (data r))) s in
    mret (if keep_alive then 0 else -1, at_conn k free_partial_data s).

Definition stream_path : list Z := lit "/v1/chat/stream".

Definition wants_stream (req : Connections.request) (s : Server) : bool :=
  use_streaming (settings s) && bool_decide (req_method (rq req) = HTTP_POST)
  && match req_path (rq req) with Some p => streq p stream_path | None => false end.

(** A request that has passed the checks. *)
Definition serve_request (v : call_env) (k : nat) (fd : Z) (ctx : PluginContext) (s : Server) : M (Z * Server) :=
  let req := ctx_request ctx in
  match (if wants_stream req s then req_body (rq req) else None) with
  | Some body =>
      '(prompt, model_name) ← of_res (stream_prompt body (body_length (rq req)));
      '(sr, s) ← stream_ai_response_worker v fd prompt model_name s;
      mret (if sr =? 0 then 0 else -1, record_request 200 (negb (sr =? 0)) (at_conn k free_partial_data s))
  | None => respond v k fd ctx s
  end.

Definition process_request (v : call_env) (k : nat) (fd : Z) (req : Connections.request) (s : Server) : M (Z * Server) :=
  info ← conn k s;
  '(ctx, s) ← run_hooks PLUGIN_HOOK_PRE_REQUEST (mkPluginContext req None fd (ip_address info)) s;
  let req := ctx_request ctx in
  checked (check_blacklist k s) (fun s =>
  checked (check_suspicion v k req s) (fun s =>
  checked (check_moderation k fd req s) (fun s =>
  checked (check_rate v k fd s) (fun s =>
  serve_request v k fd ctx s)))).

(** ** The handler *)

(** The request is in the buffer: its first [zlen text] bytes, and a zero. *)
Definition handle_request_data (v : call_env) (k : nat) (fd : Z) (text : list Z) (s : Server) : M (Z * Server) :=
  let mem := mem_of (base v) text in
  let '(perr, parser) := http_parser_execute mem http_parser_init (base v) (zlen text) in
  let '(perr, parser) :=
    match perr with
    | HP_OK | HP_ERROR_INCOMPLETE => (perr, parser)
    | _ => http_parser_finish parser
    end in
  match perr with
  | HP_OK => process_request v k fd (http_parser_to_request mem parser) s
  | _ =>
      let attacks := ["<script"; "javascript:"; "eval("]%string in
      if existsb (fun a => contains_attack_pattern (Some (cstring (text ++ [0]))) (Some (lit a))) attacks
      then drop_request k (at_conn k flag s)
      else refuse k fd bad_request s
  end.

(** After the handshakes: a connection of HTTP/1. *)
Definition handle_http1 (v : call_env) (k : nat) (fd : Z) (s : Server) : M (Z * Server) :=
  let s := at_conn k count_request s in
  info ← conn k s;
  '(ret, s) ← match tls_conn info with
              | Some c => tls_read_request_data v k c s
              | None => plain_read_request_data v k fd s
              end;
  if ret =? -2 then refuse k fd payload_too_large s
  else if ret =? 1 then mret (0, at_conn k (set_last_activity (Router.now (renv v))) s)
  else
    info ← conn k s;
    match (if ret =? 0 then partial_data info else None) with
    | None => refuse k fd bad_request s
    | Some text =>
        '(h2, s) ← try_h2 k fd s;
        match h2 with
        | Some code => mret (code, s)
        | None => handle_request_data v k fd text s
        end
    end.

(** The handshake of TLS goes on, or starts: [None] if the request goes on. *)
Definition handshake (k : nat) (s : Server) : M (option Z * Server) :=
  info ← conn k s;
  let starting := match conn_state info, tls_conn info with CONN_STATE_NEW, Some _ => true | _, _ => false end in
  if starting || bool_decide (conn_state info = CONN_STATE_TLS_HANDSHAKE) then
    '(ret, s) ← handle_tls_accept k (at_conn k (set_conn_state CONN_STATE_TLS_HANDSHAKE) s);
    info ← conn k s;
    mret (if negb (ret =? 0) then Some ret
          else if decide (conn_state info = CONN_STATE_TLS_HANDSHAKE) then Some 0 else None, s)
  else mret (None, s).

Definition server_handle_request (v : call_env) (fd : Z) (s : Server) : M (Z * Server) :=
  let '(found, t) := find_connection_info fd (index_ok v) (table s) in
  let s := set_table t s in
  match found with
  | None => mret (-1, s)
  | Some k =>
      info ← conn k s;
      if negb (running s) && negb (bool_decide (conn_state info = CONN_STATE_DRAINING))
      then mret (-1, at_conn k (set_conn_state CONN_STATE_DRAINING) s)
      else
        '(ended, s) ← handshake k s;
        match ended with
        | Some code => mret (code, s)
        | None =>
            info ← conn k s;
            match conn_state info with
            | CONN_STATE_H2_SESSION => handle_h2_input k s
            | CONN_STATE_NEW => handle_http1 v k fd (at_conn k (set_conn_state CONN_STATE_ACTIVE) s)
            | _ => handle_http1 v k fd s
            end
        end
  end.
End Server.
