(* ===== verification/Handler.v ===== *)
(** * What the handler of a request guarantees

    Theorems on [server_handle_request] of [Server], against the interfaces of
    TLS and HTTP/2: which descriptors it writes to, and what it answers to a
    client that is refused, sends nothing sensible, or asks for a page. *)

From S2P Require Import Prelude Io Tls Http2 Sessions.
From S2P Require Import Arena RateLimiter Cache HttpParser Firewall JsonText PromptRouter Observability.
From S2P Require Import Moderation Plugin RouteTable Stream Router Connections Server.

(** ** Streams write to their descriptor *)

Definition streams_to (fd : Z) (s : StreamData) : Prop := Stream.client_fd s = fd.
Definition streams_to' (fd : Z) (s : option StreamData) : Prop := forall x, s = Some x -> streams_to fd x.

Lemma streams_to_some fd s : streams_to fd s -> streams_to' fd (Some s).
Proof. by intros Hs x [= <-]. Qed.

Lemma stays_send_loop rounds fd t0 t : forall data, stays fd (send_loop rounds fd data t0 t).
Proof. induction rounds as [|rounds IH]; intros [|c data]; cbn [send_loop]; stays. Qed.
#[export] Hint Resolve stays_send_loop : stays.

Lemma stays_send_with_timeout fd data t : stays fd (send_with_timeout fd data t).
Proof.
  intros i a i'. unfold send_with_timeout. destruct (t =? 0).
  - revert i a i'. change (stays fd (r ← send fd data;
      mret (if bool_decide (r = Sent (zlen data)) then STREAM_SUCCESS else STREAM_ERROR_CLOSED))). stays.
  - intros (start & i1 & E1 & E2)%bind_Done. injection E1 as <- <-. by eapply stays_send_loop in E2.
Qed.
#[export] Hint Resolve stays_send_with_timeout : stays.

Lemma yields_lock fd s : streams_to fd s -> yields fd (streams_to fd) (Stream.lock s).
Proof. intros Hs. apply yields_of_res. intros s' E. destruct (mutex_lock _); [|done]. by injection E as <-. Qed.

Lemma yields_send_part fd bytes t s : streams_to fd s -> yields fd (fun x => streams_to fd x.2) (send_part bytes t s).
Proof.
  intros Hs. apply yields_stays; [rewrite <- Hs; stays|]. intros r. apply yields_ret. by destruct (bool_decide _).
Qed.

Lemma yields_part_if fd (b : bool) bytes t s :
  streams_to fd s -> yields fd (fun x => streams_to fd x.2) (if b then send_part bytes t s else mret (STREAM_SUCCESS, s)).
Proof. intros Hs. destruct b; [by apply yields_send_part|by apply yields_ret]. Qed.

Lemma yields_chunk_ex fd stream data n t :
  streams_to' fd stream -> yields fd (fun x => streams_to' fd x.2) (stream_send_chunk_ex stream data n t).
Proof.
  intros Hs. destruct stream as [s|]; [|by apply yields_ret]. destruct data as [d|]; [|by apply yields_ret]. simpl.
  specialize (Hs s eq_refl). destruct ((n =? 0) || negb (is_active s)); [apply yields_ret; by apply streams_to_some|].
  eapply yields_bind; [by apply yields_lock|]. intros s1 H1. apply yields_stays; [stays|]. intros t0.
  apply yields_stays; [unfold bytes_at; stays|]. intros d'. eapply yields_bind; [by apply yields_part_if|].
  intros [r s2] H2. destruct (negb _); [apply yields_ret; by apply streams_to_some|].
  eapply yields_bind; [by apply yields_send_part|].
  intros [r' s3] H3. destruct (negb _); [apply yields_ret; by apply streams_to_some|].
  eapply yields_bind; [by apply yields_part_if|].
  intros [r'' s4] H4. destruct (negb _); [apply yields_ret; by apply streams_to_some|].
  unfold finish_chunk. repeat (apply yields_stays; [stays|]; intros). apply yields_ret. by apply streams_to_some.
Qed.

Lemma yields_chunk fd stream data n :
  streams_to' fd stream -> yields fd (fun x => streams_to' fd x.2) (stream_send_chunk stream data n).
Proof. intros Hs. destruct stream; [by apply yields_chunk_ex|apply yields_crash]. Qed.

Lemma yields_pieces fd rounds : forall text stream,
  streams_to' fd stream -> yields fd (fun x => streams_to' fd x.2) (send_pieces rounds text stream).
Proof.
  induction rounds as [|rounds IH]; intros [|c text] stream Hs; cbn [send_pieces]; try by apply yields_ret.
  eapply yields_bind; [by apply yields_chunk|]. intros [r s'] Hs'. destruct (negb _); [by apply yields_ret|by apply IH].
Qed.

Lemma stays_end fd stream : streams_to' fd stream -> stays fd (stream_end stream).
Proof.
  intros Hs. destruct stream as [s|]; [|stays]. simpl. specialize (Hs s eq_refl). destruct (negb (is_active s)); [stays|].
  apply (stays_yields fd (fun _ => True)). eapply yields_bind; [by apply yields_lock|]. intros s1 H1. eapply yields_stays.
  { destruct (chunked_encoding s1); [rewrite H1|]; stays. }
  intros r. destruct (negb _); [by apply yields_ret|]. apply yields_stays; [stays|]. intros now. by apply yields_ret.
Qed.

Lemma stays_cleanup fd stream : stays fd (stream_cleanup stream).
Proof. unfold stream_cleanup, Stream.lock. stays. Qed.
#[export] Hint Resolve stays_cleanup : stays.

Lemma yields_init_ex fd stream cfg mutex_ok malloc_ok :
  yields fd (fun x => x.1 = STREAM_SUCCESS -> streams_to' fd x.2) (stream_init_ex stream fd cfg mutex_ok malloc_ok).
Proof.
  unfold stream_init_ex. destruct stream as [s|]; [|by apply yields_ret]. destruct cfg as [cfg|]; [|by apply yields_ret].
  destruct (fd <? 0); [by apply yields_ret|]. destruct (negb mutex_ok); [by apply yields_ret|].
  apply yields_stays; [unfold Stream.lock; stays|]. intros s1. apply yields_stays; [stays|]. intros now. cbv zeta.
  destruct malloc_ok; [|by apply yields_ret]. apply yields_ret. intros _. by apply streams_to_some.
Qed.

Lemma stays_stream_response fd response mutex_ok malloc_ok : stays fd (stream_response fd response mutex_ok malloc_ok).
Proof.
  unfold stream_response, stream_init. destruct response as [r|]; [|stays]. destruct (fd <? 0); [stays|].
  apply (stays_yields fd (fun _ => True)). eapply yields_bind; [apply yields_init_ex|].
  intros [code stream] Hs. simpl in Hs. destruct (bool_decide_reflect (code = STREAM_SUCCESS)) as [->|]; [|by apply yields_ret].
  specialize (Hs eq_refl). simpl. apply yields_stays; [stays|]. intros [n| |].
  2-3: apply yields_stays; [stays|]; intros; by apply yields_ret.
  eapply (yields_bind fd (fun x => streams_to' fd x.2)).
  - destruct (data r) as [text|]; [|by apply yields_ret]. destruct (is_streaming r); [by apply yields_pieces|].
    eapply yields_bind; [by apply yields_chunk|]. intros [r1 s1] H1. by apply yields_ret.
  - intros [ok s1] H1. destruct (negb ok).
    + apply yields_stays; [stays|]. intros. by apply yields_ret.
    + apply yields_stays; [by apply stays_end|]. intros [c s2]. apply yields_stays; [stays|]. intros. by apply yields_ret.
Qed.
#[export] Hint Resolve stays_stream_response : stays.

(** ** The handlers do not count connections *)

Definition same_count (w : Router.world) (m : res handled) : Prop :=
  forall c r w', m = Ok (c, r, w') -> active w' = active w.

Lemma same_count_reply w w0 m : active w0 = active w -> same_count w (reply w0 m).
Proof. intros Hw c r w'. unfold reply. destruct m as [[code r0]|]; [|done]. by intros [= _ _ <-]. Qed.

Lemma same_count_bind {A} w (m : res A) (k : A -> res handled) :
  (forall a, same_count w (k a)) -> same_count w (m ≫= k).
Proof. intros Hk c r w'. destruct m as [a|]; [apply Hk|done]. Qed.

Lemma same_count_ok w code r w0 : active w0 = active w -> same_count w (Ok (code, r, w0)).
Proof. by intros Hw c r' w' [= _ _ <-]. Qed.

Ltac counts :=
  repeat first
    [ progress cbv beta iota zeta
    | apply same_count_reply; reflexivity
    | apply same_count_ok; reflexivity
    | match goal with
      | |- same_count _ (Fault _) => by intros ???
      | |- same_count _ (_ ≫= _) => apply same_count_bind; intros
      | |- same_count _ (match ?x with _ => _ end) => destruct x
      end ].

Lemma same_count_run crc32_asm h e req w r : same_count w (run_handler crc32_asm h e req w r).
Proof.
  destruct h; unfold run_handler.
  - unfold handle_chat_request, answer_from_cache, ask_model. counts.
  - unfold handle_embeddings_request. counts.
  - unfold handle_models_request. counts.
  - unfold handle_stats_request. counts.
  - unfold handle_health_request. counts.
  - unfold handle_metrics_request. counts.
  - unfold handle_providers_request. counts.
  - unfold handle_root_request. counts.
Qed.

Lemma same_count_route crc32_asm e table ms req w : same_count w (route_request crc32_asm e table ms req w).
Proof.
  unfold route_request. destruct (run_middlewares ms req empty_response) as [[code r]|r]; [counts|].
  destruct (req_path req); [|counts]. destruct (_ && _); [counts|].
  destruct (hash_table_find _ _ _ _); [apply same_count_run|].
  apply same_count_bind. intros [route|]; [apply same_count_run|counts].
Qed.

Create HintDb keeps discriminated.
#[export] Hint Constants Opaque : keeps.

Section Ownership.
Context {T H Regex : Type} `{TlsLayer T} `{H2Layer H}.
Context (crc32_asm : list Z -> Z) (regexec : Regex -> list Z -> bool).

Abbreviation Server := (Server (T := T) (H := H) (Regex := Regex)).

(** The sessions of a connection belong to its descriptor. *)
Definition session_ok (c : ConnectionInfo T H) : Prop :=
  (forall t, tls_conn c = Some t -> tls_of (Connections.client_fd c) t)
  /\ (forall h, h2_session c = Some h -> h2_of (Connections.client_fd c) h).

(** [fds]: the descriptors of the connections, [count]: how many are active; they
    stay as they are. *)
Context (fds : list Z) (count : Z).

(** The connection [k] is that of [fd]. *)
Definition serves (k : nat) (fd : Z) (s : Server) : Prop :=
  Forall session_ok (connections (Server.table s)) /\ Connections.client_fd <$> connections (Server.table s) = fds
  /\ fds !! k = Some fd /\ active (app s) = count.

Lemma serves_lookup k fd s :
  serves k fd s -> exists info, connections (Server.table s) !! k = Some info /\ Connections.client_fd info = fd.
Proof.
  intros (_ & Hm & Hk & _). rewrite <- Hm in Hk. apply list_lookup_fmap_Some in Hk as (info & Hfd & Hk). by exists info.
Qed.

(** A change of a connection that leaves its sessions with their descriptor. *)
Definition harmless (fd : Z) (f : ConnectionInfo T H -> ConnectionInfo T H) : Prop :=
  forall c, session_ok c -> Connections.client_fd c = fd -> session_ok (f c) /\ Connections.client_fd (f c) = fd.

Abbreviation keeps k fd m := (yields fd (fun x => serves k fd x.2) m).

(** ** Changes of the state *)

Lemma serves_at k fd f s : serves k fd s -> harmless fd f -> serves k fd (at_conn k f s).
Proof.
  intros Hs Hf. destruct (serves_lookup _ _ _ Hs) as (info & Hk & Hfd). destruct Hs as (Ha & Hm & Hl & Hn).
  pose proof (Forall_lookup_1 _ _ _ _ Ha Hk) as Hi.
  destruct (Hf info Hi Hfd) as [Hi' Hfd']. split_and!; [| |done|done]; simpl.
  - apply Forall_alter; [done|]. intros x Hx _. assert (x = info) as -> by congruence. done.
  - rewrite <- Hm. apply list_eq. intros j. rewrite !list_lookup_fmap.
    destruct (decide (j = k)) as [->|Hne]; [|by rewrite list_lookup_alter_ne by done].
    rewrite list_lookup_alter_eq, Hk. simpl. congruence.
Qed.

Lemma serves_ext k fd s s' :
  Server.table s' = Server.table s -> active (app s') = active (app s) -> serves k fd s -> serves k fd s'.
Proof. unfold serves. by intros -> ->. Qed.

Lemma harmless_plain fd f :
  (forall c, Connections.client_fd (f c) = Connections.client_fd c /\ tls_conn (f c) = tls_conn c /\ h2_session (f c) = h2_session c) ->
  harmless fd f.
Proof. intros Hf c Hc Hfd. destruct (Hf c) as (E1 & E2 & E3). unfold session_ok. rewrite E1, E2, E3. done. Qed.

Lemma harmless_tls fd c : tls_of fd c -> harmless fd (set_tls (Some c)).
Proof. intros Hc x [_ Hh] <-. split; [|done]. split; [|done]. by intros t [= <-]. Qed.

Lemma harmless_h2 fd h : h2_of fd h -> harmless fd (set_h2 (Some h)).
Proof. intros Hh x [Ht _] <-. split; [|done]. split; [done|]. by intros t [= <-]. Qed.

Lemma harmless_comp fd f g : harmless fd f -> harmless fd g -> harmless fd (fun c => f (g c)).
Proof. intros Hf Hg c Hc Hfd. destruct (Hg c Hc Hfd). by apply Hf. Qed.

Lemma harmless_const fd info : session_ok info -> Connections.client_fd info = fd -> harmless fd (fun _ => info).
Proof. by intros ?? c _ _. Qed.

Lemma keeps_ret {A} k fd (a : A) s : serves k fd s -> keeps k fd (mret (a, s)).
Proof. intros. by apply yields_ret. Qed.

Lemma yields_conn k fd (s : Server) :
  serves k fd s -> yields fd (fun info => session_ok info /\ Connections.client_fd info = fd) (conn k s).
Proof.
  intros Hs. destruct (serves_lookup _ _ _ Hs) as (info & Hk & Hfd). unfold conn. rewrite Hk. apply yields_ret.
  split; [|done]. eapply Forall_lookup_1; [apply Hs|done].
Qed.

Lemma yields_bind_conn {B} k fd (Q : B -> Prop) (s : Server) (go : ConnectionInfo T H -> M B) :
  serves k fd s -> (forall info, session_ok info -> Connections.client_fd info = fd -> yields fd Q (go info)) ->
  yields fd Q (info ← conn k s; go info).
Proof. intros Hs Hgo. eapply yields_bind; [by apply yields_conn|]. intros info [??]. by apply Hgo. Qed.

(** [f] takes [info] to another state of the same connection. *)
Lemma harmless_collect fd data now ok info code info' :
  session_ok info -> Connections.client_fd info = fd -> collect data now ok info = (code, info') ->
  harmless fd (fun _ => info').
Proof.
  intros Hi Hfd E. apply harmless_const; revert E; unfold collect; cbv zeta;
    destruct (ensure_capacity _ _ _) as [cap|]; try (intros [= _ <-]; done);
    (destruct (headers_done _); [intros [= _ <-]; done|]);
    (destruct (strstr _ _); [|intros [= _ <-]; done]);
    (destruct (find_content_length _) as [v|]; [|intros [= _ <-]; done]);
    destruct ((v <? 0) || _); intros [= _ <-]; done.
Qed.

Lemma harmless_impl fd chunk now ok info code info' :
  session_ok info -> Connections.client_fd info = fd -> read_request_data_impl chunk now ok info = (code, info') ->
  harmless fd (fun _ => info').
Proof.
  intros Hi Hfd. unfold read_request_data_impl.
  destruct chunk as [[|b chunk]|]; [|by eapply harmless_collect|]; (intros [= _ <-]; by apply harmless_const).
Qed.

(** The changes that leave the sessions alone. *)
Ltac unharmful :=
  first
    [ assumption
    | apply harmless_tls; eassumption | apply harmless_h2; eassumption
    | apply harmless_const; assumption
    | eapply harmless_collect; eassumption
    | eapply harmless_impl; eassumption
    | apply harmless_plain; intros []; repeat split; reflexivity
    | match goal with
      | |- harmless _ (fun c => free_partial_data (@?g c)) => apply (harmless_comp _ free_partial_data g); unharmful
      | |- harmless _ (fun c => set_upgrade (@?g c)) => apply (harmless_comp _ set_upgrade g); unharmful
      | |- harmless _ (fun c => set_conn_state ?st (@?g c)) => apply (harmless_comp _ (set_conn_state st) g); unharmful
      end ].

Ltac served :=
  first
    [ assumption
    | apply serves_at; [served|solve [unharmful]]
    | match goal with |- serves ?k ?fd (_ ?s) => apply (serves_ext k fd s _ eq_refl eq_refl); served end
    | match goal with |- serves _ _ (match ?x with _ => _ end) => destruct x; served end ].

(** Follow a program along its binds, with the lemmas known so far. *)
Ltac walk :=
  repeat first
    [ progress cbv beta iota zeta
    | progress cbn [fst snd]
    | match goal with
      | |- yields _ _ (crash _) => apply yields_crash
      | |- yields _ _ (mret (_, _)) => apply keeps_ret; solve [served]
      | |- yields _ _ (conn _ _ ≫= _) => apply yields_bind_conn; [solve [served]|]; intros ? ? ?
      | |- yields _ _ (of_res _ ≫= _) => apply yields_stays; [apply stays_of_res|]; intros
      | |- yields _ _ (mret _ ≫= _) => apply yields_stays; [apply stays_ret|]; intros
      | |- yields _ _ (_ ≫= _) =>
          first
            [ eapply yields_bind; [solve [eauto with keeps]|]; intros [? ?] ?; cbn [fst snd] in *
            | apply yields_stays; [solve [eauto with stays]|]; intros ]
      | |- yields _ _ (match ?x with _ => _ end) => destruct x eqn:?
      | |- yields _ _ (let '_ := ?x in _) => destruct x eqn:?
      | |- yields _ _ (if ?x then _ else _) => destruct x eqn:?
      end
    | solve [eauto with keeps] ].

#[local] Hint Extern 1 (serves _ _ _) => served : keeps.

Lemma keeps_tell k fd data s : serves k fd s -> keeps k fd (tell k fd data s).
Proof.
  intros Hs. apply yields_bind_conn; [done|]. intros info [Ht _] <-. destruct (tls_conn info) as [c|].
  - eapply yields_bind; [by apply tls_write_of, Ht|]. intros [r c'] Hc. simpl in Hc. walk.
  - apply yields_stays; [apply stays_send|]. intros r. walk.
Qed.
#[local] Hint Resolve keeps_tell : keeps.

Lemma keeps_refuse k fd text s : serves k fd s -> keeps k fd (refuse k fd text s).
Proof. intros Hs. unfold refuse. walk. Qed.
#[local] Hint Resolve keeps_refuse : keeps.

Lemma keeps_handle_tls_accept k fd s : serves k fd s -> keeps k fd (handle_tls_accept k s).
Proof.
  intros Hs. apply yields_bind_conn; [done|]. intros info [Ht _] <-. cbv zeta.
  destruct (match tls_conn info with Some c => Some c | None => _ end) as [c|] eqn:E; [|walk].
  assert (tls_of (Connections.client_fd info) c) as Hc.
  { destruct (tls_conn info); [injection E as <-; by apply Ht|by apply tls_new_of]. }
  eapply yields_bind; [by apply tls_accept_of|]. intros [r c'] Hc'. simpl in Hc'. destruct r; walk.
Qed.
#[local] Hint Resolve keeps_handle_tls_accept : keeps.

Lemma keeps_tls_read v k fd c s : serves k fd s -> tls_of fd c -> keeps k fd (tls_read_request_data v k c s).
Proof.
  intros Hs Hc. eapply yields_bind; [by apply tls_read_of|]. intros [r c'] Hc'. simpl in Hc'.
  destruct r as [[|b data]|[]]; walk.
Qed.
#[local] Hint Resolve keeps_tls_read : keeps.

Lemma keeps_plain_read v k fd s : serves k fd s -> keeps k fd (plain_read_request_data v k fd s).
Proof. intros Hs. unfold plain_read_request_data. walk. Qed.
#[local] Hint Resolve keeps_plain_read : keeps.

Lemma keeps_after_h2 k fd r s : serves k fd s -> keeps k fd (after_h2 k r s).
Proof. intros Hs. unfold after_h2. destruct r; walk. Qed.
#[local] Hint Resolve keeps_after_h2 : keeps.

Lemma keeps_handle_h2_input k fd s : serves k fd s -> keeps k fd (handle_h2_input k s).
Proof.
  intros Hs. apply yields_bind_conn; [done|]. intros info [Ht Hh] Hfd.
  destruct (h2_session info) as [h|]; [|walk]. specialize (Hh h eq_refl). rewrite Hfd in Hh.
  destruct (tls_conn info) as [c|].
  - specialize (Ht c eq_refl). rewrite Hfd in Ht. eapply yields_bind; [by apply tls_read_of|]. intros [r c'] Hc'.
    simpl in Hc'. destruct r as [data|[]]; [|walk..].
    eapply yields_bind; [by apply h2_feed_of|]. intros [r h'] Hh'. simpl in Hh'. walk.
  - eapply yields_bind; [by apply h2_recv_of|]. intros [r h'] Hh'. simpl in Hh'. walk.
Qed.
#[local] Hint Resolve keeps_handle_h2_input : keeps.
Lemma keeps_new k fd (go : option H -> M (option Z * Server)) :
  (forall h, h2_of fd h -> keeps k fd (go (Some h))) -> keeps k fd (go None) ->
  keeps k fd (made ← of_res (h2_new fd); go made).
Proof.
  intros Hsome Hnone. eapply (yields_bind fd (fun made => forall h, made = Some h -> h2_of fd h)).
  - apply yields_of_res. intros made E h ->. by apply h2_new_of.
  - intros [h|] Hh; [by apply Hsome, Hh|done].
Qed.

Lemma keeps_upgrade_to_h2 k fd s : serves k fd s -> keeps k fd (upgrade_to_h2 k fd s).
Proof.
  intros Hs. apply keeps_new; [|walk]. intros h Hh. cbv zeta.
  apply yields_stays; [solve [eauto with stays]|]. intros sent. apply yields_bind_conn; [served|]. intros info Hi Hfd.
  eapply (yields_bind fd (h2_of fd)); [|intros h' Hh'; walk].
  destruct (settings_value _) as [b64val|]; [|by apply yields_ret].
  destruct (b64_decode b64val 128) as [[|b l]|]; [by apply yields_ret| |by apply yields_ret].
  eapply yields_bind; [by apply h2_upgrade_of|]. intros [r h'] Hh'. by apply yields_ret.
Qed.
#[local] Hint Resolve keeps_upgrade_to_h2 : keeps.

Lemma keeps_start_h2 k fd s : serves k fd s -> keeps k fd (start_h2 k fd s).
Proof.
  intros Hs. apply keeps_new; [|walk]. intros h Hh. apply yields_bind_conn; [done|]. intros info Hi Hfd.
  pose proof (h2_settings_of fd h Hh) as Hset. destruct (h2_settings h) as [r0 h0].
  eapply yields_bind; [by apply h2_send_of|]. intros [r1 h1] Hh1. simpl in Hh1.
  eapply yields_bind; [by apply h2_feed_of|]. intros [r2 h2] Hh2. simpl in Hh2. walk.
Qed.
#[local] Hint Resolve keeps_start_h2 : keeps.

Lemma keeps_try_h2 k fd s : serves k fd s -> keeps k fd (try_h2 k fd s).
Proof. intros Hs. unfold try_h2. walk. Qed.
#[local] Hint Resolve keeps_try_h2 : keeps.

Lemma keeps_sse_pieces rounds k fd : forall text s, serves k fd s ->
  yields fd (serves k fd) (sse_pieces rounds k fd text s).
Proof.
  induction rounds as [|rounds IH]; intros [|c text] s Hs; cbn [sse_pieces]; try by apply yields_ret.
  eapply yields_bind; [by apply keeps_tell|]. intros [failed s'] Hs'. destruct failed; [by apply yields_ret|by apply IH].
Qed.

Lemma keeps_sse_answer v k fd prompt model_name s : serves k fd s ->
  yields fd (serves k fd) (sse_answer v k fd prompt model_name s).
Proof.
  intros Hs. unfold sse_answer. apply yields_stays; [apply stays_of_res|]. intros [[[result ai_buf] model] r'].
  cbv zeta. destruct ((result =? 0) && _).
  - eapply yields_bind; [apply keeps_tell; served|]. intros [failed s'] Hs'. by apply keeps_sse_pieces.
  - eapply yields_bind; [apply keeps_tell; served|]. intros [failed s'] Hs'. by apply yields_ret.
Qed.
Lemma find_connection_sound fd ok (t t' : ConnTable T H) k :
  find_connection_info fd ok t = (Some k, t') -> (Connections.client_fd <$> connections t) !! k = Some fd.
Proof.
  unfold find_connection_info. rewrite list_lookup_fmap. destruct (find_in_index _ _ _) as [i|] eqn:E.
  - intros [= <- _]. apply find_in_index_sound in E as (info & -> & <-). done.
  - destruct (find_index _ _) as [i|] eqn:Ei; [|done]. intros [= <- _].
    apply find_index_Some in Ei as (info & -> & Hfd & _). unfold has_fd in Hfd. simpl. f_equal. by apply Z.eqb_eq.
Qed.

Lemma find_connection_same fd ok (t t' : ConnTable T H) k :
  find_connection_info fd ok t = (k, t') -> connections t' = connections t.
Proof. unfold find_connection_info. repeat case_match; by intros [= _ <-]. Qed.

Lemma serves_again k k' fd s : serves k fd s -> fds !! k' = Some fd -> serves k' fd s.
Proof. by intros (? & ? & _ & ?) Hk'. Qed.

Lemma serves_found fd ok (s : Server) k t :
  Forall session_ok (connections (Server.table s)) -> Connections.client_fd <$> connections (Server.table s) = fds ->
  active (app s) = count -> find_connection_info fd ok (Server.table s) = (Some k, t) -> serves k fd (set_table t s).
Proof.
  intros Ha Hm Hn E. unfold serves. simpl. rewrite (find_connection_same _ _ _ _ _ E). split_and!; [done..| |done].
  rewrite <- Hm. by eapply find_connection_sound.
Qed.

Lemma keeps_stream_worker v k fd prompt model_name s :
  serves k fd s -> keeps k fd (stream_ai_response_worker v fd prompt model_name s).
Proof.
  intros Hs. unfold stream_ai_response_worker. destruct (negb _); [walk|].
  destruct (find_connection_info _ _ _) as [[k'|] t] eqn:E; cbv zeta.
  - assert (serves k' fd (set_table t s)) as Hs' by (eapply serves_found; [apply Hs..|exact E]).
    apply yields_mono with (P := fun x => serves k' fd x.2).
    2: { intros x Hx. eapply serves_again; [done|]. apply Hs. }
    eapply yields_bind; [apply yields_init_ex|]. intros [r stream] _. destruct (negb _); [walk|].
    do 3 (eapply yields_bind; [solve [eauto with keeps]|]; intros [? ?] ?; cbn [fst snd] in *).
    destruct (negb (ai_buf_ok v)); [walk|].
    eapply yields_bind; [by apply keeps_sse_answer|]. intros s' Hs1. walk.
  - apply keeps_ret. unfold serves. simpl. rewrite (find_connection_same _ _ _ _ _ E). done.
Qed.
#[local] Hint Resolve keeps_stream_worker : keeps.

(** ** The handler *)

(** A check ends the request or lets it go on. *)
Definition judged (k : nat) (fd : Z) (r : verdict (T := T) (H := H) (Regex := Regex)) : Prop :=
  match r with inl x => serves k fd x.2 | inr s => serves k fd s end.

Lemma keeps_checked k fd m go :
  yields fd (judged k fd) m -> (forall s, serves k fd s -> keeps k fd (go s)) -> keeps k fd (checked m go).
Proof. intros Hm Hgo. eapply yields_bind; [done|]. intros [x|s] Hj; [by apply yields_ret|by apply Hgo]. Qed.

Lemma judged_blacklist k fd s : serves k fd s -> yields fd (judged k fd) (check_blacklist k s).
Proof.
  intros Hs. apply yields_bind_conn; [done|]. intros info Hi Hfd. apply yields_stays; [apply stays_of_res|].
  intros [listed fw]. destruct listed; apply yields_ret; simpl; served.
Qed.

Lemma judged_suspicion v k fd req s : serves k fd s -> yields fd (judged k fd) (check_suspicion v k req s).
Proof.
  intros Hs. unfold check_suspicion. destruct (is_suspicious_request req); [|by apply yields_ret].
  destruct (is_suspicious_user_agent _); [|apply yields_ret; simpl; served].
  apply yields_bind_conn; [served|]. intros info Hi Hfd. apply yields_stays; [apply stays_of_res|].
  intros [code fw]. apply yields_ret; simpl; served.
Qed.

Lemma judged_refuse k fd text s : serves k fd s -> yields fd (judged k fd) (inl <$> refuse k fd text s).
Proof. intros Hs. apply yields_fmap. by apply keeps_refuse. Qed.

Lemma judged_moderation k fd req s : serves k fd s -> yields fd (judged k fd) (check_moderation regexec k fd req s).
Proof.
  intros Hs. unfold check_moderation. destruct (req_body _) as [body|]; [|by apply yields_ret].
  destruct (body_length _ >? 0); [|by apply yields_ret]. apply yields_stays; [apply stays_of_res|].
  intros [[code reason] e]. destruct (code >? 0); [apply judged_refuse; served|apply yields_ret; simpl; served].
Qed.

Lemma judged_rate v k fd s : serves k fd s -> yields fd (judged k fd) (check_rate v k fd s).
Proof.
  intros Hs. unfold check_rate. destruct (ratelimiter s) as [rl|]; [|by apply yields_ret].
  apply yields_bind_conn; [served|]. intros info Hi Hfd. destruct (ratelimiter_allow _ _ _ _) as [ok rl'].
  destruct ok; [apply yields_ret; simpl; served|apply judged_refuse; served].
Qed.
Lemma keeps_run_hooks k fd point ctx s : serves k fd s -> keeps k fd (run_hooks point ctx s).
Proof. intros Hs. apply yields_stays; [apply stays_of_res|]. intros [[code c] pm]. walk. Qed.
#[local] Hint Resolve keeps_run_hooks : keeps.

Lemma keeps_send_answer k fd keep_alive r v s : serves k fd s ->
  yields fd (serves k fd) (send_answer k fd keep_alive r v s).
Proof.
  intros Hs. unfold send_answer. destruct (_ && _).
  - apply yields_stays; [apply stays_stream_response|]. intros code. by apply yields_ret.
  - eapply yields_bind; [by apply keeps_tell|]. intros [failed s1] Hs1. by apply yields_ret.
Qed.

Lemma arena_reset_table self (s s' : Server) :
  reset_request_arena self s = Ok s' -> Server.table s' = Server.table s /\ app s' = app s.
Proof.
  unfold reset_request_arena. destruct (arenapool s) as [pool|]; [|by intros [= <-]].
  destruct (znth _ _); [|done]. by intros [= <-].
Qed.

Lemma keeps_respond v k fd ctx s : serves k fd s -> keeps k fd (respond crc32_asm v k fd ctx s).
Proof.
  intros Hs. unfold respond. eapply (yields_bind fd (serves k fd)).
  { apply yields_of_res. intros s' E. apply arena_reset_table in E as [Et Ew]. eapply serves_ext; [done|by rewrite Ew|done]. }
  intros s1 Hs1. apply (yields_bind fd (fun x => active x.2 = active (app s1))).
  { apply yields_of_res. intros [[code r] w] E. by apply same_count_route in E. }
  intros [[code r] w] Hw. simpl in Hw. cbv zeta.
  assert (serves k fd (set_app w s1)) as Hs1' by (by eapply serves_ext; [..|exact Hs1]).
  destruct (negb (code =? 0)); [by apply keeps_refuse|].
  apply yields_bind with (P := fun x => serves k fd x.2); [by apply keeps_run_hooks|]. intros [ctx' s2] Hs2. cbv zeta.
  eapply yields_bind; [by apply keeps_send_answer|]. intros s3 Hs3. apply keeps_ret.
  apply serves_at; [|solve [unharmful]]. unfold count_response.
  apply (serves_ext k fd (at_conn k (add_sent (zlen (default [] (data (default r (ctx_response ctx')))))) s3));
    [reflexivity|reflexivity|served].
Qed.
#[local] Hint Resolve keeps_respond : keeps.

Lemma keeps_serve v k fd ctx s : serves k fd s -> keeps k fd (serve_request crc32_asm v k fd ctx s).
Proof. intros Hs. unfold serve_request. walk. Qed.

Lemma keeps_process v k fd req s : serves k fd s -> keeps k fd (process_request crc32_asm regexec v k fd req s).
Proof.
  intros Hs. apply yields_bind_conn; [done|]. intros info Hi Hfd.
  eapply yields_bind; [by apply keeps_run_hooks|]. intros [ctx s1] Hs1. cbv zeta.
  apply keeps_checked; [by apply judged_blacklist|]. intros s2 Hs2.
  apply keeps_checked; [by apply judged_suspicion|]. intros s3 Hs3.
  apply keeps_checked; [by apply judged_moderation|]. intros s4 Hs4.
  apply keeps_checked; [by apply judged_rate|]. intros s5 Hs5. by apply keeps_serve.
Qed.
#[local] Hint Resolve keeps_process : keeps.

Lemma keeps_drop k fd s : serves k fd s -> keeps k fd (drop_request k s).
Proof. intros Hs. unfold drop_request. walk. Qed.
#[local] Hint Resolve keeps_drop : keeps.

Lemma keeps_request_data v k fd text s : serves k fd s -> keeps k fd (handle_request_data crc32_asm regexec v k fd text s).
Proof. intros Hs. unfold handle_request_data. walk. Qed.
#[local] Hint Resolve keeps_request_data : keeps.

Lemma keeps_http1 v k fd s : serves k fd s -> keeps k fd (handle_http1 crc32_asm regexec v k fd s).
Proof.
  intros Hs. unfold handle_http1. cbv zeta. apply yields_bind_conn; [served|]. intros info [Ht _] Hfd.
  apply yields_bind with (P := fun x => serves k fd x.2).
  { destruct (tls_conn info) as [c|]; [|apply keeps_plain_read; served]. specialize (Ht c eq_refl). rewrite Hfd in Ht.
    apply keeps_tls_read; [served|done]. }
  intros [ret s1] Hs1. cbn [fst snd] in *. walk.
Qed.
#[local] Hint Resolve keeps_http1 : keeps.

Lemma keeps_handshake k fd s : serves k fd s -> keeps k fd (handshake k s).
Proof. intros Hs. unfold handshake. walk. Qed.
#[local] Hint Resolve keeps_handshake : keeps.

Lemma keeps_handle v fd s :
  Forall session_ok (connections (Server.table s)) -> Connections.client_fd <$> connections (Server.table s) = fds ->
  active (app s) = count ->
  yields fd (fun x => Forall session_ok (connections (Server.table x.2))
                      /\ Connections.client_fd <$> connections (Server.table x.2) = fds
                      /\ active (app x.2) = count)
    (server_handle_request crc32_asm regexec v fd s).
Proof.
  intros Ha Hm Hn. unfold server_handle_request. destruct (find_connection_info _ _ _) as [[k|] t] eqn:E; cbv zeta.
  - assert (serves k fd (set_table t s)) as Hs by (by eapply serves_found).
    apply yields_mono with (P := fun x => serves k fd x.2); [|by intros x (? & ? & _ & ?)]. walk.
  - apply yields_ret. simpl. by rewrite (find_connection_same _ _ _ _ _ E).
Qed.
End Ownership.

(** ** One client's request stays with that client *)

Section Guarantees.
Context {T H Regex : Type} `{TlsLayer T} `{H2Layer H}.
Context (crc32_asm : list Z -> Z) (regexec : Regex -> list Z -> bool).

(** C7: Whatever a client sends and whatever its sockets, TLS and HTTP/2 answer - also
    when the request fails, is refused or streams its answer - the handler writes to
    no other descriptor than the client's, leaves every connection in its place with
    its descriptor, keeps every TLS and HTTP/2 session with the descriptor it was made
    for, and does not change the number of active connections. *)
Theorem writes_to_own_client v fd (s : Server (T := T) (H := H) (Regex := Regex)) i code s' i' :
  Forall session_ok (connections (Server.table s)) ->
  server_handle_request crc32_asm regexec v fd s i = Done (code, s') i' ->
  (forall fd', fd' <> fd -> written fd' i' = written fd' i)
  /\ Forall session_ok (connections (Server.table s'))
  /\ Connections.client_fd <$> connections (Server.table s') = Connections.client_fd <$> connections (Server.table s)
  /\ active (app s') = active (app s).
Proof.
  intros Ha E. destruct (keeps_handle crc32_asm regexec _ _ v fd s Ha eq_refl eq_refl _ _ _ E) as [(? & ? & ?) ?]. done.
Qed.

(** ** A request that arrives in one piece *)

(** The printed request, as the server's handlers see it. *)
Definition seen_request (r : HttpParser.request) (hs : list (list Z)) (ct : option (list Z)) : Connections.request :=
  Connections.mkRequest
    (mkHTTPRequest (rq_method r) (match rq_path r with [] => None | p => Some p end)
       (match rq_body r with [] => None | b => Some b end) (zlen (rq_body r)))
    hs ct.

(** No zero byte, at most 32 headers. *)
Definition sendable (r : HttpParser.request) : Prop :=
  request_ok r /\ Forall (fun c => c <> 0) (print_request r) /\ (length (rq_headers r) <= 32)%nat
  /\ 0 < zlen (print_request r) <= 65536.

Lemma mem_of_stored base s : stored_at (mem_of base s) base s.
Proof.
  unfold stored_at, read, mem_of. apply list_eq. intros j. rewrite list_lookup_fmap.
  destruct (decide (j < length s)%nat) as [Hj|Hj].
  - rewrite lookup_seq_lt by done. simpl. replace (base + Z.of_nat j - base) with (Z.of_nat j) by lia.
    destruct (lookup_lt_is_Some_2 s j Hj) as [x Hx]. unfold znth.
    destruct (Z.ltb_spec (Z.of_nat j) 0); [lia|]. by rewrite Nat2Z.id, Hx.
  - rewrite lookup_seq_ge by lia. simpl. symmetry. apply lookup_ge_None. lia.
Qed.

Lemma copy_slice_read mem start len text :
  0 < start -> len = zlen text -> read mem start (Z.to_nat len) = text -> Forall (fun c => c <> 0) text ->
  copy_slice mem start len = match text with [] => None | _ => Some text end.
Proof.
  intros Hs -> Hr Hz. unfold copy_slice. rewrite Hr. destruct (Z.eqb_spec start 0); [lia|]. simpl.
  destruct text as [|c text]; [done|]. destruct (Z.gtb_spec (zlen (c :: text)) 0); [|unfold zlen in *; simpl in *; lia].
  by rewrite cstring_app.
Qed.

Lemma zlen_print_parts r : sendable r ->
  zlen (rq_body r) <= 65536 /\ Forall (fun c => c <> 0) (rq_path r) /\ Forall (fun c => c <> 0) (rq_body r)
  /\ Forall (fun h => Forall (fun c => c <> 0) (header_text h)) (rq_headers r).
Proof.
  intros (_ & Hz & _ & Hlen). unfold print_request, target in *.
  rewrite !zlen_app in Hlen. rewrite !Forall_app in Hz. destruct Hz as (_ & ((Hp & _) & _) & _ & Hh & _ & Hb).
  split_and!; [|done|done|].
  - assert (zlen [c_SP] = 1) by done. pose proof (zlen_nonneg (rq_path r)). pose proof (zlen_nonneg (method_name (rq_method r))).
    pose proof (zlen_nonneg (header_lines (rq_headers r))).
    pose proof (zlen_nonneg (match rq_query r with Some q => c_QMARK :: q | None => [] end)).
    pose proof (zlen_nonneg (lit "HTTP/")). pose proof (zlen_nonneg HttpParser.crlf).
    pose proof (zlen_nonneg [48 + rq_major r; c_DOT; 48 + rq_minor r]). lia.
  - clear Hlen Hp Hb. unfold header_lines in Hh. induction (rq_headers r) as [|h hs IH]; [done|].
    simpl in Hh. rewrite !Forall_app in Hh. destruct Hh as [[Hh _] Hhs]. constructor; [done|by apply IH].
Qed.

Lemma request_seen r base : sendable r -> 0 < base -> base + zlen (print_request r) < 2 ^ 64 ->
  exists p ct, http_parser_execute (mem_of base (print_request r)) http_parser_init base (zlen (print_request r)) = (HP_OK, p)
    /\ http_parser_to_request (mem_of base (print_request r)) p
       = seen_request r (map header_text (rq_headers r)) ct.
Proof.
  intros Hr Hb Hmax. destruct (zlen_print_parts r Hr) as (Hbody & Hzp & Hzb & Hzh). pose proof Hr as (Hok & _ & H32 & _).
  set (mem := mem_of base (print_request r)).
  destruct (print_parsed mem r base Hok Hb Hmax (mem_of_stored _ _))
    as (p & E & _ & Hm & Hp & _ & _ & _ & Hc & Hhs & Hbo & Hlp & Hsp & Hlb & Hsb).
  exists p, (copy_slice mem (content_type_start p) (content_type_len p)). split; [done|].
  unfold http_parser_to_request, seen_request. f_equal.
  - rewrite (copy_slice_read mem _ _ (rq_path r)) by (done || lia).
    rewrite (copy_slice_read mem _ _ (rq_body r)) by (done || lia). rewrite Hm, Hlb. rewrite i32_small by (pose proof (zlen_nonneg (rq_body r)); change INT_MAX with 2147483647; lia).
    by destruct (rq_body r), (rq_path r).
  - rewrite Hc. replace (Z.to_nat (Z.min 32 (zlen (rq_headers r)))) with (length (rq_headers r)) by (unfold zlen; lia).
    match goal with |- map ?f ?l = map ?g ?m => change (f <$> l = g <$> m) end.
    apply list_eq. intros j. rewrite !list_lookup_fmap.
    destruct (decide (j < length (rq_headers r))%nat) as [Hj|Hj].
    + rewrite lookup_seq_lt by done. destruct (lookup_lt_is_Some_2 (rq_headers r) j Hj) as [h Hh]. rewrite Hh. simpl.
      destruct (Hhs j h Hh) as (a & -> & -> & Hst). simpl. f_equal. rewrite (stored_read _ _ _ _ Hst eq_refl).
      apply cstring_app. by apply (Forall_lookup_1 _ _ _ _ Hzh Hh).
    + rewrite lookup_seq_ge by lia. rewrite lookup_ge_None_2 by lia. done.
Qed.
(** ** The first bytes of a client *)

Abbreviation Server := (Server (T := T) (H := H) (Regex := Regex)).

(** The plain connection [k] of [fd] has received nothing yet. *)
Definition new_client (v : call_env) (k : nat) (fd : Z) (info : ConnectionInfo T H) (s : Server) : Prop :=
  (exists t, find_connection_info fd (index_ok v) (Server.table s) = (Some k, t))
  /\ connections (Server.table s) !! k = Some info
  /\ Server.running s = true /\ enable_http2 (settings s) = false /\ realloc_ok v = true
  /\ (conn_state info = CONN_STATE_NEW \/ conn_state info = CONN_STATE_ACTIVE)
  /\ tls_conn info = None /\ partial_data info = None /\ partial_capacity info = 0
  /\ Connections.content_length info = 0 /\ headers_done info = false.

(** The text is all that its content length announces. *)
Definition arrived (text : list Z) : Prop :=
  Forall (fun c => c <> 0) text /\ 0 < zlen text <= 65536
  /\ match find_content_length text with
     | Some n => 0 <= n <= global_max_request_size /\ body_missing text (zlen text) n = false
     | None => True
     end.

(** After reading: the text is in the connection, all the rest of the server is as
    it was, except for statistics on bytes. *)
Definition holding (k : nat) (ip text : list Z) (s s' : Server) : Prop :=
  settings s' = settings s /\ ratelimiter s' = ratelimiter s /\ arenapool s' = arenapool s
  /\ firewall s' = firewall s /\ Server.moderation s' = Server.moderation s /\ manager s' = manager s /\ app s' = app s
  /\ total_requests (Server.stats s') = total_requests (Server.stats s)
  /\ total_responses (Server.stats s') = total_responses (Server.stats s)
  /\ Server.bytes_sent (Server.stats s') = Server.bytes_sent (Server.stats s)
  /\ exists info, connections (Server.table s') !! k = Some info /\ ip_address info = ip /\ tls_conn info = None
               /\ partial_data info = Some text.

Lemma conn_at k info (s : Server) : connections (Server.table s) !! k = Some info -> conn k s = mret info.
Proof. unfold conn. by intros ->. Qed.

Lemma at_conn_lookup k f info (s : Server) :
  connections (Server.table s) !! k = Some info -> connections (Server.table (at_conn k f s)) !! k = Some (f info).
Proof. intros Hk. simpl. by rewrite list_lookup_alter_eq, Hk. Qed.

Lemma body_missing_none text size : body_missing text size 0 = false.
Proof. unfold body_missing. by destruct (strstr _ _). Qed.

Lemma collect_arrived text now (info : ConnectionInfo T H) :
  arrived text -> partial_data info = None -> partial_capacity info = 0 -> Connections.content_length info = 0 ->
  headers_done info = false ->
  exists info', collect text now true info = (0, info') /\ partial_data info' = Some text
    /\ ip_address info' = ip_address info /\ tls_conn info' = tls_conn info.
Proof.
  intros (Hz & Hlen & Hcl) Hp Hcap Hc0 Hd. unfold collect, partial_size. cbn [partial_capacity partial_data received].
  rewrite Hp, Hcap. cbn [default from_option id]. change (zlen (@nil Z)) with 0. rewrite app_nil_l.
  destruct (ensure_capacity_ok 0 (0 + zlen text + 1)) as (cap & -> & _ & _); [by left|lia|].
  cbn [set_partial headers_done Connections.content_length received]. rewrite Hd, Hc0.
  rewrite cstring_app by done. destruct (strstr text header_end_mark); [|by eexists].
  destruct (find_content_length text) as [len|].
  - destruct Hcl as [Hn Hm]. destruct (Z.ltb_spec len 0); [lia|].
    destruct (Z.gtb_spec len global_max_request_size); [lia|]. cbn [orb]. rewrite Hm. by eexists.
  - rewrite body_missing_none. by eexists.
Qed.

Lemma take_BUF {A} (l : list A) : zlen l <= 65536 -> take BUF l = l /\ drop BUF l = [].
Proof. unfold zlen. intros Hl. rewrite BUF_eq. rewrite take_ge, drop_ge by lia. done. Qed.

Lemma plain_read v k fd info text rest (s : Server) i :
  connections (Server.table s) !! k = Some info -> realloc_ok v = true -> tls_conn info = None ->
  arrived text -> partial_data info = None -> partial_capacity info = 0 -> Connections.content_length info = 0 ->
  headers_done info = false -> recvs i = Gets text :: rest ->
  exists s', plain_read_request_data v k fd s i = Done (0, s') (set_recvs rest i)
    /\ holding k (ip_address info) text s s'.
Proof.
  intros Hk Hrl Ht Ha Hp Hcap Hc0 Hd Hi. destruct (take_BUF text) as [Htk Hdr]; [apply Ha|].
  destruct (collect_arrived text (Router.now (renv v)) info Ha Hp Hcap Hc0 Hd) as (info' & E & Hp' & Hip & Ht').
  exists (at_conn k (fun _ => info') (add_received (zlen text) s)). split.
  - unfold plain_read_request_data. erewrite bind_step.
    2: { unfold recv. rewrite Hi, Htk, Hdr. reflexivity. }
    cbv zeta. rewrite (conn_at _ _ _ Hk). erewrite bind_step by reflexivity. cbn [default from_option id].
    unfold read_request_data_impl. destruct text as [|c text]; [destruct Ha as (_ & [Hl _] & _); by cbn in Hl|].
    rewrite Hrl, E. done.
  - split_and!; try done. exists info'. split_and!; [|done|congruence|done].
    by rewrite (at_conn_lookup k _ info).
Qed.

(** The first bytes are handed to the parser. *)
Lemma first_bytes v k fd info text rest (s : Server) i :
  new_client v k fd info s -> arrived text -> recvs i = Gets text :: rest ->
  exists s', server_handle_request crc32_asm regexec v fd s i
             = handle_request_data crc32_asm regexec v k fd text s' (set_recvs rest i)
    /\ holding k (ip_address info) text s s'.
Proof.
  intros ((t & Hf) & Hk & Hrun & Hh2 & Hrl & Hst & Ht & Hp & Hcap & Hc0 & Hd) Ha Hi.
  set (s0 := set_table t s). assert (connections (Server.table s0) !! k = Some info) as Hk0.
  { simpl. by rewrite (find_connection_same _ _ _ _ _ Hf). }
  set (s1 := match conn_state info with CONN_STATE_NEW => at_conn k (set_conn_state CONN_STATE_ACTIVE) s0 | _ => s0 end).
  set (s2 := at_conn k count_request s1).
  assert (exists info2, connections (Server.table s2) !! k = Some info2 /\ ip_address info2 = ip_address info
    /\ tls_conn info2 = None /\ partial_data info2 = None /\ partial_capacity info2 = 0
    /\ Connections.content_length info2 = 0 /\ headers_done info2 = false) as (info2 & Hk2 & Hip & Ht2 & Hp2 & Hcap2 & Hc2 & Hd2).
  { unfold s2, s1. destruct Hst as [-> | ->].
    - exists (count_request (set_conn_state CONN_STATE_ACTIVE info)). split; [|done].
      apply at_conn_lookup. by apply at_conn_lookup.
    - exists (count_request info). split; [|done]. by apply at_conn_lookup. }
  destruct (plain_read v k fd info2 text rest s2 i) as (s3 & E & Hh); try done. exists s3. split; [|].
  2: { rewrite <- Hip. clear -Hh Hst. revert Hh. unfold s2, s1, holding. by destruct Hst as [-> | ->]. }
  unfold server_handle_request. rewrite Hf. fold s0. cbv zeta. rewrite (conn_at _ _ _ Hk0).
  erewrite bind_step by reflexivity. change (Server.running s0) with (Server.running s). rewrite Hrun. cbn [negb andb].
  assert (handshake k s0 i = Done (None, s0) i) as Hhs.
  { unfold handshake. rewrite (conn_at _ _ _ Hk0). erewrite bind_step by reflexivity. rewrite Ht.
    by destruct Hst as [-> | ->]. }
  rewrite (bind_step _ _ _ _ _ Hhs). cbv beta iota. rewrite (conn_at _ _ _ Hk0). erewrite bind_step by reflexivity.
  assert (handle_http1 crc32_asm regexec v k fd s1 i
          = handle_request_data crc32_asm regexec v k fd text s3 (set_recvs rest i)) as Hgo.
  { unfold handle_http1. fold s2. cbv zeta. rewrite (conn_at _ _ _ Hk2). erewrite bind_step by reflexivity. rewrite Ht2.
    rewrite (bind_step _ _ _ _ _ E). cbv beta iota. destruct Hh as (Hset & _ & _ & _ & _ & _ & _ & _ & _ & _ & info3 & Hk3 & _ & _ & Hp3).
    change (0 =? -2) with false. change (0 =? 1) with false. cbv iota.
    rewrite (conn_at _ _ _ Hk3). erewrite bind_step by reflexivity. change (0 =? 0) with true. cbv iota. rewrite Hp3.
    unfold try_h2. rewrite Hset. replace (enable_http2 (settings s2)) with false
      by (unfold s2, s1; by destruct Hst as [-> | ->]).
    erewrite bind_step by reflexivity. done. }
  clear -Hgo Hst. revert Hgo. unfold s1. by destruct Hst as [-> | ->].
Qed.
(** ** The checks *)

(** No plugin changes a request; the client is not on the list, does not look
    suspicious, is within its rate; the text passes the moderation. *)
Definition welcome (v : call_env) (ip : list Z) (req : Connections.request) (s : Server) : Prop :=
  (forall point ctx, exists code, plugin_process_hooks point ctx (manager s) = Ok (code, ctx, manager s))
  /\ (exists fw, firewall_is_blacklisted (Some ip) (firewall s) = Ok (false, fw))
  /\ is_suspicious_request req = false
  /\ match req_body (rq req) with
     | Some text => exists d e, moderation_check_prompt regexec (Some text) (Server.moderation s) = Ok (0, d, e)
     | None => True
     end
  /\ match ratelimiter s with
     | Some rl => (ratelimiter_allow (Some rl) (Some ip) (mono v) (bucket_ok v)).1 = true
     | None => True
     end
  /\ match arenapool s with
     | Some pool => is_Some (znth (arenas pool) (i32 (u64 (self v) mod count pool)))
     | None => True
     end.

Lemma welcome_holding v k ip text req s s' : welcome v ip req s -> holding k ip text s s' -> welcome v ip req s'.
Proof. unfold welcome. intros Hw (_ & -> & -> & -> & -> & -> & _). done. Qed.

(** What is left after the checks. *)
Definition cleared (s s' : Server) : Prop :=
  settings s' = settings s /\ arenapool s' = arenapool s /\ manager s' = manager s /\ app s' = app s
  /\ Server.stats s' = Server.stats s /\ Server.table s' = Server.table s.

Lemma cleared_trans s1 s2 s3 : cleared s1 s2 -> cleared s2 s3 -> cleared s1 s3.
Proof. unfold cleared. intros (? & ? & ? & ? & ? & ?) (? & ? & ? & ? & ? & ?). split_and!; congruence. Qed.

Lemma checked_pass m go (s' : Server) i : m i = Done (inr s') i -> checked m go i = go s' i.
Proof. unfold checked. intros Hm. by rewrite (bind_step _ _ _ _ _ Hm). Qed.

Lemma run_hooks_idle point ctx (s : Server) i :
  (forall point ctx, exists code, plugin_process_hooks point ctx (manager s) = Ok (code, ctx, manager s)) ->
  run_hooks point ctx s i = Done (ctx, set_manager (manager s) s) i.
Proof. intros Hp. destruct (Hp point ctx) as (code & E). unfold run_hooks. erewrite bind_step; [|unfold of_res; by rewrite E]. done. Qed.

Lemma checks_pass v k fd info req (s : Server) i :
  connections (Server.table s) !! k = Some info -> welcome v (ip_address info) req s ->
  exists s', process_request crc32_asm regexec v k fd req s i
             = serve_request crc32_asm v k fd (mkPluginContext req None fd (ip_address info)) s' i
    /\ cleared s s'.
Proof.
  intros Hk (Hplug & (fw & Hbl) & Hsus & Hmod & Hrate & _).
  set (s1 := set_firewall fw (set_manager (manager s) s)).
  assert (exists s2, check_moderation regexec k fd req s1 i = Done (inr s2) i /\ cleared s1 s2
    /\ ratelimiter s2 = ratelimiter s) as (s2 & E2 & H2 & Hr2).
  { unfold check_moderation. destruct (req_body (rq req)) as [text|]; [|by exists s1].
    destruct (body_length (rq req) >? 0); [|by exists s1]. destruct Hmod as (d & e & Hmod).
    exists (set_moderation e s1). split; [|done]. change (Server.moderation s1) with (Server.moderation s).
    erewrite bind_step; [|unfold of_res; by rewrite Hmod]. done. }
  assert (connections (Server.table s2) !! k = Some info) as Hk2.
  { destruct H2 as (_ & _ & _ & _ & _ & Ht). by rewrite Ht. }
  assert (exists s3, check_rate v k fd s2 i = Done (inr s3) i /\ cleared s2 s3) as (s3 & E3 & H3).
  { unfold check_rate. rewrite Hr2. destruct (ratelimiter s) as [rl|]; [|by exists s2].
    rewrite (conn_at _ _ _ Hk2). erewrite bind_step by reflexivity.
    destruct (ratelimiter_allow _ _ _ _) as [ok rl']. simpl in Hrate. subst ok. by eexists. }
  exists s3. split.
  - unfold process_request. rewrite (conn_at _ _ _ Hk). erewrite bind_step by reflexivity.
    rewrite (bind_step _ _ _ _ _ (run_hooks_idle _ _ s i Hplug)).
    cbv beta iota zeta. cbn [ctx_request]. rewrite (checked_pass _ _ s1).
    2: { unfold check_blacklist. rewrite (conn_at k info) by done. erewrite bind_step by reflexivity.
         change (firewall (set_manager _ s)) with (firewall s). erewrite bind_step; [|unfold of_res; by rewrite Hbl]. done. }
    rewrite (checked_pass _ _ s1); [|unfold check_suspicion; by rewrite Hsus].
    by rewrite (checked_pass _ _ s2), (checked_pass _ _ s3).
  - apply (cleared_trans _ s1); [done|]. by apply (cleared_trans _ s2).
Qed.

(** ** A word without a space *)

Lemma word_seen base c w :
  0 < base -> c <> c_SP -> c <> c_CR -> c <> c_LF -> Forall (fun c => c <> c_SP) w ->
  exists p, http_parser_execute (mem_of base (c :: w)) http_parser_init base (zlen (c :: w)) = (HP_OK, p)
    /\ http_parser_to_request (mem_of base (c :: w)) p
       = Connections.mkRequest (mkHTTPRequest HTTP_GET None None 0) [] None.
Proof.
  intros Hb Hc1 Hc2 Hc3 Hw. pose proof (mem_of_stored base (c :: w)) as Hst. set (mem := mem_of base (c :: w)) in *.
  apply stored_at_cons in Hst as [Hc Hst].
  set (p1 := set_state HP_METHOD (set_path_start base (adv 1 (started base http_parser_init)))).
  exists (adv (zlen w) p1). split.
  2: { assert (forall a, copy_slice mem a 0 = None) as Hnone by (intros; unfold copy_slice; by rewrite andb_false_r).
       unfold http_parser_to_request. change (path_len _) with 0. change (body_len _) with 0.
       change (content_type_len _) with 0. by rewrite !Hnone. }
  rewrite execute_eq by (done || lia). unfold zlen at 1. rewrite Nat2Z.id. cbn [length].
  erewrite (run_step _ _ _ _ p1).
  - rewrite (run_skip _ (fun c => c <> c_SP)); [done| |done|done]. intros b q Hq Hne.
    unfold step. cbn [state set_raw_len]. rewrite Hq. cbn [state p1 set_state]. by rewrite (proj2 (Z.eqb_neq _ _) Hne).
  - unfold step. cbn [state set_raw_len started]. rewrite Hc. by rewrite !(proj2 (Z.eqb_neq _ _)) by done.
Qed.
Lemma reset_pass v (s s' : Server) :
  match arenapool s with
  | Some pool => is_Some (znth (arenas pool) (i32 (u64 (self v) mod count pool)))
  | None => True
  end -> cleared s s' ->
  exists s'', reset_request_arena (self v) s' = Ok s'' /\ Server.table s'' = Server.table s' /\ app s'' = app s'
    /\ settings s'' = settings s' /\ manager s'' = manager s' /\ Server.stats s'' = Server.stats s'.
Proof.
  intros Ha (_ & Hpool & _). unfold reset_request_arena. rewrite Hpool. destruct (arenapool s) as [pool|]; [|by eexists].
  destruct Ha as [a ->]. by eexists.
Qed.

(** The first bytes of a client, if they hold no space (one letter is enough), are
    taken for a request without a path, and the server crashes: the router
    compares its path with "/" through a null pointer. *)
Theorem word_without_space_crashes v k fd info c w rest (s : Server) i :
  new_client v k fd info s -> recvs i = Gets (c :: w) :: rest -> arrived (c :: w) ->
  c <> c_SP -> c <> c_CR -> c <> c_LF -> Forall (fun c => c <> c_SP) w -> 0 < base v ->
  welcome v (ip_address info) (Connections.mkRequest (mkHTTPRequest HTTP_GET None None 0) [] None) s ->
  middlewares (settings s) = [] ->
  server_handle_request crc32_asm regexec v fd s i = Crashed NullDeref.
Proof.
  intros Hnew Hi Ha Hc1 Hc2 Hc3 Hw Hb Hwel Hmid.
  destruct (first_bytes v k fd info (c :: w) rest s i Hnew Ha Hi) as (s1 & -> & Hh).
  destruct (word_seen (base v) c w Hb Hc1 Hc2 Hc3 Hw) as (p & E & Hreq).
  unfold handle_request_data. rewrite E, Hreq. cbv beta iota zeta.
  assert (welcome v (ip_address info) (Connections.mkRequest (mkHTTPRequest HTTP_GET None None 0) [] None) s1) as Hwel1
    by (by eapply welcome_holding).
  destruct Hh as (Hset & _ & _ & _ & _ & _ & _ & _ & _ & _ & info1 & Hk1 & Hip & _).
  rewrite <- Hip in Hwel1. destruct (checks_pass v k fd info1 _ s1 (set_recvs rest i) Hk1 Hwel1) as (s2 & -> & H2).
  destruct (reset_pass v s1 s2) as (s3 & E3 & _ & _ & Hset3 & _); [apply Hwel1|done|].
  unfold serve_request, wants_stream. cbn [ctx_request rq req_method req_path]. rewrite andb_false_r. cbv iota.
  unfold respond. cbn [ctx_request]. cbv zeta. erewrite bind_step; [|unfold of_res; by rewrite E3].
  apply bind_crashed. unfold of_res. destruct H2 as (Hset2 & _). rewrite Hset3, Hset2, Hset, Hmid. done.
Qed.
(** ** A request of one piece is answered *)

Lemma suspicious_type q hs ct : body_length q <= 1000000 ->
  is_suspicious_request (Connections.mkRequest q hs ct) = is_suspicious_request (Connections.mkRequest q hs None).
Proof.
  intros Hb. unfold is_suspicious_request. cbn [rq Connections.headers content_type].
  destruct (Z.gtb_spec (body_length q) 1000000); [lia|]. cbn [andb]. by destruct ct, (req_body q).
Qed.

Lemma welcome_type v ip q hs ct s : body_length q <= 1000000 ->
  welcome v ip (Connections.mkRequest q hs None) s -> welcome v ip (Connections.mkRequest q hs ct) s.
Proof.
  intros Hb (?&?& Hs &?&?&?). unfold welcome. rewrite suspicious_type by done. done.
Qed.

(** What a socket takes of the data that one call of [send] offers it. *)
Definition taken (a : Io.send_answer) (bytes : list Z) : list Z := match a with Accepts n => take n bytes | _ => [] end.

Lemma send_answer_plain k fd keep_alive info resp bytes a rest v (s : Server) i :
  connections (Server.table s) !! k = Some info -> tls_conn info = None ->
  is_streaming resp = false -> data resp = Some bytes -> sends i = a :: rest ->
  returns (send_answer k fd keep_alive resp v s) i (fun s' i' => s' = s /\ written fd i' = written fd i ++ taken a bytes).
Proof.
  intros Hk Ht Hstr Hdata Hi. unfold send_answer. rewrite Hstr, andb_false_r, Hdata. cbn [default from_option id].
  unfold tell. apply returns_bind. rewrite (conn_at _ _ _ Hk). eapply returns_step; [reflexivity|]. rewrite Ht.
  apply returns_bind. unfold send, returns. rewrite Hi.
  destruct a; eexists _, _; (split; [reflexivity|]); eexists _, _; (split; [reflexivity|]); apply returns_ret;
    (split; [done|]); [by rewrite written_put|by rewrite app_nil_r..].
Qed.

(** The router's answer [bytes] goes out in one call. *)
Lemma respond_sends v k fd ip info req resp w bytes a rest (s : Server) i :
  connections (Server.table s) !! k = Some info -> tls_conn info = None ->
  (forall point ctx, exists code, plugin_process_hooks point ctx (manager s) = Ok (code, ctx, manager s)) ->
  (exists s', reset_request_arena (self v) s = Ok s' /\ Server.table s' = Server.table s /\ app s' = app s
    /\ settings s' = settings s /\ manager s' = manager s /\ Server.stats s' = Server.stats s) ->
  route_request crc32_asm (renv v) (init_routes crc32_asm) (middlewares (settings s)) (rq req) (app s) = Ok (0, resp, w) ->
  is_streaming resp = false -> data resp = Some bytes -> sends i = a :: rest ->
  returns (respond crc32_asm v k fd (mkPluginContext req None fd ip) s) i (fun x i' =>
    x.1 = (if keep_alive_of req then 0 else -1) /\ written fd i' = written fd i ++ taken a bytes
    /\ total_requests (Server.stats x.2) = u64 (total_requests (Server.stats s) + 1)
    /\ total_responses (Server.stats x.2) = u64 (total_responses (Server.stats s) + 1)
    /\ Server.bytes_sent (Server.stats x.2) = u64 (Server.bytes_sent (Server.stats s) + zlen bytes)
    /\ exists info', connections (Server.table x.2) !! k = Some info' /\ partial_data info' = None).
Proof.
  intros Hk Ht Hplug (s1 & Er & Htab & Happ & Hset & Hman & Hstats) Hroute Hstr Hdata Hi.
  unfold respond. cbn [ctx_request]. cbv zeta. eapply returns_step; [unfold of_res; by rewrite Er|].
  eapply returns_step. { unfold of_res. rewrite Hset, Happ, Hroute. reflexivity. } cbv beta iota zeta.
  change (negb (0 =? 0)) with false. cbv iota. cbn [ctx_client_fd ctx_client_ip].
  eapply returns_step. { apply run_hooks_idle. cbn [manager set_app]. rewrite Hman. apply Hplug. }
  cbv beta iota zeta. cbn [ctx_response default from_option id]. set (s2 := set_manager _ _).
  assert (connections (Server.table s2) !! k = Some info) as Hk2 by (cbn; by rewrite Htab).
  apply returns_bind. eapply returns_mono; [by eapply (send_answer_plain k fd)|]. intros s3 i1 [-> Hw].
  apply returns_ret. cbn [fst snd]. rewrite Hdata. cbn [default from_option id].
  split_and!; [done| |cbn; congruence..|].
  - exact Hw.
  - eexists. split; [|]. { apply at_conn_lookup. cbn. rewrite list_lookup_alter_eq, Htab, Hk. reflexivity. } done.
Qed.
(** C1: The answer to a request on a plain connection.  Conditions: the server runs; the connection holds nothing yet and is
    without TLS, and HTTP/2 is off; the whole printed request, of the kind that [HttpParser] reads back, of at most 65536 bytes,
    none of them zero, with at most 32 headers, and not announcing more of a body than there is, arrives in one
    piece and its buffer can be allocated; the thread has its arena; no plugin changes it; and the blacklist, the
    test for suspicious requests, the moderation and the rate limiter let it pass; the router answers
    with a response that is not streamed.  Then [send] is called once with exactly
    the bytes that the router makes for the method, path and body that were printed,
    whatever the query string, the version and the headers: the client gets what this one
    call takes of them - all of them when it takes all, and only a beginning or nothing
    otherwise, for its result is not looked at.  The result tells whether the connection
    is kept alive, the request and the answer are counted in full in either case, and nothing of the
    request is left in the connection. *)
Theorem request_answered v k fd info r resp w bytes a rest more (s : Server) i :
  let seen := seen_request r (map header_text (rq_headers r)) None in
  new_client v k fd info s -> sendable r -> arrived (print_request r) ->
  0 < base v -> base v + zlen (print_request r) < 2 ^ 64 ->
  welcome v (ip_address info) seen s -> wants_stream seen s = false ->
  route_request crc32_asm (renv v) (init_routes crc32_asm) (middlewares (settings s)) (rq seen) (app s) = Ok (0, resp, w) ->
  is_streaming resp = false -> data resp = Some bytes ->
  recvs i = Gets (print_request r) :: more -> sends i = a :: rest ->
  returns (server_handle_request crc32_asm regexec v fd s) i (fun x i' =>
    x.1 = (if keep_alive_of seen then 0 else -1) /\ written fd i' = written fd i ++ taken a bytes
    /\ total_requests (Server.stats x.2) = u64 (total_requests (Server.stats s) + 1)
    /\ total_responses (Server.stats x.2) = u64 (total_responses (Server.stats s) + 1)
    /\ Server.bytes_sent (Server.stats x.2) = u64 (Server.bytes_sent (Server.stats s) + zlen bytes)
    /\ exists info', connections (Server.table x.2) !! k = Some info' /\ partial_data info' = None).
Proof.
  intros seen Hnew Hr Harr Hb Hmax Hwel Hstream Hroute Hstr Hdata Hi Hs.
  destruct (first_bytes v k fd info _ more s i Hnew Harr Hi) as (s1 & E1 & Hh).
  destruct (request_seen r (base v) Hr Hb Hmax) as (p & ct & E & Hreq).
  assert (welcome v (ip_address info) (seen_request r (map header_text (rq_headers r)) ct) s1) as Hwel1.
  { eapply welcome_holding; [|done]. apply welcome_type; [|done]. apply zlen_print_parts in Hr. cbn. lia. }
  destruct Hh as (Hset & _ & _ & _ & _ & _ & Happ & Hq & Hp & Hbs & info1 & Hk1 & Hip & Ht1 & _).
  rewrite <- Hip in Hwel1.
  destruct (checks_pass v k fd info1 _ s1 (set_recvs more i) Hk1 Hwel1) as (s2 & E2 & H2).
  assert (exists s', reset_request_arena (self v) s2 = Ok s' /\ Server.table s' = Server.table s2 /\ app s' = app s2
    /\ settings s' = settings s2 /\ manager s' = manager s2 /\ Server.stats s' = Server.stats s2) as Hreset
    by (eapply reset_pass; [apply Hwel1|done]).
  destruct H2 as (Hset2 & _ & Hman2 & Happ2 & Hstats2 & Htab2).
  assert (server_handle_request crc32_asm regexec v fd s i
    = respond crc32_asm v k fd (mkPluginContext (seen_request r (map header_text (rq_headers r)) ct) None fd (ip_address info1))
        s2 (set_recvs more i)) as Heq.
  { rewrite E1. unfold handle_request_data. rewrite E, Hreq. cbv beta iota zeta. rewrite E2. unfold serve_request.
    cbn [ctx_request]. change (wants_stream (seen_request _ _ ct) s2) with (wants_stream seen s2).
    unfold wants_stream in *. by rewrite Hset2, Hset, Hstream. }
  unfold returns. rewrite Heq. rewrite <- Hset, <- Hset2, <- Happ, <- Happ2 in Hroute. rewrite <- Htab2 in Hk1.
  rewrite <- Hq, <- Hp, <- Hbs, <- Hstats2.
  destruct (respond_sends v k fd (ip_address info1) info1 (seen_request r (map header_text (rq_headers r)) ct)
    resp w bytes a rest s2 (set_recvs more i)) as (x & i' & Hx & HQ); try done.
  - intros point ctx'. rewrite Hman2. apply Hwel1.
  - exists x, i'. split; [exact Hx|exact HQ].
Qed.
(** A client on the blacklist gets no answer to a request, not even an error: the
    request ends with -1, the connection is marked as suspicious, holds nothing of
    the request, and neither limiter, moderation nor router have seen it. *)
Theorem blacklisted_gets_nothing v k fd info r fw more (s : Server) i :
  new_client v k fd info s -> sendable r -> arrived (print_request r) ->
  0 < base v -> base v + zlen (print_request r) < 2 ^ 64 ->
  (forall point ctx, exists code, plugin_process_hooks point ctx (manager s) = Ok (code, ctx, manager s)) ->
  firewall_is_blacklisted (Some (ip_address info)) (firewall s) = Ok (true, fw) ->
  recvs i = Gets (print_request r) :: more ->
  exists s', server_handle_request crc32_asm regexec v fd s i = Done (-1, s') (set_recvs more i)
    /\ ratelimiter s' = ratelimiter s /\ Server.moderation s' = Server.moderation s /\ app s' = app s
    /\ total_requests (Server.stats s') = total_requests (Server.stats s)
    /\ exists info', connections (Server.table s') !! k = Some info' /\ partial_data info' = None
                    /\ flagged_suspicious info' = true.
Proof.
  intros Hnew Hr Harr Hb Hmax Hplug Hbl Hi.
  destruct (first_bytes v k fd info _ more s i Hnew Harr Hi) as (s1 & -> & Hh).
  destruct (request_seen r (base v) Hr Hb Hmax) as (p & ct & E & Hreq).
  destruct Hh as (_ & Hrl & _ & Hfw & Hmod & Hman & Happ & Hq & _ & _ & info1 & Hk1 & Hip & _).
  unfold handle_request_data. rewrite E, Hreq. cbv beta iota zeta. unfold process_request.
  rewrite (conn_at _ _ _ Hk1). erewrite bind_step by reflexivity.
  erewrite bind_step; [|apply run_hooks_idle; rewrite Hman; apply Hplug]. cbv beta iota zeta. set (s2 := set_manager _ s1).
  exists (at_conn k (fun c => free_partial_data (flag c)) (set_firewall fw s2)). split_and!; try done.
  - assert (check_blacklist k s2 (set_recvs more i)
      = Done (inl (-1, at_conn k (fun c => free_partial_data (flag c)) (set_firewall fw s2))) (set_recvs more i)) as Hchk.
    { unfold check_blacklist. rewrite (conn_at k info1) by done. erewrite bind_step by reflexivity.
      erewrite bind_step; [|unfold of_res; change (firewall s2) with (firewall s1); by rewrite Hip, Hfw, Hbl]. done. }
    unfold checked. by rewrite (bind_step _ _ _ _ _ Hchk).
  - eexists. split; [by apply at_conn_lookup|]. done.
Qed.
End Guarantees.

(** ** Witnesses: a server with one client *)

Definition plain_client : ConnectionInfo (TLSConn (SSL := unit)) (H2Session (S := list Z)) :=
  new_connection 7 (lit "10.0.0.1") 0 100 (lit "a").

Definition demo_table : ConnTable (TLSConn (SSL := unit)) (H2Session (S := list Z)) :=
  mkConnTable [plain_client] 16 (fun _ => []).

#[local] Instance demo_tls : TlsLayer (TLSConn (SSL := unit)) := tls_openssl (Some (Some tt)) true true.
#[local] Instance demo_h2_layer : H2Layer (H2Session (S := list Z)) := h2_nghttp2 true true.

Definition demo_settings : ServerSettings := mkServerSettings 4 [5] true 30 false 0 false [] 30 3 (-1).

Definition demo_moderation : ModerationEngine (Regex := list Z) :=
  mkModerationEngine (PLive []) 0 0 Unlocked true.

Definition demo_plugins : PluginManager (Ctx := PluginContext) := mkPluginManager (PLive []) 8 Unlocked None [].

Definition demo_running (fw : Firewall.Firewall) : Server :=
  mkServer true demo_settings (mkServerStats 0 0 0 0) None None demo_table fw demo_moderation demo_plugins Router.demo_server.

Definition demo_call : call_env :=
  mkCallEnv Router.demo_env 0 4096 1 true true true true true true true 0 (lit "1").

Definition health_request : HttpParser.request :=
  HttpParser.mkRequest HTTP_GET (lit "/health") (Some (lit "verbose")) 1 1 [(lit "Host", lit "a.example")] [].

Definition demo_io (text : list Z) : io := mkIo [Accepts 4096] [Gets text] (fun _ => 0) 0 ∅ [] [] false.

Definition health_bytes : list Z :=
  Eval vm_compute in
    match route_request Router.demo_hash Router.demo_env (init_routes Router.demo_hash) [] (get "/health") Router.demo_server with
    | Ok (_, r, _) => default [] (data r)
    | Fault _ => []
    end.

Lemma demo_new fw : new_client demo_call 0 7 plain_client (demo_running fw).
Proof. split_and!; try done; [by eexists|by left]. Qed.

Lemma health_sendable : sendable health_request.
Proof.
  split_and!; try done; try (simpl; lia); try (vm_compute; repeat constructor; discriminate).
  split_and!; try done; try (simpl; lia).
  - repeat constructor; done.
  - intros q [= <-]. repeat constructor; done.
  - repeat constructor; simpl; done.
Qed.

Lemma plain_text_arrived text : Forall (fun c => c <> 0) text -> 0 < zlen text <= 65536 ->
  find_content_length text = None -> arrived text.
Proof. intros Hz Hl Hc. unfold arrived. by rewrite Hc. Qed.

Lemma request_answered_witness :
  exists s' i', server_handle_request Router.demo_hash streq demo_call 7 (demo_running demo_firewall)
                  (demo_io (print_request health_request)) = Done (-1, s') i'
    /\ written 7 i' = health_bytes.
Proof.
  destruct (request_answered Router.demo_hash streq demo_call 0 7 plain_client health_request
    (mkRouteResponse 200 (Some OK_text) (Some health_bytes) false) Router.demo_server health_bytes (Accepts 4096) [] []
    (demo_running demo_firewall) (demo_io (print_request health_request))) as ([code s'] & i' & E & Hc & Hw & _).
  - apply demo_new.
  - apply health_sendable.
  - apply plain_text_arrived; [apply health_sendable|vm_compute; split; [done|discriminate]|vm_compute; reflexivity].
  - reflexivity.
  - vm_compute. reflexivity.
  - split_and!; try done; [intros point ctx; by exists 0|by eexists].
  - reflexivity.
  - vm_compute. reflexivity.
  - reflexivity.
  - reflexivity.
  - reflexivity.
  - reflexivity.
  - exists s', i'. simpl in Hc. subst code. split; [exact E|]. rewrite Hw. vm_compute. reflexivity.
Defined.

Definition is_done {A} (o : outcome A) : bool := match o with Done _ _ => true | _ => false end.

(** The other connection, of descriptor 8, gets nothing. *)
Lemma writes_to_own_client_witness :
  exists code s' i', server_handle_request Router.demo_hash streq demo_call 7 (demo_running demo_firewall)
                       (demo_io (print_request health_request)) = Done (code, s') i'
    /\ written 8 i' = [].
Proof.
  assert (is_done (server_handle_request Router.demo_hash streq demo_call 7 (demo_running demo_firewall)
                     (demo_io (print_request health_request))) = true) as Hd by (vm_compute; reflexivity).
  destruct (server_handle_request Router.demo_hash streq demo_call 7 (demo_running demo_firewall)
              (demo_io (print_request health_request))) as [[code s'] i'| |] eqn:E; [|discriminate|discriminate].
  exists code, s', i'. split; [reflexivity|].
  destruct (writes_to_own_client Router.demo_hash streq demo_call 7 (demo_running demo_firewall)
              (demo_io (print_request health_request)) code s' i') as (Hw & _).
  - constructor; [|constructor]. split; intros x Hx; discriminate.
  - exact E.
  - rewrite (Hw 8); [reflexivity|discriminate].
Defined.

Lemma word_without_space_crashes_witness :
  server_handle_request Router.demo_hash streq demo_call 7 (demo_running demo_firewall) (demo_io (lit "GE"))
  = Crashed NullDeref.
Proof.
  apply (word_without_space_crashes Router.demo_hash streq demo_call 0 7 plain_client 71 [69] []);
    [apply demo_new|reflexivity| |discriminate|discriminate|discriminate| |reflexivity| |reflexivity].
  - apply plain_text_arrived; [repeat constructor; discriminate|vm_compute; split; [reflexivity|discriminate]|reflexivity].
  - repeat constructor; discriminate.
  - split_and!; try done; [intros point ctx; by exists 0|by eexists].
Defined.

Lemma blacklisted_gets_nothing_witness :
  exists s' i', server_handle_request Router.demo_hash streq demo_call 7 (demo_running demo_denied)
                  (demo_io (print_request health_request)) = Done (-1, s') i' /\ written 7 i' = [].
Proof.
  destruct (blacklisted_gets_nothing Router.demo_hash streq demo_call 0 7 plain_client health_request demo_denied []
    (demo_running demo_denied) (demo_io (print_request health_request))) as (s' & E & _).
  - apply demo_new.
  - apply health_sendable.
  - apply plain_text_arrived; [apply health_sendable|vm_compute; split; [done|discriminate]|vm_compute; reflexivity].
  - reflexivity.
  - vm_compute. reflexivity.
  - intros point ctx. by exists 0.
  - vm_compute. reflexivity.
  - reflexivity.
  - exists s', (set_recvs [] (demo_io (print_request health_request))). split; [exact E|reflexivity].
Defined.
