(* ===== verification/Lifecycle.v ===== *)
(** * Connections from their accept to their end: src/server.c

    The callbacks of the event loop, one event of a worker, the reaper of idle
    connections, the drain and the stop.  Each is one thread's code between two
    points where the others run; the states they reach in any order are those of a
    step relation.  The workers are started in [Boot], the epolls they wait on are
    arguments here, and the sleeps only pass time.  A [pthread_join] is asked of a handle
    that was written or not, and returns when its thread ends or never does. *)

From S2P Require Import Prelude Io Tls Http2 Sessions.
From S2P Require Import Arena RateLimiter Cache HttpParser Firewall JsonText PromptRouter Observability Moderation.
From S2P Require Import Plugin RouteTable Stream Router Connections Server Handler.

Section Lifecycle.
Context {T H Regex : Type} `{TlsLayer T} `{H2Layer H}.
Context (crc32_asm : list Z -> Z) (regexec : Regex -> list Z -> bool).

Abbreviation Server := (Server (T := T) (H := H) (Regex := Regex)).

(** ** Accept and close *)

(** What the outside answers to [on_accept]: the address of the peer, the port
    [getsockname] gives, the clock, an identifier, and the allocator. *)
Record accept_env := mkAcceptEnv {
  client_ip : list Z;
  local_port : option Z;
  accept_time : Z;
  new_id : list Z;
  grow_ok : bool;
  node_ok : bool
}.

(** The second part of the result is the epoll the descriptor is added to. *)
Definition on_accept (a : accept_env) (fd : Z) (s : Server) : res (Server * option Z) :=
  if thread_count (settings s) =? 0 then Fault DivideByZero
  else
    let thread_id := Z.rem (active (app s)) (thread_count (settings s)) in
    let '(made, t) := add_connection_info fd (client_ip a) thread_id (accept_time a) (new_id a) (grow_ok a) (node_ok a)
                        (Server.table s) in
    let s := set_table t s in
    let s :=
      match made with
      | None => s
      | Some k =>
          let s := set_active (active (app s) + 1) s in
          if enable_tls (settings s) && bool_decide (local_port a = Some (tls_port (settings s))) then
            match tls_new fd with
            | Some c => at_conn k (fun info => set_conn_state CONN_STATE_TLS_HANDSHAKE (set_tls (Some c) info)) s
            | None => s
            end
          else s
      end in
    let epoll :=
      match znth (epoll_fds (settings s)) thread_id with
      | Some e => if (thread_id <? thread_count (settings s)) && (e >=? 0) then Some e else None
      | None => None
      end in
    Ok (s, epoll).

Definition on_read (v : call_env) (fd : Z) (s : Server) : M (Z * Server) := server_handle_request crc32_asm regexec v fd s.

Definition on_close (fd : Z) (node_ok : bool) (s : Server) : Server :=
  set_active (active (app s) - 1) (set_table (remove_connection_info fd node_ok (Server.table s)) s).

(** ** A worker *)

(** What epoll reports of a descriptor: an error or the peer's end, input. *)
Record event := mkEvent { ev_fd : Z; hang_up : bool; readable : bool }.

(** The result of the handler is not looked at. *)
Definition worker_event (v : call_env) (e : event) (s : Server) : M Server :=
  if hang_up e then
    let '(found, t) := find_connection_info (ev_fd e) (index_ok v) (Server.table s) in
    let s := set_table t s in
    let s := match found with Some k => at_conn k (set_conn_state CONN_STATE_CLOSED) s | None => s end in
    _ ← close (ev_fd e);
    mret (on_close (ev_fd e) (index_ok v) s)
  else if readable e then '(_, s) ← server_handle_request crc32_asm regexec v (ev_fd e) s; mret s
  else mret s.

Fixpoint worker_events (v : nat -> call_env) (n : nat) (l : list event) (s : Server) : M Server :=
  match l with
  | [] => mret s
  | e :: l' => s ← worker_event (v n) e s; worker_events v (S n) l' s
  end.

(** What [epoll_wait] answers. *)
Inductive epoll_answer := Ready (l : list event) | Wait_interrupted | Wait_failed.

(** One round of a worker, and what the other threads do until the next. *)
Record worker_round := mkWorkerRound { answer : epoll_answer; envs : nat -> call_env; meanwhile : Server -> Server }.

(** From the loop of [worker_thread_func] to its end. *)
Fixpoint worker_loop (epoll_fd : Z) (l : list worker_round) (s : Server) : M Server :=
  if Server.running s then
    match l with
    | [] => fun _ => Waiting
    | r :: l' =>
        match answer r with
        | Ready evs => s ← worker_events (envs r) 0 evs s; worker_loop epoll_fd l' (meanwhile r s)
        | Wait_interrupted => worker_loop epoll_fd l' (meanwhile r s)
        | Wait_failed => _ ← close epoll_fd; mret s
        end
    end
  else _ ← close epoll_fd; mret s.

(** ** The reaper *)

Definition idle (timeout now : Z) (info : ConnectionInfo T H) : bool :=
  let longer n := (last_activity info >? 0) && (now - last_activity info >? n) in
  match conn_state info with
  | CONN_STATE_DRAINING => longer 5
  | CONN_STATE_ACTIVE => longer timeout
  | _ => false
  end.

Definition shut_down (info : ConnectionInfo T H) : M unit :=
  match tls_conn info with
  | Some c => _ ← tls_close c; mret tt
  | None => close (Connections.client_fd info)
  end.

(** The last connection takes the place of the one that is removed; the index and
    the buffers of the connection are left as they are. *)
Definition drop_conn (k : nat) (s : Server) : Server :=
  let t := Server.table s in
  set_table (mkConnTable (swap_remove k (connections t)) (connection_capacity t) (global_conn_hash t)) s.

(** The loop from the last connection to the first: [n] counts those that are
    still to be looked at.  A place is looked at again after a removal; when it
    was the last one it is past the end, and its connection is [CLOSED]. *)
Fixpoint reap (fuel : nat) (timeout now : Z) (n : nat) (s : Server) : M Server :=
  match fuel, n with
  | O, _ | _, O => mret s
  | S fuel', S i =>
      match connections (Server.table s) !! i with
      | Some info =>
          if idle timeout now info then
            _ ← shut_down info;
            reap fuel' timeout now n (set_active (active (app s) - 1) (drop_conn i s))
          else reap fuel' timeout now i s
      | None => reap fuel' timeout now i s
      end
  end.

(** One pass: a round for every place and one for every removal. *)
Definition reaper_pass (now : Z) (s : Server) : M Server :=
  let timeout := if keepalive_timeout (settings s) >? 0 then keepalive_timeout (settings s) else 30 in
  let n := length (connections (Server.table s)) in
  reap (2 * n) timeout now n s.

(** ** Sending, draining, stopping *)

Definition server_send_response (v : call_env) (fd : Z) (response : list Z) (s : Server) : M (Z * Server) :=
  let '(found, t) := find_connection_info fd (index_ok v) (Server.table s) in
  let s := set_table t s in
  match found with
  | None => mret (-1, s)
  | Some k =>
      let sent n s :=
        let x := Server.stats s in
        let s := set_stats (mkServerStats (total_requests x) (total_responses x) (u64 (Server.bytes_sent x + n))
                              (Server.bytes_received x)) s in
        (0, at_conn k (fun info => set_last_activity (Router.now (renv v)) (add_sent n info)) s) in
      info ← conn k s;
      match tls_conn info with
      | Some c =>
          '(r, c) ← tls_write c response;
          let s := at_conn k (set_tls (Some c)) s in
          mret match r with inl _ => sent (zlen response) s | inr _ => (-1, s) end
      | None =>
          r ← send fd response;
          mret match r with Sent n => sent n s | _ => (-1, s) end
      end
  end.

Definition drained (info : ConnectionInfo T H) : ConnectionInfo T H :=
  match conn_state info with
  | CONN_STATE_ACTIVE | CONN_STATE_TLS_HANDSHAKE | CONN_STATE_H2_SESSION => set_conn_state CONN_STATE_DRAINING info
  | _ => info
  end.

Definition busy (info : ConnectionInfo T H) : bool :=
  match conn_state info with
  | CONN_STATE_ACTIVE | CONN_STATE_TLS_HANDSHAKE | CONN_STATE_H2_SESSION => true
  | _ => false
  end.

Definition mark_draining (s : Server) : Server :=
  let t := Server.table s in
  set_table (mkConnTable (map drained (connections t)) (connection_capacity t) (global_conn_hash t)) s.

(** [others n] is what the other threads do in the [n]-th sleep.  The second part
    of the result is the time that was waited, in milliseconds. *)
Fixpoint drain_loop (fuel : nat) (others : nat -> Server -> Server) (timeout_ms waited : Z) (n : nat) (s : Server)
  : Server * Z :=
  match fuel with
  | O => (s, waited)
  | S fuel' =>
      if waited <? timeout_ms then
        let active := countb busy (connections (Server.table s)) in
        let s := mark_draining s in
        if active =? 0 then (s, waited)
        else drain_loop fuel' others timeout_ms (i32 (waited + 100)) (S n) (others n s)
      else (s, waited)
  end.

(** One round for every 100 milliseconds, and the last test. *)
Definition server_drain_connections (others : nat -> Server -> Server) (timeout_ms : Z) (s : Server) : Server * Z :=
  drain_loop (S (Z.to_nat (timeout_ms / 100 + 1))) others timeout_ms 0 0 s.

Fixpoint close_all (l : list Z) : M unit :=
  match l with
  | [] => mret tt
  | fd :: l' => if fd >=? 0 then _ ← close fd; close_all l' else close_all l'
  end.

Fixpoint close_conns (l : list (ConnectionInfo T H)) : M unit :=
  match l with
  | [] => mret tt
  | info :: l' =>
      _ ← match tls_conn info with
          | Some c => _ ← tls_close c; mret tt
          | None => close_all [Connections.client_fd info]
          end;
      close_conns l'
  end.

(** [created]: [pthread_create] succeeded and wrote the handle.  [ended] is [None] when the
    thread never ends, otherwise what the other threads do until it has. *)
Definition pthread_join (created : bool) (ended : option (Server -> Server)) (s : Server) : M Server :=
  if negb created then crash Uninitialised
  else match ended with Some f => mret (f s) | None => fun _ => Waiting end.

(** The loop over the workers, of which [n] are left: the epoll of each is closed, and then
    the worker is joined.  [threads] is the block of the handles, [joins] what the joins are
    answered, of which the first is that of the reaper.  (A block of epolls that [malloc] did
    not give is an empty one here.) *)
Fixpoint join_workers (n k : nat) (threads : option (list bool)) (joins : nat -> option (Server -> Server)) (s : Server) : M Server :=
  match n with
  | O => mret s
  | S n' =>
      match epoll_fds (settings s) !! k with
      | None => crash OutOfBounds
      | Some epoll =>
          _ ← close_all [epoll];
          match threads with
          | None => crash NullDeref
          | Some l =>
              match l !! k with
              | None => crash OutOfBounds
              | Some created => s ← pthread_join created (joins (S k)) s; join_workers n' (S k) threads joins s
              end
          end
      end
  end.

(** The index is not emptied. *)
Definition server_stop (others : nat -> Server -> Server) (joins : nat -> option (Server -> Server)) (reaper : bool)
    (threads : option (list bool)) (s : Server) : M (Z * Server) :=
  let s := set_running false s in
  let '(s, _) := server_drain_connections others (i32 (shutdown_timeout (settings s) * 1000)) s in
  s ← pthread_join reaper (joins 0%nat) s;
  s ← join_workers (Z.to_nat (thread_count (settings s))) 0 threads joins s;
  _ ← close_conns (connections (Server.table s));
  let s := set_table (mkConnTable [] 0 (global_conn_hash (Server.table s))) s in
  _ ← close_all [server_fd (settings s); tls_server_fd (settings s)];
  mret (0, s).

Definition server_get_active_connections (s : Server) : Z := active (app s).
Definition server_connection_count (s : Server) : Z := zlen (connections (Server.table s)).
Definition server_get_socket (s : Server) : Z := server_fd (settings s).
End Lifecycle.

Section Facts.
Context {T H Regex : Type} `{TlsLayer T} `{H2Layer H}.
Context (crc32_asm : list Z -> Z) (regexec : Regex -> list Z -> bool).

Abbreviation Server := (Server (T := T) (H := H) (Regex := Regex)).
Abbreviation Info := (ConnectionInfo T H).

(** ** Lemmas: the reaper *)

Fixpoint shut_all (l : list Info) : M unit :=
  match l with [] => mret tt | info :: l' => _ ← shut_down info; shut_all l' end.

Definition with_conns (l : list Info) (n : Z) (s : Server) : Server :=
  let t := Server.table s in set_active n (set_table (mkConnTable l (connection_capacity t) (global_conn_hash t)) s).

Lemma swap_remove_last {A} (l : list A) x : swap_remove (length l) (l ++ [x]) = l.
Proof. unfold swap_remove. rewrite last_snoc, list_insert_id, removelast_last; [done|]. by rewrite lookup_app_r, Nat.sub_diag. Qed.

Lemma swap_remove_mid {A} (l l' : list A) x y : swap_remove (length l) (l ++ x :: l' ++ [y]) = l ++ y :: l'.
Proof.
  unfold swap_remove. change (l ++ x :: l' ++ [y]) with (l ++ (x :: l') ++ [y]). rewrite (app_assoc l), last_snoc.
  rewrite insert_app_l by (rewrite length_app; simpl; lia). rewrite removelast_last.
  rewrite <- (Nat.add_0_r (length l)). by rewrite insert_app_r.
Qed.

Lemma with_conns_id s : - 2 ^ 31 <= active (app s) <= INT_MAX ->
  with_conns (connections (Server.table s)) (active (app s)) s = s.
Proof. intros Ha. unfold with_conns, set_active. cbn. rewrite i32_small by done. by destruct s as [????? [] ??? []]. Qed.

(** Removing an idle connection, then [gone1]. *)
Lemma shut_then x gone1 kept (s : Server) k timeout now fuel n :
  - 2 ^ 31 < active (app s) <= INT_MAX ->
  (forall i, reap fuel timeout now n (set_active (active (app s) - 1) (drop_conn k s)) i
     = (_ ← shut_all gone1;
        mret (with_conns kept (active (app (set_active (active (app s) - 1) (drop_conn k s))) - zlen gone1)
                (set_active (active (app s) - 1) (drop_conn k s)))) i) ->
  forall i, (_ ← shut_down x; reap fuel timeout now n (set_active (active (app s) - 1) (drop_conn k s))) i
     = (_ ← shut_all (x :: gone1); mret (with_conns kept (active (app s) - zlen (x :: gone1)) s)) i.
Proof.
  intros Ha E i. cbn [shut_all]. unfold mbind, M_bind in *. destruct (shut_down x i) as [[] i1| |]; [|done|done].
  rewrite E. set (s1 := set_active _ _). assert (active (app s1) - zlen gone1 = active (app s) - zlen (x :: gone1)) as ->.
  { change (active (app s1)) with (i32 (active (app s) - 1)). rewrite i32_small, zlen_cons by lia. lia. }
  by destruct (shut_all gone1 i1).
Qed.

(** Fuel for every place and every removal: the idle connections are shut down, in
    some order, and the others stay. *)
Lemma reap_spec timeout now fuel : forall pre post (s : Server),
  connections (Server.table s) = pre ++ post -> Forall (fun c => idle timeout now c = false) post ->
  (length pre + length (filter (fun c => idle timeout now c = true) pre) <= fuel)%nat ->
  - 2 ^ 31 + zlen (filter (fun c => idle timeout now c = true) pre) <= active (app s) <= INT_MAX ->
  exists gone kept,
    gone ≡ₚ filter (fun c => idle timeout now c = true) pre
    /\ kept ≡ₚ filter (fun c => idle timeout now c = false) pre ++ post
    /\ forall i, reap fuel timeout now (length pre) s i
               = (_ ← shut_all gone; mret (with_conns kept (active (app s) - zlen gone) s)) i.
Proof.
  induction fuel as [fuel IH] using lt_wf_ind. intros pre post s Hc Hpost Hf Ha.
  destruct pre as [|x pre _] using rev_ind.
  { exists [], post. split_and!; [done|done|]. intros i. simpl in Hc. subst post.
    destruct fuel; cbn [reap shut_all length]; rewrite Z.sub_0_r, with_conns_id; done || (unfold zlen in Ha; simpl in Ha; lia). }
  unfold zlen in Ha. rewrite !filter_app, !length_app in *.
  cbn [length] in *. rewrite Nat.add_1_r in *. destruct fuel as [|fuel]; [lia|]. cbn [reap].
  assert (connections (Server.table s) !! length pre = Some x) as Hx.
  { rewrite Hc, <- app_assoc, lookup_app_r, Nat.sub_diag by done. done. }
  rewrite Hx. destruct (idle timeout now x) eqn:Ei.
  - rewrite filter_cons_True in Hf by done. rewrite filter_cons_True by done. rewrite (filter_cons_False _ x []) by congruence.
    rewrite (filter_cons_True _ x []) in Ha by done. rewrite !filter_nil in *. rewrite app_nil_r. cbn [length] in Hf, Ha.
    set (s1 := set_active (active (app s) - 1) (drop_conn (length pre) s)).
    assert (active (app s1) = active (app s) - 1) as Ha1 by (cbn; apply i32_small; lia).
    destruct post as [|y post _] using rev_ind.
    + rewrite app_nil_r in Hc. destruct fuel as [|fuel]; [lia|].
      assert (connections (Server.table s1) = pre ++ []) as Hc1 by (cbn; by rewrite Hc, swap_remove_last, app_nil_r).
      destruct (IH fuel ltac:(lia) pre [] s1 Hc1) as (gone & kept & Hg & Hk & E); [done|lia|unfold zlen; lia|].
      exists (x :: gone), kept. split_and!; [rewrite Hg; apply Permutation_cons_append|done|].
      apply shut_then; [lia|]. intros i. fold s1. rewrite <- E. cbn [reap].
      rewrite Hc1, lookup_ge_None_2 by (rewrite app_nil_r; lia). done.
    + apply Forall_app in Hpost as [Hpost Hy]. apply Forall_cons_1 in Hy as [Hy _].
      assert (connections (Server.table s1) = (pre ++ [y]) ++ post) as Hc1.
      { change (connections (Server.table s1)) with (swap_remove (length pre) (connections (Server.table s))).
        rewrite Hc, <- (app_assoc pre). change ([x] ++ post ++ [y]) with (x :: post ++ [y]).
        by rewrite swap_remove_mid, <- app_assoc. }
      destruct (IH fuel ltac:(lia) (pre ++ [y]) post s1 Hc1 Hpost) as (gone & kept & Hg & Hk & E).
      { rewrite filter_app, (filter_cons_False _ y []) by congruence. rewrite filter_nil, app_nil_r, length_app. cbn [length]. lia. }
      { rewrite filter_app, (filter_cons_False _ y []) by congruence. rewrite filter_nil, app_nil_r. unfold zlen. lia. }
      rewrite filter_app, (filter_cons_False _ y []), filter_nil, app_nil_r in Hg by congruence.
      rewrite filter_app, (filter_cons_True _ y []), filter_nil in Hk by done.
      exists (x :: gone), kept. split_and!; [rewrite Hg; apply Permutation_cons_append| |].
      { rewrite Hk, <- app_assoc. apply Permutation_app_head, Permutation_cons_append. }
      apply shut_then; [lia|]. intros i. rewrite <- E, length_app. cbn [length]. by rewrite Nat.add_1_r.
  - rewrite (filter_cons_False _ x []) in * by congruence. rewrite filter_cons_True by done.
    rewrite !filter_nil in *. rewrite app_nil_r in *. cbn [length] in *.
    destruct (IH fuel ltac:(lia) pre (x :: post) s) as (gone & kept & Hg & Hk & E); [by rewrite Hc, <- app_assoc|by constructor|lia|unfold zlen; lia|].
    exists gone, kept. split_and!; [done|by rewrite <- app_assoc|done].
Qed.
Definition timeout_of (s : Server) : Z := if keepalive_timeout (settings s) >? 0 then keepalive_timeout (settings s) else 30.

Abbreviation fds s := (Connections.client_fd <$> connections (Server.table s)).

Lemma reaper_pass_spec now (s : Server) :
  let gone_of := filter (fun c => idle (timeout_of s) now c = true) (connections (Server.table s)) in
  - 2 ^ 31 + zlen gone_of <= active (app s) <= INT_MAX ->
  exists gone kept,
    gone ≡ₚ gone_of
    /\ kept ≡ₚ filter (fun c => idle (timeout_of s) now c = false) (connections (Server.table s))
    /\ forall i, reaper_pass now s i = (_ ← shut_all gone; mret (with_conns kept (active (app s) - zlen gone) s)) i.
Proof.
  intros gone_of Ha. unfold gone_of in *.
  destruct (reap_spec (timeout_of s) now (2 * length (connections (Server.table s))) (connections (Server.table s)) [] s)
    as (gone & kept & Hg & Hk & E); [by rewrite app_nil_r|done| |done|].
  - pose proof (length_filter (fun c => idle (timeout_of s) now c = true) (connections (Server.table s))). lia.
  - exists gone, kept. rewrite app_nil_r in Hk. done.
Qed.

(** A TLS session of a connection is that of its descriptor. *)
Definition tls_owned (c : Info) : Prop := forall t, tls_conn c = Some t -> tls_of (Connections.client_fd c) t.

(** Without TLS, the descriptors are closed and nothing is written. *)
Lemma shut_all_plain gone : forall i, Forall (fun c => tls_conn c = None) gone ->
  exists i', shut_all gone i = Done tt i' /\ wire i' = wire i.
Proof.
  induction gone as [|c gone IH]; intros i Hp; cbn [shut_all]; [by eexists|].
  apply Forall_cons in Hp as [Hc Hp]. unfold shut_down. rewrite Hc.
  destruct (IH (shut (Connections.client_fd c) i) Hp) as (i' & E & Hw). exists i'. split; [|done].
  erewrite bind_step by reflexivity. done.
Qed.

Lemma shut_down_closes (c : Info) i :
  tls_owned c -> (tls_conn c <> None -> 0 <= Connections.client_fd c) ->
  ends (shut_down c) i (fun _ i' => closed i' = closed i ++ [Connections.client_fd c]).
Proof.
  intros Ht Hfd. unfold shut_down. destruct (tls_conn c) as [t|] eqn:E; [|done]. apply ends_bind.
  eapply ends_mono; [apply (tls_close_closes (Connections.client_fd c)); by apply Ht|].
  cbv beta. intros t' i' E1. apply ends_ret. by rewrite E1, (proj2 (Z.geb_le _ _) (Hfd ltac:(done))).
Qed.

Lemma shut_all_closes gone : forall i,
  Forall (fun c => tls_owned c /\ (tls_conn c <> None -> 0 <= Connections.client_fd c)) gone ->
  ends (shut_all gone) i (fun _ i' => closed i' = closed i ++ (Connections.client_fd <$> gone)).
Proof.
  induction gone as [|c gone IH]; intros i Hp; cbn [shut_all]; [apply ends_ret; by rewrite app_nil_r|].
  apply Forall_cons in Hp as [[Hc Hf] Hp]. apply ends_bind. eapply ends_mono; [by apply shut_down_closes|]. cbv beta.
  intros [] i1 E1. eapply ends_mono; [by apply IH|]. cbv beta. intros [] i2 ->. rewrite E1. cbn [fmap list_fmap]. by rewrite <- app_assoc.
Qed.

Lemma represents_filter m (l l' : list Info) t cap h P `{forall c, Decision (P c)} :
  represents m t -> connections t = l -> l' ≡ₚ filter P l ->
  represents (filter (fun kv => P kv.2) m) (mkConnTable l' cap h).
Proof.
  intros [Hnd Hm] <- Hp. split; simpl.
  - rewrite Hp. clear -Hnd. induction (connections t) as [|c l IH]; [done|]. rewrite filter_cons.
    apply NoDup_cons in Hnd as [Hc Hnd]. destruct (decide (P c)); [|by apply IH].
    apply NoDup_cons. split; [|by apply IH]. intros (c' & Hc' & [_ Hin]%list_elem_of_filter)%list_elem_of_fmap.
    apply Hc. rewrite Hc'. by apply list_elem_of_fmap_2.
  - intros fd info. rewrite map_lookup_filter_Some, Hm, Hp, list_elem_of_filter. simpl. tauto.
Qed.

(** C13: One pass of the reaper takes exactly the connections out of the table that have
    been idle too long - active ones for longer than the timeout, draining ones
    for longer than 5 seconds - whatever their order and although it moves
    connections while it walks over them.  The pass does not fault, and when it ends the
    table stands for the filtered map, the descriptors of the others have been closed
    once each, those of TLS connections included, nothing else was closed, and the count of active
    connections is adjusted.  The end of a TLS connection is announced to the peer, and
    the pass waits for a socket that takes nothing; without TLS connections among the idle
    ones it always ends, and nothing is written.  (The count is that of C6: at least the
    number of the idle connections, and an [int].) *)
Theorem reaper_refines_filter now (s : Server) m i :
  let idles := filter (fun c => idle (timeout_of s) now c = true) (connections (Server.table s)) in
  represents m (Server.table s) ->
  Forall (fun c => tls_owned c /\ (tls_conn c <> None -> 0 <= Connections.client_fd c)) idles ->
  - 2 ^ 31 + zlen idles <= active (app s) <= INT_MAX ->
  ends (reaper_pass now s) i (fun s' i' =>
    represents (filter (fun kv => idle (timeout_of s) now kv.2 = false) m) (Server.table s')
    /\ closed i' ≡ₚ closed i ++ (Connections.client_fd <$> idles)
    /\ active (app s') = active (app s) - zlen idles)
  /\ (Forall (fun c => tls_conn c = None) idles -> returns (reaper_pass now s) i (fun _ i' => wire i' = wire i)).
Proof.
  intros idles Hm Hown Ha. destruct (reaper_pass_spec now s Ha) as (gone & kept & Hg & Hk & E). fold idles in Hg.
  assert (zlen gone = zlen idles) as Hlen by (unfold zlen; by rewrite Hg). unfold ends, returns. rewrite E.
  split; [apply ends_bind; eapply ends_mono; [apply shut_all_closes; by rewrite Hg|]; intros [] i1 Hc; apply ends_ret; split_and!|].
  - exact (represents_filter m (connections (Server.table s)) kept (Server.table s) (connection_capacity (Server.table s))
      (global_conn_hash (Server.table s)) (fun c => idle (timeout_of s) now c = false) Hm eq_refl Hk).
  - by rewrite Hc, Hg.
  - rewrite <- Hlen. apply i32_small. pose proof (zlen_nonneg gone). lia.
  - intros Hp. destruct (shut_all_plain gone i) as (i' & Es & Hw); [by rewrite Hg|].
    rewrite (bind_step _ _ _ _ _ Es). by eexists _, _.
Qed.

(** ** Lemmas: draining *)

Lemma drained_not_busy (c : Info) : busy (drained c) = false.
Proof. unfold drained, busy. destruct (conn_state c) eqn:E; try (by rewrite E); done. Qed.

Lemma countb_none {A} (p : A -> bool) l : Forall (fun x => p x = false) l -> countb p l = 0.
Proof. induction 1 as [|x l Hx _ IH]; [done|]. simpl. by rewrite Hx, IH. Qed.

Lemma mark_draining_quiet (s : Server) : Forall (fun c => busy c = false) (connections (Server.table (mark_draining s))).
Proof. simpl. rewrite Forall_map. apply Forall_true. apply drained_not_busy. Qed.

(** The drain ends, and waits for at most one interval of 100 milliseconds, however
    long the timeout and however busy the connections are - unless other threads
    make connections active meanwhile: what it waits for is the mark that it sets
    itself.  After it no connection is active. *)
Theorem drain_waits_one_interval others timeout_ms (s : Server) :
  0 < timeout_ms <= INT_MAX ->
  (forall n s, Forall (fun c => busy c = false) (connections (Server.table s)) ->
               Forall (fun c => busy c = false) (connections (Server.table (others n s)))) ->
  exists s', server_drain_connections others timeout_ms s
             = (s', if countb busy (connections (Server.table s)) =? 0 then 0 else 100)
    /\ Forall (fun c => busy c = false) (connections (Server.table s')).
Proof.
  intros Ht Hothers. unfold server_drain_connections. cbn [drain_loop]. destruct (Z.ltb_spec 0 timeout_ms); [|lia].
  destruct (countb busy _ =? 0); [eexists; split; [done|apply mark_draining_quiet]|].
  pose proof (Hothers 0%nat _ (mark_draining_quiet s)) as Hq. set (s1 := others 0%nat (mark_draining s)) in *.
  assert (0 <= timeout_ms / 100) by (apply Z.div_pos; lia).
  destruct (Z.to_nat (timeout_ms / 100 + 1)) as [|fuel] eqn:Ef; [lia|]. cbn [drain_loop]. change (i32 (0 + 100)) with 100.
  destruct (Z.ltb_spec 100 timeout_ms); [|by eexists]. rewrite countb_none by done. cbn [Z.eqb].
  eexists. split; [done|apply mark_draining_quiet].
Qed.
(** ** Stopping *)

Lemma close_all_spec l : forall i, close_all l i = Done tt (fold_left (fun i fd => shut fd i) (List.filter (fun fd => fd >=? 0) l) i).
Proof. induction l as [|fd l IH]; intros i; [done|]. cbn [close_all List.filter]. destruct (fd >=? 0); [|apply IH].
  rewrite (bind_step _ _ i tt (shut fd i)) by done. apply IH. Qed.

Lemma close_conns_closes (l : list Info) : forall i, Forall tls_owned l ->
  ends (close_conns l) i (fun _ i' => closed i' = closed i ++ List.filter (fun fd => fd >=? 0) (Connections.client_fd <$> l)).
Proof.
  induction l as [|c l IH]; intros i Hl; [apply ends_ret; by rewrite app_nil_r|].
  apply Forall_cons in Hl as [Hc Hl]. cbn [close_conns fmap list_fmap List.filter].
  apply ends_bind. set (fd := Connections.client_fd c).
  assert (ends (match tls_conn c with Some t => _ ← tls_close t; mret tt | None => close_all [fd] end) i
            (fun _ i' => closed i' = closed i ++ if fd >=? 0 then [fd] else [])) as H1'.
  { destruct (tls_conn c) as [t|] eqn:E.
    - apply ends_bind. eapply ends_mono; [apply (tls_close_closes fd); by apply Hc|]. cbv beta. intros t' i1 E1. by apply ends_ret.
    - unfold ends. rewrite close_all_spec. cbn [List.filter]. destruct (fd >=? 0); [done|]. cbn. by rewrite app_nil_r. }
  eapply ends_mono; [exact H1'|]. cbv beta. intros [] i1 E1. eapply ends_mono; [by apply IH|]. cbv beta. intros [] i2 ->.
  rewrite E1, <- app_assoc. by destruct (fd >=? 0).
Qed.

Lemma close_conns_plain (l : list Info) : forall i, Forall (fun c => tls_conn c = None) l ->
  returns (close_conns l) i (fun _ i' => wire i' = wire i).
Proof.
  induction l as [|c l IH]; intros i Hl; [by apply returns_ret|]. apply Forall_cons in Hl as [Hc Hl]. cbn [close_conns]. rewrite Hc.
  eapply returns_step; [apply close_all_spec|]. cbn [List.filter]. destruct (_ >=? 0); [|by apply IH].
  eapply returns_mono; [by apply IH|]. by intros [] i1 ->.
Qed.

Lemma wire_shuts l : forall i, wire (fold_left (fun i fd => shut fd i) l i) = wire i.
Proof. induction l as [|fd l IH]; intros i; [done|]. cbn [fold_left]. by rewrite IH. Qed.

Lemma closed_shuts l : forall i, closed (fold_left (fun i fd => shut fd i) l i) = closed i ++ l.
Proof. induction l as [|fd l IH]; intros i; cbn [fold_left]; [by rewrite app_nil_r|]. rewrite IH. simpl. by rewrite <- app_assoc. Qed.

Lemma drain_loop_running others timeout_ms fuel : (forall n s, Server.running (others n s) = Server.running s) ->
  forall waited n (s : Server), Server.running (drain_loop fuel others timeout_ms waited n s).1 = Server.running s.
Proof.
  intros Ho. induction fuel as [|fuel IH]; intros waited n s; [done|]. cbn [drain_loop].
  destruct (waited <? timeout_ms); [|done]. destruct (countb busy _ =? 0); [done|]. by rewrite IH, Ho.
Qed.

Lemma drain_loop_settings others timeout_ms fuel : (forall n s, settings (others n s) = settings s) ->
  forall waited n (s : Server), settings (drain_loop fuel others timeout_ms waited n s).1 = settings s.
Proof.
  intros Ho. induction fuel as [|fuel IH]; intros waited n s; [done|]. cbn [drain_loop].
  destruct (waited <? timeout_ms); [|done]. destruct (countb busy _ =? 0); [done|]. by rewrite IH, Ho.
Qed.

(** Without connections the drain ends at once, and [others] has no say. *)
Lemma drain_nobody others timeout_ms (s : Server) :
  connections (Server.table s) = [] ->
  (server_drain_connections others timeout_ms s).1 = if 0 <? timeout_ms then mark_draining s else s.
Proof.
  intros Hs. unfold server_drain_connections. cbn [drain_loop]. destruct (0 <? timeout_ms); [|done]. by rewrite Hs.
Qed.

(** ** Lemmas: the joins *)

(** What the other threads have done when the joins [ks] have returned. *)
Definition join_state (joins : nat -> option (Server -> Server)) (ks : list nat) (s : Server) : Server :=
  fold_left (fun s k => match joins k with Some f => f s | None => s end) ks s.

(** Every thread ends, and until then the threads keep [I] and the settings. *)
Definition all_end (I : Server -> Prop) (joins : nat -> option (Server -> Server)) : Prop :=
  forall k, exists f, joins k = Some f /\ forall s, I s -> I (f s) /\ settings (f s) = settings s.

Lemma join_state_keeps I joins ks : all_end I joins -> forall s, I s -> I (join_state joins ks s) /\ settings (join_state joins ks s) = settings s.
Proof.
  intros Hj. induction ks as [|k ks IH]; intros s Hs; [done|]. cbn. destruct (Hj k) as (f & -> & Hf).
  destruct (Hf s Hs) as [Hs' E]. rewrite <- E. by apply IH.
Qed.

(** Every worker is joined after its epoll was closed. *)
Lemma join_workers_spec I joins N n : all_end I joins -> forall k s i,
  I s -> (k + n <= N)%nat -> (k + n <= length (epoll_fds (settings s)))%nat ->
  join_workers n k (Some (replicate N true)) joins s i
  = Done (join_state joins (seq (S k) n) s)
      (fold_left (fun i fd => shut fd i) (List.filter (fun fd => fd >=? 0) (take n (drop k (epoll_fds (settings s))))) i).
Proof.
  intros Hj. induction n as [|n IH]; intros k s i Hs HN Hl; [done|]. cbn [join_workers seq].
  destruct (lookup_lt_is_Some_2 (epoll_fds (settings s)) k ltac:(lia)) as [e He]. rewrite He.
  rewrite (bind_step _ _ _ _ _ (close_all_spec [e] i)). rewrite lookup_replicate_2 by lia.
  destruct (Hj (S k)) as (f & Ef & Hf). destruct (Hf s Hs) as [Hs' E]. unfold pthread_join. rewrite Ef. cbn [negb].
  erewrite bind_step by reflexivity. rewrite IH by (rewrite ?E; done || lia). unfold join_state at 2. cbn [fold_left]. rewrite Ef, E.
  f_equal. rewrite (drop_S _ _ _ He). cbn [take List.filter]. by destruct (e >=? 0).
Qed.

(** What [server_stop] closes without connections, and what it leaves. *)
Definition stopped (s : Server) : Server :=
  set_table (mkConnTable [] 0 (global_conn_hash (Server.table s))) (set_running false s).
Definition closed_by_stop (s : Server) : list Z :=
  List.filter (fun fd => fd >=? 0)
    (take (Z.to_nat (thread_count (settings s))) (epoll_fds (settings s)) ++ [server_fd (settings s); tls_server_fd (settings s)]).

(** Every thread ends, and without connections has nothing to do. *)
Definition idle_joins (joins : nat -> option (Server -> Server)) : Prop :=
  forall k, exists f, joins k = Some f /\ forall s, connections (Server.table s) = [] -> f s = s.

(** Every worker has an epoll in the server's block. *)
Definition epolls_fit (s : Server) : Prop := (Z.to_nat (thread_count (settings s)) <= length (epoll_fds (settings s)))%nat.

Lemma idle_join_state joins ks : idle_joins joins -> forall s, connections (Server.table s) = [] -> join_state joins ks s = s.
Proof.
  intros Hj. induction ks as [|k ks IH]; intros s Hs; [done|]. cbn. destruct (Hj k) as (f & -> & Hf). rewrite Hf by done. by apply IH.
Qed.

Abbreviation all_created s := (Some (replicate (Z.to_nat (thread_count (settings s))) true)).

Lemma stop_nobody others joins (s : Server) i :
  connections (Server.table s) = [] -> idle_joins joins -> epolls_fit s ->
  exists i', server_stop others joins true (all_created s) s i = Done (0, stopped s) i' /\ closed i' = closed i ++ closed_by_stop s.
Proof.
  intros Hc Hj Hf. unfold server_stop. cbv zeta. set (s0 := set_running false s).
  pose proof (drain_nobody others (i32 (shutdown_timeout (settings s0) * 1000)) s0 Hc) as Hd.
  destruct (server_drain_connections _ _ _) as [s2 w]. cbn [fst] in Hd.
  assert (settings s2 = settings s /\ connections (Server.table s2) = []
          /\ set_table (mkConnTable [] 0 (global_conn_hash (Server.table s2))) s2 = stopped s) as (HA & HB & HC).
  { rewrite Hd. destruct (0 <? _); (split; [done|]); (split; [|done]); [|done]. cbn. by rewrite Hc. }
  assert (all_end (fun s => connections (Server.table s) = []) joins) as Hend.
  { intros k. destruct (Hj k) as (f & E & Hk). exists f. split; [done|]. intros s1 Hs1. by rewrite Hk. }
  destruct (Hj 0%nat) as (f & E0 & Hf0).
  rewrite (bind_step _ _ i s2 i) by (unfold pthread_join; rewrite E0; by rewrite Hf0).
  rewrite HA. eexists. split.
  - rewrite (bind_step _ _ _ _ _ (join_workers_spec _ _ (Z.to_nat (thread_count (settings s))) (Z.to_nat (thread_count (settings s))) Hend 0 s2 i HB ltac:(lia) ltac:(rewrite HA; exact Hf))).
    rewrite idle_join_state by done. rewrite HB. cbn [close_conns]. rewrite (bind_step _ _ _ tt _ eq_refl). rewrite HC.
    by rewrite (bind_step _ _ _ _ _ (close_all_spec _ _)).
  - rewrite !closed_shuts, <- app_assoc, HA. unfold closed_by_stop. by rewrite List.filter_app.
Qed.

Lemma closes_zero_last (s : Server) : tls_server_fd (settings s) = 0 -> exists before, closed_by_stop s = before ++ [0].
Proof.
  intros Hz. unfold closed_by_stop. rewrite Hz. set (l := take _ _). exists (List.filter (fun fd => fd >=? 0) (l ++ [server_fd (settings s)])).
  change [server_fd (settings s); 0] with ([server_fd (settings s)] ++ [0]). by rewrite app_assoc, (List.filter_app _ _ [0]).
Qed.

(** [server_stop] closes the epoll of every worker before it joins the worker, whose loop
    closes the same descriptor when it ends: whatever was opened in between under that
    number is closed with it.  (Shown without connections, with the worker's end after the others'.) *)
Theorem worker_epoll_closed_twice others joins (s : Server) i e l :
  connections (Server.table s) = [] -> idle_joins joins -> epolls_fit s ->
  e ∈ take (Z.to_nat (thread_count (settings s))) (epoll_fds (settings s)) -> 0 <= e ->
  returns (x ← server_stop others joins true (all_created s) s; worker_loop crc32_asm regexec e l x.2) i
    (fun _ i' => exists before after, closed i' = closed i ++ before ++ [e] ++ after ++ [e]).
Proof.
  intros Hc Hj Hf Hk He. destruct (stop_nobody others joins s i Hc Hj Hf) as (i1 & E & Hcl).
  eapply returns_step; [exact E|]. cbn [snd].
  assert (worker_loop crc32_asm regexec e l (stopped s) i1 = Done (stopped s) (shut e i1)) as Ew by (by destruct l).
  eexists _, _. split; [exact Ew|]. cbn [closed shut]. rewrite Hcl. unfold closed_by_stop. rewrite List.filter_app.
  apply list_elem_of_split in Hk as (a & b & ->). rewrite List.filter_app. cbn [List.filter].
  rewrite (proj2 (Z.geb_le _ _) He). set (f := List.filter _).
  exists (f a), (f b ++ f [server_fd (settings s); tls_server_fd (settings s)]). by rewrite <- !app_assoc.
Qed.

(** [server_start] goes on when a thread cannot be created, and [server_stop] joins it all
    the same: the handle of the reaper is read although nothing wrote it. *)
Theorem stop_joins_missing_reaper others joins threads (s : Server) i :
  server_stop others joins false threads s i = Crashed Uninitialised.
Proof. unfold server_stop. by destruct (server_drain_connections _ _ _). Qed.

(** C32: Stopping a server whose threads were all created: when it ends, no connection is
    left and the server no longer runs, and what it has closed are, in this order, the
    epolls of the workers, each before its worker is joined, the descriptors of the connections that are left
    when all threads have ended, those of TLS connections included, and the descriptors of
    the two listening sockets - of all these the ones that are not negative (without TLS
    the second is the 0 of [Boot.stop_closes_stdin]).  It ends unless a TLS connection has to
    wait for its peer.  Until a join returns the other threads may do anything that keeps
    the settings and the running flag; that every thread ends is assumed, and that no
    session is tied to another descriptor (C6). *)
Theorem stop_closes_all others joins (s : Server) i :
  let n := Z.to_nat (thread_count (settings s)) in
  let s1 := (server_drain_connections others (i32 (shutdown_timeout (settings s) * 1000)) (set_running false s)).1 in
  let s2 := join_state joins (seq 0 (S n)) s1 in
  (forall k s, settings (others k s) = settings s /\ Server.running (others k s) = Server.running s) ->
  all_end (fun s => Server.running s = false) joins -> epolls_fit s -> Forall tls_owned (connections (Server.table s2)) ->
  ends (server_stop others joins true (all_created s) s) i (fun x i' =>
    x.1 = 0 /\ connections (Server.table x.2) = [] /\ Server.running x.2 = false
    /\ closed i' = closed i ++ List.filter (fun fd => fd >=? 0)
         (take n (epoll_fds (settings s)) ++ fds s2 ++ [server_fd (settings s); tls_server_fd (settings s)]))
  /\ (Forall (fun c => tls_conn c = None) (connections (Server.table s2)) ->
      returns (server_stop others joins true (all_created s) s) i (fun _ i' => wire i' = wire i)).
Proof.
  intros n s1 s2 Ho Hj Hf Hown.
  assert (Server.running s1 = false) as Hrun by (unfold s1, server_drain_connections; rewrite drain_loop_running; [done|apply Ho]).
  assert (settings s1 = settings s) as Hset by (unfold s1, server_drain_connections; rewrite drain_loop_settings; [done|apply Ho]).
  destruct (join_state_keeps _ joins (seq 0 (S n)) Hj s1 Hrun) as [Hrun2 Hset2]. fold s2 in Hrun2, Hset2.
  assert (exists i1, closed i1 = closed i ++ List.filter (fun fd => fd >=? 0) (take n (epoll_fds (settings s))) /\ wire i1 = wire i
    /\ server_stop others joins true (all_created s) s i
       = (_ ← close_conns (connections (Server.table s2));
          let s := set_table (mkConnTable [] 0 (global_conn_hash (Server.table s2))) s2 in
          _ ← close_all [server_fd (settings s); tls_server_fd (settings s)]; mret (0, s)) i1) as (i1 & Hc1 & Hw1 & E).
  { unfold server_stop. change (shutdown_timeout (settings (set_running false s))) with (shutdown_timeout (settings s)). cbv zeta.
    unfold s1, s2 in *. destruct (server_drain_connections _ _ _) as [s3 w]. cbn [fst] in *.
    destruct (Hj 0%nat) as (f & E0 & Hf0). destruct (Hf0 s3 Hrun) as [Hr3 Hs3].
    eexists. split; [|split]; [..|rewrite (bind_step _ _ i (f s3) i) by (unfold pthread_join; by rewrite E0)].
    3:{ rewrite Hs3, Hset, (bind_step _ _ _ _ _ (join_workers_spec _ _ n n Hj 0 (f s3) i Hr3 ltac:(lia) ltac:(rewrite Hs3, Hset; exact Hf))).
        unfold join_state. cbn [seq fold_left]. by rewrite E0. }
    - by rewrite closed_shuts, Hs3, Hset.
    - apply wire_shuts. }
  unfold ends, returns. rewrite E. split.
  - apply ends_bind. eapply ends_mono; [by apply close_conns_closes|]. cbv beta. intros [] i2 Hc2. cbv zeta.
    unfold ends. rewrite (bind_step _ _ _ _ _ (close_all_spec _ _)). split_and!; try done.
    change (settings (set_table _ s2)) with (settings s2). rewrite closed_shuts, Hc2, Hc1, Hset2, Hset, <- !app_assoc.
    by rewrite !List.filter_app.
  - intros Hp. destruct (close_conns_plain _ i1 Hp) as ([] & i2 & E2 & Hw2). rewrite (bind_step _ _ _ _ _ E2).
    cbv zeta. rewrite (bind_step _ _ _ _ _ (close_all_spec _ _)). eexists _, _. split; [done|].
    by rewrite wire_shuts, Hw2.
Qed.

(** ** The states that the threads reach *)

(** [reaches n lost s]: [s] is reached after [n] steps, in [lost] of which a
    descriptor was closed that is not in the table.  A new descriptor is not in
    use. *)
Inductive reaches : nat -> Z -> Server -> Prop :=
| reaches_start s : connections (Server.table s) = [] -> active (app s) = 0 -> reaches 0 0 s
| reaches_accept n lost s a fd s' e :
    reaches n lost s -> fd ∉ fds s -> on_accept a fd s = Ok (s', e) -> reaches (S n) lost s'
| reaches_read n lost s v fd i code s' i' :
    reaches n lost s -> on_read crc32_asm regexec v fd s i = Done (code, s') i' -> reaches (S n) lost s'
| reaches_event n lost s v e i s' i' :
    reaches n lost s -> worker_event crc32_asm regexec v e s i = Done s' i' ->
    reaches (S n) (lost + if hang_up e && bool_decide (ev_fd e ∉ fds s) then 1 else 0) s'
| reaches_close n lost s fd ok :
    reaches n lost s -> reaches (S n) (lost + if bool_decide (fd ∉ fds s) then 1 else 0) (on_close fd ok s)
| reaches_reap n lost s now i s' i' :
    reaches n lost s -> reaper_pass now s i = Done s' i' -> reaches (S n) lost s'
| reaches_send n lost s v fd response i code s' i' :
    reaches n lost s -> server_send_response v fd response s i = Done (code, s') i' -> reaches (S n) lost s'
| reaches_drain n lost s : reaches n lost s -> reaches (S n) lost (mark_draining s).

(** What holds of all of them. *)
Definition sound (n : nat) (lost : Z) (s : Server) : Prop :=
  Forall session_ok (connections (Server.table s)) /\ NoDup (fds s)
  /\ zlen (connections (Server.table s)) = active (app s) + lost
  /\ 0 <= lost <= Z.of_nat n /\ zlen (connections (Server.table s)) <= Z.of_nat n.

Lemma sound_same n lost (s s' : Server) :
  sound n lost s -> Forall session_ok (connections (Server.table s')) -> fds s' = fds s ->
  active (app s') = active (app s) -> sound (S n) lost s'.
Proof.
  intros (_ & Hnd & Hc & Hl & Hn) Hs Hf Ha. unfold sound. rewrite Hf, Ha.
  assert (zlen (connections (Server.table s')) = zlen (connections (Server.table s))) as ->
    by (apply (f_equal length) in Hf; rewrite !length_fmap in Hf; unfold zlen; lia).
  split_and!; done || lia.
Qed.

Lemma sound_read n lost s v fd i code s' i' :
  sound n lost s -> server_handle_request crc32_asm regexec v fd s i = Done (code, s') i' -> sound (S n) lost s'.
Proof.
  intros Hs E. destruct (keeps_handle crc32_asm regexec _ _ v fd s ltac:(apply Hs) eq_refl eq_refl _ _ _ E) as [(? & ? & ?) _].
  by eapply sound_same.
Qed.

(** The table without [fd]. *)
Lemma remove_spec fd ok (t : ConnTable T H) :
  let l := connections t in let l' := connections (remove_connection_info fd ok t) in
  ((fd ∉ (Connections.client_fd <$> l)) /\ l' = l)
  \/ ((fd ∈ (Connections.client_fd <$> l)) /\ exists c, l ≡ₚ c :: l').
Proof.
  cbv zeta. unfold remove_connection_info. destruct (find_index (has_fd fd) (connections t)) as [i|] eqn:E.
  - right. apply find_index_Some in E as (c & Hi & Hfd & _). apply Z.eqb_eq in Hfd. split.
    + rewrite <- Hfd. apply list_elem_of_fmap_2. by eapply list_elem_of_lookup_2.
    + exists c. by apply swap_remove_perm.
  - left. split; [|done]. apply find_index_None in E. intros (c & -> & Hc)%list_elem_of_fmap.
    rewrite Forall_forall in E. specialize (E c Hc). unfold has_fd in E. by rewrite Z.eqb_refl in E.
Qed.

Lemma sound_close n lost s fd ok : sound n lost s -> Z.of_nat n < 2 ^ 31 - 1 ->
  sound (S n) (lost + if bool_decide (fd ∉ fds s) then 1 else 0) (on_close fd ok s).
Proof.
  intros (Hs & Hnd & Hc & Hl & Hn) Hmax. pose proof (zlen_nonneg (connections (Server.table s))). unfold sound.
  assert (active (app (on_close fd ok s)) = active (app s) - 1) as Ha.
  { unfold on_close. cbn. apply i32_small. unfold INT_MAX. lia. }
  rewrite Ha. change (Server.table (on_close fd ok s)) with (remove_connection_info fd ok (Server.table s)).
  destruct (remove_spec fd ok (Server.table s)) as [[Hin ->]|(Hin & c & Hp)].
  - rewrite bool_decide_true by done. split_and!; done || lia.
  - rewrite bool_decide_false by (intros Hx; by apply Hx). rewrite Hp in Hs, Hnd. apply Forall_cons in Hs as [_ Hs].
    apply NoDup_cons in Hnd as [_ Hnd].
    assert (zlen (connections (Server.table s)) = 1 + zlen (connections (remove_connection_info fd ok (Server.table s)))) as Hlen
      by (unfold zlen; rewrite Hp; simpl; lia). split_and!; done || lia.
Qed.
Lemma fds_lookup k info (s : Server) : connections (Server.table s) !! k = Some info -> fds s !! k = Some (Connections.client_fd info).
Proof. intros Hk. by rewrite list_lookup_fmap, Hk. Qed.

Lemma sound_serves n lost (s : Server) k info :
  sound n lost s -> connections (Server.table s) !! k = Some info ->
  serves (fds s) (active (app s)) k (Connections.client_fd info) s.
Proof. intros (Hs & _) Hk. split_and!; [done|done|by apply fds_lookup|done]. Qed.

Lemma serves_sound n lost (s s' : Server) k fd :
  sound n lost s -> serves (fds s) (active (app s)) k fd s' -> sound (S n) lost s'.
Proof. intros Hs (Hs1 & Hs2 & _ & Hs4). by eapply sound_same. Qed.

Lemma sound_accept n lost s a fd s' e : sound n lost s -> Z.of_nat n < 2 ^ 31 - 1 -> fd ∉ fds s ->
  on_accept a fd s = Ok (s', e) -> sound (S n) lost s'.
Proof.
  intros Hsound Hmax Hfd. pose proof Hsound as (Hs & Hnd & Hc & Hl & Hn).
  pose proof (zlen_nonneg (connections (Server.table s))). unfold on_accept.
  destruct (thread_count (settings s) =? 0); [done|]. set (id := Z.rem _ _).
  unfold add_connection_info. destruct (_ && negb (grow_ok a)).
  { intros [= <- _]. by eapply sound_same. }
  cbv zeta. set (info := new_connection fd (client_ip a) id (accept_time a) (new_id a)).
  set (t := mkConnTable _ _ _). set (s1 := set_active (active (app s) + 1) (set_table t s)).
  assert (active (app s1) = active (app s) + 1) as Ha1 by (apply i32_small; unfold INT_MAX; lia).
  assert (sound (S n) lost s1) as Hs1.
  { unfold sound. rewrite Ha1. cbn [Server.table s1 set_active set_app set_table connections t].
    rewrite fmap_app, zlen_app. change (zlen [info]) with 1. split_and!; [| |lia|lia|lia|lia].
    - apply Forall_app. split; [done|]. constructor; [|done]. by split.
    - apply NoDup_app. split_and!; [done| |repeat constructor; by intros ?%elem_of_nil].
      intros x Hx ->%list_elem_of_singleton. done. }
  intros [= <- _]. fold t s1.
  destruct (enable_tls (settings s) && bool_decide (local_port a = Some (tls_port (settings s)))); [|exact Hs1].
  destruct (tls_new fd) as [c|] eqn:Ec; [|exact Hs1]. fold t s1.
  assert (connections (Server.table s1) !! length (connections (Server.table s)) = Some info) as Hk
    by (cbn; by rewrite lookup_app_r, Nat.sub_diag).
  assert (serves (fds s1) (active (app s1)) (length (connections (Server.table s))) fd
    (at_conn (length (connections (Server.table s))) (fun info => set_conn_state CONN_STATE_TLS_HANDSHAKE (set_tls (Some c) info)) s1)) as Hserves.
  { apply serves_at; [by apply (sound_serves _ _ _ _ _ Hs1 Hk)|].
    apply (harmless_comp _ (set_conn_state CONN_STATE_TLS_HANDSHAKE)); [apply harmless_plain; intros []; done|].
    apply harmless_tls. by apply tls_new_of. }
  destruct Hserves as (H1' & H2' & _ & H4'). unfold sound in *. rewrite H2', H4'.
  assert (zlen (connections (Server.table (at_conn (length (connections (Server.table s)))
    (fun info => set_conn_state CONN_STATE_TLS_HANDSHAKE (set_tls (Some c) info)) s1))) = zlen (connections (Server.table s1))) as ->
    by (apply (f_equal length) in H2'; rewrite !length_fmap in H2'; unfold zlen; lia).
  tauto.
Qed.

Lemma sound_reap n lost now s i s' i' : sound n lost s -> Z.of_nat n < 2 ^ 31 - 1 ->
  reaper_pass now s i = Done s' i' -> sound (S n) lost s'.
Proof.
  intros (Hs & Hnd & Hc & Hl & Hn) Hmax E.
  pose proof (length_filter (fun c => idle (timeout_of s) now c = true) (connections (Server.table s))) as Hlf.
  destruct (reaper_pass_spec now s) as (gone & kept & Hg & Hk & Eq); [unfold INT_MAX, zlen in *; lia|].
  rewrite Eq in E. apply bind_Done in E as ([] & i1 & _ & E). injection E as <- <-.
  assert (connections (Server.table s) ≡ₚ gone ++ kept) as Hp.
  { rewrite Hg, Hk. clear. induction (connections (Server.table s)) as [|c l IH]; [done|]. rewrite !filter_cons.
    destruct (decide (idle (timeout_of s) now c = true)), (decide (idle (timeout_of s) now c = false)); try congruence.
    - simpl. by rewrite <- IH.
    - rewrite IH at 1. by rewrite Permutation_middle.
    - destruct (idle (timeout_of s) now c); done. }
  assert (zlen (connections (Server.table s)) = zlen gone + zlen kept) as Hlen by (unfold zlen; rewrite Hp, length_app; lia).
  pose proof (zlen_nonneg gone). pose proof (zlen_nonneg kept). unfold sound.
  assert (active (app (with_conns kept (active (app s) - zlen gone) s)) = active (app s) - zlen gone) as ->
    by (apply i32_small; unfold INT_MAX; lia).
  change (connections (Server.table (with_conns kept _ s))) with kept.
  rewrite Hp in Hs, Hnd. rewrite fmap_app in Hnd. apply Forall_app in Hs as [_ Hs]. apply NoDup_app in Hnd as (_ & _ & Hnd).
  split_and!; done || lia.
Qed.

Lemma sound_drain n lost s : sound n lost s -> sound (S n) lost (mark_draining s).
Proof.
  intros Hs. assert (forall c : Info, session_ok c -> session_ok (drained c)) as Hok.
  { intros c. unfold drained. destruct (conn_state c); done. }
  eapply sound_same; [done| | |done].
  - destruct Hs as (Hs & _). simpl. rewrite Forall_map. by eapply Forall_impl.
  - simpl. rewrite <- list_fmap_compose. apply list_fmap_ext. intros _ c _. unfold drained. simpl. by destruct (conn_state c).
Qed.
Lemma sound_send n lost s v fd response i code s' i' : sound n lost s ->
  server_send_response v fd response s i = Done (code, s') i' -> sound (S n) lost s'.
Proof.
  intros Hs. unfold server_send_response. destruct (find_connection_info _ _ _) as [[k|] t] eqn:E.
  2: { intros [= _ <- _]. eapply sound_same; [done| | |done]; cbn; rewrite (find_connection_same _ _ _ _ _ E); [apply Hs|done]. }
  cbv zeta. set (s0 := set_table t s).
  assert (serves (fds s) (active (app s)) k fd s0) as Hsv by (eapply serves_found; [apply Hs|done|done|exact E]).
  destruct (serves_lookup _ _ _ _ _ Hsv) as (info & Hk & Hfd).
  rewrite (conn_at _ _ _ Hk). erewrite bind_step by reflexivity.
  assert (forall m (s1 : Server), serves (fds s) (active (app s)) k fd s1 -> serves (fds s) (active (app s)) k fd
    (at_conn k (fun info => set_last_activity (Router.now (renv v)) (add_sent m info))
       (set_stats (mkServerStats (total_requests (Server.stats s1)) (total_responses (Server.stats s1))
          (u64 (Server.bytes_sent (Server.stats s1) + m)) (Server.bytes_received (Server.stats s1))) s1))) as Hcount.
  { intros m s1 Hs1. apply serves_at; [exact Hs1|]. apply harmless_plain. by intros []. }
  destruct (tls_conn info) as [c|] eqn:Ec.
  - intros ([r c'] & i1 & E1 & E2)%bind_Done. destruct Hsv as (Ha & Hrest).
    pose proof (Forall_lookup_1 _ _ _ _ Ha Hk) as [Ht _]. specialize (Ht c Ec). rewrite Hfd in Ht.
    destruct (tls_write_of _ _ _ Ht _ _ _ E1) as [Hc' _]. simpl in Hc'.
    assert (serves (fds s) (active (app s)) k fd (at_conn k (set_tls (Some c')) s0)) as H1'
      by (apply serves_at; [by split|by apply harmless_tls]).
    revert E2. destruct r; intros [= _ <- _]; eapply serves_sound; try done; exact (Hcount _ _ H1').
  - intros (r & i1 & _ & E2)%bind_Done. revert E2. destruct r; intros [= _ <- _]; eapply serves_sound; try done.
    exact (Hcount _ _ Hsv).
Qed.

Lemma sound_event n lost s v e i s' i' : sound n lost s -> Z.of_nat n < 2 ^ 31 - 1 ->
  worker_event crc32_asm regexec v e s i = Done s' i' ->
  sound (S n) (lost + if hang_up e && bool_decide (ev_fd e ∉ fds s) then 1 else 0) s'.
Proof.
  intros Hs Hmax. unfold worker_event. destruct (hang_up e); cbn [andb].
  - destruct (find_connection_info _ _ _) as [found t] eqn:E. cbv zeta.
    set (s1 := match found with Some k => _ | None => _ end). intros ([] & i1 & _ & [= <- <-])%bind_Done.
    assert (Forall session_ok (connections (Server.table s1)) /\ fds s1 = fds s /\ active (app s1) = active (app s)) as (Hok & Hf & Ha).
    { unfold s1. destruct found as [k|].
      - assert (serves (fds s) (active (app s)) k (ev_fd e) (set_table t s)) as Hsv
          by (eapply serves_found; [apply Hs|done|done|exact E]).
        destruct (serves_at _ _ k _ (set_conn_state CONN_STATE_CLOSED) _ Hsv) as (? & ? & _ & ?); [|done].
        apply harmless_plain. by intros [].
      - cbn. rewrite (find_connection_same _ _ _ _ _ E). split; [apply Hs|done]. }
    rewrite <- Hf. apply sound_close; [|done]. destruct Hs as (_ & Hnd & Hc & Hl & Hn). unfold sound. rewrite Hf, Ha.
    assert (zlen (connections (Server.table s1)) = zlen (connections (Server.table s))) as ->
      by (apply (f_equal length) in Hf; rewrite !length_fmap in Hf; unfold zlen; lia). done.
  - rewrite Z.add_0_r. destruct (readable e).
    + intros ([code s1] & i1 & E & [= <- <-])%bind_Done. by eapply sound_read.
    + intros [= <- _]. destruct Hs as (? & ? & ? & ? & ?). split_and!; done || lia.
Qed.

(** C6: In every state that accepts, requests, events of the workers, closes, passes of
    the reaper, answers and drains lead to, in any order: every TLS and HTTP/2
    session belongs to the descriptor of its connection, no two connections share a
    descriptor, and the count of active connections is the size of the table, less
    one for every time a descriptor was closed that the table did not hold. *)
Theorem lifecycle_invariant n lost s : reaches n lost s -> Z.of_nat n < 2 ^ 31 - 1 -> sound n lost s.
Proof.
  induction 1 as [s Hc Ha|n lost s a fd s' e _ IH Hfd E|n lost s v fd i code s' i' _ IH E|n lost s v e i s' i' _ IH E
                 |n lost s fd ok _ IH|n lost s now i s' i' _ IH E|n lost s v fd response i code s' i' _ IH E|n lost s _ IH];
    intros Hmax; try (specialize (IH ltac:(lia))).
  - unfold sound. rewrite Hc, Ha. split_and!; try done; constructor.
  - eapply sound_accept; [done|lia|done|done].
  - by eapply sound_read.
  - eapply sound_event; [done|lia|done].
  - apply sound_close; [done|lia].
  - eapply sound_reap; [done|lia|done].
  - by eapply sound_send.
  - by apply sound_drain.
Qed.
End Facts.

(** ** Witnesses *)

#[local] Instance demo_tls : TlsLayer (TLSConn (SSL := unit)) := tls_openssl (Some (Some tt)) true true.
#[local] Instance demo_h2_layer : H2Layer (H2Session (S := list Z)) := h2_nghttp2 true true.

Definition demo_conn (fd last : Z) (st : ConnState) : ConnectionInfo (TLSConn (SSL := unit)) (H2Session (S := list Z)) :=
  set_conn_state st (set_last_activity last (new_connection fd (lit "10.0.0.1") 0 100 (lit "a"))).

(** Two idle connections, of which one is of TLS, and two others. *)
Definition demo_conns : list (ConnectionInfo (TLSConn (SSL := unit)) (H2Session (S := list Z))) :=
  [demo_conn 7 960 CONN_STATE_ACTIVE; demo_conn 8 999 CONN_STATE_ACTIVE; demo_conn 9 900 CONN_STATE_NEW;
   set_tls (tls_new 10) (demo_conn 10 990 CONN_STATE_DRAINING)].

Definition demo_state (l : list (ConnectionInfo (TLSConn (SSL := unit)) (H2Session (S := list Z))))
  : Server (Regex := list Z) :=
  set_active (zlen l) (set_table (mkConnTable l 128 (fun _ => [])) (demo_running Firewall.demo_firewall)).

Definition idle_io : io := mkIo [] [] (fun _ => 0) 0 ∅ [] [] false.

Definition demo_map : gmap Z (ConnectionInfo (TLSConn (SSL := unit)) (H2Session (S := list Z))) :=
  list_to_map ((fun c => (Connections.client_fd c, c)) <$> demo_conns).

Lemma demo_represents : represents demo_map (Server.table (demo_state demo_conns)).
Proof.
  assert (NoDup (Connections.client_fd <$> demo_conns)) as Hnd by (apply NoDup_ListNoDup; repeat constructor; simpl; lia).
  split; [exact Hnd|]. intros fd info. unfold demo_map. rewrite <- elem_of_list_to_map.
  - rewrite list_elem_of_fmap. split; [intros (c & [= -> ->] & Hc); done|intros [Hin <-]; by exists info].
  - by rewrite <- list_fmap_compose.
Qed.

Lemma demo_owned l :
  Forall (fun c => tls_conn c = None \/ tls_conn c = tls_new (Connections.client_fd c)) l -> Forall tls_owned (l : list (ConnectionInfo _ (H2Session (S := list Z)))).
Proof.
  intros Hl. eapply Forall_impl; [exact Hl|]. intros c [Hc|Hc] t Ht; rewrite Hc in Ht; [done|]. by apply tls_new_of.
Qed.

Lemma reaper_refines_filter_witness :
  returns (reaper_pass 1000 (demo_state demo_conns)) idle_io (fun s' i' =>
    closed i' ≡ₚ [7; 10] /\ active (app s') = 2).
Proof.
  destruct (reaper_refines_filter 1000 (demo_state demo_conns) demo_map idle_io) as [E _].
  - exact demo_represents.
  - apply Forall_and. split; [|by repeat constructor].
    apply demo_owned. change (filter _ _) with [demo_conn 7 960 CONN_STATE_ACTIVE; set_tls (tls_new 10) (demo_conn 10 990 CONN_STATE_DRAINING)].
    constructor; [by left|]. constructor; [by right|constructor].
  - vm_compute. split; discriminate.
  - unfold ends in E. destruct (reaper_pass 1000 (demo_state demo_conns) idle_io) as [s' i'| |] eqn:Er; [|exfalso; vm_compute in Er; discriminate Er|destruct E].
    exists s', i'. split; [exact Er|]. destruct E as (_ & Hc & Ha). split; [exact Hc|exact Ha].
Defined.

Lemma drain_waits_one_interval_witness :
  exists s', server_drain_connections (fun _ s => s) 30000 (demo_state demo_conns) = (s', 100).
Proof.
  destruct (drain_waits_one_interval (fun _ s => s) 30000 (demo_state demo_conns)) as (s' & E & _).
  - split; [reflexivity|vm_compute; discriminate].
  - intros n s Hs. exact Hs.
  - exists s'. exact E.
Defined.

(** Four workers, of which one has an epoll. *)
Definition demo_stopping : Server (Regex := list Z) :=
  let s := demo_state demo_conns in
  let x := settings s in
  mkServer (Server.running s) (mkServerSettings 4 [5; -1; -1; -1] (use_streaming x) (keepalive_timeout x) (enable_tls x) (tls_port x) (enable_http2 x)
      (middlewares x) (shutdown_timeout x) (server_fd x) (tls_server_fd x))
    (stats s) (ratelimiter s) (arenapool s) (Server.table s) (firewall s) (moderation s) (manager s) (app s).

Lemma stop_closes_all_witness :
  ends (server_stop (fun _ s => s) (fun _ => Some (fun s => s)) true (Some [true; true; true; true]) demo_stopping) idle_io (fun x i' =>
    connections (Server.table x.2) = [] /\ closed i' = [5; 7; 8; 9; 10; 3]).
Proof.
  destruct (stop_closes_all (fun _ s => s) (fun _ => Some (fun s => s)) demo_stopping idle_io) as [E _].
  - intros k s. split; reflexivity.
  - intros k. exists (fun s => s). split; [reflexivity|]. intros s Hs. split; [exact Hs|reflexivity].
  - apply Nat.leb_le. vm_compute. reflexivity.
  - apply demo_owned. constructor; [by left|]. constructor; [by left|]. constructor; [by left|]. constructor; [by right|constructor].
  - eapply ends_mono; [exact E|]. intros x i' (_ & Hl & _ & Hc). split; [exact Hl|]. rewrite Hc. vm_compute. reflexivity.
Defined.

Definition demo_accept : accept_env := mkAcceptEnv (lit "10.0.0.1") None 100 (lit "a") true true.

Definition accepted : Server (Regex := list Z) :=
  match on_accept demo_accept 7 (demo_state []) with Ok (s, _) => s | Fault _ => demo_state [] end.

Lemma demo_reaches : reaches Router.demo_hash streq 1 0 accepted.
Proof.
  eapply (reaches_accept _ _ 0 0 (demo_state []) demo_accept 7); [|apply not_elem_of_nil|reflexivity].
  apply reaches_start; reflexivity.
Qed.

(** A client comes, and its descriptor is closed twice. *)
Lemma lifecycle_invariant_witness : active (app (on_close 7 true (on_close 7 true accepted))) = -1.
Proof.
  destruct (lifecycle_invariant Router.demo_hash streq _ _ _
              (reaches_close _ _ _ _ _ 7 true (reaches_close _ _ _ _ _ 7 true demo_reaches))) as (_ & _ & Hc & _); [reflexivity|].
  set (n := active _) in *. change (0 = n + 1) in Hc. lia.
Defined.
