(* ===== verification/Config.v ===== *)
(** * The configuration: [src/config.c]

    The [int] and [char] array members of [Config] are named by [int_option] and
    [text_option], so that the fifty branches of [parse_config_line], which all do
    the same, are a table ([keys]).  A [char *] is the string it points to, or
    nothing.  Which allocations succeed is an argument, for each line of the file. *)

From S2P Require Import Prelude Double.

(** ** Data *)

Inductive int_option : Set :=
| port | tls_port | thread_count | max_connections | request_timeout | buffer_size | enable_cache
| cache_size | cache_ttl | enable_firewall | enable_optimization | max_request_size | verify_ssl
| enable_iouring | iouring_queue_depth | iouring_sqpoll | enable_zero_copy | enable_ratelimiter
| rate_limit_rps | enable_observability | enable_streaming | enable_smart_routing | enable_keepalive
| keepalive_timeout | worker_threads | enable_tls | tls_min_version | tls_prefer_server_ciphers
| tls_verify_client | tls_verify_depth | tls_enable_ocsp | tls_ocsp_refresh_interval
| tls_session_cache_size | tls_enable_renegotiation | tls_enable_early_data | tls_hsts_max_age
| tls_hsts_include_subdomains | enable_http2 | http2_max_concurrent_streams | http2_max_header_list_size
| http2_initial_window_size | http2_max_frame_size | http2_enable_push | graceful_shutdown_timeout.

Inductive text_option : Set :=
| tls_cert_file | tls_key_file | tls_ca_file | tls_ca_path | tls_cipher_list | tls_ciphersuites_tls13
| tls_alpn_protocols.

Definition text_size (o : text_option) : Z :=
  match o with
  | tls_cert_file | tls_key_file | tls_ca_file | tls_ca_path => 4096
  | tls_cipher_list | tls_ciphersuites_tls13 => 256
  | tls_alpn_protocols => 128
  end.


#[export] Instance int_option_eq_dec : EqDecision int_option.
Proof. solve_decision. Defined.
#[export] Instance text_option_eq_dec : EqDecision text_option.
Proof. solve_decision. Defined.

Record AIModelConfig := mkAIModelConfig {
  model_name : option (list Z);
  api_endpoint : option (list Z);
  api_key_env : option (list Z);
  max_tokens : Z;
  temperature : double;
  is_available : bool;
  tier : Z;
  provider : list Z
}.

(** [api_key_count] and [ai_model_count] are the lengths of the lists. *)
Record Config := mkConfig {
  ints : int_option -> Z;
  texts : text_option -> list Z;
  log_file : option (list Z);
  api_keys : list (list Z);
  ai_models : list AIModelConfig
}.

Definition set_int (o : int_option) (v : Z) (c : Config) : Config :=
  mkConfig (fun o' => if decide (o' = o) then v else ints c o') (texts c) (log_file c) (api_keys c) (ai_models c).
Definition set_text (o : text_option) (v : list Z) (c : Config) : Config :=
  mkConfig (ints c) (fun o' => if decide (o' = o) then v else texts c o') (log_file c) (api_keys c) (ai_models c).
Definition set_log_file (v : option (list Z)) (c : Config) : Config :=
  mkConfig (ints c) (texts c) v (api_keys c) (ai_models c).
Definition set_api_keys (v : list (list Z)) (c : Config) : Config :=
  mkConfig (ints c) (texts c) (log_file c) v (ai_models c).
Definition set_ai_models (v : list AIModelConfig) (c : Config) : Config :=
  mkConfig (ints c) (texts c) (log_file c) (api_keys c) v.

(** ** Text *)

Definition trim_whitespace (s : list Z) : list Z := rev (skip_spaces (rev (skip_spaces s))).

(** The whole text has to be a number that fits. *)
Definition parse_int (s : list Z) (default_val : Z) : Z :=
  match scan_long s with
  | Some (v, []) => if (v <? 0) || (v >? INT_MAX) then default_val else v
  | _ => default_val
  end.

(** ** A line *)

(** What a key sets: for a number, the value taken for a text that is none. *)
Inductive key : Set :=
| Int (o : int_option) (fallback : Z)
| Text (o : text_option)
| Log_file | Api_key | Ai_model.

Definition keys : list (string * key) :=
  [
   ("port", Int port 8080); ("tls_port", Int tls_port 8443); ("thread_count", Int thread_count 4);
   ("max_connections", Int max_connections 1024); ("request_timeout", Int request_timeout 30000);
   ("buffer_size", Int buffer_size 8192); ("log_file", Log_file); ("enable_cache", Int enable_cache 1);
   ("cache_size", Int cache_size 1000); ("cache_ttl", Int cache_ttl 3600);
   ("enable_firewall", Int enable_firewall 1); ("enable_optimization", Int enable_optimization 1);
   ("api_key", Api_key); ("max_request_size", Int max_request_size 33554432);
   ("verify_ssl", Int verify_ssl 1); ("enable_iouring", Int enable_iouring 1);
   ("iouring_queue_depth", Int iouring_queue_depth 512); ("iouring_sqpoll", Int iouring_sqpoll 0);
   ("enable_zero_copy", Int enable_zero_copy 1); ("enable_ratelimiter", Int enable_ratelimiter 0);
   ("rate_limit_rps", Int rate_limit_rps 100); ("enable_observability", Int enable_observability 1);
   ("enable_streaming", Int enable_streaming 1); ("enable_smart_routing", Int enable_smart_routing 1);
   ("enable_keepalive", Int enable_keepalive 1); ("keepalive_timeout", Int keepalive_timeout 30);
   ("worker_threads", Int worker_threads 4); ("enable_tls", Int enable_tls 0);
   ("tls_cert_file", Text tls_cert_file); ("tls_key_file", Text tls_key_file);
   ("tls_ca_file", Text tls_ca_file); ("tls_ca_path", Text tls_ca_path);
   ("tls_cipher_list", Text tls_cipher_list); ("tls_ciphersuites_tls13", Text tls_ciphersuites_tls13);
   ("tls_min_version", Int tls_min_version 2);
   ("tls_prefer_server_ciphers", Int tls_prefer_server_ciphers 1);
   ("tls_verify_client", Int tls_verify_client 0); ("tls_verify_depth", Int tls_verify_depth 10);
   ("tls_enable_ocsp", Int tls_enable_ocsp 0);
   ("tls_ocsp_refresh_interval", Int tls_ocsp_refresh_interval 3600);
   ("tls_session_cache_size", Int tls_session_cache_size 2048);
   ("tls_enable_renegotiation", Int tls_enable_renegotiation 0);
   ("tls_enable_early_data", Int tls_enable_early_data 0);
   ("tls_hsts_max_age", Int tls_hsts_max_age 31536000);
   ("tls_hsts_include_subdomains", Int tls_hsts_include_subdomains 1);
   ("tls_alpn_protocols", Text tls_alpn_protocols); ("enable_http2", Int enable_http2 1);
   ("http2_max_concurrent_streams", Int http2_max_concurrent_streams 256);
   ("http2_max_header_list_size", Int http2_max_header_list_size 65536);
   ("http2_initial_window_size", Int http2_initial_window_size 65535);
   ("http2_max_frame_size", Int http2_max_frame_size 16384);
   ("http2_enable_push", Int http2_enable_push 0);
   ("graceful_shutdown_timeout", Int graceful_shutdown_timeout 30); ("ai_model", Ai_model)
  ]%string.


Definition lookup_key (s : list Z) : option key :=
  snd <$> List.find (fun k => streq s (lit k.1)) keys.

(** Which of the allocations for a line succeed. *)
Record line_allocs := mkLineAllocs {
  line_ok : bool; value_ok : bool; models_ok : bool; name_ok : bool; endpoint_ok : bool; env_ok : bool
}.

(** The field before the next bar, and what follows; all of it if there is none. *)
Definition field (p : list Z) : option (list Z) * list Z :=
  match strchr p 124 with
  | Some k => (Some (take k p), drop (S k) p)
  | None => (None, p)
  end.

Definition providers : list (string * string) :=
  [ ("api.groq.com", "groq"); ("api.openai.com", "openai"); ("api.anthropic.com", "anthropic");
    ("generativelanguage", "gemini"); ("api.deepseek.com", "deepseek"); ("api.moonshot.cn", "moonshot");
    ("open.bigmodel.cn", "zhipu"); ("api.perplexity.ai", "perplexity"); ("api.mistral.ai", "mistral");
    ("localhost", "local") ]%string.

Definition provider_of (endpoint : list Z) : list Z :=
  match List.find (fun p => contains endpoint (lit p.1)) providers with
  | Some p => lit p.2
  | None => lit "unknown"
  end.

(** [strdup] of a field. *)
Definition dup (ok : bool) (f : option (list Z)) : option (list Z) := if ok then f else None.

Definition parse_model (al : line_allocs) (value : list Z) : AIModelConfig :=
  let '(name, p) := field value in
  let '(endpoint, p) := field p in
  let '(env, p) := field p in
  let '(toks, p) := field p in
  let endpoint := dup (endpoint_ok al) endpoint in
  mkAIModelConfig (dup (name_ok al) name) endpoint (dup (env_ok al) env)
    (match toks with Some t => parse_int t 4096 | None => 0 end)
    (f_of_d (atof p)) true
    (match strchr p 124 with Some k => parse_int (drop (S k) p) 2 | None => 2 end)
    (match endpoint with Some e => provider_of e | None => [] end).

Definition MAX_API_KEYS : Z := 64.

Definition apply_key (al : line_allocs) (k : option key) (value : list Z) (c : Config) : Z * Config :=
  match k with
  | None => (0, c)
  | Some (Int o fallback) => (0, set_int o (parse_int value fallback) c)
  | Some (Text o) => (0, set_text o (strncpy (Z.to_nat (text_size o - 1)) value) c)
  | Some Log_file => (0, set_log_file (if value_ok al then Some value else None) c)
  | Some Api_key =>
      (0, if (zlen (api_keys c) <? MAX_API_KEYS) && value_ok al then set_api_keys (api_keys c ++ [value]) c else c)
  | Some Ai_model =>
      if models_ok al then
        if value_ok al then (0, set_ai_models (ai_models c ++ [parse_model al value]) c) else (-1, c)
      else (0, c)
  end.

Definition parse_config_line (al : line_allocs) (line : list Z) (c : Config) : Z * Config :=
  if line_ok al then
    match strchr line c_EQUALS with
    | None => (-1, c)
    | Some k =>
        apply_key al (lookup_key (trim_whitespace (take k line))) (trim_whitespace (drop (S k) line)) c
    end
  else (-1, c).

(** ** The file *)

Definition default_int (o : int_option) : Z :=
  match o with
  | port => 8080 | tls_port => 8443 | thread_count => 4 | max_connections => 1024
  | request_timeout => 30000 | buffer_size => 8192 | enable_cache => 1 | cache_size => 1000
  | cache_ttl => 3600 | enable_firewall => 1 | enable_optimization => 1 | max_request_size => 33554432
  | verify_ssl => 1 | enable_iouring => 1 | iouring_queue_depth => 512 | iouring_sqpoll => 0
  | enable_zero_copy => 1 | enable_ratelimiter => 0 | rate_limit_rps => 100 | enable_observability => 1
  | enable_streaming => 1 | enable_smart_routing => 1 | enable_keepalive => 1 | keepalive_timeout => 30
  | worker_threads => 4 | enable_tls => 0 | tls_min_version => 2 | tls_prefer_server_ciphers => 1
  | tls_verify_client => 0 | tls_verify_depth => 10 | tls_enable_ocsp => 0
  | tls_ocsp_refresh_interval => 3600 | tls_session_cache_size => 2048 | tls_enable_renegotiation => 0
  | tls_enable_early_data => 0 | tls_hsts_max_age => 31536000 | tls_hsts_include_subdomains => 1
  | enable_http2 => 1 | http2_max_concurrent_streams => 256 | http2_max_header_list_size => 65536
  | http2_initial_window_size => 65535 | http2_max_frame_size => 16384 | http2_enable_push => 0
  | graceful_shutdown_timeout => 30
  end.

(** [memset] to zero, then the defaults. *)
Definition default_config : Config := mkConfig default_int (fun _ => []) None [] [].

Definition newline (c : Z) : bool := c =? c_LF.

Definition is_comment (line : list Z) : bool := match line with c :: _ => c =? 35 | [] => false end.

(** The result for a line is not looked at. *)
Fixpoint parse_lines (al : nat -> line_allocs) (n : nat) (lines : list (list Z)) (c : Config) : Config :=
  match lines with
  | [] => c
  | l :: lines' =>
      parse_lines al (S n) lines' (if is_comment l then c else snd (parse_config_line (al n) l c))
  end.

(** [file] is what [read_file] gives for a file name, [None] in it if that fails;
    without a file name the structure is left as it was. *)
Definition load_config (al : nat -> line_allocs) (file : option (option (list Z))) (c : Config) : Z * Config :=
  match file with
  | None => (-1, c)
  | Some None => (-1, default_config)
  | Some (Some s) => (0, parse_lines al 0 (tokens newline (cstring s) []) default_config)
  end.

(** The strings are freed, and the structure is filled with zeros. *)
Definition free_config (c : Config) : Config := mkConfig (fun _ => 0) (fun _ => []) None [] [].

(** ** Lemmas: every value is well formed *)

Definition in_int (v : Z) : Prop := 0 <= v <= INT_MAX.

(** No terminator and no newline. *)
Definition one_line (s : list Z) : Prop := Forall (fun c => c <> 0 /\ c <> c_LF) s.

Definition model_ok (m : AIModelConfig) : Prop :=
  in_int (max_tokens m) /\ in_int (tier m) /\ zlen (provider m) < 32 /\ is_available m = true
  /\ provider m = match api_endpoint m with Some e => provider_of e | None => [] end.

Definition config_ok (c : Config) : Prop :=
  (forall o, in_int (ints c o))
  /\ (forall o, one_line (texts c o) /\ zlen (texts c o) < text_size o)
  /\ zlen (api_keys c) <= MAX_API_KEYS /\ Forall one_line (api_keys c) /\ Forall model_ok (ai_models c).

Lemma parse_int_ok s d : in_int d -> in_int (parse_int s d).
Proof.
  unfold parse_int. intros Hd. destruct (scan_long s) as [[v [|c r]]|]; try done.
  destruct (Z.ltb_spec v 0); [done|]. rewrite Z.gtb_ltb. destruct (Z.ltb_spec INT_MAX v); [done|]. simpl.
  split; lia.
Qed.

Lemma provider_of_short e : zlen (provider_of e) < 32.
Proof.
  unfold provider_of. destruct (List.find _ providers) as [p|] eqn:E; [|done].
  apply find_some in E as [E _]. unfold providers in E. repeat (destruct E as [<-|E]; [done|]). done.
Qed.

Lemma parse_model_ok al v : model_ok (parse_model al v).
Proof.
  unfold parse_model. destruct (field v) as [n p1], (field p1) as [e p2], (field p2) as [k p3], (field p3) as [x p4].
  unfold model_ok, max_tokens, tier, provider, is_available, api_endpoint. split_and!.
  - destruct x; [by apply parse_int_ok|done].
  - destruct (strchr p4 124); [by apply parse_int_ok|done].
  - destruct (dup _ e); [apply provider_of_short|done].
  - done.
  - done.
Qed.

Lemma one_line_take n s : one_line s -> one_line (take n s).
Proof. apply Forall_take. Qed.
Lemma one_line_drop n s : one_line s -> one_line (drop n s).
Proof. apply Forall_drop. Qed.

Lemma one_line_skip s : one_line s -> one_line (skip_spaces s).
Proof. induction s as [|c s IH]; simpl; [done|]. intros [? ?]%Forall_cons. destruct (isspace c); [auto|by constructor]. Qed.

Lemma one_line_trim s : one_line s -> one_line (trim_whitespace s).
Proof. intros H. unfold trim_whitespace. apply Forall_rev, one_line_skip, Forall_rev, one_line_skip, H. Qed.

(** The fallback of a number is a number that fits. *)
Lemma fallback_ok s o d : lookup_key s = Some (Int o d) -> in_int d.
Proof.
  unfold lookup_key. destruct (List.find _ keys) as [[k x]|] eqn:E; [|done]. simpl. intros [= ->].
  apply find_some in E as [E _].
  assert (Forall (fun y => match y.2 with Int _ d => in_int d | _ => True end) keys) as F.
  { unfold keys. repeat constructor; simpl; done. }
  rewrite Forall_forall in F. apply (F (k, Int o d)). by apply list_elem_of_In.
Qed.

Lemma apply_key_ok al k v c :
  (forall o d, k = Some (Int o d) -> in_int d) -> one_line v -> config_ok c -> config_ok (apply_key al k v c).2.
Proof.
  intros Hk Hv (Hi & Ht & Hn & Hl & Hm). unfold apply_key. destruct k as [[o d|o| | |]|]; simpl.
  - split; [|done]. intros o'. simpl. destruct (decide (o' = o)); [|done]. by eapply parse_int_ok, Hk.
  - split; [done|]. split; [|done]. intros o'. simpl. destruct (decide (o' = o)) as [->|]; [|apply Ht].
    split; [by apply one_line_take|]. unfold strncpy, zlen. rewrite length_take. destruct o; simpl text_size; lia.
  - done.
  - destruct (Z.ltb_spec (zlen (api_keys c)) MAX_API_KEYS); [|done]. destruct (value_ok al); [|done]. simpl.
    split; [done|]. split; [done|]. simpl. rewrite zlen_snoc. split; [lia|]. split; [|done].
    by apply Forall_app; split; [|repeat constructor].
  - destruct (models_ok al), (value_ok al); try done. simpl. split_and!; try done. simpl.
    apply Forall_app. split; [done|]. constructor; [apply parse_model_ok|constructor].
  - done.
Qed.

Lemma parse_config_line_ok al l c : one_line l -> config_ok c -> config_ok (parse_config_line al l c).2.
Proof.
  intros Hl Hc. unfold parse_config_line. destruct (line_ok al); [|done]. destruct (strchr l c_EQUALS) as [k|]; [|done].
  apply apply_key_ok; [intros o d; apply fallback_ok|by apply one_line_trim, one_line_drop|done].
Qed.

Lemma tokens_one_line s cur : Forall (fun c => c <> 0) s -> one_line cur -> Forall one_line (tokens newline s cur).
Proof.
  revert cur. induction s as [|c s IH]; intros cur Hs Hc; simpl; [by case_decide; repeat constructor|].
  apply Forall_cons in Hs as [H0 Hs]. destruct (newline c) eqn:E; [apply Z.eqb_eq in E|apply Z.eqb_neq in E].
  - case_decide; [|constructor; [done|]]; (apply IH; [done|constructor]).
  - apply IH; [done|]. by apply Forall_app; split; [|repeat constructor].
Qed.

Lemma cstring_no_zero s : Forall (fun c => c <> 0) (cstring s).
Proof. induction s as [|c s IH]; simpl; [done|]. destruct (Z.eqb_spec c 0); [done|]. by constructor. Qed.

Lemma parse_lines_ok al ls : forall n c, Forall one_line ls -> config_ok c -> config_ok (parse_lines al n ls c).
Proof.
  induction ls as [|l ls IH]; intros n c Hl Hc; simpl; [done|]. apply Forall_cons in Hl as [Hl Hls].
  apply IH; [done|]. destruct (is_comment l); [done|by apply parse_config_line_ok].
Qed.

Lemma default_config_ok : config_ok default_config.
Proof. split; [by intros []|]. split; [intros []; (split; [constructor|done])|]. simpl. by repeat constructor. Qed.

(** ** Lemmas: what a printed configuration sets *)

Definition key_name (o : int_option) : list Z :=
  default [] ((fun k => lit k.1) <$> List.find (fun k => match k.2 with Int o' _ => bool_decide (o' = o) | _ => false end) keys).
Definition text_name (o : text_option) : list Z :=
  default [] ((fun k => lit k.1) <$> List.find (fun k => match k.2 with Text o' => bool_decide (o' = o) | _ => false end) keys).

(** What a configuration file is made of. *)
Inductive item : Set :=
| Blank_line
| Comment (text : list Z)
| Set_int (o : int_option) (v : Z)
| Set_text (o : text_option) (s : list Z)
| Set_log (s : list Z)
| Add_key (s : list Z)
| Add_model (name endpoint env : list Z) (toks : Z) (temp : list Z) (t : Z).

Definition bar : list Z := [124].

Definition model_text (name endpoint env : list Z) (toks : Z) (temp : list Z) (t : Z) : list Z :=
  name ++ bar ++ endpoint ++ bar ++ env ++ bar ++ dec toks ++ bar ++ temp ++ bar ++ dec t.

Definition print_item (i : item) : list Z :=
  match i with
  | Blank_line => []
  | Comment s => 35 :: s
  | Set_int o v => key_name o ++ lit " = " ++ dec v
  | Set_text o s => text_name o ++ lit " = " ++ s
  | Set_log s => lit "log_file" ++ lit " = " ++ s
  | Add_key s => lit "api_key" ++ lit " = " ++ s
  | Add_model n e k toks temp t => lit "ai_model" ++ lit " = " ++ model_text n e k toks temp t
  end.

Definition print_config (l : list item) : list Z := concat (map (fun i => print_item i ++ [c_LF]) l).

(** What an item means: the last setting of an option counts; of the keys, the
    first 64. *)
Definition apply_item (c : Config) (i : item) : Config :=
  match i with
  | Blank_line | Comment _ => c
  | Set_int o v => set_int o v c
  | Set_text o s => set_text o s c
  | Set_log s => set_log_file (Some s) c
  | Add_key s => if zlen (api_keys c) <? MAX_API_KEYS then set_api_keys (api_keys c ++ [s]) c else c
  | Add_model n e k toks temp t =>
      set_ai_models (ai_models c ++ [mkAIModelConfig (Some n) (Some e) (Some k) toks (f_of_d (atof (temp ++ bar ++ dec t)))
                                       true t (provider_of e)]) c
  end.

(** No terminator, no newline, and no blank at either end. *)
Definition trimmed (s : list Z) : Prop := one_line s /\ trim_whitespace s = s.

Definition item_ok (i : item) : Prop :=
  match i with
  | Blank_line => True
  | Comment s => one_line s
  | Set_int _ v => in_int v
  | Set_text o s => trimmed s /\ zlen s < text_size o
  | Set_log s | Add_key s => trimmed s
  | Add_model n e k toks temp t =>
      one_line n /\ one_line e /\ one_line k /\ one_line temp /\ in_int toks /\ in_int t
      /\ (124 ∉ n) /\ (124 ∉ e) /\ (124 ∉ k) /\ (124 ∉ temp)
      /\ match n with [] => True | c :: _ => isspace c = false end
  end.

Lemma tokens_run l s cur : Forall (fun c => c <> c_LF) l -> tokens newline (l ++ s) cur = tokens newline s (cur ++ l).
Proof.
  revert cur. induction l as [|c l IH]; intros cur Hl; simpl; [by rewrite app_nil_r|].
  apply Forall_cons in Hl as [Hc Hl]. destruct (newline c) eqn:E; [apply Z.eqb_eq in E|apply Z.eqb_neq in E]; [done|].
  rewrite IH by done. by rewrite <- app_assoc.
Qed.

Lemma one_line_no_newline s : one_line s -> Forall (fun c => c <> c_LF) s.
Proof. intros H. eapply Forall_impl; [exact H|]. by intros c []. Qed.

Lemma parse_one_line al n l s c : one_line l ->
  exists n', parse_lines al n (tokens newline (l ++ c_LF :: s) []) c
             = parse_lines al n' (tokens newline s [])
                 (if decide (l = []) then c else if is_comment l then c else snd (parse_config_line (al n) l c)).
Proof.
  intros Hl. rewrite tokens_run by by apply one_line_no_newline. cbn [app tokens]. change (newline c_LF) with true. cbv iota.
  destruct (decide (l = [])) as [->|Hn]; simpl; [by exists n|]. by exists (S n).
Qed.

Lemma trim_fixed c s d : isspace c = false -> isspace d = false -> trim_whitespace (c :: s ++ [d]) = c :: s ++ [d].
Proof.
  intros Hc Hd. unfold trim_whitespace. rewrite (skip_spaces_nonblank c) by done.
  rewrite app_comm_cons, rev_app_distr. cbn [rev app]. rewrite (skip_spaces_nonblank d) by done.
  cbn [rev]. by rewrite rev_app_distr, rev_involutive.
Qed.

Lemma dec_last v : 0 <= v -> exists s d, dec v = s ++ [d] /\ isspace d = false /\ one_line (dec v) /\ (124 ∉ dec v).
Proof.
  intros Hv. unfold dec. destruct (Z.ltb_spec v 0); [lia|]. destruct (dec_nat_value v Hv) as (F & _ & N).
  destruct (dec_nat v) as [|d s _] using rev_ind; [done|]. exists s, d.
  pose proof F as [_ [Hd _]%Forall_cons]%Forall_app. split; [done|].
  split; [by apply isdigit_not_space in Hd as (? & _)|]. rewrite Forall_forall in F. split.
  - apply Forall_forall. intros c Hc%F. unfold isdigit in Hc. lia.
  - intros Hc%F. done.
Qed.

Lemma parse_int_dec v d : in_int v -> parse_int (dec v) d = v.
Proof.
  unfold in_int, INT_MAX, parse_int. intros Hv. rewrite <- (app_nil_r (dec v)), scan_long_dec by (done || lia).
  destruct (Z.ltb_spec v 0); [lia|]. rewrite Z.gtb_ltb. unfold INT_MAX. by destruct (Z.ltb_spec (2 ^ 31 - 1) v); [lia|].
Qed.

Lemma field_bar n p : 124 ∉ n -> field (n ++ bar ++ p) = (Some n, p).
Proof.
  intros Hn. unfold field, bar. cbn [app]. rewrite strchr_app.
  - by rewrite take_app_length, drop_past.
  - apply Forall_forall. by intros c Hc ->.
Qed.

(** A line for a key of the table. *)
Definition key_line (name : list Z) (k : key) : Prop :=
  lookup_key name = Some k /\ Forall (fun c => c <> c_EQUALS) (name ++ [c_SP]) /\ one_line (name ++ lit " = ")
  /\ trim_whitespace (name ++ [c_SP]) = name /\ is_comment (name ++ lit " = ") = false.

Lemma key_line_parsed al name k value c :
  key_line name k -> trim_whitespace value = value -> line_ok al = true ->
  parse_config_line al (name ++ lit " = " ++ value) c = apply_key al (Some k) value c.
Proof.
  intros (Hk & He & _ & Ht & _) Hv Hl. unfold parse_config_line. rewrite Hl.
  change (name ++ lit " = " ++ value) with (name ++ [c_SP] ++ c_EQUALS :: c_SP :: value).
  rewrite (assoc_L (++)), strchr_app by done.
  rewrite take_app_length, drop_past, Ht, Hk. f_equal. rewrite <- Hv at 2. done.
Qed.

(** Every option has a line of its own in the table. *)
Lemma int_key_line o : exists d, key_line (key_name o) (Int o d).
Proof. destruct o; eexists; (split; [by vm_compute|]); unfold key_line; by repeat constructor. Qed.

Lemma text_key_line o : key_line (text_name o) (Text o).
Proof. destruct o; (split; [by vm_compute|]); by repeat constructor. Qed.

Lemma other_key_lines :
  key_line (lit "log_file") Log_file /\ key_line (lit "api_key") Api_key /\ key_line (lit "ai_model") Ai_model.
Proof. split_and!; (split; [by vm_compute|]); by repeat constructor. Qed.

Definition all_allocs : line_allocs := mkLineAllocs true true true true true true.

Lemma take_fits s o : zlen s < text_size o -> strncpy (Z.to_nat (text_size o - 1)) s = s.
Proof. intros H. unfold strncpy. apply take_ge. unfold zlen in H. lia. Qed.

(** The effect of a printed item, and that it is one line. *)
Definition line_effect (al : line_allocs) (l : list Z) (c : Config) : Config :=
  if decide (l = []) then c else if is_comment l then c else snd (parse_config_line al l c).

Lemma setting_line name k value c :
  key_line name k -> trimmed value ->
  one_line (name ++ lit " = " ++ value)
  /\ line_effect all_allocs (name ++ lit " = " ++ value) c = snd (apply_key all_allocs (Some k) value c).
Proof.
  intros Hk [Hv Ht]. pose proof Hk as (_ & _ & Ho & _ & Hc). split.
  { rewrite (assoc_L (++)). by apply Forall_app. }
  unfold line_effect. rewrite decide_False by (by destruct name).
  replace (is_comment (name ++ lit " = " ++ value)) with false by (by destruct name).
  by rewrite (key_line_parsed _ _ _ _ _ Hk Ht).
Qed.

Lemma dec_trimmed v : in_int v -> trimmed (dec v).
Proof.
  intros [H0 _]. destruct (dec_last v H0) as (s & d & E & Hd & Ho & _). split; [done|].
  destruct (dec_nat_value v H0) as (F & _ & _). unfold dec in *. destruct (Z.ltb_spec v 0); [lia|].
  rewrite E in *. apply Forall_app in F as [F _]. destruct s as [|c s].
  { unfold trim_whitespace. cbn [app]. rewrite skip_spaces_nonblank by done. cbn [rev app].
    by rewrite skip_spaces_nonblank. }
  apply Forall_cons in F as [Hc _]. rewrite <- app_comm_cons. apply trim_fixed; [|done].
  by apply isdigit_not_space in Hc as (? & _).
Qed.

Lemma model_trimmed n e k toks temp t :
  item_ok (Add_model n e k toks temp t) -> trimmed (model_text n e k toks temp t).
Proof.
  intros (Hn & He & Hk & Hp & Htk & Ht & _ & _ & _ & _ & Hb).
  destruct (dec_last t (proj1 Ht)) as (s & d & E & Hd & Ho & _).
  pose proof (dec_trimmed toks Htk) as [Hdo _].
  assert (one_line bar) as Hbar by (by repeat constructor).
  unfold model_text. split.
  { repeat (apply Forall_app; split; [done|]). done. }
  rewrite E, !(assoc_L (++)). set (x := ((((((((((n ++ bar) ++ e) ++ bar) ++ k) ++ bar) ++ dec toks) ++ bar) ++ temp) ++ bar) ++ s)).
  assert (exists c x', x = c :: x' /\ isspace c = false) as (c & x' & -> & Hc).
  { unfold x, bar. rewrite <- !(assoc_L (++)). destruct n as [|c n]; cbn [app]; eauto. }
  rewrite <- app_comm_cons. by apply trim_fixed.
Qed.

Lemma parse_model_text n e k toks temp t :
  item_ok (Add_model n e k toks temp t) ->
  parse_model all_allocs (model_text n e k toks temp t)
  = mkAIModelConfig (Some n) (Some e) (Some k) toks (f_of_d (atof (temp ++ bar ++ dec t))) true t (provider_of e).
Proof.
  intros (_ & _ & _ & _ & Htk & Ht & Hn & He & Hk & Hp & _). unfold parse_model, model_text.
  rewrite (field_bar n), (field_bar e), (field_bar k) by done.
  rewrite (field_bar (dec toks)) by (by destruct (dec_last toks (proj1 Htk)) as (? & ? & ? & ? & ? & ?)).
  unfold bar. cbn [app]. rewrite strchr_app, drop_past.
  - cbn. by rewrite !parse_int_dec.
  - apply Forall_forall. by intros c Hc ->.
Qed.

Lemma item_line i c : item_ok i ->
  one_line (print_item i) /\ line_effect all_allocs (print_item i) c = apply_item c i.
Proof.
  destruct i as [|s|o v|o s|s|s|n e k toks temp t]; intros Hi; cbn [print_item apply_item].
  - by split; [constructor|].
  - split; [by constructor|done].
  - destruct (int_key_line o) as [d Hk]. destruct (setting_line _ _ (dec v) c Hk) as [H1 H2]; [by apply dec_trimmed|].
    split; [done|]. rewrite H2. cbn [apply_key snd]. by rewrite parse_int_dec.
  - destruct Hi as [Hs Hl]. destruct (setting_line _ _ s c (text_key_line o) Hs) as [H1 H2].
    split; [done|]. rewrite H2. cbn [apply_key snd]. by rewrite take_fits.
  - exact (setting_line _ _ s c (proj1 other_key_lines) Hi).
  - destruct (setting_line _ _ s c (proj1 (proj2 other_key_lines)) Hi) as [H1 H2]. split; [done|].
    rewrite H2. cbn [apply_key snd value_ok all_allocs]. by rewrite andb_true_r.
  - pose proof (model_trimmed _ _ _ _ _ _ Hi) as Ht.
    destruct (setting_line _ _ _ c (proj2 (proj2 other_key_lines)) Ht) as [H1 H2].
    split; [done|]. rewrite H2. cbn [apply_key snd value_ok models_ok all_allocs]. by rewrite parse_model_text.
Qed.

Lemma print_config_cons i l : print_config (i :: l) = print_item i ++ c_LF :: print_config l.
Proof. unfold print_config. cbn [map concat]. by rewrite <- app_assoc. Qed.

Lemma print_config_parsed l : forall n c, Forall item_ok l ->
  parse_lines (fun _ => all_allocs) n (tokens newline (print_config l) []) c = fold_left apply_item l c.
Proof.
  induction l as [|i l IH]; intros n c Hl; [done|]. apply Forall_cons in Hl as [Hi Hl].
  destruct (item_line i c Hi) as [H1 H2]. rewrite print_config_cons.
  destruct (parse_one_line (fun _ => all_allocs) n _ (print_config l) c H1) as [n' ->].
  fold (line_effect all_allocs (print_item i) c). rewrite H2. by apply IH.
Qed.

Lemma print_config_clean l : Forall item_ok l -> Forall (fun c => c <> 0) (print_config l).
Proof.
  induction 1 as [|i l Hi _ IH]; [constructor|]. rewrite print_config_cons.
  destruct (item_line i default_config Hi) as [H1 _]. apply Forall_app. split; [|by constructor].
  eapply Forall_impl; [exact H1|]. by intros c [].
Qed.

(** ** Properties *)

(** C4: Whatever is in the file and whatever allocations fail: every number of the
    loaded configuration is a non-negative [int], every text fits its array with
    its terminator and holds no newline, there are at most 64 keys, and every model
    has the provider of its address, which fits too. *)
Theorem loaded_config_well_formed al file c : config_ok (snd (load_config al (Some file) c)).
Proof.
  unfold load_config. destruct file as [s|]; simpl; [|apply default_config_ok].
  apply parse_lines_ok; [|apply default_config_ok]. apply tokens_one_line; [apply cstring_no_zero|constructor].
Qed.


(** A text that is no number gives an option its default again. *)
Theorem bad_number_is_default o d : lookup_key (key_name o) = Some (Int o d) -> d = default_int o.
Proof. destruct o; vm_compute; congruence. Qed.

(** ** Witness *)

Definition demo_items : list item :=
  [Comment (lit " ports"); Set_int port 80; Blank_line; Set_int port 9090; Set_text tls_cert_file (lit "config/cert.pem");
   Add_key (lit "sk-1"); Add_model (lit "gpt-4o") (lit "https://api.openai.com/v1") (lit "OPENAI_API_KEY") 16384 (lit "0.7") 4].

