(* ===== verification/Tokenizer.v ===== *)
(** * The tokenizer: [src/ai/tokenizer.c]

    Text is cut into words, runs of punctuation and numbers, and put together
    again.  What the allocator answers is part of the memory [mem], which also
    counts the blocks that are live, so that what a call leaks can be stated. *)

From S2P Require Import Prelude.

(** ** Data *)

(** [type]: 0 word, 1 punctuation, 2 number. *)
Record Token := mkToken { text : list Z; id : Z; type : Z }.

(** [global_tokenizer]; its vocabulary is never set. *)
Record Tokenizer := mkTokenizer { tokens : ptr (list Token); token_capacity : Z }.

(** ** Memory *)

(** The answers of the allocator, how often it was asked, how many blocks live. *)
Record mem := mkMem { grants : nat -> bool; asked : nat; live : Z }.

Definition new (m : mem) : bool * mem :=
  let ok := grants m (asked m) in (ok, mkMem (grants m) (S (asked m)) (if ok then live m + 1 else live m)).

(** [realloc]: the block moves or stays, their number is the same. *)
Definition resize (m : mem) : bool * mem := (grants m (asked m), mkMem (grants m) (S (asked m)) (live m)).

Definition release (n : Z) (m : mem) : mem := mkMem (grants m) (asked m) (live m - n).

(** ** Classes of characters *)

Definition is_punctuation (c : Z) : bool := existsb (Z.eqb c) (lit ".,!?;:()[]{}'-_" ++ [c_QUOTE]).

Definition is_number_char (c : Z) : bool := isdigit c || (c =? c_DOT).

Definition token_type (c : Z) : Z := if is_punctuation c then 1 else if is_number_char c then 2 else 0.

(** The byte goes on the token of this type. *)
Definition goes_on (ty c : Z) : bool :=
  if ty =? 0 then negb (isspace c || is_punctuation c)
  else if ty =? 1 then is_punctuation c
  else is_number_char c.

(** The longest part at the start whose bytes satisfy a test, and the rest. *)
Fixpoint span (p : Z -> bool) (s : list Z) : list Z * list Z :=
  match s with
  | c :: s' => if p c then let '(a, b) := span p s' in (c :: a, b) else ([], s)
  | [] => ([], [])
  end.

(** ** Cutting a text *)

(** A failed [realloc] gives back the array only. *)
Fixpoint token_loop (fuel : nat) (s : list Z) (capacity : Z) (toks : list Token) (m : mem)
  : option (list Token) * mem :=
  match fuel with
  | O => (None, m)
  | S fuel' =>
      match skip_spaces s with
      | [] => (Some toks, m)
      | c :: s' =>
          let ty := token_type c in
          let '(t, rest) := span (goes_on ty) (c :: s') in
          let '(grown, capacity, m) :=
            if zlen toks >=? capacity then let '(ok, m) := resize m in (ok, 2 * capacity, m)
            else (true, capacity, m) in
          if negb grown then (None, release 1 m)
          else
            let '(ok, m) := new m in
            if negb ok then (None, release (zlen toks + 1) m)
            else token_loop fuel' rest capacity (toks ++ [mkToken t (zlen toks) ty]) m
      end
  end.

(** Every round takes a byte at least. *)
Definition tokenize_text (s : list Z) (m : mem) : option (list Token) * mem :=
  let '(ok, m) := new m in
  if negb ok then (None, m) else token_loop (S (length s)) s 64 [] m.

(** The copies for the caller: what is made so far, and the raw tokens.  On a
    failure the texts of the copies before, or the copy begun, stay allocated. *)
Fixpoint copy_loop (raw : list Token) (done : list Token) (m : mem) : option (list Token) * mem :=
  let n := zlen raw + zlen done in
  match raw with
  | [] => (Some done, release (n + 1) m)
  | t :: raw' =>
      let '(ok, m) := new m in
      if negb ok then (None, release (zlen done + 1 + n + 1) m)
      else
        let '(ok, m) := new m in
        if negb ok then (None, release (2 * zlen done + 1 + n + 1) m)
        else copy_loop raw' (done ++ [mkToken (text t) (id t) (type t)]) m
  end.

(** [None] is -1. *)
Definition tokenizer_tokenize (s : option (list Z)) (m : mem) : option (list Token) * mem :=
  match s with
  | None => (None, m)
  | Some s =>
      let '(raw, m) := tokenize_text s m in
      match raw with
      | None => (None, m)
      | Some raw =>
          let '(ok, m) := new m in
          if negb ok then (None, release (zlen raw + 1) m) else copy_loop raw [] m
      end
  end.

(** Splitting at blanks only: of a token only the text is set. *)
Fixpoint take_tokens (words : list (list Z)) (max : Z) (done : list (list Z)) (m : mem)
  : option (list (list Z)) * mem :=
  match words with
  | [] => (Some done, release 1 m)
  | w :: words' =>
      if zlen done <? max then
        let '(ok, m) := new m in
        if ok : bool then take_tokens words' max (done ++ [w]) m else (None, release (zlen done + 1) m)
      else (Some done, release 1 m)
  end.

Definition blank (c : Z) : bool := (c =? c_SP) || (c =? c_TAB) || (c =? c_LF) || (c =? c_CR).

Definition tokenize_text_optimized (s : list Z) (max_tokens : Z) (m : mem) : option (list (list Z)) * mem :=
  let '(ok, m) := new m in
  if negb ok then (None, m) else take_tokens (Prelude.tokens blank (cstring s) []) max_tokens [] m.

(** ** Putting tokens together *)

(** A blank between two words: [l] are the tokens that follow. *)
Definition spaced (t : Token) (l : list (option Token)) : res bool :=
  match l with
  | [] => Ok false
  | n :: _ =>
      if type t =? 0 then match n with Some n => Ok (type n =? 0) | None => Fault NullDeref end else Ok false
  end.

Fixpoint total_length (l : list (option Token)) (total : Z) : res (option Z) :=
  match l with
  | [] => Ok (Some total)
  | None :: l' => total_length l' total
  | Some t :: l' =>
      if zlen (text t) >? SIZE_MAX - total then Ok None
      else
        let total := total + zlen (text t) in
        sp ← spaced t l';
        if sp : bool then if total >=? SIZE_MAX - 1 then Ok None else total_length l' (total + 1)
        else total_length l' total
  end.

(** The text in the buffer of [size] bytes, with the result. *)
Fixpoint build (size : Z) (l : list (option Token)) (out : list Z) : res (Z * list Z) :=
  match l with
  | [] => Ok (0, out)
  | None :: l' => build size l' out
  | Some t :: l' =>
      if zlen (text t) >=? size - zlen out - 1 then Ok (-1, out)
      else
        let out := out ++ text t in
        sp ← spaced t l';
        if sp : bool then if zlen out >=? size - 1 then Ok (-1, out) else build size l' (out ++ [c_SP])
        else build size l' out
  end.

(** The second part is [None] if the buffer is not touched. *)
Definition tokenizer_detokenize (l : option (list (option Token))) (output_size : Z) : res (Z * option (list Z)) :=
  match l with
  | None | Some [] => Ok (-1, None)
  | Some l =>
      if output_size =? 0 then Ok (-1, None)
      else
        total ← total_length l 0;
        match total with
        | None => Ok (-1, None)
        | Some n =>
            if n >=? output_size then Ok (-1, None)
            else '(r, out) ← build output_size l []; Ok (r, Some out)
        end
  end.

(** ** Freeing *)

(** Nothing at all is freed if there are no tokens. *)
Definition tokenizer_free_tokens (l : list (option Token)) (m : mem) : mem :=
  if zlen l =? 0 then m else release (2 * zlen (omap (fun t => t) l) + 1) m.

Definition tokenizer_free_token (t : option Token) (m : mem) : mem :=
  match t with Some _ => release 2 m | None => m end.

Definition tokenizer_get_type_name (ty : Z) : list Z :=
  if ty =? 0 then lit "word" else if ty =? 1 then lit "punctuation" else if ty =? 2 then lit "number"
  else if ty =? 3 then lit "special" else lit "unknown".

Definition tokenizer_init (m : mem) : Z * Tokenizer * mem :=
  let '(ok, m) := new m in
  if ok : bool then (0, mkTokenizer (PLive []) 1024, m) else (-1, mkTokenizer PNull 1024, m).

(** The array is freed and the pointer kept: no token is ever put in it. *)
Definition tokenizer_cleanup (t : Tokenizer) (m : mem) : res (Tokenizer * mem) :=
  match tokens t with
  | PFreed => Fault UseAfterFree
  | PNull => Ok (t, m)
  | PLive _ => Ok (mkTokenizer PFreed (token_capacity t), release 1 m)
  end.

Definition all_granted : mem := mkMem (fun _ => true) 0 0.

Example demo_tokens :
  option_map (map (fun t => (text t, type t))) (tokenizer_tokenize (Some (lit "it costs 3.50 (now).")) all_granted).1
  = Some [(lit "it", 0); (lit "costs", 0); (lit "3.50", 2); (lit "(", 1); (lit "now", 0); (lit ").", 1)].
Proof. by vm_compute. Qed.

(** ** Lemmas: cutting *)

Lemma span_spec p s : let '(a, b) := span p s in
  s = a ++ b /\ Forall (fun c => p c = true) a /\ match b with c :: _ => p c = false | [] => True end.
Proof.
  induction s as [|c s IH]; simpl; [done|]. destruct (p c) eqn:E; [|done].
  destruct (span p s) as [a b]. destruct IH as (-> & Ha & Hb). by split; [|split; [constructor|]].
Qed.

Lemma span_app p a b :
  Forall (fun c => p c = true) a -> match b with c :: _ => p c = false | [] => True end -> span p (a ++ b) = (a, b).
Proof.
  intros Ha Hb. induction Ha as [|c a Hc _ IH]; simpl.
  - destruct b as [|c b]; [done|]. simpl. by rewrite Hb.
  - by rewrite Hc, IH.
Qed.

Lemma goes_on_first c : isspace c = false -> goes_on (token_type c) c = true.
Proof.
  intros Hs. unfold token_type, goes_on. destruct (is_punctuation c) eqn:Hp; simpl; [done|].
  destruct (is_number_char c) eqn:Hn; simpl; [done|]. by rewrite Hs.
Qed.

Lemma is_punctuation_space c : isspace c = true -> is_punctuation c = false.
Proof.
  unfold isspace. intros H. assert (c = 32 \/ c = 9 \/ c = 10 \/ c = 11 \/ c = 12 \/ c = 13) as Hc by lia.
  by destruct_or! Hc; subst c.
Qed.

Lemma goes_on_not_space ty c : goes_on ty c = true -> isspace c = false.
Proof.
  intros H. destruct (isspace c) eqn:Hs; [|done]. revert H. unfold goes_on. rewrite Hs. destruct (ty =? 0); [done|].
  rewrite is_punctuation_space by done. destruct (ty =? 1); [done|].
  unfold isspace in Hs. unfold is_number_char, isdigit. lia.
Qed.

Lemma skip_spaces_split s : exists b, s = b ++ skip_spaces s /\ Forall (fun c => isspace c = true) b
  /\ match skip_spaces s with c :: _ => isspace c = false | [] => True end.
Proof.
  induction s as [|c s IH]; simpl; [by exists []|]. destruct (isspace c) eqn:E; [|by exists []].
  destruct IH as (b & Hb & F & H). exists (c :: b). simpl. by rewrite <- Hb; split; [|split; [constructor|]].
Qed.

(** The tokens, without the memory. *)
Fixpoint cut (fuel : nat) (s : list Z) (k : Z) : list Token :=
  match fuel with
  | O => []
  | S fuel' =>
      match skip_spaces s with
      | [] => []
      | c :: s' =>
          let '(t, rest) := span (goes_on (token_type c)) (c :: s') in
          mkToken t k (token_type c) :: cut fuel' rest (k + 1)
      end
  end.

Definition tokens_of (s : list Z) : list Token := cut (S (length s)) s 0.

(** A token is not empty, its first byte gives its type, all its bytes belong to it. *)
Definition token_ok (t : Token) : Prop :=
  match text t with
  | [] => False
  | c :: _ => type t = token_type c /\ Forall (fun c => goes_on (type t) c = true) (text t)
  end.

Lemma cut_first c s' :
  isspace c = false ->
  let '(t, rest) := span (goes_on (token_type c)) (c :: s') in
  c :: s' = t ++ rest /\ (forall k, token_ok (mkToken t k (token_type c))) /\ (length rest <= length s')%nat.
Proof.
  intros Hc. pose proof (span_spec (goes_on (token_type c)) (c :: s')) as H. cbn [span] in *.
  rewrite goes_on_first in * by done. destruct (span _ s') as [a b]. destruct H as (E & F & _). split; [done|].
  split; [by intros k|]. injection E as ->. rewrite length_app. lia.
Qed.

Lemma fuel_left (s b : list Z) c (s' rest : list Z) fuel :
  s = b ++ c :: s' -> (length rest <= length s')%nat -> (length s < S fuel)%nat -> (length rest < fuel)%nat.
Proof. intros -> H1 H2. rewrite length_app in H2. simpl in H2. lia. Qed.

(** With enough fuel the tokens are the text without its blanks. *)
Lemma cut_covers fuel : forall s k, (length s < fuel)%nat ->
  concat (map text (cut fuel s k)) = List.filter (fun c => negb (isspace c)) s
  /\ Forall token_ok (cut fuel s k) /\ map id (cut fuel s k) = seqZ k (zlen (cut fuel s k)).
Proof.
  induction fuel as [|fuel IH]; intros s k Hf; [lia|]. cbn [cut].
  destruct (skip_spaces_split s) as (b & Hs & Hb & Hc). destruct (skip_spaces s) as [|c s'] eqn:E.
  { split; [|done]. rewrite Hs, app_nil_r. clear -Hb. induction Hb as [|c b Hc _ IH]; cbn [List.filter]; [done|]. by rewrite Hc. }
  pose proof (cut_first c s' Hc) as H. destruct (span _ (c :: s')) as [t rest]. destruct H as (Ht & Hok & Hl).
  destruct (IH rest (k + 1)) as (H1 & H2 & H3); [by eapply fuel_left|].
  split; [|split].
  - cbn [map concat text]. rewrite H1, Hs, Ht, !List.filter_app.
    replace (List.filter _ b) with (@nil Z) by (clear -Hb; induction Hb as [|d b Hd _ IH]; cbn [List.filter]; [done|]; by rewrite Hd).
    cbn [app]. f_equal. specialize (Hok 0). unfold token_ok in Hok. simpl in Hok. destruct t as [|d t]; [done|].
    destruct Hok as [_ F]. clear -F. induction F as [|x l Hx _ IHl]; cbn [List.filter]; [done|].
    rewrite (goes_on_not_space _ _ Hx). cbn [negb]. by f_equal.
  - by constructor.
  - cbn [map id]. rewrite H3, zlen_cons. rewrite (seqZ_cons k) by (pose proof (zlen_nonneg (cut fuel rest (k + 1))); lia).
    f_equal. f_equal; lia.
Qed.

(** ** Lemmas: memory *)

Definition generous (m : mem) : Prop := forall k, grants m k = true.

Lemma new_generous m : generous m ->
  exists m', new m = (true, m') /\ live m' = live m + 1 /\ generous m'.
Proof. intros H. unfold new. rewrite H. by eexists. Qed.

Lemma resize_generous m : generous m ->
  exists m', resize m = (true, m') /\ live m' = live m /\ generous m'.
Proof. intros H. unfold resize. rewrite H. by eexists. Qed.

Lemma token_loop_generous fuel : forall s cap toks m, (length s < fuel)%nat -> generous m ->
  exists m', token_loop fuel s cap toks m = (Some (toks ++ cut fuel s (zlen toks)), m')
    /\ live m' = live m + zlen (cut fuel s (zlen toks)) /\ generous m'.
Proof.
  induction fuel as [|fuel IH]; intros s cap toks m Hf Hm; [lia|]. cbn [token_loop cut].
  destruct (skip_spaces_split s) as (b & Hs & _ & Hc). destruct (skip_spaces s) as [|c s'].
  { exists m. rewrite app_nil_r. unfold zlen. simpl. split_and!; [done|lia|done]. }
  pose proof (cut_first c s' Hc) as H. destruct (span _ (c :: s')) as [t rest]. destruct H as (_ & _ & Hl).
  assert (exists cap' m1, (if zlen toks >=? cap then let '(ok, m0) := resize m in (ok, 2 * cap, m0) else (true, cap, m))
                          = (true, cap', m1) /\ live m1 = live m /\ generous m1) as (cap' & m1 & -> & L1 & G1).
  { destruct (zlen toks >=? cap); [|by eauto]. destruct (resize_generous m Hm) as (m1 & -> & ? & ?). by eauto. }
  cbn [negb]. destruct (new_generous m1 G1) as (m2 & -> & L2 & G2). cbn [negb].
  destruct (IH rest cap' (toks ++ [mkToken t (zlen toks) (token_type c)]) m2) as (m3 & -> & L3 & G3);
    [by eapply fuel_left|done|].
  rewrite zlen_snoc in *. exists m3. rewrite <- app_assoc, zlen_cons. cbn [app]. split_and!; [done|lia|done].
Qed.

Lemma copy_loop_generous raw : forall done m, generous m ->
  exists m', copy_loop raw done m = (Some (done ++ raw), m') /\ live m' = live m + zlen raw - zlen done - 1 /\ generous m'.
Proof.
  induction raw as [|[t i ty] raw IH]; intros done m Hm; cbn [copy_loop].
  { exists (release (zlen (@nil Token) + zlen done + 1) m). rewrite app_nil_r. unfold release, zlen; simpl.
    split_and!; [done|lia|done]. }
  destruct (new_generous m Hm) as (m1 & -> & L1 & G1). cbn [negb].
  destruct (new_generous m1 G1) as (m2 & -> & L2 & G2). cbn [negb].
  destruct (IH (done ++ [mkToken t i ty]) m2 G2) as (m3 & E & L3 & G3). cbn [text id type].
  exists m3. rewrite E, <- app_assoc. rewrite zlen_snoc in L3. rewrite zlen_cons. split_and!; [done|lia|done].
Qed.

Lemma tokenizer_tokenize_generous s m : generous m ->
  exists m', tokenizer_tokenize (Some s) m = (Some (tokens_of s), m')
    /\ live m' = live m + 2 * zlen (tokens_of s) + 1 /\ generous m'.
Proof.
  intros Hm. unfold tokenizer_tokenize, tokenize_text, tokens_of.
  destruct (new_generous m Hm) as (m1 & -> & L1 & G1). cbn [negb].
  destruct (token_loop_generous (S (length s)) s 64 [] m1) as (m2 & -> & L2 & G2); [lia|done|].
  change (zlen (@nil Token)) with 0 in *. cbn [app].
  destruct (new_generous m2 G2) as (m3 & -> & L3 & G3). cbn [negb].
  destruct (copy_loop_generous (cut (S (length s)) s 0) [] m3 G3) as (m4 & -> & L4 & G4).
  exists m4. change (zlen (@nil Token)) with 0 in *. split_and!; [done|lia|done].
Qed.

(** ** Lemmas: putting together *)

(** The text of tokens: a blank between two words. *)
Fixpoint joined (l : list Token) : list Z :=
  match l with
  | [] => []
  | t :: l' =>
      text t ++ (match l' with
                 | u :: _ => if (type t =? 0) && (type u =? 0) then [c_SP] else []
                 | [] => []
                 end) ++ joined l'
  end.

Lemma spaced_tokens t l :
  spaced t (Some <$> l) = Ok (match l with u :: _ => (type t =? 0) && (type u =? 0) | [] => false end).
Proof. destruct l as [|u l]; simpl; [done|]. by destruct (type t =? 0). Qed.

Lemma total_length_joined l : forall n, n + zlen (joined l) < SIZE_MAX ->
  total_length (Some <$> l) n = Ok (Some (n + zlen (joined l))).
Proof.
  induction l as [|t l IH]; intros n Hn; cbn [fmap list_fmap total_length joined] in *.
  { unfold zlen. simpl. by rewrite Z.add_0_r. }
  change (list_fmap _ _ Some l) with (Some <$> l). rewrite spaced_tokens. cbn [mbind res_bind].
  rewrite !zlen_app in *. pose proof (zlen_nonneg (joined l)).
  rewrite Z.gtb_ltb. destruct (Z.ltb_spec (SIZE_MAX - n) (zlen (text t))).
  { destruct l as [|u l]; [|destruct (_ && _)]; change (zlen [c_SP]) with 1 in *; change (zlen (@nil Z)) with 0 in *; lia. }
  destruct l as [|u l]; [|destruct (_ && _)]; change (zlen [c_SP]) with 1 in *; change (zlen (@nil Z)) with 0 in *.
  - cbn [fmap list_fmap total_length joined]. do 2 f_equal. unfold zlen. simpl. lia.
  - rewrite Z.geb_leb. destruct (Z.leb_spec (SIZE_MAX - 1) (n + zlen (text t))).
    { exfalso. lia. }
    rewrite IH by lia. do 2 f_equal. lia.
  - rewrite IH by lia. do 2 f_equal. lia.
Qed.

Lemma build_joined size l : forall out, l <> [] ->
  exists o, build size (Some <$> l) out = Ok (if zlen out + zlen (joined l) + 1 <? size then 0 else -1, o)
    /\ (zlen out + zlen (joined l) + 1 < size -> o = out ++ joined l).
Proof.
  induction l as [|t l IH]; intros out Hne; [done|]. cbn [fmap list_fmap build joined].
  change (list_fmap _ _ Some l) with (Some <$> l). rewrite spaced_tokens. cbn [mbind res_bind].
  rewrite !zlen_app. pose proof (zlen_nonneg (joined l)).
  rewrite Z.geb_leb. destruct (Z.leb_spec (size - zlen out - 1) (zlen (text t))) as [Hbad|Hok].
  { exists out. pose proof (zlen_nonneg (match l with u :: _ => if (type t =? 0) && (type u =? 0) then [c_SP] else [] | [] => [] end)).
    destruct (Z.ltb_spec (zlen out + (zlen (text t) + (zlen (match l with u :: _ => if (type t =? 0) && (type u =? 0) then [c_SP] else [] | [] => [] end) + zlen (joined l))) + 1) size); [lia|].
    by split; [|lia]. }
  destruct l as [|u l].
  { exists (out ++ text t). cbn [fmap list_fmap build joined]. change (zlen (@nil Z)) with 0. rewrite !app_nil_r.
    destruct (Z.ltb_spec (zlen out + (zlen (text t) + (0 + 0)) + 1) size); [|lia]. done. }
  destruct (_ && _).
  - rewrite Z.geb_leb. destruct (Z.leb_spec (size - 1) (zlen out + zlen (text t))); [lia|].
    destruct (IH ((out ++ text t) ++ [c_SP])) as (o & -> & Ho); [done|].
    rewrite !zlen_app in *. change (zlen [c_SP]) with 1 in *. exists o.
    replace (zlen out + zlen (text t) + 1 + zlen (joined (u :: l)) + 1)
      with (zlen out + (zlen (text t) + (1 + zlen (joined (u :: l)))) + 1) in * by lia.
    split; [done|]. intros Hl. rewrite (Ho Hl), <- !app_assoc. done.
  - destruct (IH (out ++ text t)) as (o & -> & Ho); [done|].
    rewrite !zlen_app in *. change (zlen (@nil Z)) with 0 in *. exists o.
    replace (zlen out + zlen (text t) + zlen (joined (u :: l)) + 1)
      with (zlen out + (zlen (text t) + (0 + zlen (joined (u :: l)))) + 1) in * by lia.
    split; [done|]. intros Hl. rewrite (Ho Hl), <- app_assoc. done.
Qed.

Lemma detokenize_joined l size : l <> [] -> 0 < size <= SIZE_MAX -> zlen (joined l) < size ->
  exists o, tokenizer_detokenize (Some (Some <$> l)) size = Ok (if zlen (joined l) + 1 <? size then 0 else -1, Some o)
    /\ (zlen (joined l) + 1 < size -> o = joined l).
Proof.
  intros Hne Hs Hl. unfold tokenizer_detokenize. destruct l as [|t l]; [done|].
  destruct (build_joined size (t :: l) [] Hne) as (o & E & Ho). change (zlen (@nil Z)) with 0 in *.
  rewrite Z.add_0_l in *. pose proof (total_length_joined (t :: l) 0 ltac:(lia)) as Et. rewrite Z.add_0_l in Et.
  cbn [fmap list_fmap] in *. destruct (Z.eqb_spec size 0); [lia|]. rewrite Et. cbn [mbind res_bind].
  rewrite Z.geb_leb. destruct (Z.leb_spec size (zlen (joined (t :: l)))); [lia|]. rewrite E. by eexists.
Qed.

(** Two tokens next to each other that stay apart: two words, which a blank
    separates, or the first byte of the second does not go on the first. *)
Definition separable (t u : Token) : Prop :=
  (type t = 0 /\ type u = 0) \/ match text u with c :: _ => goes_on (type t) c = false | [] => True end.

(** Tokens numbered from [k], each apart from the next. *)
Fixpoint well_cut (k : Z) (l : list Token) : Prop :=
  match l with
  | [] => True
  | t :: l' => token_ok t /\ id t = k /\ match l' with u :: _ => separable t u | [] => True end /\ well_cut (k + 1) l'
  end.

Lemma cut_joined l : forall fuel k, well_cut k l -> (length (joined l) < fuel)%nat -> cut fuel (joined l) k = l.
Proof.
  induction l as [|[[|c t] i ty] l IH]; intros fuel k Hw Hf; destruct fuel as [|fuel]; try done; try lia.
  { by destruct Hw as [[] _]. }
  destruct Hw as ([Hty F] & Hi & Hsep & Hw). cbn [text id type] in *. subst i.
  cbn [joined text type] in *. set (sp := match l with u :: _ => if _ && _ then [c_SP] else [] | [] => [] end) in *.
  pose proof F as [Hc%goes_on_not_space _]%Forall_cons. cbn [cut].
  rewrite <- app_comm_cons, skip_spaces_nonblank by done. rewrite <- Hty.
  rewrite app_comm_cons, span_app; [|done|].
  - f_equal. assert (cut fuel (sp ++ joined l) (k + 1) = cut fuel (joined l) (k + 1)) as ->.
    { unfold sp. destruct l as [|u l]; [done|]. destruct (_ && _); [|done]. by destruct fuel. }
    apply IH; [done|]. rewrite <- app_comm_cons in Hf. cbn [length] in Hf. rewrite !length_app in Hf. lia.
  - unfold sp. destruct l as [|u l]; [done|]. destruct Hsep as [[E1 E2]|Hsep].
    + cbn [type] in E1. rewrite E1, E2. done.
    + destruct (Z.eqb_spec ty 0) as [->|]; cbn [andb].
      * destruct (type u =? 0); [done|]. destruct Hw as [Hu _]. unfold token_ok in Hu. cbn [joined].
        by destruct (text u).
      * destruct Hw as [Hu _]. unfold token_ok in Hu. cbn [joined]. by destruct (text u).
Qed.

(** ** Properties *)

(** The tokens of a text are the text without its blanks, in order: none is
    empty, each has the type of its first byte and only bytes of that type, and they
    are numbered from 0.  Freeing them gives back all that was allocated - except
    when there are none. *)
Theorem tokenize_covers s m :
  generous m ->
  exists toks m', tokenizer_tokenize (Some s) m = (Some toks, m')
    /\ concat (map text toks) = List.filter (fun c => negb (isspace c)) s
    /\ Forall token_ok toks /\ map id toks = seqZ 0 (zlen toks)
    /\ live (tokenizer_free_tokens (Some <$> toks) m') = live m + (if bool_decide (toks = []) then 1 else 0).
Proof.
  intros Hm. destruct (tokenizer_tokenize_generous s m Hm) as (m' & E & L & _).
  destruct (cut_covers (S (length s)) s 0) as (H1 & H2 & H3); [lia|].
  exists (tokens_of s), m'. split; [done|]. split; [done|]. split; [done|]. split; [done|].
  unfold tokenizer_free_tokens. assert (zlen (Some <$> tokens_of s) = zlen (tokens_of s)) as ->.
  { unfold zlen. by rewrite length_fmap. }
  case_bool_decide as Hn.
  - rewrite Hn in *. simpl. unfold zlen in L. simpl in L. lia.
  - destruct (Z.eqb_spec (zlen (tokens_of s)) 0) as [E0|_].
    { destruct (tokens_of s); [done|]. unfold zlen in E0. simpl in E0. lia. }
    unfold release. cbn [live]. assert (omap (fun t : option Token => t) (Some <$> tokens_of s) = tokens_of s) as ->; [|lia].
    clear. induction (tokens_of s); simpl; [done|]. by f_equal.
Qed.

(** C33: Tokens that stay apart are put together to a text that gives the same tokens
    again, when the buffer has one byte more than the text and its terminator. *)
Theorem detokenize_roundtrip l size m :
  l <> [] -> well_cut 0 l -> zlen (joined l) + 1 < size <= SIZE_MAX -> generous m ->
  exists o, tokenizer_detokenize (Some (Some <$> l)) size = Ok (0, Some o)
    /\ (tokenizer_tokenize (Some o) m).1 = Some l.
Proof.
  intros Hne Hw Hs Hm. pose proof (zlen_nonneg (joined l)).
  destruct (detokenize_joined l size Hne) as (o & E & Ho); [lia|lia|]. exists o.
  rewrite E, (Ho ltac:(lia)). destruct (Z.ltb_spec (zlen (joined l) + 1) size); [|lia]. split; [done|].
  destruct (tokenizer_tokenize_generous (joined l) m Hm) as (m' & -> & _). simpl. f_equal.
  apply cut_joined; [done|lia].
Qed.

(** With a buffer of exactly the text and its terminator, the call fails after it
    has written into the buffer. *)
Theorem exact_buffer_refused l size :
  l <> [] -> zlen (joined l) + 1 = size -> size <= SIZE_MAX ->
  exists o, tokenizer_detokenize (Some (Some <$> l)) size = Ok (-1, Some o).
Proof.
  intros Hne Hs Hm. pose proof (zlen_nonneg (joined l)).
  destruct (detokenize_joined l size Hne) as (o & E & _); [lia|lia|]. exists o. rewrite E.
  by destruct (Z.ltb_spec (zlen (joined l) + 1) size); [lia|].
Qed.

(** Numbers and words that a blank separated run together. *)
Example numbers_merge :
  (match (tokenizer_tokenize (Some (lit "12 34")) all_granted).1 with
   | Some toks => (fun x => (length toks, x)) <$> tokenizer_detokenize (Some (Some <$> toks)) 64
   | None => Fault NullDeref
   end) = Ok (2%nat, (0, Some (lit "1234"))).
Proof. by vm_compute. Qed.

(** Cleaning up twice frees the array twice. *)
Example cleanup_twice :
  (let '(_, t, m) := tokenizer_init all_granted in '(t, m) ← tokenizer_cleanup t m; tokenizer_cleanup t m)
  = Fault UseAfterFree.
Proof. done. Qed.

(** A failed [realloc] leaves the texts of 64 tokens allocated. *)
Example realloc_leaks :
  live (tokenize_text (flat_map (fun _ => lit "a ") (seq 0 65)) (mkMem (fun k => negb (k =? 65)%nat) 0 0)).2 = 64.
Proof. by vm_compute. Qed.

(** ** Witnesses *)

Definition demo_sentence : list Token :=
  [mkToken (lit "it") 0 0; mkToken (lit "costs") 1 0; mkToken (lit "$") 2 0; mkToken (lit "!") 3 1; mkToken (lit "5") 4 2].

Lemma tokenize_covers_witness :
  exists toks m', tokenizer_tokenize (Some (lit " ok, 10.5% ")) all_granted = (Some toks, m') /\ live m' = 9.
Proof.
  destruct (tokenize_covers (lit " ok, 10.5% ") all_granted) as (toks & m' & E & _); [done|].
  exists toks, m'. split; [exact E|].
  assert (live (tokenizer_tokenize (Some (lit " ok, 10.5% ")) all_granted).2 = 9) as L by by vm_compute.
  by rewrite E in L.
Defined.

Lemma detokenize_roundtrip_witness :
  exists o, tokenizer_detokenize (Some (Some <$> demo_sentence)) 64 = Ok (0, Some o)
    /\ (tokenizer_tokenize (Some o) all_granted).1 = Some demo_sentence.
Proof.
  apply (detokenize_roundtrip demo_sentence 64 all_granted); [done| |by vm_compute|done].
  cbn. unfold token_ok, separable. cbn.
  repeat split; try (by left); try (by right); repeat constructor.
Defined.
