(* ===== verification/Stats.v ===== *)
(** * Statistics of the models: [src/ai/stats.c]

    The table of [global_stats] under its mutex, the text of the statistics file,
    and the counters of [stats_update_optimized].  The clock, the answers of the
    allocator and the files are arguments. *)

From S2P Require Import Prelude Double.

(** ** Data *)

Record ModelStats := mkModelStats {
  model_name : ptr (list Z);
  total_requests : Z;
  successful_requests : Z;
  failed_requests : Z;
  avg_response_time : double;
  min_response_time : double;
  max_response_time : double;
  total_tokens_processed : Z;
  last_used : Z
}.

Record StatsCollector := mkStatsCollector {
  model_stats : ptr (list ModelStats);
  model_count : Z;
  model_capacity : Z;
  mutex : mutex_state;
  stats_file : ptr (list Z);
  auto_save_interval : Z;
  last_save_time : Z
}.

(** A static object: all zeros. *)
Definition global_stats : StatsCollector := mkStatsCollector PNull 0 0 Unlocked PNull 0 0.

Definition set_models (l : ptr (list ModelStats)) (n cap : Z) (g : StatsCollector) : StatsCollector :=
  mkStatsCollector l n cap (mutex g) (stats_file g) (auto_save_interval g) (last_save_time g).
Definition set_mutex (m : mutex_state) (g : StatsCollector) : StatsCollector :=
  mkStatsCollector (model_stats g) (model_count g) (model_capacity g) m (stats_file g) (auto_save_interval g)
    (last_save_time g).
Definition set_last_save (t : Z) (g : StatsCollector) : StatsCollector :=
  mkStatsCollector (model_stats g) (model_count g) (model_capacity g) (mutex g) (stats_file g) (auto_save_interval g) t.

Definition lock (g : StatsCollector) : res StatsCollector := m ← mutex_lock (mutex g); Ok (set_mutex m g).
Definition unlock (g : StatsCollector) : StatsCollector := set_mutex Unlocked g.

Definition deref {A} (p : ptr A) : res A :=
  match p with PNull => Fault NullDeref | PFreed => Fault UseAfterFree | PLive a => Ok a end.

(** The entries that the loops look at. *)
Definition entries (g : StatsCollector) : res (list ModelStats) :=
  if model_count g =? 0 then Ok [] else deref (model_stats g).

(** The loop with [strcmp]: the first entry of that name. *)
Fixpoint find_model (n : list Z) (l : list ModelStats) : res (option nat) :=
  match l with
  | [] => Ok None
  | s :: l' =>
      m ← deref (model_name s);
      if streq m n then Ok (Some 0%nat) else r ← find_model n l'; Ok (fmap (M:=option) S r)
  end.

(** ** The file *)

(** [%.2f] of any double. *)
Definition print_2f (d : double) : list Z :=
  match d with
  | S754_infinity s => (if s then lit "-" else []) ++ lit "inf"
  | S754_nan => lit "nan"
  | _ => fixed2 d
  end.

Definition quoted (s : string) : list Z := [c_QUOTE] ++ lit s ++ [c_QUOTE].
Definition line (indent : string) (key : string) (value : list Z) (rest : list Z) : list Z :=
  lit indent ++ quoted key ++ lit ": " ++ value ++ rest ++ [c_LF].

Definition model_text (s : ModelStats) (last : bool) : res (list Z) :=
  n ← deref (model_name s);
  let ind := "      "%string in
  Ok (lit "    {" ++ [c_LF]
      ++ line ind "model_name" ([c_QUOTE] ++ n ++ [c_QUOTE]) (lit ",")
      ++ line ind "total_requests" (dec (total_requests s)) (lit ",")
      ++ line ind "successful_requests" (dec (successful_requests s)) (lit ",")
      ++ line ind "failed_requests" (dec (failed_requests s)) (lit ",")
      ++ line ind "avg_response_time" (print_2f (avg_response_time s)) (lit ",")
      ++ line ind "min_response_time" (print_2f (min_response_time s)) (lit ",")
      ++ line ind "max_response_time" (print_2f (max_response_time s)) (lit ",")
      ++ line ind "total_tokens_processed" (dec (total_tokens_processed s)) (lit ",")
      ++ line ind "last_used" (dec (last_used s)) []
      ++ lit "    }" ++ (if last then [] else lit ",") ++ [c_LF]).

Fixpoint models_text (l : list ModelStats) : res (list Z) :=
  match l with
  | [] => Ok []
  | s :: l' =>
      a ← model_text s (match l' with [] => true | _ => false end);
      b ← models_text l';
      Ok (a ++ b)
  end.

Definition file_head : list Z := lit "{" ++ [c_LF] ++ lit "  " ++ quoted "models" ++ lit ": [" ++ [c_LF].
Definition file_tail : list Z := lit "  ]" ++ [c_LF] ++ lit "}" ++ [c_LF].

(** The text of the file, if it was opened, with the result. *)
Definition save_stats_to_file (filename : ptr (list Z)) (fopen_ok : bool) (g : StatsCollector)
  : res (Z * option (list Z) * StatsCollector) :=
  match filename with
  | PNull => Ok (-1, None, g)
  | PFreed => Fault UseAfterFree
  | PLive _ =>
      if negb fopen_ok then Ok (-1, None, g)
      else
        g ← lock g;
        l ← entries g;
        body ← models_text l;
        Ok (0, Some (file_head ++ body ++ file_tail), unlock g)
  end.

Definition dummy (name : ptr (list Z)) (now : Z) : ModelStats :=
  mkModelStats name 100 95 5 (d_dec 2505 1) (d_of_Z 120) (d_of_Z 800) 15000 now.

Definition dup (ok : bool) (n : list Z) : ptr (list Z) := if ok then PLive n else PNull.

(** The next slot of the array. *)
Definition append (s : ModelStats) (g : StatsCollector) : res StatsCollector :=
  l ← deref (model_stats g);
  if model_count g <? model_capacity g
  then Ok (set_models (PLive (l ++ [s])) (model_count g + 1) (model_capacity g) g)
  else Fault OutOfBounds.

(** [content] is the text of the file, [None] if it can not be opened.  Of the text
    only the key "models" is looked for. *)
Definition load_stats_from_file (filename : ptr (list Z)) (content : option (list Z)) (malloc_ok strdup_ok : bool)
    (now : Z) (g : StatsCollector) : res (Z * StatsCollector) :=
  match filename, content with
  | PFreed, _ => Fault UseAfterFree
  | PNull, _ | _, None => Ok (-1, g)
  | PLive _, Some text =>
      if negb malloc_ok then Ok (-1, g)
      else if negb (contains (cstring text) (quoted "models" ++ lit ":")) then Ok (-1, g)
      else
        g ← lock g;
        g ← (if model_count g <? model_capacity g
             then append (dummy (dup strdup_ok (lit "gpt-3.5-turbo")) now) g else Ok g);
        Ok (0, unlock g)
  end.

(** ** Beginning and end *)

(** What [stats_init] is answered. *)
Record init_env := mkInitEnv {
  calloc_ok : bool; file_name_ok : bool; mutex_ok : bool; content : option (list Z);
  malloc_ok : bool; name_ok : bool; init_now : Z
}.

Definition stats_init (v : init_env) (file : option (list Z)) (interval : Z) (g : StatsCollector)
  : res (Z * StatsCollector) :=
  if negb (calloc_ok v) then Ok (-1, set_models PNull (model_count g) 16 g)
  else
    let name := dup (file_name_ok v) (default (lit "stats.json") file) in
    if negb (mutex_ok v)
    then Ok (-1, mkStatsCollector PFreed 0 16 (mutex g) (match name with PLive _ => PFreed | p => p end)
                   interval (init_now v))
    else
      '(_, g) ← load_stats_from_file name (content v) (malloc_ok v) (name_ok v) (init_now v)
                  (mkStatsCollector (PLive []) 0 16 Unlocked name interval (init_now v));
      Ok (0, g).

(** The names are freed before they are printed. *)
Definition free_name (s : ModelStats) : ModelStats :=
  mkModelStats (match model_name s with PLive _ => PFreed | p => p end) (total_requests s) (successful_requests s)
    (failed_requests s) (avg_response_time s) (min_response_time s) (max_response_time s)
    (total_tokens_processed s) (last_used s).

Definition field (k : string) (v : list Z) : list Z := quoted k ++ lit ":" ++ v.

Definition short_text (s : ModelStats) : res (list Z) :=
  n ← deref (model_name s);
  Ok (lit "    {" ++ field "model_name" ([c_QUOTE] ++ n ++ [c_QUOTE]) ++ lit ","
      ++ field "total_requests" (dec (total_requests s)) ++ lit ","
      ++ field "successful_requests" (dec (successful_requests s)) ++ lit ","
      ++ field "failed_requests" (dec (failed_requests s)) ++ lit ","
      ++ field "avg_response_time" (print_2f (avg_response_time s)) ++ lit "}" ++ [c_LF]).

Fixpoint short_texts (l : list ModelStats) : res (list Z) :=
  match l with
  | [] => Ok []
  | s :: l' => a ← short_text s; b ← short_texts l'; Ok (a ++ b)
  end.

(** The text that is written, and the state: the pointers and the number of models
    are left as they are. *)
Definition stats_cleanup (fopen_ok : bool) (g : StatsCollector) : res (option (list Z) * StatsCollector) :=
  g ← lock g;
  l ← entries g;
  _ ← (if existsb (fun s => match model_name s with PFreed => true | _ => false end) l
       then Fault UseAfterFree else Ok tt);
  let l := map free_name l in
  name ← match stats_file g with PFreed => Fault UseAfterFree | PNull => Ok false | PLive _ => Ok fopen_ok end;
  text ← (if name : bool
          then body ← short_texts l; Ok (Some (file_head ++ body ++ file_tail)) else Ok None);
  match model_stats g with
  | PFreed => Fault UseAfterFree
  | p =>
      Ok (text, mkStatsCollector (match p with PLive _ => PFreed | p => p end) (model_count g) (model_capacity g)
                  Destroyed (match stats_file g with PLive _ => PFreed | p => p end) (auto_save_interval g)
                  (last_save_time g))
  end.

(** ** Recording *)

Definition fresh (name : ptr (list Z)) (now : Z) : ModelStats :=
  mkModelStats name 0 0 0 (d_of_Z 0) (d_of_Z 0) (d_of_Z 0) 0 now.

Definition stats_add_model (n : option (list Z)) (realloc_ok strdup_ok : bool) (now : Z) (g : StatsCollector)
  : res (Z * StatsCollector) :=
  match n with
  | None => Ok (-1, g)
  | Some n =>
      g ← lock g;
      l ← entries g;
      found ← find_model n l;
      match found with
      | Some _ => Ok (0, unlock g)
      | None =>
          let grown :=
            if model_count g >=? model_capacity g then
              if realloc_ok then Some (set_models (PLive l) (model_count g) (i32 (2 * model_capacity g)) g) else None
            else Some g in
          match grown with
          | None => Ok (-1, unlock g)
          | Some g => g ← append (fresh (dup strdup_ok n) now) g; Ok (0, unlock g)
          end
      end
  end.

(** The numbers of a model after an answer in [t] milliseconds. *)
Definition count_success (t : double) (tokens now : Z) (s : ModelStats) : ModelStats :=
  let ok := u64 (successful_requests s + 1) in
  let '(avg, lo, hi) :=
    if deqb (avg_response_time s) (d_of_Z 0) then (t, t, t)
    else (ddiv (dadd (dmul (avg_response_time s) (d_of_Z (u64 (ok - 1)))) t) (d_of_Z ok),
          (if dltb t (min_response_time s) then t else min_response_time s),
          (if dgtb t (max_response_time s) then t else max_response_time s)) in
  mkModelStats (model_name s) (u64 (total_requests s + 1)) ok (failed_requests s) avg lo hi
    (u64 (total_tokens_processed s + tokens)) now.

Definition count_failure (now : Z) (s : ModelStats) : ModelStats :=
  mkModelStats (model_name s) (u64 (total_requests s + 1)) (successful_requests s) (u64 (failed_requests s + 1))
    (avg_response_time s) (min_response_time s) (max_response_time s) (total_tokens_processed s) now.

Definition on_model (n : option (list Z)) (f : ModelStats -> ModelStats) (g : StatsCollector)
  : res (Z * StatsCollector) :=
  match n with
  | None => Ok (-1, g)
  | Some n =>
      g ← lock g;
      l ← entries g;
      found ← find_model n l;
      match found with
      | Some i => Ok (0, unlock (set_models (PLive (alter f i l)) (model_count g) (model_capacity g) g))
      | None => Ok (-1, unlock g)
      end
  end.

Definition stats_record_successful_request (n : option (list Z)) (t : double) (tokens now : Z) :=
  on_model n (count_success t tokens now).

Definition stats_record_failed_request (n : option (list Z)) (now : Z) := on_model n (count_failure now).

(** ** Reading *)

(** The copy of an entry, with a name of its own. *)
Definition copy_model (strdup_ok : bool) (s : ModelStats) : res ModelStats :=
  n ← deref (model_name s);
  Ok (mkModelStats (dup strdup_ok n) (total_requests s) (successful_requests s) (failed_requests s)
        (avg_response_time s) (min_response_time s) (max_response_time s) (total_tokens_processed s) (last_used s)).

Definition stats_get_model_stats (n : option (list Z)) (strdup_ok : bool) (g : StatsCollector)
  : res (Z * option ModelStats * StatsCollector) :=
  match n with
  | None => Ok (-1, None, g)
  | Some n =>
      g ← lock g;
      l ← entries g;
      found ← find_model n l;
      match (found ≫= fun i => l !! i) with
      | Some s => c ← copy_model strdup_ok s; Ok (0, Some c, unlock g)
      | None => Ok (-1, None, unlock g)
      end
  end.

Fixpoint copy_all (strdup_ok : nat -> bool) (k : nat) (l : list ModelStats) : res (list ModelStats) :=
  match l with
  | [] => Ok []
  | s :: l' => c ← copy_model (strdup_ok k) s; r ← copy_all strdup_ok (S k) l'; Ok (c :: r)
  end.

Definition stats_get_all_stats (array_ok : bool) (strdup_ok : nat -> bool) (g : StatsCollector)
  : res (Z * option (list ModelStats) * StatsCollector) :=
  g ← lock g;
  if negb array_ok then Ok (-1, None, unlock g)
  else l ← entries g; c ← copy_all strdup_ok 0 l; Ok (0, Some c, unlock g).

(** ** Saving *)

Definition stats_auto_save (now : Z) (fopen_ok : bool) (g : StatsCollector) : res (Z * option (list Z) * StatsCollector) :=
  if now - last_save_time g >=? auto_save_interval g then
    '(r, text, g) ← save_stats_to_file (stats_file g) fopen_ok g;
    if r =? 0 then Ok (0, text, set_last_save now g) else Ok (-1, text, g)
  else Ok (-1, None, g).

Definition stats_save (fopen_ok : bool) (g : StatsCollector) : res (Z * option (list Z) * StatsCollector) :=
  save_stats_to_file (stats_file g) fopen_ok g.

(** ** Counters *)

Record StatEntry := mkStatEntry { stat_key : ptr (list Z); key_hash : Z; value : Z; timestamp : Z }.
Record Stats := mkStats { stat_entries : list StatEntry; capacity : Z }.

Section Counters.
Variable crc32_asm : list Z -> Z.

(** The hash is compared first, the key only then. *)
Fixpoint find_stat (h : Z) (k : list Z) (l : list StatEntry) : res (option nat) :=
  match l with
  | [] => Ok None
  | e :: l' =>
      if key_hash e =? h then
        k' ← deref (stat_key e);
        if streq k' k then Ok (Some 0%nat) else r ← find_stat h k l'; Ok (fmap (M:=option) S r)
      else r ← find_stat h k l'; Ok (fmap (M:=option) S r)
  end.

Definition add_value (v now : Z) (e : StatEntry) : StatEntry :=
  mkStatEntry (stat_key e) (key_hash e) (u64 (value e + v)) now.

Definition stats_update_optimized (k : list Z) (v now : Z) (strdup_ok : bool) (s : Stats) : res Stats :=
  let h := crc32_asm k in
  found ← find_stat h k (stat_entries s);
  match found with
  | Some i => Ok (mkStats (alter (add_value v now) i (stat_entries s)) (capacity s))
  | None =>
      if zlen (stat_entries s) >=? capacity s then Ok s
      else Ok (mkStats (stat_entries s ++ [add_value v now (mkStatEntry (dup strdup_ok k) h 0 now)]) (capacity s))
  end.
End Counters.

(** ** Lemmas: the table *)

Definition named (n : list Z) (s : ModelStats) : bool := match model_name s with PLive m => streq m n | _ => false end.

Definition has_name (s : ModelStats) : Prop := match model_name s with PLive _ => True | _ => False end.

Lemma find_model_index n l : Forall has_name l -> find_model n l = Ok (find_index (named n) l).
Proof.
  induction 1 as [|s l Hs _ IH]; [done|]. cbn [find_model find_index]. unfold has_name in Hs. unfold named at 1.
  destruct (model_name s) as [|m|]; try done. cbn [deref mbind res_bind]. rewrite IH. by destruct (streq m n).
Qed.

(** The collector holds the entries [l]. *)
Definition holds (l : list ModelStats) (g : StatsCollector) : Prop :=
  mutex g = Unlocked /\ model_stats g = PLive l /\ model_count g = zlen l /\ Forall has_name l
  /\ zlen l <= model_capacity g /\ 0 < model_capacity g <= 16 * 2 ^ 26.

Lemma holds_lock l g : holds l g -> lock g = Ok (set_mutex Locked g) /\ entries (set_mutex Locked g) = Ok l.
Proof.
  intros (Hm & Hl & Hn & _). unfold lock, entries. rewrite Hm. split; [done|]. simpl. rewrite Hl, Hn.
  destruct (Z.eqb_spec (zlen l) 0) as [E|]; [|done]. by destruct l.
Qed.

Lemma holds_relock l g : holds l g -> holds l (unlock (set_mutex Locked g)).
Proof. intros (_ & H). split; [done|exact H]. Qed.

(** What is known of a model is its first entry. *)
Definition known (n : list Z) (l : list ModelStats) : option ModelStats := List.find (named n) l.

Lemma known_index n l : known n l = find_index (named n) l ≫= fun i => l !! i.
Proof.
  unfold known. induction l as [|s l IH]; [done|]. simpl. destruct (named n s); [done|]. rewrite IH.
  by destruct (find_index (named n) l).
Qed.

Lemma named_unique n n' s : named n s = true -> named n' s = bool_decide (n' = n).
Proof.
  unfold named. destruct (model_name s) as [|m|]; try done. intros ->%streq_true. unfold streq.
  apply bool_decide_ext. naive_solver.
Qed.

(** Changing the entry of one model changes what is known of it alone. *)
Lemma known_alter n n' f l i :
  (forall s, model_name (f s) = model_name s) -> find_index (named n) l = Some i ->
  known n' (alter f i l) = if decide (n' = n) then f <$> known n l else known n' l.
Proof.
  intros Hf. revert i. induction l as [|s l IH]; intros i Hi; [done|]. unfold known in *. cbn [find_index] in Hi. simpl List.find.
  destruct (named n s) eqn:E.
  - injection Hi as <-. cbn [alter list_alter List.find].
    assert (named n' (f s) = named n' s) as -> by (unfold named; by rewrite Hf).
    rewrite (named_unique n n' s E). case_bool_decide; case_decide; done.
  - destruct (find_index (named n) l) as [j|]; [|done]. injection Hi as <-. simpl.
    destruct (named n' s) eqn:E'.
    + case_decide as D; [subst; congruence|done].
    + apply IH. done.
Qed.

Lemma known_append n l s : known n (l ++ [s]) = match known n l with Some x => Some x | None => if named n s then Some s else None end.
Proof. unfold known. induction l as [|x l IH]; simpl; [done|]. by destruct (named n x). Qed.

Lemma Forall_has_name_alter f i l :
  (forall s, model_name (f s) = model_name s) -> Forall has_name l -> Forall has_name (alter f i l).
Proof.
  intros Hf Hl. revert i. induction Hl as [|s l Hs Hl IH]; intros [|i]; simpl; constructor; try done; [|by apply IH].
  unfold has_name. by rewrite Hf.
Qed.

Lemma holds_change l l' g : holds l g -> Forall has_name l' -> zlen l' = zlen l ->
  holds l' (unlock (set_models (PLive l') (model_count (set_mutex Locked g)) (model_capacity (set_mutex Locked g)) (set_mutex Locked g))).
Proof. intros (_ & _ & Hn & _ & Hc & Hp) Hl E. unfold holds; simpl. rewrite E. by split_and!; try lia. Qed.

(** ** A model of the table *)

(** The calls that record; every one with its time. *)
Inductive stats_op : Set :=
| Add (n : list Z) (now : Z)
| Success (n : list Z) (t : double) (tokens now : Z)
| Failure (n : list Z) (now : Z).

Definition exec (o : stats_op) (g : StatsCollector) : res (Z * StatsCollector) :=
  match o with
  | Add n now => stats_add_model (Some n) true true now g
  | Success n t tokens now => stats_record_successful_request (Some n) t tokens now g
  | Failure n now => stats_record_failed_request (Some n) now g
  end.

(** What the calls say of one model. *)
Definition account_step (n : list Z) (a : option ModelStats) (o : stats_op) : option ModelStats :=
  match o with
  | Add n' now => if decide (n' = n) then Some (default (fresh (PLive n) now) a) else a
  | Success n' t tokens now => if decide (n' = n) then count_success t tokens now <$> a else a
  | Failure n' now => if decide (n' = n) then count_failure now <$> a else a
  end.

Definition account (n : list Z) (start : option ModelStats) (ops : list stats_op) : option ModelStats :=
  fold_left (account_step n) ops start.

(** What the table starts with: nothing, or one made-up model when there is a file that names "models". *)
Definition loaded (v : init_env) : list ModelStats :=
  match content v with
  | Some text =>
      if file_name_ok v && malloc_ok v && contains (cstring text) (quoted "models" ++ lit ":")
      then [dummy (PLive (lit "gpt-3.5-turbo")) (init_now v)] else []
  | None => []
  end.

Fixpoint exec_all (ops : list stats_op) (g : StatsCollector) : res StatsCollector :=
  match ops with
  | [] => Ok g
  | o :: ops' => '(_, g) ← exec o g; exec_all ops' g
  end.

Lemma on_model_holds n f l g :
  holds l g -> (forall s, model_name (f s) = model_name s) ->
  exists c l' g', on_model (Some n) f g = Ok (c, g') /\ holds l' g' /\ zlen l' = zlen l
    /\ forall n', known n' l' = if decide (n = n') then f <$> known n' l else known n' l.
Proof.
  intros H Hf. destruct (holds_lock l g H) as [E1 E2]. pose proof H as (_ & _ & _ & Hl & _).
  unfold on_model. rewrite E1. cbn [mbind res_bind]. rewrite E2. cbn [mbind res_bind].
  rewrite find_model_index by done. cbn [mbind res_bind].
  destruct (find_index (named n) l) as [i|] eqn:Ei.
  - eexists _, (alter f i l), _. split; [done|].
    split; [apply (holds_change l); [done|by apply Forall_has_name_alter|unfold zlen; by rewrite length_alter]|].
    split; [unfold zlen; by rewrite length_alter|].
    intros n'. rewrite (known_alter n n' f l i) by done.
    destruct (decide (n' = n)) as [->|]; [by rewrite decide_True|by rewrite decide_False by done].
  - eexists _, l, _. split; [done|]. split; [by apply holds_relock|split; [done|]].
    intros n'. case_decide as D; [|done]. subst n'. by rewrite known_index, Ei.
Qed.

Lemma add_model_holds n now l g :
  holds l g -> zlen l < 2 ^ 29 ->
  exists c l' g', stats_add_model (Some n) true true now g = Ok (c, g') /\ holds l' g' /\ zlen l' <= zlen l + 1
    /\ forall n', known n' l' = if decide (n = n') then Some (default (fresh (PLive n') now) (known n' l)) else known n' l.
Proof.
  intros H Hn. destruct (holds_lock l g H) as [E1 E2]. pose proof H as (Hm & Hs & Hc & Hl & Hcap & Hp).
  unfold stats_add_model. rewrite E1. cbn [mbind res_bind]. rewrite E2. cbn [mbind res_bind].
  rewrite find_model_index by done. cbn [mbind res_bind].
  destruct (find_index (named n) l) as [i|] eqn:Ei.
  - eexists _, l, _. split; [done|]. split; [by apply holds_relock|]. split; [lia|].
    intros n'. case_decide; [subst n'|done]. rewrite known_index, Ei. simpl. by destruct (find_index_Some _ _ _ Ei) as (s & -> & _).
  - set (s := fresh (PLive n) now). pose proof (zlen_nonneg l).
    assert (exists g1, (if model_count (set_mutex Locked g) >=? model_capacity (set_mutex Locked g)
              then Some (set_models (PLive l) (model_count (set_mutex Locked g))
                           (i32 (2 * model_capacity (set_mutex Locked g))) (set_mutex Locked g))
              else Some (set_mutex Locked g)) = Some g1
            /\ model_stats g1 = PLive l /\ model_count g1 = zlen l /\ zlen l < model_capacity g1 <= 16 * 2 ^ 26) as (g1 & -> & A1 & A2 & A3).
    { simpl. rewrite Hc, Z.geb_leb. destruct (Z.leb_spec (model_capacity g) (zlen l)); eexists; (split; [done|]); simpl.
      - rewrite i32_small by (unfold INT_MAX; lia). split_and!; [done|done|lia|lia].
      - split_and!; [done|done|lia|lia]. }
    unfold append. rewrite A1. cbn [deref mbind res_bind]. rewrite A2.
    rewrite (proj2 (Z.ltb_lt _ _)) by lia. cbn [mbind res_bind].
    eexists _, (l ++ [s]), _. split; [done|]. split; [|split; [rewrite zlen_snoc; lia|]].
    + unfold holds; simpl. rewrite zlen_snoc. split_and!; try done; try lia. apply Forall_app. split; [done|by repeat constructor].
    + intros n'. rewrite known_append. unfold s at 1. unfold named, fresh. cbn [model_name].
      case_decide as D; [subst n'; rewrite streq_refl; by destruct (known n l)|].
      destruct (known n' l); [done|]. by rewrite (proj2 (streq_false n n') D).
Qed.

Lemma exec_holds o l g : holds l g -> zlen l < 2 ^ 29 ->
  exists c l' g', exec o g = Ok (c, g') /\ holds l' g' /\ zlen l' <= zlen l + 1
    /\ forall n, known n l' = account_step n (known n l) o.
Proof.
  intros H Hn. destruct o as [n now|n t tokens now|n now]; simpl.
  - by apply add_model_holds.
  - destruct (on_model_holds n (count_success t tokens now) l g H) as (c & l' & g' & E & H' & Hz & Hk).
    { intros s. unfold count_success. by destruct (deqb _ _). }
    exists c, l', g'. by split_and!; [..|lia|].
  - destruct (on_model_holds n (count_failure now) l g H) as (c & l' & g' & E & H' & Hz & Hk); [done|].
    exists c, l', g'. by split_and!; [..|lia|].
Qed.

Lemma exec_all_holds ops : forall l g, holds l g -> zlen l + zlen ops <= 2 ^ 29 ->
  exists l' g', exec_all ops g = Ok g' /\ holds l' g'
    /\ forall n, known n l' = fold_left (account_step n) ops (known n l).
Proof.
  induction ops as [|o ops IH]; intros l g H Hn; [by exists l, g|]. rewrite zlen_cons in Hn. pose proof (zlen_nonneg ops).
  destruct (exec_holds o l g H) as (c & l1 & g1 & E & H1 & Hz & Hk); [lia|].
  destruct (IH l1 g1 H1) as (l2 & g2 & E2 & H2 & Hk2); [lia|]. exists l2, g2. cbn [exec_all]. rewrite E. cbn [mbind res_bind].
  split; [done|]. split; [done|]. intros n. by rewrite Hk2, Hk.
Qed.

Lemma copy_named n l s : known n l = Some s -> copy_model true s = Ok s.
Proof.
  intros [_ H]%List.find_some. unfold named in H. unfold copy_model. destruct s as [[|m|] ? ? ? ? ? ? ? ?]; done.
Qed.

Lemma get_known n l g : holds l g ->
  fst <$> stats_get_model_stats (Some n) true g
  = Ok (match known n l with Some s => (0, Some s) | None => (-1, None) end).
Proof.
  intros H. destruct (holds_lock l g H) as [E1 E2]. pose proof H as (_ & _ & _ & Hl & _).
  unfold stats_get_model_stats. rewrite E1. cbn [mbind res_bind]. rewrite E2. cbn [mbind res_bind].
  rewrite find_model_index by done. cbn [mbind res_bind]. rewrite <- known_index.
  destruct (known n l) as [s|] eqn:E; [|done]. by rewrite (copy_named n l s E).
Qed.

Lemma account_totals n ops : forall a,
  (forall s, a = Some s -> total_requests s = u64 (successful_requests s + failed_requests s)) ->
  forall s, fold_left (account_step n) ops a = Some s -> total_requests s = u64 (successful_requests s + failed_requests s).
Proof.
  induction ops as [|o ops IH]; intros a Ha s Hs; [by apply Ha|]. cbn [fold_left] in Hs. eapply IH; [|exact Hs].
  assert (forall x y, u64 (u64 x + y) = u64 (x + y)) as U1 by apply u64_idem_add.
  assert (forall x y, u64 (x + u64 y) = u64 (x + y)) as U2.
  { intros x y. rewrite Z.add_comm, U1. f_equal. lia. }
  intros s' H. destruct o as [n' now|n' t tokens now|n' now]; simpl in H; case_decide; try by apply Ha.
  - injection H as <-. destruct a as [x|]; simpl; [by apply Ha|done].
  - destruct a as [x|]; [|done]. injection H as <-. unfold count_success. specialize (Ha x eq_refl).
    destruct (deqb _ _); simpl; rewrite Ha, !U1; f_equal; lia.
  - destruct a as [x|]; [|done]. injection H as <-. simpl. rewrite (Ha x eq_refl), U1, U2. f_equal. lia.
Qed.

Lemma init_loaded v file interval g0 g :
  stats_init v file interval g0 = Ok (0, g) -> name_ok v = true -> holds (loaded v) g.
Proof.
  unfold stats_init, load_stats_from_file, loaded. intros E Hn. destruct (calloc_ok v); [|done]. destruct (mutex_ok v); [|done].
  cbn [negb] in E. rewrite Hn in E.
  destruct (file_name_ok v), (content v) as [text|]; try (injection E as <-; by repeat split).
  destruct (malloc_ok v); [|injection E as <-; by repeat split]. cbn [negb andb] in *.
  destruct (contains _ _); injection E as <-; [|by repeat split]. unfold holds; simpl. split_and!; try done. by repeat constructor.
Qed.

Lemma loaded_totals v n s : known n (loaded v) = Some s -> total_requests s = u64 (successful_requests s + failed_requests s).
Proof.
  unfold loaded. destruct (content v); [|done]. destruct (_ && _); [|done]. unfold known. simpl. by destruct (named n _); intros [= <-].
Qed.

(** ** Properties *)

(** C34: The table refines an account for each model.  A successful start leaves in it
    what [loaded] says: nothing, or, when a statistics file with the word "models" can be read, the one made-up
    model of the loader (no number of the file is used).  After at most 2^29 calls that add models and record their
    requests, in any order, none of whose allocations fails, what is returned for a model is what
    [loaded] and its own calls since it was added say - nothing if it was never added or loaded - and its
    successful and failed requests add up to all of them (modulo 2^64, as the counters are). *)
Theorem stats_refine_accounts v file interval g0 g ops :
  stats_init v file interval g0 = Ok (0, g) -> name_ok v = true -> zlen ops < 2 ^ 29 ->
  exists g', exec_all ops g = Ok g'
    /\ forall n, let a := account n (known n (loaded v)) ops in
        fst <$> stats_get_model_stats (Some n) true g' = Ok (match a with Some s => (0, Some s) | None => (-1, None) end)
        /\ (forall s, a = Some s -> total_requests s = u64 (successful_requests s + failed_requests s)).
Proof.
  intros Hi Hc Hn. pose proof (init_loaded _ _ _ _ _ Hi Hc) as H.
  assert (zlen (loaded v) <= 1) as Hl by (unfold loaded; destruct (content v); [destruct (_ && _)|]; done).
  destruct (exec_all_holds ops (loaded v) g H ltac:(lia)) as (l & g' & E & H' & Hk).
  exists g'. split; [done|]. intros n. rewrite (get_known n l g' H'), Hk. split; [done|].
  apply account_totals, loaded_totals.
Qed.

Lemma file_head_clean : Forall (fun c => c <> 0) file_head.
Proof. by repeat constructor. Qed.

Lemma contains_head t : contains (file_head ++ t) (quoted "models" ++ lit ":") = true.
Proof.
  apply contains_spec. exists (lit "{" ++ [c_LF] ++ lit "  "), (lit " [" ++ [c_LF] ++ t).
  unfold file_head. by rewrite <- !app_assoc.
Qed.

(** What was saved is never read back: when the file that a collector wrote is
    there at the next start, the table holds one made-up model and nothing else. *)
Theorem saved_stats_forgotten g fopen_ok text g1 v file interval g0 :
  stats_save fopen_ok g = Ok (0, Some text, g1) -> content v = Some text ->
  calloc_ok v = true -> file_name_ok v = true -> mutex_ok v = true -> malloc_ok v = true -> name_ok v = true ->
  exists g2, stats_init v file interval g0 = Ok (0, g2)
    /\ holds [dummy (PLive (lit "gpt-3.5-turbo")) (init_now v)] g2.
Proof.
  intros Hs Hc H1 H2 H3 H4 H5.
  assert (exists body, text = file_head ++ body) as [body ->].
  { unfold stats_save, save_stats_to_file in Hs. destruct (stats_file g); try done. destruct (negb fopen_ok); [done|].
    destruct (lock g) as [gl|]; [|done]. cbn [mbind res_bind] in Hs. destruct (entries gl) as [l|]; [|done].
    cbn [mbind res_bind] in Hs. destruct (models_text l) as [b|]; [|done]. injection Hs as <- _. by eexists. }
  unfold stats_init, load_stats_from_file. rewrite H1, H2, H3, H4, H5, Hc. cbn [negb dup].
  rewrite cstring_past by apply file_head_clean. rewrite contains_head. cbn [negb].
  eexists. split; [done|]. unfold holds. simpl. split_and!; try done. by repeat constructor.
Qed.

(** The clean-up frees the names of the models and then prints them: with a model in
    the table and a file that opens it reads freed memory. *)
Theorem cleanup_reads_freed l g f :
  holds l g -> l <> [] -> stats_file g = PLive f -> stats_cleanup true g = Fault UseAfterFree.
Proof.
  intros H Hne Hf. destruct (holds_lock l g H) as [E1 E2]. pose proof H as (_ & _ & _ & Hl & _).
  unfold stats_cleanup. rewrite E1. cbn [mbind res_bind]. rewrite E2. cbn [mbind res_bind].
  replace (existsb _ l) with false.
  2:{ symmetry. apply not_true_iff_false. intros (s & Hs & Hp)%existsb_exists. rewrite Forall_forall in Hl.
      specialize (Hl s (proj2 (list_elem_of_In _ _) Hs)). unfold has_name in Hl. by destruct (model_name s). }
  cbn [mbind res_bind]. cbn [stats_file set_mutex]. rewrite Hf. cbn [mbind res_bind].
  destruct l as [|s l]; [done|]. apply Forall_cons in Hl as [Hs _]. unfold has_name in Hs.
  by destruct s as [[|nm|] ? ? ? ? ? ? ? ?].
Qed.

(** ** Witnesses *)

Definition demo_init : init_env :=
  mkInitEnv true true true (Some (lit "{" ++ quoted "models" ++ lit ": []}")) true true 1000.
Definition first_init : init_env := mkInitEnv true true true None true true 1000.

Definition demo_ops : list stats_op :=
  [Success (lit "m") (d_of_Z 9) 5 1; Add (lit "m") 2; Success (lit "m") (d_of_Z 100) 10 3; Add (lit "x") 4;
   Failure (lit "m") 5; Success (lit "m") (d_of_Z 200) 20 6].

Lemma stats_refine_accounts_witness :
  exists g g', stats_init demo_init None 300 global_stats = Ok (0, g) /\ exec_all demo_ops g = Ok g'
    /\ fst <$> stats_get_model_stats (Some (lit "m")) true g'
       = Ok (0, Some (mkModelStats (PLive (lit "m")) 3 2 1 (d_of_Z 150) (d_of_Z 100) (d_of_Z 200) 30 6))
    /\ fst <$> stats_get_model_stats (Some (lit "gpt-3.5-turbo")) true g'
       = Ok (0, Some (dummy (PLive (lit "gpt-3.5-turbo")) 1000)).
Proof.
  destruct (stats_init demo_init None 300 global_stats) as [[c g]|] eqn:E; [|done].
  destruct (stats_refine_accounts demo_init None 300 global_stats g demo_ops) as (g' & E' & H);
    [by injection E as <- <-|done|done|].
  exists g, g'. split; [by injection E as <- <-|]. split; [exact E'|].
  split; [rewrite (proj1 (H (lit "m")))|rewrite (proj1 (H (lit "gpt-3.5-turbo")))]; by vm_compute.
Defined.

Definition demo_collector : StatsCollector :=
  mkStatsCollector (PLive [fresh (PLive (lit "m")) 7]) 1 16 Unlocked (PLive (lit "f")) 300 0.

Definition saved_text : list Z :=
  Eval vm_compute in match stats_save true demo_collector with Ok (_, Some t, _) => t | _ => [] end.

Lemma saved_stats_forgotten_witness :
  exists g2, stats_init (mkInitEnv true true true (Some saved_text) true true 1000) None 300 global_stats = Ok (0, g2)
    /\ holds [dummy (PLive (lit "gpt-3.5-turbo")) 1000] g2.
Proof.
  apply (saved_stats_forgotten demo_collector true saved_text demo_collector
           (mkInitEnv true true true (Some saved_text) true true 1000) None 300 global_stats);
    [by vm_compute|done..].
Defined.

Lemma cleanup_reads_freed_witness :
  stats_cleanup true demo_collector = Fault UseAfterFree.
Proof.
  apply (cleanup_reads_freed [fresh (PLive (lit "m")) 7] _ (lit "f")); [by repeat (split || constructor)|done|done].
Defined.

Example demo_counters :
  (fun s => map value (stat_entries s)) <$>
    (s ← stats_update_optimized zlen (lit "ab") 3 1 true (mkStats [] 2);
     s ← stats_update_optimized zlen (lit "cd") 4 2 true s;
     s ← stats_update_optimized zlen (lit "ab") 5 3 true s;
     stats_update_optimized zlen (lit "ef") 6 4 true s) = Ok [8; 4].
Proof. done. Qed.
