(* ===== verification/Utils.v ===== *)
(** * Utilities: [src/utils.c]

    Reading files, the clock, random strings, numbers in any base, the log, the pool
    of strings, replacing text and the processor's features.  Files, clocks, the
    generator [rand_r], the allocator and [cpuid] are arguments. *)

From S2P Require Import Prelude.

(** ** Files *)

(** What the calls of the system answer for a file; an [errno] where they fail. *)
Record file_env := mkFileEnv {
  access_errno : option Z; fopen_errno : option Z; fseek_errno : option Z; ftell_size : Z;
  calloc_ok : bool; fread_bytes : list Z
}.

Definition EIO : Z := 5.
Definition ENOMEM : Z := 12.
Definition EFBIG : Z := 27.

Record file_read := mkFileRead { read_bytes : option (list Z); out_size : Z; error_code : Z }.

Definition read_file_ex (filename : option (list Z)) (v : file_env) : option file_read :=
  match filename with
  | None => None
  | Some _ =>
      let failed e := Some (mkFileRead None 0 e) in
      match access_errno v, fopen_errno v, fseek_errno v with
      | Some e, _, _ | None, Some e, _ | None, None, Some e => failed e
      | None, None, None =>
          let n := ftell_size v in
          if (n <? 0) || (n >? INT_MAX) then failed EFBIG
          else if negb (calloc_ok v) then failed ENOMEM
          else if negb (zlen (fread_bytes v) =? n) then failed EIO
          else Some (mkFileRead (Some (fread_bytes v ++ [0])) n 0)
      end
  end.

(** The string a caller sees. *)
Definition read_file (filename : option (list Z)) (v : file_env) : option (list Z) :=
  read_file_ex filename v ≫= fun r => cstring <$> read_bytes r.

(** ** Time *)

Definition get_current_time_ns (tv_sec tv_nsec : Z) : Z := u64 (u64 tv_sec * 1000000000 + u64 tv_nsec).
Definition get_current_time_us (tv_sec tv_nsec : Z) : Z := get_current_time_ns tv_sec tv_nsec / 1000.
Definition get_current_time_ms (tv_sec tv_nsec : Z) : Z := get_current_time_ns tv_sec tv_nsec / 1000000.

(** ** Random strings *)

Definition charset : list Z := lit "abcdefghijklmnopqrstuvwxyzABCDEFGHIJKLMNOPQRSTUVWXYZ0123456789".

Section Random.
(** [rand_r]: a number and the next seed. *)
Variable rand_r : Z -> Z * Z.

Fixpoint random_bytes (n : nat) (seed : Z) : list Z * Z :=
  match n with
  | O => ([], seed)
  | S n' =>
      let '(r, seed) := rand_r seed in
      let '(l, seed) := random_bytes n' seed in
      (default 0 (znth charset (r mod 62)) :: l, seed)
  end.

(** The bytes written to the buffer and the seed of the thread; [entropy] is the
    time and the thread's number. *)
Definition generate_random_string_safe (buffer : bool) (length entropy seed : Z) : option (list Z) * Z :=
  if negb buffer || (length =? 0) then (None, seed)
  else
    let seed := if seed =? 0 then u32 entropy else seed in
    let '(l, seed) := random_bytes (Z.to_nat (length - 1)) seed in
    (Some (l ++ [0]), seed).
End Random.

(** ** Numbers *)

Definition INT_MIN : Z := - 2 ^ 31.
Definition LONG_MAX : Z := 2 ^ 63 - 1.

Definition digit_in (base c : Z) : option Z :=
  let v := if isdigit c then c - 48 else if isalpha c then tolower c - 87 else 99 in
  if v <? base then Some v else None.

(** The digits at the start: their value, their number, what is left. *)
Fixpoint digits_in (base acc n : Z) (s : list Z) : Z * Z * list Z :=
  match s with
  | c :: s' =>
      match digit_in base c with
      | Some v => digits_in base (base * acc + v) (n + 1) s'
      | None => (acc, n, s)
      end
  | [] => (acc, n, [])
  end.

(** "0x" before a digit is skipped in base 16; base 0 goes by the prefix. *)
Definition hex_prefix (s : list Z) : option (list Z) :=
  match s with
  | 48 :: x :: ((d :: _) as s') =>
      if (tolower x =? 120) && (match digit_in 16 d with Some _ => true | None => false end) then Some s' else None
  | _ => None
  end.

Definition base_and_digits (base : Z) (s : list Z) : Z * list Z :=
  match hex_prefix s with
  | Some s' => if (base =? 16) || (base =? 0) then (16, s') else (base, s)
  | None =>
      if base =? 0 then (match s with 48 :: _ => (8, s) | _ => (10, s) end) else (base, s)
  end.

(** [strtol(str, &endptr, base)] on a [long] of 64 bits: the value, whether it was
    out of range, what is left ([None]: no digits). *)
Definition strtol_base (base : Z) (s : list Z) : option (Z * bool * list Z) :=
  let t := skip_spaces s in
  let '(neg, u) :=
    match t with
    | c :: t' => if c =? 45 then (true, t') else if c =? 43 then (false, t') else (false, t)
    | [] => (false, t)
    end in
  let '(b, u) := base_and_digits base u in
  let '(v, n, r) := digits_in b 0 0 u in
  if n =? 0 then None
  else if neg then (if v >? LONG_MAX + 1 then Some (- (LONG_MAX + 1), true, r) else Some (- v, false, r))
  else (if v >? LONG_MAX then Some (LONG_MAX, true, r) else Some (v, false, r)).

(** The result and what is stored in [*result].  For a base that does not exist
    [strtol] does not set [endptr], which is then compared all the same. *)
Definition string_to_int_ex (str : option (list Z)) (base : Z) : res (Z * option Z) :=
  match str with
  | None => Ok (-1, None)
  | Some s =>
      let s := skip_spaces s in
      if (base <? 0) || (base =? 1) || (base >? 36) then Fault Uninitialised
      else
        match strtol_base base s with
        | None => Ok (-1, None)
        | Some (val, erange, r) =>
            if erange || (val >? INT_MAX) || (val <? INT_MIN) then Ok (-2, None)
            else match r with [] => Ok (0, Some val) | _ => Ok (-1, None) end
        end
  end.

Definition string_to_int (str : option (list Z)) : res (Z * option Z) := string_to_int_ex str 10.

(** ** The log *)

Inductive sink : Set := Stdout | Stderr | Log (name : list Z).

Record logger := mkLogger { log_mutex : mutex_state; log_file : option sink; log_level : Z; closed_logs : list (list Z) }.

Definition start_logger : logger := mkLogger Unlocked None 1 [].

Definition init_logging (name : option (list Z)) (fopen_ok : bool) (level : Z) (g : logger) : res logger :=
  _ ← mutex_lock (log_mutex g);
  let closed := match log_file g with Some (Log n) => [n] | _ => [] end in
  let file := match name with Some n => if fopen_ok then Log n else Stderr | None => Stdout end in
  Ok (mkLogger Unlocked (Some file) level (closed_logs g ++ closed)).

Definition level_str : list (list Z) := map lit ["DEBUG"; "INFO"; "WARNING"; "ERROR"; "CRITICAL"]%string.

(** [%-8s] *)
Definition pad8 (s : list Z) : list Z := s ++ repeat c_SP (8 - length s).

(** The line that is written, and where: [text] is the formatted message. *)
Definition log_message_ex (level : Z) (time_str text : list Z) (g : logger) : res (option (sink * list Z)) :=
  if level <? log_level g then Ok None
  else
    _ ← mutex_lock (log_mutex g);
    match znth level_str level with
    | None => Fault OutOfBounds
    | Some l =>
        Ok (Some (default Stdout (log_file g),
              lit "[" ++ time_str ++ lit "] [" ++ pad8 l ++ lit "] " ++ text ++ [c_LF]))
    end.

(** Any name but four is INFO. *)
Definition log_message (level message time_str : list Z) (g : logger) : res (option (sink * list Z)) :=
  let n := if streq level (lit "DEBUG") then 0 else if streq level (lit "WARNING") then 2
           else if streq level (lit "ERROR") then 3 else if streq level (lit "CRITICAL") then 4 else 1 in
  log_message_ex n time_str message g.

(** ** The pool of strings *)

(** [used] is the length of [buffer]; [epoch] counts how often the block moved. *)
Record string_pool_t := mkPool { buffer : list Z; size : Z; epoch : nat }.

(** A string in the pool. *)
Record pool_ptr := mkPoolPtr { in_epoch : nat; offset : nat }.

Definition create_string_pool (initial_size : Z) (pool_ok buffer_ok : bool) : option string_pool_t :=
  if pool_ok && buffer_ok then Some (mkPool [] initial_size 0) else None.

(** The string that a pointer leads to. *)
Definition pool_string (p : pool_ptr) (pool : string_pool_t) : res (list Z) :=
  if decide (in_epoch p = epoch pool) then Ok (cstring (drop (offset p) (buffer pool))) else Fault UseAfterFree.

Definition put (s : list Z) (pool : string_pool_t) : pool_ptr * string_pool_t :=
  (mkPoolPtr (epoch pool) (length (buffer pool)), mkPool (buffer pool ++ s ++ [0]) (size pool) (epoch pool)).

(** [grow] is the answer of [realloc]: whether it works, and moves the block. *)
Definition pool_strdup (pool : option string_pool_t) (str : option (list Z)) (grow : option bool)
  : res (option pool_ptr * option string_pool_t) :=
  match pool, str with
  | Some pool, Some s =>
      let used := zlen (buffer pool) in
      let len := zlen s + 1 in
      if used + len >? size pool then
        match double_cap 64 (u64 (size pool * 2)) (used + len) with
        | None => Fault Diverges
        | Some new_size =>
            match grow with
            | None => Ok (None, Some pool)
            | Some moves =>
                let '(p, pool) := put s (mkPool (buffer pool) new_size (if moves : bool then S (epoch pool) else epoch pool)) in
                Ok (Some p, Some pool)
            end
        end
      else let '(p, pool) := put s pool in Ok (Some p, Some pool)
  | pool, _ => Ok (None, pool)
  end.

(** The caller's pointer is left as it was. *)
Definition destroy_string_pool (pool : ptr string_pool_t) : res (ptr string_pool_t) :=
  match pool with PNull => Ok PNull | PLive _ => Ok PFreed | PFreed => Fault UseAfterFree end.

(** ** Replacing *)

Fixpoint count_matches (fuel : nat) (s rep : list Z) : nat :=
  match fuel with
  | O => O
  | S fuel' =>
      match strstr s rep with
      | None => O
      | Some k => S (count_matches fuel' (drop (k + length rep) s) rep)
      end
  end.

(** The loop that writes the result, the last [strcpy] included. *)
Fixpoint build_result (count : nat) (src rep w : list Z) : res (list Z) :=
  match count with
  | O => Ok src
  | S count' =>
      match strstr src rep with
      | None => Fault NullDeref
      | Some k =>
          rest ← build_result count' (drop (k + length rep) src) rep w;
          Ok (take k src ++ w ++ rest)
      end
  end.

Definition result_length (orig rep w : list Z) (count : nat) : Z :=
  u64 (zlen orig + u64 (zlen w - zlen rep) * Z.of_nat count).

(** In the block that was asked for, with its terminator. *)
Definition written_in (room : Z) (r : res (list Z)) : res (list Z) :=
  t ← r; if zlen t >? room then Fault OutOfBounds else Ok t.

Definition str_replace (orig rep w : option (list Z)) (strdup_ok malloc_ok : bool) : res (option (list Z)) :=
  match orig, rep with
  | Some orig, Some rep =>
      if zlen rep =? 0 then Ok None
      else
        let count := count_matches (S (length orig)) orig rep in
        let w := default [] w in
        if decide (count = O) then Ok (if strdup_ok then Some orig else None)
        else if negb malloc_ok then Ok None
        else t ← written_in (result_length orig rep w count) (build_result count orig rep w); Ok (Some t)
  | _, _ => Ok None
  end.

(** The same with the result in a pool, which is not made bigger here. *)
Definition str_replace_ex (orig rep w : option (list Z)) (pool : string_pool_t) (grow : option bool)
  : res (option pool_ptr * option string_pool_t) :=
  match orig, rep with
  | Some orig, Some rep =>
      if zlen rep =? 0 then Ok (None, Some pool)
      else
        let count := count_matches (S (length orig)) orig rep in
        let w := default [] w in
        if decide (count = O) then pool_strdup (Some pool) (Some orig) grow
        else
          let n := result_length orig rep w count in
          if zlen (buffer pool) + n + 1 >? size pool then Ok (None, Some pool)
          else
            t ← written_in n (build_result count orig rep w);
            Ok (Some (mkPoolPtr (epoch pool) (length (buffer pool))),
                Some (mkPool (buffer pool ++ t ++ repeat 0 (Z.to_nat (n + 1) - length t)) (size pool) (epoch pool)))
  | _, _ => Ok (None, Some pool)
  end.

(** ** The processor *)

Record cpu_features_t := mkCpuFeatures { avx2 : bool; avx512 : bool; sse42 : bool }.

(** [ebx7] and [ecx1] are what [cpuid] leaves in these registers for 7 and 1. *)
Definition detect_cpu_features (ebx7 ecx1 : Z) (f : option cpu_features_t) : cpu_features_t :=
  match f with
  | Some f => f
  | None => mkCpuFeatures (Z.testbit ebx7 5) (Z.testbit ebx7 16) (Z.testbit ecx1 20)
  end.

Definition has_avx2_support (ebx7 ecx1 : Z) (f : option cpu_features_t) : bool * option cpu_features_t :=
  let f := detect_cpu_features ebx7 ecx1 f in (avx2 f, Some f).
Definition has_avx512_support (ebx7 ecx1 : Z) (f : option cpu_features_t) : bool * option cpu_features_t :=
  let f := detect_cpu_features ebx7 ecx1 f in (avx512 f, Some f).
Definition has_sse42_support (ebx7 ecx1 : Z) (f : option cpu_features_t) : bool * option cpu_features_t :=
  let f := detect_cpu_features ebx7 ecx1 f in (sse42 f, Some f).

Example demo_replace :
  str_replace (Some (lit "a.b..c")) (Some (lit ".")) (Some (lit "::")) true true = Ok (Some (lit "a::b::::c")).
Proof. by vm_compute. Qed.

Example demo_numbers :
  map (fun s => string_to_int (Some (lit s))) ["-12"; "2147483648"; "7x"; ""; " +8"]%string
  = [Ok (0, Some (-12)); Ok (-2, None); Ok (-1, None); Ok (-1, None); Ok (0, Some 8)]
  /\ string_to_int_ex (Some (lit "0x1F")) 0 = Ok (0, Some 31) /\ string_to_int_ex (Some (lit "1")) 1 = Fault Uninitialised.
Proof. by vm_compute. Qed.

(** ** Lemmas: numbers *)

Lemma digit_in_ten c : isdigit c = true -> digit_in 10 c = Some (c - 48).
Proof. intros H. unfold digit_in. rewrite H. unfold isdigit in H. destruct (Z.ltb_spec (c - 48) 10); [done|lia]. Qed.

Lemma digits_in_ten s : forall acc n, Forall (fun c => isdigit c = true) s ->
  digits_in 10 acc n s = (digits acc s, n + zlen s, []).
Proof.
  induction s as [|c s IH]; intros acc n Hs; cbn [digits_in digits].
  { change (zlen (@nil Z)) with 0. by rewrite Z.add_0_r. }
  apply Forall_cons in Hs as [Hc Hs]. rewrite digit_in_ten, Hc, IH, zlen_cons by done. by rewrite <- Z.add_assoc, (Z.add_comm 1).
Qed.

Lemma base_ten s : Forall (fun c => isdigit c = true) s -> base_and_digits 10 s = (10, s).
Proof.
  intros Hs. unfold base_and_digits. by destruct (hex_prefix s).
Qed.

Lemma strtol_base_dec z :
  strtol_base 10 (dec z)
  = Some (if z >? LONG_MAX then (LONG_MAX, true, []) else if z <? - (LONG_MAX + 1) then (- (LONG_MAX + 1), true, []) else (z, false, [])).
Proof.
  unfold strtol_base, dec. destruct (Z.ltb_spec z 0) as [Hz|Hz].
  - destruct (dec_nat_value (- z)) as (F & V & N); [lia|]. rewrite skip_spaces_nonblank by done. simpl (45 =? 45). cbv iota.
    rewrite base_ten, digits_in_ten, V by done.
    destruct (Z.eqb_spec (0 + zlen (dec_nat (- z))) 0) as [E|_]. { unfold zlen in E. destruct (dec_nat (- z)); [done|simpl in E; lia]. }
    rewrite !Z.gtb_ltb. unfold LONG_MAX. destruct (Z.ltb_spec (2 ^ 63 - 1) z); [lia|].
    destruct (Z.ltb_spec (2 ^ 63 - 1 + 1) (- z)), (Z.ltb_spec z (- (2 ^ 63 - 1 + 1))); try lia; [done|]. do 3 f_equal. lia.
  - destruct (dec_nat_value z Hz) as (F & V & N). destruct (dec_nat z) as [|c s] eqn:E; [done|].
    pose proof F as [Hc _]%Forall_cons. destruct (isdigit_not_space c Hc) as (Hb & H1 & H2).
    rewrite skip_spaces_nonblank, H1, H2, base_ten, digits_in_ten, V by done.
    destruct (Z.eqb_spec (0 + zlen (c :: s)) 0) as [E0|_]. { rewrite zlen_cons in E0. pose proof (zlen_nonneg s). lia. }
    rewrite !Z.gtb_ltb. unfold LONG_MAX. destruct (Z.ltb_spec z (- (2 ^ 63 - 1 + 1))); [lia|]. by destruct (Z.ltb_spec (2 ^ 63 - 1) z).
Qed.

Lemma skip_spaces_dec z : skip_spaces (dec z) = dec z.
Proof.
  unfold dec. destruct (Z.ltb_spec z 0) as [Hz|Hz]; [done|]. destruct (dec_nat_value z Hz) as (F & _ & N).
  destruct (dec_nat z) as [|c s]; [done|]. apply Forall_cons in F as [Hc _].
  apply skip_spaces_nonblank. by apply isdigit_not_space in Hc as (? & _).
Qed.

(** ** Lemmas: replacing *)

Lemma strstr_Some h n k : strstr h n = Some k ->
  h = take k h ++ n ++ drop (k + length n) h /\ (length n + k <= length h)%nat
  /\ forall a b, h = a ++ n ++ b -> (k <= length a)%nat.
Proof.
  revert k. induction h as [|c h IH]; intros k; cbn [strstr].
  - destruct (prefixb n []) eqn:E; [|done]. intros [= <-]. apply prefixb_spec in E as [r E].
    symmetry in E. apply app_nil in E as [-> ->]. by split_and!; [..|lia].
  - destruct (prefixb n (c :: h)) eqn:E.
    + intros [= <-]. apply prefixb_spec in E as [r E]. rewrite E. simpl take. cbn [Nat.add app].
      rewrite drop_app_length. split; [done|]. split; [rewrite length_app; lia|lia].
    + intros H. destruct (strstr h n) as [j|] eqn:Ej; [|done]. injection H as <-. destruct (IH j eq_refl) as (H1 & H2 & H3).
      cbn [take drop Nat.add app]. split; [by rewrite <- H1|]. split; [simpl; lia|].
      intros [|d a] b Hab.
      * exfalso. cbn [app] in Hab. rewrite Hab, prefixb_app in E. done.
      * injection Hab as _ Hab. apply H3 in Hab. simpl. lia.
Qed.

(** [t] is [s] with every occurrence of [rep], found from the left and not
    overlapping, replaced by [w]. *)
Inductive replaced (rep w : list Z) : list Z -> list Z -> Prop :=
| replaced_none s : (forall a b, s <> a ++ rep ++ b) -> replaced rep w s s
| replaced_first a s t :
    (forall a' b', a ++ rep ++ s = a' ++ rep ++ b' -> (length a <= length a')%nat) ->
    replaced rep w s t -> replaced rep w (a ++ rep ++ s) (a ++ w ++ t).

Lemma build_replaced rep w : rep <> [] -> forall fuel s, (length s < fuel)%nat ->
  exists t, build_result (count_matches fuel s rep) s rep w = Ok t /\ replaced rep w s t
    /\ zlen t = zlen s + (zlen w - zlen rep) * Z.of_nat (count_matches fuel s rep)
    /\ (count_matches fuel s rep <= length s)%nat.
Proof.
  intros Hr. induction fuel as [|fuel IH]; intros s Hf; [lia|]. cbn [count_matches].
  destruct (strstr s rep) as [k|] eqn:E.
  - destruct (strstr_Some _ _ _ E) as (H1 & H2 & H3). cbn [build_result]. rewrite E.
    assert (0 < length rep)%nat by (destruct rep; [done|simpl; lia]).
    set (r := drop (k + length rep) s) in *.
    assert (length s = k + length rep + length r)%nat as Hl by (unfold r; rewrite length_drop; lia).
    destruct (IH r) as (t & -> & Ht & Hz & Hc); [lia|]. cbn [mbind res_bind]. exists (take k s ++ w ++ t).
    assert (length (take k s) = k) as Hk by (rewrite length_take; lia).
    split; [done|]. split; [|split].
    + rewrite H1 at 1. apply replaced_first; [|done]. intros a' b' Hab. rewrite Hk. apply (H3 a' b'). by rewrite <- Hab.
    + rewrite !zlen_app, Hz. unfold zlen in *. rewrite Hk. lia.
    + lia.
  - exists s. cbn [build_result]. split; [done|]. split; [|split; [lia|lia]].
    apply replaced_none. intros a b ->. rewrite strstr_None in E. by apply (E a b).
Qed.

Lemma result_length_exact (orig rep w t : list Z) fuel :
  zlen orig < 2 ^ 31 -> zlen w < 2 ^ 31 -> (count_matches fuel orig rep <= length orig)%nat ->
  zlen t = zlen orig + (zlen w - zlen rep) * Z.of_nat (count_matches fuel orig rep) ->
  result_length orig rep w (count_matches fuel orig rep) = zlen t.
Proof.
  intros Ho Hw Hc Hz. unfold result_length. set (n := Z.of_nat (count_matches fuel orig rep)) in *.
  assert (0 <= n <= zlen orig) by (unfold n, zlen; lia).
  pose proof (zlen_nonneg t). pose proof (zlen_nonneg w). pose proof (zlen_nonneg rep).
  replace (u64 (zlen orig + u64 (zlen w - zlen rep) * n)) with (u64 (zlen orig + (zlen w - zlen rep) * n)).
  - rewrite <- Hz. apply u64_small. split; [done|]. rewrite Hz.
    assert ((zlen w - zlen rep) * n <= 2 ^ 31 * 2 ^ 31) by nia. lia.
  - unfold u64. set (d := zlen w - zlen rep).
    by rewrite <- (Z.add_mod_idemp_r _ (d mod 2 ^ 64 * n)), Z.mul_mod_idemp_l, Z.add_mod_idemp_r by lia.
Qed.

(** ** Properties *)

(** A decimal number printed and read back: itself if it is an [int], and
    otherwise the error of an overflow, however long it is. *)
Theorem string_to_int_print z :
  string_to_int (Some (dec z)) = Ok (if bool_decide (INT_MIN <= z <= INT_MAX) then (0, Some z) else (-2, None)).
Proof.
  unfold string_to_int, string_to_int_ex. rewrite skip_spaces_dec.
  change ((10 <? 0) || (10 =? 1) || (10 >? 36)) with false. cbv iota. rewrite strtol_base_dec, !Z.gtb_ltb. unfold LONG_MAX, INT_MIN, INT_MAX.
  destruct (Z.ltb_spec (2 ^ 63 - 1) z); [by rewrite bool_decide_false by lia|].
  destruct (Z.ltb_spec z (- (2 ^ 63 - 1 + 1))); [by rewrite bool_decide_false by lia|].
  cbn [orb]. rewrite !Z.gtb_ltb. destruct (Z.ltb_spec (2 ^ 31 - 1) z); [by rewrite bool_decide_false by lia|].
  cbn [orb]. destruct (Z.ltb_spec z (- 2 ^ 31)); [by rewrite bool_decide_false by lia|].
  by rewrite bool_decide_true by lia.
Qed.

(** C39: Replacing never overruns its block and gives the text with every occurrence,
    from the left, replaced - also where the new text is shorter and the length is
    computed with an unsigned difference. *)
Theorem str_replace_correct orig rep w :
  rep <> [] -> zlen orig < 2 ^ 31 -> zlen (default [] w) < 2 ^ 31 ->
  exists t, str_replace (Some orig) (Some rep) w true true = Ok (Some t) /\ replaced rep (default [] w) orig t.
Proof.
  intros Hr Ho Hw. unfold str_replace.
  destruct (Z.eqb_spec (zlen rep) 0) as [E|_]. { destruct rep; [done|]. rewrite zlen_cons in E. pose proof (zlen_nonneg rep). lia. }
  destruct (build_replaced rep (default [] w) Hr (S (length orig)) orig) as (t & Hb & Ht & Hz & Hc); [lia|].
  case_decide as D.
  - rewrite D in Hb. injection Hb as <-. by exists orig.
  - cbn [negb]. rewrite Hb. unfold written_in. cbn [mbind res_bind].
    rewrite (result_length_exact _ _ _ t) by done. rewrite Z.gtb_ltb, Z.ltb_irrefl. cbn [mbind res_bind]. by exists t.
Qed.

(** A pointer into the pool as it is, to a string with its terminator. *)
Definition pool_valid (p : pool_ptr) (pool : string_pool_t) : Prop :=
  in_epoch p = epoch pool /\ 0 ∈ drop (offset p) (buffer pool).

Lemma cstring_enough s t : 0 ∈ s -> cstring (s ++ t) = cstring s.
Proof.
  induction s as [|c s IH]; simpl; [by intros ?%elem_of_nil|]. destruct (Z.eqb_spec c 0); [done|].
  intros [|H]%elem_of_cons; [congruence|]. by rewrite IH.
Qed.

(** A string put into the pool is read back, and while the block does not move all
    the strings before it are as they were; when it moves, they are dangling. *)
Theorem pool_strings_kept pool s grow p pool' :
  Forall (fun c => c <> 0) s -> pool_strdup (Some pool) (Some s) grow = Ok (Some p, Some pool') ->
  pool_valid p pool' /\ pool_string p pool' = Ok s
  /\ forall q, pool_valid q pool ->
       (epoch pool' = epoch pool /\ pool_valid q pool' /\ pool_string q pool' = pool_string q pool)
       \/ (grow = Some true /\ pool_string q pool' = Fault UseAfterFree).
Proof.
  intros Hs H.
  assert (exists cap e, (e = epoch pool \/ (e = S (epoch pool) /\ grow = Some true))
          /\ (p, pool') = put s (mkPool (buffer pool) cap e)) as (cap & e & He & Hput).
  { unfold pool_strdup in H. destruct (_ >? _).
    - destruct (double_cap _ _ _) as [n|]; [|done]. destruct grow as [mv|]; [|done]. injection H as <- <-.
      exists n, (if mv then S (epoch pool) else epoch pool). destruct mv; auto.
    - injection H as <- <-. exists (size pool), (epoch pool). by destruct pool; auto. }
  unfold put in Hput. cbn [buffer epoch size] in Hput. injection Hput as -> ->. split; [|split].
  - split; [done|]. cbn [offset buffer]. rewrite drop_app_length. set_solver.
  - unfold pool_string. cbn [in_epoch epoch offset buffer]. rewrite decide_True, drop_app_length by done.
    f_equal. by rewrite cstring_app.
  - intros q [Hq Hz]. unfold pool_string, pool_valid. cbn [epoch buffer]. destruct He as [->|[-> Hg]].
    + left. rewrite Hq, !decide_True by done. assert (offset q <= length (buffer pool))%nat.
      { destruct (decide (offset q <= length (buffer pool))%nat); [done|]. rewrite drop_ge in Hz by lia. by apply elem_of_nil in Hz. }
      rewrite drop_app_le by done. split; [done|]. split; [split; [done|set_solver]|]. by rewrite cstring_enough.
    + right. rewrite decide_False by lia. done.
Qed.

(** A pool made without room doubles zero for ever. *)
Theorem empty_pool_diverges pool s grow :
  create_string_pool 0 true true = Some pool -> zlen s < 2 ^ 63 -> pool_strdup (Some pool) (Some s) grow = Fault Diverges.
Proof.
  intros [= <-] _. unfold pool_strdup. cbn [buffer size]. change (zlen (@nil Z)) with 0. pose proof (zlen_nonneg s).
  rewrite Z.gtb_ltb, (proj2 (Z.ltb_lt _ _)) by lia. change (u64 (0 * 2)) with 0. by rewrite double_cap_zero by lia.
Qed.

(** A random string has one byte less than the buffer, of letters and digits. *)
Theorem random_string_alnum rand_r length entropy seed :
  0 < length -> (forall s, 0 <= (rand_r s).1) ->
  exists l seed', generate_random_string_safe rand_r true length entropy seed = (Some (l ++ [0]), seed')
    /\ zlen l = length - 1 /\ Forall (fun c => isalnum c = true) l.
Proof.
  intros Hl Hr. unfold generate_random_string_safe. cbn [negb orb]. destruct (Z.eqb_spec length 0) as [|_]; [lia|].
  set (s0 := if seed =? 0 then u32 entropy else seed). clearbody s0.
  assert (forall n s, exists l s', random_bytes rand_r n s = (l, s') /\ List.length l = n /\ Forall (fun c => isalnum c = true) l) as H.
  { induction n as [|n IH]; intros s; [by exists [], s|]. cbn [random_bytes]. specialize (Hr s).
    destruct (rand_r s) as [r s1]. simpl in Hr. destruct (IH s1) as (l & s2 & -> & <- & F).
    eexists _, _. split; [done|]. split; [done|]. constructor; [|done].
    assert (0 <= r mod 62 < zlen charset) as Hm by (apply Z.mod_pos_bound; done).
    destruct (znth_Some charset (r mod 62) Hm) as [c Hc]. rewrite Hc. simpl.
    assert (Forall (fun c => isalnum c = true) charset) as Fc by (by repeat constructor).
    by apply (Forall_znth _ _ _ _ Fc Hc). }
  destruct (H (Z.to_nat (length - 1)) s0) as (l & s' & -> & Hn & F). exists l, s'. split; [done|]. unfold zlen. split; [lia|done].
Qed.

(** ** Witnesses *)

Lemma str_replace_correct_witness :
  exists t, str_replace (Some (lit "aaa-aa")) (Some (lit "aa")) None true true = Ok (Some t) /\ t = lit "a-".
Proof.
  destruct (str_replace_correct (lit "aaa-aa") (lit "aa") None) as (t & E & _); [done|done|done|].
  exists t. split; [exact E|]. vm_compute in E. by injection E as <-.
Defined.

Lemma pool_strings_kept_witness :
  exists p pool', pool_strdup (Some (mkPool [] 4 0)) (Some (lit "hello")) (Some false) = Ok (Some p, Some pool')
    /\ pool_string p pool' = Ok (lit "hello").
Proof.
  eexists _, _. split; [by vm_compute|].
  apply (pool_strings_kept (mkPool [] 4 0) (lit "hello") (Some false)); [by repeat constructor|by vm_compute].
Defined.

Lemma empty_pool_diverges_witness : pool_strdup (Some (mkPool [] 0 0)) (Some (lit "x")) (Some false) = Fault Diverges.
Proof. by apply (empty_pool_diverges (mkPool [] 0 0) (lit "x")). Defined.

Lemma random_string_alnum_witness :
  exists l s, generate_random_string_safe (fun s => (Z.abs (7 * s + 3), 7 * s + 3)) true 5 12 0 = (Some (l ++ [0]), s) /\ zlen l = 4.
Proof.
  destruct (random_string_alnum (fun s => (Z.abs (7 * s + 3), 7 * s + 3)) 5 12 0) as (l & s & E & Hl & _); [lia|simpl; lia|].
  exists l, s. split; [exact E|exact Hl].
Defined.
