(* ===== verification/Optimizer.v ===== *)
(** * The optimizer: [src/optimizer.c]

    Measurements of the process, the state machine that judges them, and the levers
    it moves.  What the system answers (the files of [/proc], [getrusage], the clock,
    the load average, the number of processors) is an argument. *)

From S2P Require Import Prelude Double Cache.

(** ** Data *)

Inductive optimizer_state : Set := OPTIMIZER_STATE_NORMAL | OPTIMIZER_STATE_OVERLOAD | OPTIMIZER_STATE_RECOVERY.

#[export] Instance optimizer_state_eq_dec : EqDecision optimizer_state.
Proof. solve_decision. Defined.

(** [None] in a field that nothing has written. *)
Record PerformanceData := mkPerformanceData {
  timestamp : Z;
  cpu_usage : double;
  memory_usage : double;
  requests_per_second : option Z;
  avg_response_time : option double;
  active_connections : option Z;
  thread_pool_utilization : option Z;
  network_usage : option double;
  error_rate : option double
}.

Record SystemControlLevers := mkLevers {
  thread_pool_target_size : Z;
  waf_strictness_level : Z;
  cache_eviction_aggressiveness : Z;
  backpressure_level : Z;
  allocator_tuning_mode : Z;
  enable_streaming : Z
}.

(** [history_size] is the length of [history], and [block] the array it is in. *)
Record Optimizer := mkOptimizer {
  block : ptr unit;
  history : list PerformanceData;
  history_capacity : Z;
  mutex : mutex_state;
  enable_auto_optimization : bool;
  last_optimization_time : Z;
  optimization_interval : Z;
  cpu_threshold_per_core : double;
  memory_threshold_mb : double;
  response_time_threshold : double;
  state : optimizer_state;
  stability_counter : Z;
  last_connection_count : Z;
  levers : SystemControlLevers;
  last_action_threads : Z;
  last_action_cache : Z
}.

Definition zero : double := S754_zero false.

Definition global_optimizer : Optimizer :=
  mkOptimizer PNull [] 0 Unlocked false 0 0 zero zero zero OPTIMIZER_STATE_NORMAL 0 0 (mkLevers 0 0 0 0 0 0) 0 0.

Definition set_history (b : ptr unit) (h : list PerformanceData) (cap : Z) (o : Optimizer) : Optimizer :=
  mkOptimizer b h cap (mutex o) (enable_auto_optimization o) (last_optimization_time o) (optimization_interval o)
    (cpu_threshold_per_core o) (memory_threshold_mb o) (response_time_threshold o) (state o) (stability_counter o)
    (last_connection_count o) (levers o) (last_action_threads o) (last_action_cache o).
Definition set_mutex (m : mutex_state) (o : Optimizer) : Optimizer :=
  mkOptimizer (block o) (history o) (history_capacity o) m (enable_auto_optimization o) (last_optimization_time o)
    (optimization_interval o) (cpu_threshold_per_core o) (memory_threshold_mb o) (response_time_threshold o) (state o)
    (stability_counter o) (last_connection_count o) (levers o) (last_action_threads o) (last_action_cache o).
Definition set_auto (b : bool) (o : Optimizer) : Optimizer :=
  mkOptimizer (block o) (history o) (history_capacity o) (mutex o) b (last_optimization_time o) (optimization_interval o)
    (cpu_threshold_per_core o) (memory_threshold_mb o) (response_time_threshold o) (state o) (stability_counter o)
    (last_connection_count o) (levers o) (last_action_threads o) (last_action_cache o).
Definition set_last_time (t : Z) (o : Optimizer) : Optimizer :=
  mkOptimizer (block o) (history o) (history_capacity o) (mutex o) (enable_auto_optimization o) t (optimization_interval o)
    (cpu_threshold_per_core o) (memory_threshold_mb o) (response_time_threshold o) (state o) (stability_counter o)
    (last_connection_count o) (levers o) (last_action_threads o) (last_action_cache o).
Definition set_thresholds (c m r : double) (o : Optimizer) : Optimizer :=
  mkOptimizer (block o) (history o) (history_capacity o) (mutex o) (enable_auto_optimization o) (last_optimization_time o)
    (optimization_interval o) c m r (state o) (stability_counter o)
    (last_connection_count o) (levers o) (last_action_threads o) (last_action_cache o).
Definition set_state (s : optimizer_state) (n : Z) (o : Optimizer) : Optimizer :=
  mkOptimizer (block o) (history o) (history_capacity o) (mutex o) (enable_auto_optimization o) (last_optimization_time o)
    (optimization_interval o) (cpu_threshold_per_core o) (memory_threshold_mb o) (response_time_threshold o) s n
    (last_connection_count o) (levers o) (last_action_threads o) (last_action_cache o).
Definition set_last_connections (n : Z) (o : Optimizer) : Optimizer :=
  mkOptimizer (block o) (history o) (history_capacity o) (mutex o) (enable_auto_optimization o) (last_optimization_time o)
    (optimization_interval o) (cpu_threshold_per_core o) (memory_threshold_mb o) (response_time_threshold o) (state o)
    (stability_counter o) n (levers o) (last_action_threads o) (last_action_cache o).
Definition set_levers (l : SystemControlLevers) (o : Optimizer) : Optimizer :=
  mkOptimizer (block o) (history o) (history_capacity o) (mutex o) (enable_auto_optimization o) (last_optimization_time o)
    (optimization_interval o) (cpu_threshold_per_core o) (memory_threshold_mb o) (response_time_threshold o) (state o)
    (stability_counter o) (last_connection_count o) l (last_action_threads o) (last_action_cache o).
Definition set_last_actions (threads cache : Z) (o : Optimizer) : Optimizer :=
  mkOptimizer (block o) (history o) (history_capacity o) (mutex o) (enable_auto_optimization o) (last_optimization_time o)
    (optimization_interval o) (cpu_threshold_per_core o) (memory_threshold_mb o) (response_time_threshold o) (state o)
    (stability_counter o) (last_connection_count o) (levers o) threads cache.

Definition set_waf (n : Z) (l : SystemControlLevers) : SystemControlLevers :=
  mkLevers (thread_pool_target_size l) n (cache_eviction_aggressiveness l) (backpressure_level l)
    (allocator_tuning_mode l) (enable_streaming l).
Definition set_backpressure (n streaming : Z) (l : SystemControlLevers) : SystemControlLevers :=
  mkLevers (thread_pool_target_size l) (waf_strictness_level l) (cache_eviction_aggressiveness l) n
    (allocator_tuning_mode l) streaming.
Definition set_memory_levers (evict tune : Z) (l : SystemControlLevers) : SystemControlLevers :=
  mkLevers (thread_pool_target_size l) (waf_strictness_level l) evict (backpressure_level l) tune (enable_streaming l).
Definition set_threads (n : Z) (l : SystemControlLevers) : SystemControlLevers :=
  mkLevers n (waf_strictness_level l) (cache_eviction_aggressiveness l) (backpressure_level l)
    (allocator_tuning_mode l) (enable_streaming l).

Definition lock (o : Optimizer) : res Optimizer := m ← mutex_lock (mutex o); Ok (set_mutex m o).
Definition unlock (o : Optimizer) : Optimizer := set_mutex Unlocked o.

Definition STABILITY_WINDOW : Z := 3.

(** [(int)] of a double out of range gives the least [int] on this processor. *)
Definition to_int (d : double) : Z := default (- 2 ^ 31) (d_to_int d).

(** ** Measuring *)

(** [resident] is what [fscanf] read, if all seven numbers were there. *)
Definition get_process_rss_mb (resident : option Z) (page_size : Z) : double :=
  match resident with
  | None => zero
  | Some r =>
      let page := if page_size <? 0 then 4096 else page_size in
      ddiv (d_of_Z (u64 (r * page))) (d_of_Z (1024 * 1024))
  end.

(** Seconds and microseconds. *)
Record timeval := mkTimeval { tv_sec : Z; tv_usec : Z }.

Record usage := mkUsage { ru_utime : timeval; ru_stime : timeval; wall : timeval }.

Definition elapsed (a b : timeval) : double :=
  dadd (d_of_Z (tv_sec b - tv_sec a)) (ddiv (d_of_Z (tv_usec b - tv_usec a)) (d_of_Z 1000000)).

(** The static variables are what was measured last. *)
Definition get_process_cpu_usage (prev curr : usage) : double * usage :=
  if (tv_sec (ru_utime prev) =? 0) && (tv_usec (ru_utime prev) =? 0) then (zero, curr)
  else
    let w := elapsed (wall prev) (wall curr) in
    if dleb w zero then (zero, curr)
    else (dmul (ddiv (dadd (elapsed (ru_utime prev) (ru_utime curr)) (elapsed (ru_stime prev) (ru_stime curr))) w)
            (d_of_Z 100), curr).

(** ** Judging *)

(** The connections and the response time are there whenever this is called. *)
Definition connections_of (d : PerformanceData) : Z := default 0 (active_connections d).
Definition response_of (d : PerformanceData) : double := default zero (avg_response_time d).

Definition anomaly (cores : Z) (d : PerformanceData) (o : Optimizer) : bool :=
  dgtb (cpu_usage d) (dmul (dmul (cpu_threshold_per_core o) (d_of_Z cores)) d_0_8)
  && dltb (d_of_Z (connections_of d)) (dmul (d_of_Z (last_connection_count o)) d_0_5)
  && (last_connection_count o >? 10).

Inductive sample : Set := Overloaded | Stable | Between.

Definition judge (cores : Z) (d : PerformanceData) (o : Optimizer) : sample :=
  let max_cpu := dmul (cpu_threshold_per_core o) (d_of_Z cores) in
  if dgtb (cpu_usage d) max_cpu || dgtb (memory_usage d) (memory_threshold_mb o)
     || dgtb (response_of d) (response_time_threshold o) then Overloaded
  else if dltb (cpu_usage d) (dmul max_cpu d_0_7) && dltb (memory_usage d) (dmul (memory_threshold_mb o) d_0_9)
          && dltb (response_of d) (response_time_threshold o) then Stable
  else Between.

(** One more sample of the kind that is counted. *)
Definition count_to (s' : optimizer_state) (s : optimizer_state) (n : Z) : optimizer_state * Z :=
  if n + 1 >=? STABILITY_WINDOW then (s', 0) else (s, n + 1).

(** The state machine and its counter. *)
Definition transition (x : sample) (s : optimizer_state) (n : Z) : optimizer_state * Z :=
  match x, s with
  | Overloaded, OPTIMIZER_STATE_OVERLOAD => (s, n)
  | Overloaded, _ => count_to OPTIMIZER_STATE_OVERLOAD s n
  | Stable, OPTIMIZER_STATE_OVERLOAD => count_to OPTIMIZER_STATE_RECOVERY s n
  | Stable, OPTIMIZER_STATE_RECOVERY => (OPTIMIZER_STATE_NORMAL, n)
  | Stable, OPTIMIZER_STATE_NORMAL => (s, n)
  | Between, _ => (s, 0)
  end.

Definition analyze_metrics (cores : Z) (d : PerformanceData) (o : Optimizer) : Optimizer :=
  let o1 := if anomaly cores d o then set_levers (set_backpressure 10 (enable_streaming (levers o)) (set_waf 10 (levers o))) o else o in
  let o2 := set_last_connections (connections_of d) o1 in
  let '(s, n) := transition (judge cores d o2) (state o2) (stability_counter o2) in
  set_state s n o2.

(** ** Acting *)

(** What is done to the process, in order. *)
Inductive action : Set := Malloc_trim | Mallopt_mmap_max (n : Z) | Sync | Resize_threads (n : Z).

Definition cache_reduce_size (percentage : Z) (c : Cache) : res (Z * Cache) :=
  if percentage <=? 0 then Ok (-1, c) else '(_, c) ← cache_clear c; Ok (0, c).
Definition cache_increase_size (percentage : Z) : Z := if percentage <=? 0 then -1 else 0.
Definition adjust_thread_pool_size (adjustment : Z) : Z := 0.
Definition adjust_network_buffer_size (adjustment : Z) : Z := 0.
Definition get_server_error_rate : double := zero.

Definition manage_memory (d : PerformanceData) (o : Optimizer) (c : Cache) : res (Optimizer * Cache * list action) :=
  if dgtb (memory_usage d) (memory_threshold_mb o) then
    let o1 := set_levers (set_memory_levers 10 1 (levers o)) o in
    let acts := Malloc_trim
                :: (if dgtb (memory_usage d) (dmul (memory_threshold_mb o) d_1_2) then [Mallopt_mmap_max 0] else [])
                ++ [Sync] in
    if negb (last_action_cache o1 =? 1) then
      '(_, c) ← cache_reduce_size 20 c; Ok (set_last_actions (last_action_threads o1) 1 o1, c, acts)
    else Ok (o1, c, acts)
  else if dltb (memory_usage d) (dmul (memory_threshold_mb o) d_0_5) then
    let o1 := set_levers (set_memory_levers 0 0 (levers o)) o in
    Ok (if negb (last_action_cache o1 =? 0) then set_last_actions (last_action_threads o1) 0 o1 else o1,
        c, [Mallopt_mmap_max 65536])
  else Ok (o, c, []).

Definition target_threads (cores : Z) (d : PerformanceData) (o : Optimizer) : Z :=
  match state o with
  | OPTIMIZER_STATE_OVERLOAD => to_int (dmul (d_of_Z cores) d_1_5)
  | _ => if connections_of d >? 5 then to_int (dmul (d_of_Z cores) (d_of_Z 4)) else to_int (dmul (d_of_Z cores) (d_of_Z 2))
  end.

Definition manage_threads (cores : Z) (load_ok : bool) (d : PerformanceData) (o : Optimizer) : Optimizer * list action :=
  if negb load_ok then (o, [])
  else
    let target := target_threads cores d o in
    let o1 := set_levers (set_waf (match state o with OPTIMIZER_STATE_OVERLOAD => 3 | _ => 8 end) (levers o)) o in
    if (target >? 0) && negb (target =? last_action_threads o1)
    then (set_last_actions target (last_action_cache o1) (set_levers (set_threads target (levers o1)) o1), [Resize_threads target])
    else (o1, []).

Definition manage_latency (d : PerformanceData) (o : Optimizer) : Optimizer :=
  if dgtb (response_of d) (response_time_threshold o) then
    if negb (backpressure_level (levers o) =? 8) then set_levers (set_backpressure 8 1 (levers o)) o else o
  else if negb (backpressure_level (levers o) =? 0) then set_levers (set_backpressure 0 0 (levers o)) o else o.

Definition execute_control_actions (cores : Z) (load_ok : bool) (d : PerformanceData) (o : Optimizer) (c : Cache)
  : res (Optimizer * Cache * list action) :=
  '(o, c, a1) ← manage_memory d o c;
  let '(o, a2) := manage_threads cores load_ok d o in
  Ok (manage_latency d o, c, a1 ++ a2).

(** ** The interface *)

Definition optimizer_init (cores : Z) (calloc_ok mutex_ok : bool) (o : Optimizer) : Z * Optimizer :=
  if negb calloc_ok then (-1, set_history PNull (history o) 100 o)
  else
    (if mutex_ok then 0 else -1,
     mkOptimizer (if mutex_ok then PLive tt else PFreed) [] 100 (if mutex_ok then Unlocked else mutex o) true
       (last_optimization_time o) 5 (d_of_Z 80) (d_of_Z 512) (d_of_Z 300) OPTIMIZER_STATE_NORMAL 0 0
       (mkLevers (to_int (dmul (d_of_Z cores) (d_of_Z 2))) 7 2 0 (allocator_tuning_mode (levers o)) 0) (-1) (-1)).

(** What a run finds of the system. *)
Record run_env := mkRunEnv {
  now : Z; cores : Z; curr_usage : usage; statm : option Z; page_size : Z; load_ok : bool
}.

(** The server's count of connections and its average response time. *)
Definition measure (v : run_env) (server : option (Z * double)) (prev : usage) : PerformanceData * usage :=
  let '(cpu, prev) := get_process_cpu_usage prev (curr_usage v) in
  (match server with
   | Some (n, t) => mkPerformanceData (now v) cpu (get_process_rss_mb (statm v) (page_size v)) (Some 0) (Some t) (Some n) None None None
   | None => mkPerformanceData (now v) cpu (get_process_rss_mb (statm v) (page_size v)) None (Some zero) (Some 0) None None None
   end, prev).

(** Access to the array. *)
Definition access (o : Optimizer) : res (list PerformanceData) :=
  match block o with PNull => Fault NullDeref | PFreed => Fault UseAfterFree | PLive _ => Ok (history o) end.

(** The oldest measurement goes when there are as many as the array holds. *)
Definition remember (d : PerformanceData) (cap : Z) (l : list PerformanceData) : list PerformanceData :=
  if zlen l <? cap then l ++ [d] else drop 1 l ++ [d].

Definition optimizer_run (v : run_env) (server : option (Z * double)) (prev : usage) (o : Optimizer) (c : Cache)
  : res (Optimizer * usage * Cache * list action) :=
  if negb (enable_auto_optimization o) then Ok (o, prev, c, [])
  else
    o ← lock o;
    if now v - last_optimization_time o <? optimization_interval o then Ok (unlock o, prev, c, [])
    else
      let '(d, prev) := measure v server prev in
      l ← access o;
      let o := set_history (block o) (remember d (history_capacity o) l) (history_capacity o) o in
      '(o, c, acts) ← execute_control_actions (cores v) (load_ok v) d (analyze_metrics (cores v) d o) c;
      Ok (unlock (set_last_time (now v) o), prev, c, acts).

(** Without a history only three fields are set. *)
Definition optimizer_get_current_data (v : run_env) (prev : usage) (data : PerformanceData) (o : Optimizer)
  : res (PerformanceData * usage * Optimizer) :=
  o ← lock o;
  l ← (match history o with [] => Ok [] | _ => access o end);
  match last l with
  | Some d => Ok (d, prev, unlock o)
  | None =>
      let '(cpu, prev) := get_process_cpu_usage prev (curr_usage v) in
      Ok (mkPerformanceData (now v) cpu (get_process_rss_mb (statm v) (page_size v)) (requests_per_second data)
            (avg_response_time data) (active_connections data) (thread_pool_utilization data) (network_usage data)
            (error_rate data), prev, unlock o)
  end.

Definition optimizer_get_waf_strictness (o : Optimizer) : res (Z * Optimizer) :=
  o ← lock o; Ok (waf_strictness_level (levers o), unlock o).

Definition mean (f : PerformanceData -> double) (l : list PerformanceData) : double :=
  ddiv (fold_left (fun a d => dadd a (f d)) l zero) (d_of_Z (zlen l)).

Definition optimizer_get_average_data (data : PerformanceData) (o : Optimizer) : res (option PerformanceData * Optimizer) :=
  match history o with
  | [] => Ok (None, o)
  | _ =>
      o ← lock o;
      l ← access o;
      Ok (Some (mkPerformanceData (timestamp data) (mean cpu_usage l) (mean memory_usage l) (requests_per_second data)
                  (Some (mean response_of l))
                  (Some (Z.quot (fold_left (fun a d => i32 (a + connections_of d)) l 0) (zlen l)))
                  (thread_pool_utilization data) (network_usage data) (error_rate data)), unlock o)
  end.

Definition optimizer_set_thresholds (cpu mem resp : double) (o : Optimizer) : res Optimizer :=
  o ← lock o; Ok (unlock (set_thresholds cpu mem resp o)).

Definition optimizer_set_auto_optimization (enable : bool) (o : Optimizer) : res Optimizer :=
  o ← lock o; Ok (unlock (set_auto enable o)).

Definition optimizer_cleanup (o : Optimizer) : res Optimizer :=
  o ← lock o;
  match block o with
  | PFreed => Fault UseAfterFree
  | p => Ok (set_mutex Destroyed (set_history (match p with PLive _ => PFreed | p => p end) (history o) (history_capacity o) o))
  end.

(** ** Lemmas: the state machine *)

(** Only the state machine moves the state, by what the measurement is judged. *)
Lemma analyze_transition cores d o :
  (state (analyze_metrics cores d o), stability_counter (analyze_metrics cores d o))
  = transition (judge cores d o) (state o) (stability_counter o).
Proof.
  unfold analyze_metrics. destruct (anomaly cores d o).
  all: match goal with |- context [transition ?j ?s ?n] => change j with (judge cores d o); change s with (state o);
         change n with (stability_counter o) end.
  all: by destruct (transition _ (state o) (stability_counter o)).
Qed.

Fixpoint machine (l : list sample) (s : optimizer_state) (n : Z) : optimizer_state * Z :=
  match l with
  | [] => (s, n)
  | x :: l' => let '(s, n) := transition x s n in machine l' s n
  end.

Definition sample_eqb (a b : sample) : bool :=
  match a, b with Overloaded, Overloaded | Stable, Stable | Between, Between => true | _, _ => false end.

(** What the optimizer's history, counter and levers satisfy. *)
Definition optimizer_ok (o : Optimizer) : Prop :=
  mutex o = Unlocked /\ block o = PLive tt /\ history_capacity o = 100 /\ zlen (history o) <= 100
  /\ 0 <= stability_counter o < STABILITY_WINDOW
  /\ 0 <= waf_strictness_level (levers o) <= 10 /\ 0 <= backpressure_level (levers o) <= 10
  /\ 0 <= cache_eviction_aggressiveness (levers o) <= 10.

Lemma transition_counter x s n : 0 <= n < STABILITY_WINDOW -> 0 <= (transition x s n).2 < STABILITY_WINDOW.
Proof.
  unfold transition, count_to, STABILITY_WINDOW. intros Hn.
  destruct x, s; simpl; rewrite ?Z.geb_leb; try lia; destruct (Z.leb_spec 3 (n + 1)); simpl; lia.
Qed.

(** Without a sample between the two limits, the overloaded ones add up. *)
Lemma machine_counts l n :
  Forall (fun x => x <> Between) l -> 0 <= n -> n + countb (sample_eqb Overloaded) l < STABILITY_WINDOW ->
  machine l OPTIMIZER_STATE_NORMAL n = (OPTIMIZER_STATE_NORMAL, n + countb (sample_eqb Overloaded) l).
Proof.
  revert n. induction l as [|x l IH]; intros n Hf Hn Hlt; [cbn; f_equal; lia|].
  apply Forall_cons in Hf as [Hx Hf]. pose proof (countb_bounds (sample_eqb Overloaded) l).
  unfold STABILITY_WINDOW in *.
  destruct x; [|by apply (IH n)|done]; cbn [machine transition countb sample_eqb] in *.
  unfold count_to, STABILITY_WINDOW. rewrite Z.geb_leb, (proj2 (Z.leb_gt 3 (n + 1))) by lia.
  rewrite IH by (done || lia). f_equal. lia.
Qed.

Lemma machine_app l k s n : machine (l ++ k) s n = let '(s, n) := machine l s n in machine k s n.
Proof.
  revert s n. induction l as [|x l IH]; intros s n; [done|]. cbn [app machine].
  destruct (transition x s n). apply IH.
Qed.

(** A run of stable samples leads back to the normal state, from any. *)
Lemma machine_recovers s n :
  0 <= n < STABILITY_WINDOW -> (machine [Stable; Stable; Stable; Stable] s n).1 = OPTIMIZER_STATE_NORMAL.
Proof.
  unfold STABILITY_WINDOW. intros Hn.
  assert (n = 0 \/ n = 1 \/ n = 2) as [-> | [-> | ->]] by lia; by destruct s.
Qed.

(** ** Lemmas: the invariant *)

Lemma zlen_remember d l : zlen l <= 100 -> zlen (remember d 100 l) <= 100.
Proof.
  intros Hl. unfold remember. destruct (Z.ltb_spec (zlen l) 100); rewrite zlen_snoc; [lia|].
  unfold zlen in *. rewrite length_drop. lia.
Qed.

(** An optimizer that holds its mutex. *)
Definition held (o : Optimizer) : Prop := optimizer_ok (unlock o).

Lemma analyze_held cores d o : held o -> held (analyze_metrics cores d o).
Proof.
  intros (_ & Hb & Hc & Hl & Hn & Hw & Hp & He). unfold analyze_metrics.
  destruct (anomaly cores d o); cbn [state stability_counter set_last_connections set_levers].
  all: pose proof (transition_counter (judge cores d
         (set_last_connections (connections_of d) o)) (state o) (stability_counter o) Hn) as Ht.
  all: match goal with |- context [transition ?j ?s ?n] => change (transition j s n) with
         (transition (judge cores d (set_last_connections (connections_of d) o)) s n) end.
  all: destruct (transition _ _ _) as [s n]; repeat split; cbn in *; try done; lia.
Qed.

(** All that a run does to the cache is to clear it: any property [P] that clearing keeps
    is kept. *)
Section Kept.
Variable P : Cache -> Prop.
Hypothesis cleared : forall c, P c -> res_sat (fun r => P r.2) (cache_clear c).

Lemma memory_held d o c :
  held o -> P c -> res_sat (fun '(o, c, _) => held o /\ P c) (manage_memory d o c).
Proof.
  intros (_ & Hb & Hc & Hl & Hn & Hw & Hp & He) Hwf. unfold manage_memory, cache_reduce_size.
  pose proof (cleared c Hwf) as Hcl. cbn [Z.leb Z.compare].
  repeat case_match; try destruct (cache_clear c) as [[z c1]|]; cbn in *; try done;
    repeat split; cbn; try done; try lia; apply Hcl.
Qed.

Lemma threads_held cores ok d o : held o -> held (manage_threads cores ok d o).1.
Proof.
  intros (_ & Hb & Hc & Hl & Hn & Hw & Hp & He). unfold manage_threads.
  destruct ok, (state o); repeat case_match; repeat split; cbn in *; try done; lia.
Qed.

Lemma latency_held d o : held o -> held (manage_latency d o).
Proof.
  intros (_ & Hb & Hc & Hl & Hn & Hw & Hp & He). unfold manage_latency.
  repeat case_match; repeat split; cbn in *; try done; lia.
Qed.

Lemma execute_held cores ok d o c :
  held o -> P c -> res_sat (fun '(o, c, _) => held o /\ P c) (execute_control_actions cores ok d o c).
Proof.
  intros Ho Hc. unfold execute_control_actions. pose proof (memory_held d o c Ho Hc) as H.
  destruct (manage_memory d o c) as [[[o1 c1] a1]|]; [|done]. destruct H as [H1 H2]. cbn [mbind res_bind].
  pose proof (threads_held cores ok d o1 H1) as H3. destruct (manage_threads cores ok d o1) as [o2 a2].
  cbn in *. split; [|done]. by apply latency_held.
Qed.

Lemma held_unlock o : held o -> optimizer_ok (unlock o).
Proof. done. Qed.

Lemma lock_held o : optimizer_ok o -> exists o', lock o = Ok o' /\ held o' /\ o' = set_mutex Locked o.
Proof.
  intros H. exists (set_mutex Locked o). destruct H as (Hm & H). unfold lock. rewrite Hm.
  split; [done|]. split; [|done]. by split.
Qed.

Lemma run_ok v server prev o c :
  optimizer_ok o -> P c ->
  res_sat (fun '(o, _, c, _) => optimizer_ok o /\ P c) (optimizer_run v server prev o c).
Proof.
  intros Ho Hc. unfold optimizer_run. destruct (enable_auto_optimization o); [|by split].
  destruct (lock_held o Ho) as (o1 & -> & H1 & ->). cbn [negb mbind res_bind].
  destruct (_ <? _); [by split; [apply H1|]|].
  destruct (measure v server prev) as [d p]. unfold access.
  pose proof H1 as (_ & Hb & Hcap & Hl & Hr). cbn in Hb, Hcap, Hl. cbn [block set_mutex]. rewrite Hb.
  cbn [mbind res_bind history set_mutex history_capacity]. rewrite Hcap.
  match goal with |- context [analyze_metrics ?k d ?o2] => assert (held (analyze_metrics k d o2)) as H2 end.
  { apply analyze_held. repeat split; try done; try apply Hr. by apply zlen_remember. }
  pose proof (execute_held (cores v) (load_ok v) d _ c H2 Hc) as H3.
  destruct (execute_control_actions _ _ _ _ _) as [[[o3 c3] a3]|]; [|done]. by destruct H3.
Qed.
End Kept.

(** ** A series of runs *)

(** What each run finds of the system and of the server. *)
Fixpoint runs (l : list (run_env * option (Z * double))) (prev : usage) (o : Optimizer) (c : Cache)
  : res (Optimizer * Cache) :=
  match l with
  | [] => Ok (o, c)
  | (v, server) :: l' => '(o, prev, c, _) ← optimizer_run v server prev o c; runs l' prev o c
  end.

(** C38: The main loop calls [optimizer_run] for ever.  Started by [optimizer_init], no
    series of runs ever faults, whatever the system and the server report, and after it
    the mutex is free, the history holds at most its hundred measurements, the counter
    is below the window, each lever is between its limits, and the response cache that
    the optimizer clears is well formed. *)
Theorem optimizer_kept cores (l : list (run_env * option (Z * double))) prev o c o1 :
  optimizer_init cores true true o = (0, o1) -> cache_wf c ->
  exists o' c', runs l prev o1 c = Ok (o', c') /\ optimizer_ok o' /\ cache_wf c'.
Proof.
  intros Hi Hc. assert (optimizer_ok o1) as Ho.
  { injection Hi as <-. by repeat split. }
  clear Hi. revert prev o1 c Ho Hc. induction l as [|[v s] l IH]; intros prev o1 c Ho Hc; [by exists o1, c|].
  cbn [runs]. pose proof (run_ok _ cache_clear_wf v s prev o1 c Ho Hc) as H.
  destruct (optimizer_run v s prev o1 c) as [[[[o2 p2] c2] a2]|]; [|done]. destruct H. by apply IH.
Qed.

(** Three overloaded samples in a row are meant to lead to the state OVERLOAD.  The
    counter is only set back by a sample between the two limits, not by a stable one:
    in the normal state two overloaded samples, with any number of stable ones before,
    between and after them, leave the third to move the state however late it comes. *)
Theorem overloads_add_up l :
  Forall (fun x => x <> Between) l -> countb (sample_eqb Overloaded) l = 2 ->
  machine (l ++ [Overloaded]) OPTIMIZER_STATE_NORMAL 0 = (OPTIMIZER_STATE_OVERLOAD, 0).
Proof.
  intros Hf Hc. rewrite machine_app, machine_counts by (done || (rewrite Hc; done)). by rewrite Hc.
Qed.

(** An anomaly, much CPU time for few connections, sets the strictness of the
    firewall and the backpressure to 10.  The control actions of the same run overwrite
    both: when the load average can be read the strictness is 3 or 8 after the run and
    the backpressure 0 or 8, so the defensive mode never lasts to the end of the run
    that enters it. *)
Theorem defensive_mode_lost cores d o c o' c' acts :
  execute_control_actions cores true d (analyze_metrics cores d o) c = Ok (o', c', acts) ->
  waf_strictness_level (levers o') = (if bool_decide (state o' = OPTIMIZER_STATE_OVERLOAD) then 3 else 8)
  /\ backpressure_level (levers o') = (if dgtb (response_of d) (response_time_threshold o') then 8 else 0).
Proof.
  unfold execute_control_actions. destruct (manage_memory d _ c) as [[[o1 c1] a1]|]; [|done].
  cbn [mbind res_bind].
  unfold manage_threads. cbn [negb]. destruct (_ && _); intros ?; simplify_eq; unfold manage_latency;
    cbn [response_time_threshold set_last_actions set_levers]; destruct (dgtb _ _) eqn:Er; case_match;
    cbn -[bool_decide dgtb] in *; destruct (state o1) eqn:Es; rewrite ?Es; cbn -[dgtb] in *; rewrite ?Er; split; try done;
    by apply Z.eqb_eq, negb_false_iff.
Qed.

(** ** Witnesses *)

Definition demo_optimizer : Optimizer := Eval vm_compute in (optimizer_init 4 true true global_optimizer).2.

Definition demo_cache : Cache := Eval vm_compute in default (mkCache [] 0 0 0 0 0 0) (cache_init 4 60 true true).

Definition no_usage : usage := mkUsage (mkTimeval 0 0) (mkTimeval 0 0) (mkTimeval 0 0).

(** A process of 1000 MB, measured every ten seconds. *)
Definition demo_run (t n : Z) : run_env * option (Z * double) :=
  (mkRunEnv t 4 (mkUsage (mkTimeval t 0) (mkTimeval 0 0) (mkTimeval t 0)) (Some 256000) 4096 true, Some (n, zero)).

Lemma optimizer_kept_witness :
  exists o' c', runs [demo_run 10 20; demo_run 12 20; demo_run 20 3; demo_run 30 3] no_usage demo_optimizer demo_cache
                = Ok (o', c') /\ optimizer_ok o' /\ cache_wf c'.
Proof.
  apply (optimizer_kept 4 _ no_usage global_optimizer); [done|].
  by apply (cache_init_wf 4 60).
Defined.

Example demo_states :
  (fun r => (state r.1, levers r.1, zlen (history r.1)))
    <$> runs [demo_run 10 20; demo_run 12 20; demo_run 20 3; demo_run 30 3] no_usage demo_optimizer demo_cache
  = Ok (OPTIMIZER_STATE_OVERLOAD, mkLevers 6 3 10 0 1 0, 3).
Proof. by vm_compute. Qed.

Lemma overloads_add_up_witness :
  machine [Stable; Overloaded; Stable; Stable; Overloaded; Stable; Overloaded] OPTIMIZER_STATE_NORMAL 0
  = (OPTIMIZER_STATE_OVERLOAD, 0).
Proof.
  apply (overloads_add_up [Stable; Overloaded; Stable; Stable; Overloaded; Stable]); [by repeat constructor|done].
Defined.

(** 350 % of four processors for four connections, after twenty. *)
Definition odd_data : PerformanceData :=
  mkPerformanceData 10 (d_of_Z 350) (d_of_Z 300) (Some 0) (Some zero) (Some 4) None None None.

Definition busy_optimizer : Optimizer := set_last_connections 20 demo_optimizer.

Lemma defensive_mode_lost_witness :
  anomaly 4 odd_data busy_optimizer = true
  /\ exists o' c' acts,
    execute_control_actions 4 true odd_data (analyze_metrics 4 odd_data busy_optimizer) demo_cache = Ok (o', c', acts)
    /\ waf_strictness_level (levers o') = 8 /\ backpressure_level (levers o') = 0.
Proof.
  split; [by vm_compute|].
  destruct (execute_control_actions 4 true odd_data (analyze_metrics 4 odd_data busy_optimizer) demo_cache)
    as [[[o' c'] acts]|] eqn:E; [|by vm_compute in E].
  exists o', c', acts. split; [done|].
  destruct (defensive_mode_lost 4 odd_data busy_optimizer demo_cache o' c' acts E) as [H1 H2].
  vm_compute in E. injection E as <- <- <-. by split.
Defined.
