(* ===== verification/EventLoop.v ===== *)
(** * The event loop: src/iouring_engine.c

    The submission and completion rings with their 32-bit counters, the table of
    descriptors, the queue of unsent data and the two loops.  What the kernel answers
    ([io_uring_setup], [mmap], [accept4], [epoll_wait], the completions, [malloc]) is an
    argument; [send] and [close] are those of [Io], and every call of [epoll_ctl] is
    recorded.  The callbacks are functions on what [userdata] points to; they do not use
    the loop they are given, as those of [src/server.c] do not. *)

From S2P Require Import Prelude Io.

(** ** Rings *)

Record io_uring_sqe := mkSqe { opcode : Z; sqe_fd : Z; accept_flags : Z; user_data : Z }.

Record io_uring_cqe := mkCqe { cqe_user_data : Z; cqe_res : Z }.

(** What is mapped of the kernel's memory. *)
Inductive mapping : Set := SQ_RING | CQ_RING | SQES.

#[export] Instance mapping_eq_dec : EqDecision mapping.
Proof. solve_decision. Defined.

(** [stail] and [chead] are what was last published to the kernel.  [sq_array] is the array of the submission
    ring that tells the kernel, for each place of the ring, which of the [sqes] is meant: it is mapped with
    the ring, but the structure of the source has no pointer to it. *)
Record io_ring := mkRing {
  ring_fd : Z;
  sqes : list io_uring_sqe;
  sq_array : list Z;
  stail : Z;
  chead : Z;
  cring_mask : Z;
  sqes_mask : Z;
  sqes_entries : Z;
  sq_head : Z;
  sq_tail : Z;
  cached_cqe : Z;
  pending_count : Z;
  sq_ring_base : option mapping;
  sq_sqes_base : option mapping;
  cq_ring_base : option mapping;
  sq_sqes_size : Z;
  sq_ring_size : Z;
  cq_ring_size : Z;
  features : Z;
  use_sqpoll : bool
}.

Definition no_ring : io_ring := mkRing 0 [] [] 0 0 0 0 0 0 0 0 0 None None None 0 0 0 0 false.

Definition set_sqes (l : list io_uring_sqe) (r : io_ring) : io_ring :=
  mkRing (ring_fd r) l (sq_array r) (stail r) (chead r) (cring_mask r) (sqes_mask r) (sqes_entries r) (sq_head r) (sq_tail r)
    (cached_cqe r) (pending_count r) (sq_ring_base r) (sq_sqes_base r) (cq_ring_base r) (sq_sqes_size r)
    (sq_ring_size r) (cq_ring_size r) (features r) (use_sqpoll r).
Definition set_sq (published head tail : Z) (r : io_ring) : io_ring :=
  mkRing (ring_fd r) (sqes r) (sq_array r) published (chead r) (cring_mask r) (sqes_mask r) (sqes_entries r) head tail
    (cached_cqe r) (pending_count r) (sq_ring_base r) (sq_sqes_base r) (cq_ring_base r) (sq_sqes_size r)
    (sq_ring_size r) (cq_ring_size r) (features r) (use_sqpoll r).
Definition set_cq (published cached : Z) (r : io_ring) : io_ring :=
  mkRing (ring_fd r) (sqes r) (sq_array r) (stail r) published (cring_mask r) (sqes_mask r) (sqes_entries r) (sq_head r) (sq_tail r)
    cached (pending_count r) (sq_ring_base r) (sq_sqes_base r) (cq_ring_base r) (sq_sqes_size r)
    (sq_ring_size r) (cq_ring_size r) (features r) (use_sqpoll r).

(** The kernel's parameters, as [io_uring_setup] fills them; the masks, the number
    of entries and the array of the submission ring are found in the rings. *)
Record io_uring_params := mkParams {
  sqpoll : bool;
  single_mmap : bool;
  param_features : Z;
  sq_entries : Z;
  cq_entries : Z;
  sq_off_array : Z;
  cq_off_cqes : Z;
  sring_mask_value : Z;
  sring_entries_value : Z;
  cring_mask_value : Z;
  sq_array_value : list Z
}.

(** What the kernel is asked, in order. *)
Inductive kernel_call : Set := Opened (fd : Z) | Closed (fd : Z) | Mapped (m : mapping) (size : Z) | Unmapped (m : mapping) (size : Z).

#[export] Instance kernel_call_eq_dec : EqDecision kernel_call.
Proof. solve_decision. Defined.

(** The answers to the set-up: the descriptors of the two attempts (negative: refused)
    and what they filled in, and whether each [mmap] succeeded. *)
Record setup_env := mkSetupEnv {
  first_fd : Z;
  first_params : io_uring_params;
  second_fd : Z;
  second_params : io_uring_params;
  page_size : Z;
  sq_ok : bool;
  cq_ok : bool;
  sqes_ok : bool
}.

(** [(size + page - 1) & ~(page - 1)] *)
Definition round_up (size page : Z) : Z := Z.land (size + page - 1) (Z.lnot (page - 1)).

Definition setup_sizes (p : io_uring_params) (page : Z) : Z * Z * Z :=
  let sring := sq_off_array p + sq_entries p * 4 in
  let cring := cq_off_cqes p + cq_entries p * 16 in
  let '(sring, cring) :=
    if single_mmap p then (if cring >? sring then (cring, cring) else (sring, sring)) else (sring, cring) in
  (round_up sring page, round_up cring page, round_up (sq_entries p * 64) page).

(** The rings once [io_uring_setup] has given [fd]. *)
Definition map_rings (e : setup_env) (fd : Z) (p : io_uring_params) : option io_ring * list kernel_call :=
  let '(sring_sz, cring_sz, sqes_size) := setup_sizes p (page_size e) in
  if negb (sq_ok e) then (None, [Closed fd])
  else if negb (single_mmap p) && negb (cq_ok e) then (None, [Mapped SQ_RING sring_sz; Unmapped SQ_RING sring_sz; Closed fd])
  else
    let maps := Mapped SQ_RING sring_sz :: (if single_mmap p then [] else [Mapped CQ_RING cring_sz]) in
    if negb (sqes_ok e) then
      (None, maps ++ Unmapped SQ_RING sring_sz
               :: (if single_mmap p then [] else [Unmapped CQ_RING cring_sz]) ++ [Closed fd])
    else
      (Some (mkRing fd (replicate (Z.to_nat (sq_entries p)) (mkSqe 0 0 0 0)) (sq_array_value p) 0 0 (cring_mask_value p) (sring_mask_value p)
               (sring_entries_value p) 0 0 0 0 (Some SQ_RING) (Some SQES)
               (Some (if single_mmap p then SQ_RING else CQ_RING)) sqes_size sring_sz cring_sz (param_features p)
               (sqpoll p)),
       maps ++ [Mapped SQES sqes_size]).

Definition iouring_ring_setup (e : setup_env) (use_sqpoll : bool) : option io_ring * list kernel_call :=
  if first_fd e <? 0 then
    if use_sqpoll then
      if second_fd e <? 0 then (None, [])
      else let '(r, l) := map_rings e (second_fd e) (second_params e) in (r, Opened (second_fd e) :: l)
    else (None, [])
  else let '(r, l) := map_rings e (first_fd e) (first_params e) in (r, Opened (first_fd e) :: l).

Definition unmap (base : option mapping) (size : Z) : list kernel_call :=
  match base with Some m => if size >? 0 then [Unmapped m size] else [] | None => [] end.

Definition iouring_ring_destroy (r : io_ring) : io_ring * list kernel_call :=
  if ring_fd r <? 0 then (r, [])
  else
    (mkRing (-1) [] [] 0 0 0 0 0 0 0 0 0 None None None 0 0 0 0 false,
     unmap (sq_sqes_base r) (sq_sqes_size r) ++ unmap (sq_ring_base r) (sq_ring_size r)
     ++ (if bool_decide (cq_ring_base r = sq_ring_base r) then [] else unmap (cq_ring_base r) (cq_ring_size r))
     ++ [Closed (ring_fd r)]).

(** The first part is the number of entries that [io_uring_enter] is told of ([None]: it is not called).  What it answers is
    returned, and no caller looks at it: the counters move whether the kernel took the entries or not. *)
Definition iouring_submit (r : io_ring) : option Z * io_ring :=
  (if use_sqpoll r then None else Some (u32 (sq_tail r - sq_head r)), set_sq (sq_tail r) (sq_tail r) (sq_tail r) r).

(** The index of the entry that may be filled. *)
Definition iouring_get_sqe (r : io_ring) : option Z * io_ring :=
  let next := u32 (sq_tail r + 1) in
  if u32 (next - sq_head r) >? sqes_entries r then (None, r)
  else (Some (Z.land (sq_tail r) (sqes_mask r)), set_sq (stail r) (sq_head r) next r).

(** [ctail] is the tail of the completion ring, as the kernel has published it. *)
Definition iouring_cq_ready (ctail : Z) (r : io_ring) : Z := i32 (u32 (ctail - cached_cqe r)).

Definition iouring_get_cqe (ctail : Z) (r : io_ring) : option Z * io_ring :=
  if cached_cqe r =? ctail then (None, r)
  else (Some (Z.land (cached_cqe r) (cring_mask r)), set_cq (chead r) (u32 (cached_cqe r + 1)) r).

Definition iouring_cq_advance (r : io_ring) : io_ring := set_cq (cached_cqe r) (cached_cqe r) r.

(** Of [linux/io_uring.h], [sys/epoll.h] and [errno.h]. *)
Definition IORING_OP_ACCEPT : Z := 13.
Definition IORING_OP_READ : Z := 22.
Definition IORING_OP_WRITE : Z := 23.
Definition IORING_OP_SEND : Z := 26.
Definition IORING_OP_RECV : Z := 27.
Definition SOCK_FLAGS : Z := 0x80800.
Definition EAGAIN : Z := 11.
Definition EINTR : Z := 4.
Definition EPOLLIN : Z := 1.
Definition EPOLLOUT : Z := 4.
Definition EPOLLERR : Z := 8.
Definition EPOLLHUP : Z := 16.
Definition EPOLLRDHUP : Z := 0x2000.
Definition EPOLLET : Z := 0x80000000.

(** ** The loop *)

Record WriteBuf := mkWriteBuf { data : list Z; wb_sent : Z; wb_fd : Z }.

Inductive epoll_op : Set := EPOLL_CTL_ADD | EPOLL_CTL_MOD | EPOLL_CTL_DEL.

Record EventLoopConfig := mkEventLoopConfig {
  cfg_use_io_uring : bool;
  cfg_use_epoll : bool;
  cfg_max_events : Z;
  cfg_timeout_ms : Z;
  cfg_tcp_fastopen : Z;
  cfg_zero_copy : bool;
  cfg_busy_poll : Z;
  cfg_io_uring_queue_depth : Z;
  cfg_io_uring_sqpoll : bool
}.

Definition event_loop_default_config : EventLoopConfig := mkEventLoopConfig true true 4096 100 0 false 0 512 false.

(** The fields that [event_loop_create] sets once. *)
Record loop_opts := mkLoopOpts {
  epoll_fd : Z;
  event_fd : Z;
  use_io_uring : bool;
  use_epoll : bool;
  max_events : Z;
  timeout_ms : Z;
  tcp_fastopen : Z;
  zero_copy : bool;
  busy_poll : Z;
  iou_use_io_uring : bool;
  sqpoll_enabled : bool
}.

Section Loop.
Context {U : Type}.

(** [n] counts the callbacks before; [None] is a null pointer. *)
Record callbacks := mkCallbacks {
  on_accept : option (nat -> Z -> U -> M U);
  on_read : option (nat -> Z -> U -> M (Z * U));
  on_write : option (nat -> Z -> U -> M U);
  on_close : option (nat -> Z -> U -> M U);
  on_error : option (nat -> Z -> Z -> U -> M U)
}.

(** [conn_count] is the length of [conn_fds], [ctls] the calls of [epoll_ctl]. *)
Record EventLoop := mkEventLoop {
  opts : loop_opts;
  cbs : callbacks;
  listener_fds : list Z;
  write_queue : list WriteBuf;
  write_queue_count : Z;
  write_mutex : mutex_state;
  ring : io_ring;
  conn_fds : list Z;
  conn_capacity : Z;
  userdata : U;
  calls : nat;
  ctls : list (epoll_op * Z * Z)
}.

Definition set_cbs (c : callbacks) (u : U) (el : EventLoop) : EventLoop :=
  mkEventLoop (opts el) c (listener_fds el) (write_queue el) (write_queue_count el) (write_mutex el) (ring el)
    (conn_fds el) (conn_capacity el) u (calls el) (ctls el).
Definition set_listeners (l : list Z) (el : EventLoop) : EventLoop :=
  mkEventLoop (opts el) (cbs el) l (write_queue el) (write_queue_count el) (write_mutex el) (ring el)
    (conn_fds el) (conn_capacity el) (userdata el) (calls el) (ctls el).
Definition set_queue (q : list WriteBuf) (n : Z) (m : mutex_state) (el : EventLoop) : EventLoop :=
  mkEventLoop (opts el) (cbs el) (listener_fds el) q n m (ring el)
    (conn_fds el) (conn_capacity el) (userdata el) (calls el) (ctls el).
Definition set_ring (r : io_ring) (el : EventLoop) : EventLoop :=
  mkEventLoop (opts el) (cbs el) (listener_fds el) (write_queue el) (write_queue_count el) (write_mutex el) r
    (conn_fds el) (conn_capacity el) (userdata el) (calls el) (ctls el).
Definition set_conns (l : list Z) (cap : Z) (el : EventLoop) : EventLoop :=
  mkEventLoop (opts el) (cbs el) (listener_fds el) (write_queue el) (write_queue_count el) (write_mutex el) (ring el)
    l cap (userdata el) (calls el) (ctls el).
Definition called (u : U) (el : EventLoop) : EventLoop :=
  mkEventLoop (opts el) (cbs el) (listener_fds el) (write_queue el) (write_queue_count el) (write_mutex el) (ring el)
    (conn_fds el) (conn_capacity el) u (S (calls el)) (ctls el).
Definition epoll_ctl (op : epoll_op) (fd events : Z) (el : EventLoop) : EventLoop :=
  mkEventLoop (opts el) (cbs el) (listener_fds el) (write_queue el) (write_queue_count el) (write_mutex el) (ring el)
    (conn_fds el) (conn_capacity el) (userdata el) (calls el) (ctls el ++ [(op, fd, events)]).

(** A callback that is not set is not called. *)
Definition call (f : callbacks -> option (nat -> Z -> U -> M U)) (fd : Z) (el : EventLoop) : M EventLoop :=
  match f (cbs el) with
  | Some f => u ← f (calls el) fd (userdata el); mret (called u el)
  | None => mret el
  end.

Definition call_read (fd : Z) (el : EventLoop) : M (Z * EventLoop) :=
  match on_read (cbs el) with
  | Some f => '(z, u) ← f (calls el) fd (userdata el); mret (z, called u el)
  | None => mret (0, el)
  end.

(** ** The table of descriptors *)

Definition event_loop_add_conn (realloc_ok : bool) (fd : Z) (el : EventLoop) : Z * EventLoop :=
  if zlen (conn_fds el) >=? conn_capacity el then
    if negb realloc_ok then (-1, el)
    else (0, set_conns (conn_fds el ++ [fd]) (if conn_capacity el =? 0 then 1024 else conn_capacity el * 2) el)
  else (0, set_conns (conn_fds el ++ [fd]) (conn_capacity el) el).

(** The last takes the place of the one that is removed. *)
Definition remove_fd (fd : Z) (l : list Z) : list Z :=
  match list_find (fun x => x = fd) l with
  | Some (i, _) => take (length l - 1) (match last l with Some y => <[i := y]> l | None => l end)
  | None => l
  end.

Definition event_loop_remove_conn (fd : Z) (el : EventLoop) : EventLoop :=
  set_conns (remove_fd fd (conn_fds el)) (conn_capacity el) el.

Definition event_loop_set_callbacks (c : callbacks) (u : U) (el : EventLoop) : EventLoop := set_cbs c u el.

Definition event_loop_add_fd (ctl_ok realloc_ok : bool) (fd events : Z) (el : EventLoop) : Z * EventLoop :=
  let el := epoll_ctl EPOLL_CTL_ADD fd (Z.lor events EPOLLET) el in
  if negb ctl_ok then (-1, el) else event_loop_add_conn realloc_ok fd el.

Definition event_loop_mod_fd (ctl_ok : bool) (fd events : Z) (el : EventLoop) : Z * EventLoop :=
  (if ctl_ok then 0 else -1, epoll_ctl EPOLL_CTL_MOD fd (Z.lor events EPOLLET) el).

Definition event_loop_del_fd (fd : Z) (el : EventLoop) : Z * EventLoop :=
  (0, event_loop_remove_conn fd (epoll_ctl EPOLL_CTL_DEL fd 0 el)).

Definition event_loop_add_listener (ctl_ok : bool) (fd : Z) (el : EventLoop) : Z * EventLoop :=
  let el := epoll_ctl EPOLL_CTL_ADD fd EPOLLIN el in
  if negb ctl_ok then (-1, el)
  else (0, if zlen (listener_fds el) <? 64 then set_listeners (listener_fds el ++ [fd]) el else el).

Definition event_loop_add_signal_fd (ctl_ok : bool) (fd : Z) (el : EventLoop) : Z * EventLoop :=
  (if ctl_ok then 0 else -1, epoll_ctl EPOLL_CTL_ADD fd EPOLLIN el).

(** ** Accepting *)

(** What [accept4] answers: a descriptor (and what [realloc] answers, should the table
    have to grow), or the three kinds of failure. *)
Inductive accept_answer := Accepted (fd : Z) (realloc_ok : bool) | Accept_again | Accept_interrupted | Accept_failed.

(** In epoll mode a new connection is watched, in the table, and given to [on_accept]. *)
Definition take_in (fd : Z) (realloc_ok : bool) (el : EventLoop) : M EventLoop :=
  let el := epoll_ctl EPOLL_CTL_ADD fd (Z.lor EPOLLIN (Z.lor EPOLLET EPOLLRDHUP)) el in
  call on_accept fd (event_loop_add_conn realloc_ok fd el).2.

(** One listener: until there is nothing more, or any error but an interruption. *)
Fixpoint accept_listener (answers : list accept_answer) (accepted : Z) (el : EventLoop)
  : M (Z * list accept_answer * EventLoop) :=
  match answers with
  | [] => fun _ => Waiting
  | Accepted fd realloc_ok :: rest =>
      el ← (if use_io_uring (opts el) then call on_accept fd (event_loop_add_conn realloc_ok fd el).2
            else take_in fd realloc_ok el);
      accept_listener rest (accepted + 1) el
  | Accept_interrupted :: rest => accept_listener rest accepted el
  | _ :: rest => mret (accepted, rest, el)
  end.

Fixpoint accept_listeners (listeners : list Z) (answers : list accept_answer) (accepted : Z) (el : EventLoop)
  : M (Z * list accept_answer * EventLoop) :=
  match listeners with
  | [] => mret (accepted, answers, el)
  | _ :: l =>
      '(accepted, answers, el) ← accept_listener answers accepted el;
      accept_listeners l answers accepted el
  end.

Definition event_loop_accept_conn (answers : list accept_answer) (el : EventLoop)
  : M (Z * list accept_answer * EventLoop) :=
  accept_listeners (listener_fds el) answers 0 el.

(** The loop of [event_loop_run] on a listener: it ends when there is nothing more, and
    goes on after any error. *)
Fixpoint accept_running (running : U -> bool) (answers : list accept_answer) (el : EventLoop)
  : M (list accept_answer * EventLoop) :=
  if running (userdata el) then
    match answers with
    | [] => fun _ => Waiting
    | Accepted fd realloc_ok :: rest => el ← take_in fd realloc_ok el; accept_running running rest el
    | Accept_again :: rest => mret (rest, el)
    | _ :: rest => accept_running running rest el
    end
  else mret (answers, el).

(** ** Writing *)

Definition lock (el : EventLoop) : res EventLoop :=
  m ← mutex_lock (write_mutex el); Ok (set_queue (write_queue el) (write_queue_count el) m el).
Definition unlock (el : EventLoop) : EventLoop := set_queue (write_queue el) (write_queue_count el) Unlocked el.

Definition event_loop_write (malloc_ok : bool) (fd : Z) (d : list Z) (el : EventLoop) : M (Z * EventLoop) :=
  r ← send fd d;
  match r with
  | Sent n => if n =? zlen d then el ← call on_write fd el; mret (0, el) else mret (-1, el)
  | Again =>
      el ← of_res (lock el);
      if negb malloc_ok then mret (-1, unlock el)
      else
        let el := unlock (set_queue (write_queue el ++ [mkWriteBuf d 0 fd]) (i32 (write_queue_count el + 1)) (write_mutex el) el) in
        mret (0, epoll_ctl EPOLL_CTL_MOD fd (Z.lor EPOLLIN (Z.lor EPOLLOUT EPOLLET)) el)
  | Failed => mret (-1, el)
  end.

Definition rest_of (b : WriteBuf) : list Z := drop (Z.to_nat (wb_sent b)) (data b).

Definition one_less (el : EventLoop) : EventLoop :=
  set_queue (write_queue el) (i32 (write_queue_count el - 1)) (write_mutex el) el.

(** The buffers that stay, and the loop after the callbacks. *)
Fixpoint flush_bufs (bufs : list WriteBuf) (el : EventLoop) : M (list WriteBuf * EventLoop) :=
  match bufs with
  | [] => mret ([], el)
  | b :: bufs' =>
      r ← send (wb_fd b) (rest_of b);
      let b := match r with Sent n => mkWriteBuf (data b) (wb_sent b + n) (wb_fd b) | _ => b end in
      if wb_sent b >=? zlen (data b) then flush_bufs bufs' (one_less el)
      else
        match r with
        | Failed => el ← call on_close (wb_fd b) el; flush_bufs bufs' (one_less el)
        | _ => '(q, el) ← flush_bufs bufs' el; mret (b :: q, el)
        end
  end.

Definition flush_write_queue (el : EventLoop) : M EventLoop :=
  el ← of_res (lock el);
  '(q, el) ← flush_bufs (write_queue el) el;
  mret (unlock (set_queue q (write_queue_count el) (write_mutex el) el)).

(** The copy by [read]: [chunks] are what the reads give, [[]] the end or an error. *)
Fixpoint copy_file (chunks : list (list Z)) (mallocs : nat -> bool) (n : nat) (fd : Z) (count : Z) (el : EventLoop)
  : M (Z * EventLoop) :=
  if count >? 0 then
    match chunks with
    | [] => fun _ => Waiting
    | c :: chunks' =>
        let c := take (Z.to_nat (Z.min count 65536)) c in
        match c with
        | [] => mret (0, el)
        | _ =>
            '(r, el) ← event_loop_write (mallocs n) fd c el;
            if r <? 0 then mret (-1, el) else copy_file chunks' mallocs (S n) fd (count - zlen c) el
        end
    end
  else mret (0, el).

(** [sent] is the value of [sendfile], which the kernel carries out. *)
Definition event_loop_sendfile (sent : Z) (chunks : list (list Z)) (mallocs : nat -> bool) (fd : Z) (count : Z)
    (el : EventLoop) : M (Z * EventLoop) :=
  if zero_copy (opts el) then
    if sent >? 0 then el ← call on_write fd el; mret (0, el) else mret (if sent <? 0 then -1 else 0, el)
  else copy_file chunks mallocs 0 fd count el.

(** Of what was moved into the pipe, nothing is taken out again. *)
Definition event_loop_splice (pipe_ok : bool) (spliced : Z) (malloc_ok : bool) (fd_out : Z) (el : EventLoop)
  : M (Z * EventLoop) :=
  if negb pipe_ok then mret (-1, el)
  else if spliced <=? 0 then mret (-1, el)
  else '(_, el) ← event_loop_write malloc_ok fd_out [] el; mret (0, el).

(** ** Events *)

Record epoll_event := mkEpollEvent { ev_fd : Z; ev_events : Z }.

Definition has (e : epoll_event) (bits : Z) : bool := negb (Z.land (ev_events e) bits =? 0).

Definition drop_fd (fd : Z) (el : EventLoop) : M EventLoop :=
  el ← call on_close fd el;
  _ ← close fd;
  mret (event_loop_remove_conn fd el).

(** What both loops do with an event of a connection. *)
Definition connection_event (e : epoll_event) (el : EventLoop) : M EventLoop :=
  let fd := ev_fd e in
  if has e (Z.lor EPOLLHUP EPOLLERR) then drop_fd fd el
  else if has e EPOLLIN then
    '(close_fd, el) ← call_read fd el;
    if negb (close_fd =? 0) then drop_fd fd el else mret el
  else if has e EPOLLOUT then
    el ← flush_write_queue el;
    let el := if write_queue_count el =? 0 then epoll_ctl EPOLL_CTL_MOD fd (Z.lor EPOLLIN EPOLLET) el else el in
    call on_write fd el
  else mret el.

Definition is_listener (fd : Z) (el : EventLoop) : bool := existsb (Z.eqb fd) (listener_fds el).

Fixpoint fallback_events (l : list epoll_event) (el : EventLoop) : M EventLoop :=
  match l with
  | [] => mret el
  | e :: l' =>
      el ← (if (ev_fd e =? event_fd (opts el)) || is_listener (ev_fd e) el then mret el else connection_event e el);
      fallback_events l' el
  end.

Fixpoint run_events (running : U -> bool) (answers : list accept_answer) (l : list epoll_event) (el : EventLoop)
  : M (list accept_answer * EventLoop) :=
  match l with
  | [] => mret (answers, el)
  | e :: l' =>
      '(answers, el) ← (if ev_fd e =? event_fd (opts el) then mret (answers, el)
                        else if is_listener (ev_fd e) el then accept_running running answers el
                        else el ← connection_event e el; mret (answers, el));
      run_events running answers l' el
  end.

(** ** Completions *)

Definition op_of (c : io_uring_cqe) : Z := i32 (Z.land (cqe_user_data c) 0xFFFFFFFF).
Definition fd_of (c : io_uring_cqe) : Z := i32 (Z.shiftr (cqe_user_data c) 32).

Definition read_completed (fd : Z) (el : EventLoop) : M EventLoop :=
  '(close_fd, el) ← call_read fd el;
  if negb (close_fd =? 0) then call on_close fd el else mret el.

Definition handle_cqe (c : io_uring_cqe) (realloc_ok : bool) (el : EventLoop) : M EventLoop :=
  let fd := fd_of c in
  let op := op_of c in
  let res := cqe_res c in
  if res <? 0 then
    if (res =? - EAGAIN) || (res =? - EINTR) then mret el
    else if op =? IORING_OP_READ then call on_close fd el else mret el
  else if op =? IORING_OP_ACCEPT then
    match on_accept (cbs el) with
    | Some _ =>
        if res >? 0 then el ← call on_accept res el; mret (event_loop_add_conn realloc_ok res el).2 else mret el
    | None => mret el
    end
  else if op =? IORING_OP_READ then read_completed fd el
  else if op =? IORING_OP_WRITE then call on_write fd el
  else if op =? IORING_OP_RECV then read_completed fd el
  else if op =? IORING_OP_SEND then call on_write fd el
  else mret el.

(** What the kernel has put into the completion ring: its tail and its entries; the
    answers of [realloc] go with the entries. *)
Record completions := mkCompletions { ctail : Z; cqes : list io_uring_cqe; reallocs : Z -> bool }.

Fixpoint handle_loop (fuel : nat) (k : completions) (count : Z) (el : EventLoop) : M (Z * EventLoop) :=
  match iouring_get_cqe (ctail k) (ring el), fuel with
  | (None, _), _ => mret (count, el)
  | _, O => fun _ => Waiting
  | (Some i, r), S fuel' =>
      match znth (cqes k) i with
      | None => crash OutOfBounds
      | Some c =>
          el ← handle_cqe c (reallocs k i) (set_ring r el);
          handle_loop fuel' k (count + 1) el
      end
  end.

(** One round for each completion between what was seen and the tail. *)
Definition iouring_handle_cqes (k : completions) (el : EventLoop) : M (Z * EventLoop) :=
  '(count, el) ← handle_loop (Z.to_nat (u32 (ctail k - cached_cqe (ring el)))) k 0 el;
  mret (count, set_ring (iouring_cq_advance (ring el)) el).

Definition accept_sqe (listen_fd : Z) : io_uring_sqe :=
  mkSqe IORING_OP_ACCEPT listen_fd SOCK_FLAGS (Z.lor (u64 (Z.shiftl listen_fd 32)) IORING_OP_ACCEPT).

(** The entries that were got are filled. *)
Fixpoint submit_accepts (l : list Z) (r : io_ring) (submitted : Z) : res (Z * io_ring) :=
  match l with
  | [] => Ok (submitted, r)
  | fd :: l' =>
      match iouring_get_sqe r with
      | (None, r) => Ok (submitted, r)
      | (Some i, r) =>
          if (0 <=? i) && (i <? zlen (sqes r)) then
            submit_accepts l' (set_sqes (zset (sqes r) i (accept_sqe fd)) r) (submitted + 1)
          else Fault OutOfBounds
      end
  end.

Definition iouring_submit_accept (el : EventLoop) : res (Z * EventLoop) :=
  '(n, r) ← submit_accepts (listener_fds el) (ring el) 0; Ok (n, set_ring r el).

(** ** The loop, once *)

(** What [epoll_wait] answers: events, an interruption, an error. *)
Inductive wait_answer := Events (l : list epoll_event) | Wait_interrupted | Wait_failed.

Record loop_env := mkLoopEnv {
  waited : wait_answer;
  answers : list accept_answer;
  events_ok : bool;
  done : completions;
  done_later : completions
}.

Definition iouring_process_epoll_fallback (w : wait_answer) (el : EventLoop) : M (Z * EventLoop) :=
  match w with
  | Wait_interrupted => mret (0, el)
  | Wait_failed => mret (-1, el)
  | Events l => el ← fallback_events l el; mret (0, el)
  end.

Definition iouring_process_main (e : loop_env) (el : EventLoop) : M (Z * EventLoop) :=
  '(_, _, el) ← event_loop_accept_conn (answers e) el;
  let nready := iouring_cq_ready (ctail (done e)) (ring el) in
  el ← (if nready >? 0 then '(_, el) ← iouring_handle_cqes (done e) el; mret el else mret el);
  '(_, el) ← of_res (iouring_submit_accept el);
  let el := if negb (sq_tail (ring el) =? sq_head (ring el)) then set_ring (iouring_submit (ring el)).2 el else el in
  '(_, el) ← iouring_process_epoll_fallback (waited e) el;
  if (pending_count (ring el) >? 0) && (nready =? 0) then
    '(_, el) ← iouring_handle_cqes (done_later e) el; mret (0, el)
  else mret (0, el).

Definition event_loop_run (running : U -> bool) (e : loop_env) (el : EventLoop) : M (Z * EventLoop) :=
  if use_io_uring (opts el) then iouring_process_main e el
  else if negb (events_ok e) then mret (-1, el)
  else
    match waited e with
    | Wait_interrupted => mret (0, el)
    | Wait_failed => mret (-1, el)
    | Events l => '(_, el) ← run_events running (answers e) l el; mret (0, el)
    end.

(** ** Making and destroying it *)

Definition iouring_available (probe_fd : Z) : bool * list kernel_call :=
  if probe_fd >=? 0 then (true, [Opened probe_fd; Closed probe_fd]) else (false, []).

(** [nobody] stands for the null pointer that [userdata] is at first. *)
Definition event_loop_create (cfg : EventLoopConfig) (calloc_ok : bool) (probe_fd new_epoll new_event : Z)
    (e : setup_env) (nobody : U) : option EventLoop * list kernel_call :=
  if negb calloc_ok then (None, [])
  else
    let '(uring, l0) := if cfg_use_io_uring cfg then iouring_available probe_fd else (false, []) in
    if new_epoll <? 0 then (None, l0)
    else if new_event <? 0 then (None, l0 ++ [Opened new_epoll; Closed new_epoll])
    else
      let '(r, l1) := if uring then iouring_ring_setup e (cfg_io_uring_sqpoll cfg) else (None, []) in
      let o :=
        mkLoopOpts new_epoll new_event (match r with Some _ => true | None => false end) (cfg_use_epoll cfg)
          (if cfg_max_events cfg >? 0 then cfg_max_events cfg else 4096)
          (if cfg_timeout_ms cfg >=? 0 then cfg_timeout_ms cfg else 100) (cfg_tcp_fastopen cfg) (cfg_zero_copy cfg)
          (cfg_busy_poll cfg) (match r with Some _ => true | None => false end)
          (match r with Some r => use_sqpoll r | None => false end) in
      (Some (mkEventLoop o (mkCallbacks None None None None None) [] [] 0 Unlocked (default no_ring r) [] 0 nobody 0
               [(EPOLL_CTL_ADD, new_event, EPOLLIN)]),
       l0 ++ [Opened new_epoll; Opened new_event] ++ l1).

(** The depth that the rings are asked for. *)
Definition queue_depth (cfg : EventLoopConfig) : Z :=
  if cfg_io_uring_queue_depth cfg >? 0 then cfg_io_uring_queue_depth cfg else 512.

(** [write] to the event descriptor wakes the loop and changes nothing else. *)
Definition event_loop_stop (el : EventLoop) : EventLoop := el.

(** The buffers are freed with the loop. *)
Definition event_loop_destroy (el : EventLoop) : res (list kernel_call) :=
  let l := if iou_use_io_uring (opts el) then (iouring_ring_destroy (ring el)).2 else [] in
  _ ← lock el;
  Ok (l ++ [Closed (epoll_fd (opts el)); Closed (event_fd (opts el))]).
End Loop.

Arguments EventLoop : clear implicits.
Arguments callbacks : clear implicits.

(** ** Lemmas: the submission ring *)

(** The kernel's rings have a power of two of entries. *)
Definition ring_wf (r : io_ring) : Prop :=
  (exists k, 0 <= k <= 31 /\ sqes_entries r = 2 ^ k) /\ sqes_mask r = sqes_entries r - 1
  /\ zlen (sqes r) = sqes_entries r
  /\ 0 <= sq_head r < 2 ^ 32 /\ 0 <= sq_tail r < 2 ^ 32 /\ u32 (sq_tail r - sq_head r) <= sqes_entries r.

(** The entries that were got since the last submission, oldest first. *)
Definition pending (r : io_ring) : list Z :=
  (fun j => (sq_head r + Z.of_nat j) mod sqes_entries r) <$> seq 0 (Z.to_nat (u32 (sq_tail r - sq_head r))).

(** What a ring announces to a kernel that has taken everything before [head]: the places up to the tail that was
    published, and the entries that the kernel finds there by way of the array. *)
Definition announced (head : Z) (r : io_ring) : list Z :=
  (fun j => (head + Z.of_nat j) mod sqes_entries r) <$> seq 0 (Z.to_nat (u32 (stail r - head))).

Definition entries_read (head : Z) (r : io_ring) : list (option io_uring_sqe) :=
  (fun place => slot ← sq_array r !! Z.to_nat place; sqes r !! Z.to_nat slot) <$> announced head r.

(** [n] calls in a row: the slots that were got. *)
Fixpoint get_sqes (n : nat) (r : io_ring) : list Z * io_ring :=
  match n with
  | O => ([], r)
  | S n' =>
      match iouring_get_sqe r with
      | (Some i, r) => let '(l, r) := get_sqes n' r in (i :: l, r)
      | (None, r) => get_sqes n' r
      end
  end.

Lemma u32_next a b : 0 <= u32 (a - b) < 2 ^ 32 - 1 -> u32 (u32 (a + 1) - b) = u32 (a - b) + 1.
Proof.
  intros H. unfold u32 in *. rewrite Zminus_mod_idemp_l. replace (a + 1 - b) with (a - b + 1) by lia.
  rewrite <- (Zplus_mod_idemp_l (a - b)). apply Z.mod_small. lia.
Qed.

(** A counter of 32 bits names the same slot as the count itself. *)
Lemma wrapped_slot a e : (exists k, 0 <= k <= 31 /\ e = 2 ^ k) -> u32 a mod e = a mod e.
Proof.
  intros (k & Hk & ->). unfold u32.
  assert (Z.divide (2 ^ k) (2 ^ 32)) as Hd.
  { exists (2 ^ (32 - k)). rewrite <- Z.pow_add_r by lia. f_equal. lia. }
  by apply Z.mod_mod_divide.
Qed.

Lemma slots_distinct a e n :
  0 < e -> Z.of_nat n <= e -> NoDup ((fun j => (a + Z.of_nat j) mod e) <$> seq 0 n).
Proof.
  intros He Hn. apply NoDup_fmap_2_strong; [|apply NoDup_seq].
  intros x y Hx%elem_of_seq Hy%elem_of_seq H.
  assert ((Z.of_nat x - Z.of_nat y) mod e = 0) as Hm.
  { replace (Z.of_nat x - Z.of_nat y) with ((a + Z.of_nat x) - (a + Z.of_nat y)) by lia.
    rewrite Zminus_mod, H, Z.sub_diag. apply Z.mod_0_l. lia. }
  apply Z.mod_divide in Hm as [q Hq]; [|lia].
  assert (q = 0) by nia. subst q. lia.
Qed.

Lemma get_sqe_spec r :
  ring_wf r ->
  if u32 (sq_tail r - sq_head r) <? sqes_entries r then
    exists r', iouring_get_sqe r = (Some ((sq_tail r) mod sqes_entries r), r') /\ ring_wf r'
      /\ pending r' = pending r ++ [(sq_tail r) mod sqes_entries r]
      /\ u32 (sq_tail r' - sq_head r') = u32 (sq_tail r - sq_head r) + 1 /\ sqes_entries r' = sqes_entries r
      /\ sqes r' = sqes r
  else iouring_get_sqe r = (None, r).
Proof.
  intros (Hk & Hm & Hl & Hh & Ht & Hd). pose proof (u32_range (sq_tail r - sq_head r)) as Hr.
  assert (0 < sqes_entries r <= 2 ^ 31) as He.
  { destruct Hk as (k & Hk & ->). split; [lia|]. apply Z.pow_le_mono_r; lia. }
  unfold iouring_get_sqe. rewrite u32_next by lia. rewrite Z.gtb_ltb.
  destruct (Z.ltb_spec (u32 (sq_tail r - sq_head r)) (sqes_entries r)) as [Hlt|Hge].
  - rewrite (proj2 (Z.ltb_ge _ _)) by lia.
    assert (Z.land (sq_tail r) (sqes_mask r) = sq_tail r mod sqes_entries r) as ->.
    { rewrite Hm. destruct Hk as (k & Hk & ->). replace (2 ^ k - 1) with (Z.ones k) by (rewrite Z.ones_equiv; lia).
      apply Z.land_ones. lia. }
    eexists. split; [done|]. unfold ring_wf, pending. cbn. rewrite u32_next by lia.
    split_and!; try done; try lia; try apply u32_range.
    rewrite Z2Nat.inj_add, seq_app by lia. change (Z.to_nat 1) with 1%nat. rewrite fmap_app. f_equal. cbn.
    f_equal. rewrite Z2Nat.id by lia.
    rewrite <- (wrapped_slot (sq_head r + _) _ Hk). unfold u32. rewrite Zplus_mod_idemp_r.
    replace (sq_head r + (sq_tail r - sq_head r)) with (sq_tail r) by lia. by rewrite (Z.mod_small (sq_tail r)).
  - by rewrite (proj2 (Z.ltb_lt _ _)) by lia.
Qed.

(** C36: The submission ring, with a power of two of entries and its mask, is a bounded queue.  Between two submissions the slots that
    [iouring_get_sqe] gives out are all different, inside the array, and different from
    those that wait for a submission; calls succeed exactly as long as there are fewer
    than the ring holds, and none is lost when the 32-bit counters wrap.  A submission publishes
    a tail by which exactly the places that wait are announced, in their order, tells (without SQPOLL)
    [io_uring_enter] how many they are, and leaves the queue empty.  (Which entry the kernel reads at a place is
    said by an array that nobody fills: [submissions_name_one_entry].) *)
Theorem ring_is_bounded_queue r n :
  ring_wf r ->
  let '(l, r') := get_sqes n r in
  pending r' = pending r ++ l /\ NoDup (pending r') /\ Forall (fun i => 0 <= i < zlen (sqes r)) (pending r')
  /\ zlen l = Z.min (Z.of_nat n) (sqes_entries r - zlen (pending r))
  /\ ring_wf r' /\ pending (iouring_submit r').2 = [] /\ ring_wf (iouring_submit r').2
  /\ announced (sq_head r') (iouring_submit r').2 = pending r'
  /\ (use_sqpoll r' = false -> (iouring_submit r').1 = Some (zlen (pending r'))).
Proof.
  assert (forall r, ring_wf r -> zlen (pending r) = u32 (sq_tail r - sq_head r)) as Hlen.
  { intros r0 _. unfold pending, zlen. rewrite length_fmap, length_seq.
    pose proof (u32_range (sq_tail r0 - sq_head r0)). lia. }
  revert r. induction n as [|n IH]; intros r Hwf; cbn [get_sqes].
  - pose proof (Hlen r Hwf) as Hp. pose proof Hwf as (Hk & _ & Hl & _ & _ & Hd).
    assert (0 < sqes_entries r) as He by (destruct Hk as (k & Hk & ->); lia).
    pose proof (u32_range (sq_tail r - sq_head r)).
    split_and!; [by rewrite app_nil_r| | |change (zlen (@nil Z)) with 0; lia|done| | |done|].
    + apply slots_distinct; lia.
    + unfold pending. apply Forall_fmap, Forall_forall. intros j _. simpl. rewrite Hl. apply Z.mod_pos_bound. lia.
    + unfold pending, iouring_submit. cbn. by rewrite Z.sub_diag.
    + destruct Hwf as (Hk' & Hm & Hl' & Hh & Ht & _). unfold ring_wf, iouring_submit. cbn. rewrite Z.sub_diag.
      change (u32 0) with 0. split_and!; (done || lia).
    + unfold iouring_submit. cbn. intros ->. by rewrite Hp.
  - pose proof (get_sqe_spec r Hwf) as H. pose proof (Hlen r Hwf) as Hp.
    destruct (Z.ltb_spec (u32 (sq_tail r - sq_head r)) (sqes_entries r)) as [Hlt|Hge].
    + destruct H as (r1 & -> & Hwf1 & Hp1 & Hu & He & Hs). specialize (IH r1 Hwf1). pose proof (Hlen r1 Hwf1) as Hz1.
      destruct (get_sqes n r1) as [l r']. destruct IH as (E & Hnd & Hin & Hz & Hrest).
      split_and!; [by rewrite E, Hp1, <- app_assoc|done|by rewrite <- Hs|rewrite zlen_cons; lia|apply Hrest..].
    + rewrite H. specialize (IH r Hwf). destruct (get_sqes n r) as [l r']. destruct IH as (E & Hnd & Hin & Hz & Hrest).
      pose proof Hwf as (_ & _ & _ & _ & _ & Hd). split_and!; [done|done|done|lia|apply Hrest..].
Qed.

Lemma submit_accepts_spec l : forall r k n r',
  ring_wf r -> submit_accepts l r k = Ok (n, r') -> ring_wf r' /\ sq_array r' = sq_array r /\ sqes_entries r' = sqes_entries r.
Proof.
  induction l as [|fd l IH]; intros r k n r' Hwf H; cbn [submit_accepts] in H; [by injection H as _ <-|].
  pose proof (get_sqe_spec r Hwf) as Hs. destruct (_ <? sqes_entries r).
  - destruct Hs as (r1 & E & Hwf1 & _ & _ & He & _).
    assert (sq_array r1 = sq_array r) as Ha.
    { unfold iouring_get_sqe in E. destruct (_ >? _); [done|]. by injection E as _ <-. }
    rewrite E in H. destruct (_ && _); [|done]. apply IH in H as (Hwf' & Ha' & He').
    + simpl in Ha', He'. split_and!; [done|congruence..].
    + unfold ring_wf in *. simpl. by rewrite zlen_zset.
  - rewrite Hs in H. by injection H as _ <-.
Qed.

(** The array that names the entry of each place is mapped with the ring and never filled.  As the kernel
    gives it - all zeros - every accept that is submitted is read from the first entry,
    whatever listener the others were made for. *)
Theorem submissions_name_one_entry listeners r n r' :
  ring_wf r -> sq_array r = replicate (Z.to_nat (sqes_entries r)) 0 ->
  submit_accepts listeners r 0 = Ok (n, r') ->
  entries_read (sq_head r') (iouring_submit r').2 = replicate (length (pending r')) (head (sqes r')).
Proof.
  intros Hwf Ha H. destruct (submit_accepts_spec _ _ _ _ _ Hwf H) as (Hwf' & Ha' & He).
  unfold entries_read. change (announced (sq_head r') (iouring_submit r').2) with (pending r').
  rewrite head_lookup.
  assert (0 < sqes_entries r') as Hp by (destruct Hwf' as ((k & Hk & ->) & _); lia).
  assert (Forall (fun i => 0 <= i < sqes_entries r') (pending r')) as Hf.
  { unfold pending. apply Forall_fmap, Forall_forall. intros j _. apply Z.mod_pos_bound. lia. }
  induction Hf as [|i l Hi _ IH]; [done|]. cbn [fmap list_fmap length replicate]. f_equal; [|exact IH].
  simpl. rewrite Ha', Ha. rewrite lookup_replicate_2 by lia. done.
Qed.

(** ** Lemmas: what is held of the kernel *)

Inductive resource : Set := Descriptor (fd : Z) | Mapping (m : mapping) (size : Z).

#[export] Instance resource_eq_dec : EqDecision resource.
Proof. solve_decision. Defined.

Fixpoint give_back (x : resource) (l : list resource) : option (list resource) :=
  match l with
  | [] => None
  | y :: l' => if decide (x = y) then Some l' else cons y <$> give_back x l'
  end.

(** [None]: something was given back that was not held. *)
Fixpoint held (l : list kernel_call) (h : list resource) : option (list resource) :=
  match l with
  | [] => Some h
  | Opened fd :: l' => held l' (Descriptor fd :: h)
  | Mapped m s :: l' => held l' (Mapping m s :: h)
  | Closed fd :: l' => h ← give_back (Descriptor fd) h; held l' h
  | Unmapped m s :: l' => h ← give_back (Mapping m s) h; held l' h
  end.

Lemma held_app l k h : held (l ++ k) h = (h ← held l h; held k h).
Proof.
  revert h. induction l as [|[fd|fd|m s|m s] l IH]; intros h; cbn [app held]; try apply IH; [done| |].
  all: destruct (give_back _ h) as [h1|]; [apply IH|done].
Qed.

Lemma give_back_head x l : give_back x (x :: l) = Some l.
Proof. cbn. by rewrite decide_True. Qed.

Lemma give_back_next x y l : x <> y -> give_back x (y :: l) = cons y <$> give_back x l.
Proof. intros H. cbn. by rewrite decide_False. Qed.

(** A size in whole pages that holds what it is made from. *)
Lemma round_up_spec s p : (exists k, 0 <= k /\ p = 2 ^ k) -> 0 <= s -> s <= round_up s p < s + p /\ (p | round_up s p).
Proof.
  intros (k & Hk & ->) Hs. unfold round_up.
  replace (2 ^ k - 1) with (Z.ones k) by (rewrite Z.ones_equiv; lia).
  rewrite <- Z.ldiff_land, Z.ldiff_ones_r, Z.shiftl_mul_pow2, Z.shiftr_div_pow2 by lia.
  pose proof (Z.div_mod (s + 2 ^ k - 1) (2 ^ k) ltac:(lia)).
  pose proof (Z.mod_pos_bound (s + 2 ^ k - 1) (2 ^ k) ltac:(lia)).
  split; [lia|]. apply Z.divide_factor_r.
Qed.

(** What the kernel fills in: at least one entry, in pages. *)
Definition params_ok (page : Z) (p : io_uring_params) : Prop :=
  (exists k, 0 <= k /\ page = 2 ^ k) /\ 0 < sq_entries p /\ 0 < cq_entries p /\ 0 <= sq_off_array p /\ 0 <= cq_off_cqes p.

Lemma sizes_positive page p a b c :
  params_ok page p -> setup_sizes p page = (a, b, c) -> 0 < a /\ 0 < b /\ 0 < c.
Proof.
  intros (Hp & Hs & Hc & Ha & Hb). unfold setup_sizes.
  pose proof (fun s => round_up_spec s page Hp) as R.
  assert (forall s, 0 < s -> 0 < round_up s page) as R' by (intros s Hs0; specialize (R s ltac:(lia)); lia).
  destruct (single_mmap p); [destruct (_ >? _) eqn:E|]; intros [= <- <- <-]; split_and!; apply R'; lia.
Qed.

Lemma map_rings_balanced e fd p h :
  params_ok (page_size e) p -> 0 <= fd ->
  match map_rings e fd p with
  | (None, l) => held l (Descriptor fd :: h) = Some h
  | (Some r, l) => ring_fd r = fd /\ exists h', held l (Descriptor fd :: h) = Some h'
      /\ held (iouring_ring_destroy r).2 h' = Some h
  end.
Proof.
  intros Hp Hfd. unfold map_rings. destruct (setup_sizes p (page_size e)) as [[a b] c] eqn:E.
  apply sizes_positive in E as (Ha & Hb & Hc); [|done].
  destruct (sq_ok e), (single_mmap p), (cq_ok e), (sqes_ok e); cbn [negb andb app]; cbn [held];
    repeat first [rewrite give_back_head; cbn [mbind option_bind fmap option_fmap option_map held]
                 |rewrite give_back_next by done; cbn [mbind option_bind fmap option_fmap option_map held]
                 |done].
  all: split; [done|]; eexists; split; [done|]; unfold iouring_ring_destroy; cbn [ring_fd].
  all: rewrite (proj2 (Z.ltb_ge fd 0)) by done; cbn [snd unmap sq_sqes_base sq_sqes_size sq_ring_base sq_ring_size cq_ring_base cq_ring_size].
  all: rewrite ?(proj2 (Z.gtb_lt _ _)) by lia; rewrite ?bool_decide_true by done; rewrite ?bool_decide_false by done; cbn [app held].
  all: repeat first [rewrite give_back_head; cbn [mbind option_bind fmap option_fmap option_map held]
                 |rewrite give_back_next by done; cbn [mbind option_bind fmap option_fmap option_map held]
                 |done].
Qed.

Lemma setup_balanced e poll h :
  params_ok (page_size e) (first_params e) -> params_ok (page_size e) (second_params e) ->
  match iouring_ring_setup e poll with
  | (None, l) => held l h = Some h
  | (Some r, l) => exists h', held l h = Some h' /\ held (iouring_ring_destroy r).2 h' = Some h
  end.
Proof.
  intros H1 H2. unfold iouring_ring_setup.
  destruct (Z.ltb_spec (first_fd e) 0); [destruct poll; [|done]; destruct (Z.ltb_spec (second_fd e) 0); [done|]|].
  - pose proof (map_rings_balanced e (second_fd e) (second_params e) h H2 ltac:(lia)) as H3.
    destruct (map_rings _ _ _) as [[r|] l]; cbn [held]; [by destruct H3|done].
  - pose proof (map_rings_balanced e (first_fd e) (first_params e) h H1 ltac:(lia)) as H3.
    destruct (map_rings _ _ _) as [[r|] l]; cbn [held]; [by destruct H3|done].
Qed.

(** C37: Whatever the kernel answers - a refused ring, a second attempt without its
    polling thread, any [mmap] that fails - [event_loop_create] gives back what it took
    when it fails, and what it holds when it succeeds is exactly what
    [event_loop_destroy] gives back: nothing twice, and nothing is left. *)
Theorem loop_resources_balanced {U} cfg calloc_ok probe ep ev e (nobody : U) :
  params_ok (page_size e) (first_params e) -> params_ok (page_size e) (second_params e) ->
  match event_loop_create cfg calloc_ok probe ep ev e nobody with
  | (None, l) => held l [] = Some []
  | (Some el, l) => exists l', event_loop_destroy el = Ok l' /\ held (l ++ l') [] = Some []
  end.
Proof.
  intros H1 H2. unfold event_loop_create, iouring_available. destruct calloc_ok; [|done]. cbn [negb].
  set (probed := if cfg_use_io_uring cfg then _ else _).
  assert (exists b l0, probed = (b, l0) /\ forall k, held (l0 ++ k) [] = held k []) as (b & l0 & -> & Hl0).
  { unfold probed. destruct (cfg_use_io_uring cfg); [destruct (probe >=? 0)|]; eexists _, _; split; try done.
    intros k. cbn [app held]. by rewrite give_back_head. }
  destruct (ep <? 0); [rewrite <- (app_nil_r l0); by rewrite Hl0|].
  destruct (ev <? 0); [rewrite Hl0; cbn [held]; by rewrite give_back_head|].
  pose proof (setup_balanced e (cfg_io_uring_sqpoll cfg) [Descriptor ev; Descriptor ep] H1 H2) as H3.
  assert (forall k, held k [Descriptor ev; Descriptor ep] = Some [Descriptor ev; Descriptor ep] ->
    held (k ++ [Closed ep; Closed ev]) [Descriptor ev; Descriptor ep] = Some []) as Hend.
  { intros k Hk. rewrite held_app, Hk. cbn [mbind option_bind held].
    destruct (decide (ep = ev)) as [->|Hne].
    { rewrite give_back_head. cbn [mbind option_bind]. by rewrite give_back_head. }
    rewrite give_back_next, give_back_head by congruence. cbn [mbind option_bind fmap option_fmap option_map].
    by rewrite give_back_head. }
  destruct b; [destruct (iouring_ring_setup e _) as [[r|] l1]|];
    (eexists; split; [unfold event_loop_destroy, lock; cbn; reflexivity|]); cbn -[held iouring_ring_destroy].
  all: rewrite <- !app_assoc, Hl0; cbn [app held].
  - rewrite app_assoc. apply Hend. rewrite held_app. destruct H3 as (h' & -> & E). exact E.
  - by apply Hend.
  - by apply (Hend []).
Qed.

(** ** Lemmas: accepting *)

Lemma is_listener_first {U} (el : EventLoop U) fd l : listener_fds el = fd :: l -> is_listener fd el = true.
Proof. unfold is_listener. intros ->. simpl. by rewrite Z.eqb_refl. Qed.

Definition unexpected (a : accept_answer) : bool :=
  match a with Accept_interrupted | Accept_failed => true | _ => false end.

(** In epoll mode any failure of [accept4] other than "try again" restarts the
    call: as long as it keeps failing - with no descriptors left, for one, until some
    other connection is closed - [event_loop_run] handles no other event and does not
    return, however often it has been answered. *)
Theorem accept_error_spins {U} (running : U -> bool) (el : EventLoop U) e l fd ev i :
  use_io_uring (opts el) = false -> events_ok e = true -> running (userdata el) = true ->
  waited e = Events (mkEpollEvent fd ev :: l) -> fd <> event_fd (opts el) -> is_listener fd el = true ->
  forallb unexpected (answers e) = true ->
  event_loop_run running e el i = Waiting.
Proof.
  intros Hu Hok Hr Hw Hfd Hl Ha. unfold event_loop_run. rewrite Hu, Hok, Hw. cbn [negb run_events ev_fd].
  rewrite (proj2 (Z.eqb_neq _ _) Hfd), Hl. cbv [mbind M_bind].
  assert (forall l, forallb unexpected l = true -> accept_running running l el i = Waiting) as E; [|by rewrite (E (answers e) Ha)].
  clear -Hr. induction l as [|a l IH]; intros Ha; cbn [accept_running]; rewrite Hr; [done|].
  apply andb_true_iff in Ha as [Ha Hl]. destruct a; try done; by apply IH.
Qed.

(** ** Lemmas: the queue of unsent data *)

(** What waits for a descriptor. *)
Definition queued (fd : Z) (q : list WriteBuf) : list Z := concat (rest_of <$> filter (fun b => wb_fd b = fd) q).

Definition buf_ok (b : WriteBuf) : Prop := 0 <= wb_sent b <= zlen (data b).

Definition not_broken (a : send_answer) : Prop := a <> Broken.

Lemma queued_cons fd b q : queued fd (b :: q) = (if decide (wb_fd b = fd) then rest_of b else []) ++ queued fd q.
Proof. unfold queued. rewrite filter_cons. by destruct (decide (wb_fd b = fd)). Qed.

Lemma queued_app fd q k : queued fd (q ++ k) = queued fd q ++ queued fd k.
Proof. unfold queued. by rewrite filter_app, fmap_app, concat_app. Qed.

Lemma queued_none fd q : fd ∉ (wb_fd <$> q) -> queued fd q = [].
Proof.
  induction q as [|b q IH]; [done|]. intros H. rewrite queued_cons. cbn in H. apply not_elem_of_cons in H as [H1 H2].
  rewrite decide_False by congruence. by apply IH.
Qed.

(** One [send] of what is left of a buffer. *)
Lemma send_rest b i r i' :
  buf_ok b -> send (wb_fd b) (rest_of b) i = Done r i' ->
  let b' := match r with Sent n => mkWriteBuf (data b) (wb_sent b + n) (wb_fd b) | _ => b end in
  buf_ok b' /\ written (wb_fd b) i' ++ rest_of b' = written (wb_fd b) i ++ rest_of b
  /\ (forall fd, fd <> wb_fd b -> written fd i' = written fd i)
  /\ (Forall not_broken (sends i) -> r <> Failed /\ Forall not_broken (sends i')).
Proof.
  intros [H0 H1] E. unfold send in E. destruct (sends i) as [|[n| |] rest] eqn:Es; simplify_eq; cbn [sends put set_sends].
  2,3: split_and!; try done; try (intros; done); inversion 1; split; done.
  set (t := take n (rest_of b)).
  assert (zlen t <= zlen (rest_of b) /\ zlen (rest_of b) = zlen (data b) - wb_sent b) as [Ht Hr].
  { unfold t, rest_of, zlen. rewrite length_take, length_drop. unfold zlen in *. lia. }
  pose proof (zlen_nonneg t). split_and!.
  - unfold buf_ok. cbn. lia.
  - rewrite written_put. change (written (wb_fd b) (set_sends rest i)) with (written (wb_fd b) i).
    rewrite <- app_assoc. f_equal. unfold rest_of at 1. cbn [wb_sent data].
    rewrite Z2Nat.inj_add by lia. rewrite <- drop_drop. fold (rest_of b).
    unfold zlen, t. rewrite Nat2Z.id, length_take.
    assert (drop (n `min` length (rest_of b)) (rest_of b) = drop n (rest_of b)) as ->; [|apply take_drop].
    destruct (Nat.le_ge_cases n (length (rest_of b))); [by rewrite Nat.min_l|].
    rewrite Nat.min_r by done. by rewrite !drop_ge by lia.
  - intros fd Hne. by rewrite written_put_ne.
  - inversion 1. done.
Qed.

Section Queue.
Context {U : Type}.
Implicit Types el : EventLoop U.

Lemma flush_bufs_spec bufs : forall el i q el' i',
  NoDup (wb_fd <$> bufs) -> Forall buf_ok bufs -> Forall not_broken (sends i) ->
  zlen bufs <= write_queue_count el <= INT_MAX ->
  flush_bufs bufs el i = Done (q, el') i' ->
  (wb_fd <$> q) `sublist_of` (wb_fd <$> bufs) /\ Forall buf_ok q /\ Forall not_broken (sends i')
  /\ (forall fd, written fd i' ++ queued fd q = written fd i ++ queued fd bufs)
  /\ el' = set_queue (write_queue el) (write_queue_count el - (zlen bufs - zlen q)) (write_mutex el) el.
Proof.
  induction bufs as [|b bufs IH]; intros el i q el' i' Hnd Hok Hs Hc E; cbn [flush_bufs] in E.
  { injection E as <- <- <-. split_and!; try done. change (zlen (@nil WriteBuf)) with 0. rewrite !Z.sub_0_r. by destruct el. }
  apply bind_Done in E as (r & i1 & E1 & E). rewrite fmap_cons, NoDup_cons in Hnd. destruct Hnd as [Hb Hnd].
  apply Forall_cons in Hok as [Hokb Hok]. pose proof (send_rest b i r i1 Hokb E1) as (Hb' & Hw & Hne & Hs1).
  destruct (Hs1 Hs) as [Hr Hs1']. rewrite zlen_cons in *. pose proof (zlen_nonneg bufs).
  set (b' := match r with Sent n => _ | _ => b end) in *.
  assert (wb_fd b' = wb_fd b) as Hfd by (by destruct r).
  destruct (wb_sent b' >=? zlen (data b')) eqn:Efull.
  - apply Z.geb_le in Efull. apply IH in E as (H1 & H2 & H3 & H4 & ->); try done.
    2:{ unfold one_less. cbn. rewrite i32_small by (unfold INT_MAX in *; lia). lia. }
    split_and!; [by apply sublist_cons|done|done| |].
    + intros fd. rewrite H4, queued_cons. destruct (decide (wb_fd b = fd)) as [<-|Hn]; [|by rewrite Hne].
      rewrite (queued_none _ bufs) by done. rewrite !app_nil_r, <- Hw. unfold rest_of. rewrite drop_ge; [by rewrite app_nil_r|].
      unfold zlen in Efull. lia.
    + unfold one_less, set_queue. cbn. f_equal. rewrite i32_small by (unfold INT_MAX in *; lia). lia.
  - assert (exists el1 q1, flush_bufs bufs el i1 = Done (q1, el1) i' /\ q = b' :: q1 /\ el' = el1) as (el1 & q1 & E2 & -> & ->).
    { destruct r; [| |done]; apply bind_Done in E as ([q1 el1] & i2 & E2 & [= <- <- <-]); by exists el1, q1. }
    apply IH in E2 as (H1 & H2 & H3 & H4 & ->); try done; [|lia].
    split_and!; [rewrite fmap_cons, Hfd; by apply sublist_skip|by constructor|done| |].
    + intros fd. rewrite !queued_cons, Hfd. specialize (H4 fd). destruct (decide (wb_fd b = fd)) as [<-|Hn].
      * rewrite (queued_none _ bufs), app_nil_r in H4 by done. rewrite (queued_none _ bufs), app_nil_r by done.
        rewrite (queued_none _ q1), app_nil_r in H4.
        2:{ intros Hin. apply Hb. by eapply elem_of_sublist. }
        rewrite (queued_none _ q1), app_nil_r.
        2:{ intros Hin. apply Hb. by eapply elem_of_sublist. }
        by rewrite H4.
      * cbn [app]. by rewrite H4, Hne.
    + f_equal. rewrite zlen_cons. lia.
Qed.

(** Data written, and flushes, one after the other.  Nothing is written to a descriptor
    for which data waits, and every write returns 0. *)
Inductive served : EventLoop U -> io -> list (Z * list Z) -> EventLoop U -> io -> Prop :=
| served_none el i : served el i [] el i
| served_write el i l el1 i1 malloc_ok fd d el2 i2 :
    served el i l el1 i1 -> fd ∉ (wb_fd <$> write_queue el1) ->
    event_loop_write malloc_ok fd d el1 i1 = Done (0, el2) i2 -> served el i (l ++ [(fd, d)]) el2 i2
| served_flush el i l el1 i1 el2 i2 :
    served el i l el1 i1 -> flush_write_queue el1 i1 = Done el2 i2 -> served el i l el2 i2.

Definition data_for (fd : Z) (l : list (Z * list Z)) : list Z := concat (snd <$> filter (fun x => x.1 = fd) l).

Definition queue_ok el : Prop :=
  write_mutex el = Unlocked /\ write_queue_count el = zlen (write_queue el)
  /\ NoDup (wb_fd <$> write_queue el) /\ Forall buf_ok (write_queue el) /\ on_write (cbs el) = None.

Lemma send_whole fd d i n i1 :
  send fd d i = Done (Sent n) i1 -> n = zlen d -> written fd i1 = written fd i ++ d
  /\ (forall fd', fd' <> fd -> written fd' i1 = written fd' i).
Proof.
  unfold send. destruct (sends i) as [|[k| |] rest]; [done| |done|done]. intros [= <- <-] Hn. split.
  - rewrite written_put. change (written fd (set_sends rest i)) with (written fd i). f_equal. apply take_ge.
    unfold zlen in Hn. rewrite length_take in Hn. lia.
  - intros fd' Hne. by rewrite written_put_ne.
Qed.

Lemma send_sends fd d i r i1 : send fd d i = Done r i1 -> Forall not_broken (sends i) -> Forall not_broken (sends i1).
Proof. unfold send. destruct (sends i) as [|[k| |] rest]; intros E; simplify_eq; by inversion 1. Qed.

Lemma send_again fd d i i1 : send fd d i = Done Again i1 -> forall fd', written fd' i1 = written fd' i.
Proof. unfold send. by destruct (sends i) as [|[k| |] rest]; intros E; simplify_eq. Qed.

Lemma data_for_snoc fd l fd' d : data_for fd (l ++ [(fd', d)]) = data_for fd l ++ (if decide (fd' = fd) then d else []).
Proof.
  unfold data_for. rewrite filter_app, fmap_app, concat_app. f_equal. rewrite filter_cons, filter_nil. cbn.
  destruct (decide (fd' = fd)); [apply app_nil_r|done].
Qed.

Lemma write_step el i malloc_ok fd d el' i' :
  queue_ok el -> zlen (write_queue el) < INT_MAX -> fd ∉ (wb_fd <$> write_queue el) ->
  event_loop_write malloc_ok fd d el i = Done (0, el') i' ->
  queue_ok el' /\ zlen (write_queue el') <= zlen (write_queue el) + 1
  /\ (Forall not_broken (sends i) -> Forall not_broken (sends i'))
  /\ forall fd', written fd' i' ++ queued fd' (write_queue el')
       = written fd' i ++ queued fd' (write_queue el) ++ (if decide (fd = fd') then d else []).
Proof.
  intros (Hm & Hc & Hnd & Hok & Hw) Hmax Hfd E. unfold event_loop_write in E.
  apply bind_Done in E as (r & i1 & E1 & E). pose proof (send_sends _ _ _ _ _ E1) as Hs. destruct r as [n| |].
  - destruct (Z.eqb_spec n (zlen d)) as [Hn|]; [|done]. unfold call in E. rewrite Hw in E. cbv [mbind M_bind mret M_ret] in E.
    injection E as <- <-. destruct (send_whole fd d i n i1 E1 Hn) as [H1 H2]. split_and!; try done; [lia|].
    intros fd'. destruct (decide (fd = fd')) as [<-|Hne]; [|by rewrite H2, app_nil_r by congruence].
    by rewrite H1, queued_none, app_nil_r by done.
  - unfold lock in E. rewrite Hm in E. cbn [mutex_lock mbind res_bind] in E.
    cbv [mbind M_bind mret M_ret of_res] in E. destruct malloc_ok; cbn [negb] in E; [|done].
    injection E as <- <-. pose proof (send_again _ _ _ _ E1) as Hs1. unfold queue_ok. cbn.
    rewrite fmap_app, zlen_snoc, Hc. pose proof (zlen_nonneg (write_queue el)).
    split_and!; try done; [by apply i32_small; unfold INT_MAX in *; lia| | |].
    + apply NoDup_app. split_and!; [done| |by apply NoDup_singleton]. cbn. intros x Hx Hx'.
      apply list_elem_of_singleton in Hx'. subst x. done.
    + apply Forall_app. split; [done|]. constructor; [|done]. unfold buf_ok. cbn. pose proof (zlen_nonneg d). lia.
    + intros fd'. change (concat _) with (queued fd' (write_queue el ++ [mkWriteBuf d 0 fd])).
      rewrite Hs1, queued_app, queued_cons. f_equal. f_equal. unfold rest_of, queued. cbn. rewrite drop_0. apply app_nil_r.
  - done.
Qed.

Lemma flush_step el i el' i' :
  queue_ok el -> zlen (write_queue el) <= INT_MAX -> Forall not_broken (sends i) ->
  flush_write_queue el i = Done el' i' ->
  queue_ok el' /\ zlen (write_queue el') <= zlen (write_queue el) /\ Forall not_broken (sends i')
  /\ forall fd, written fd i' ++ queued fd (write_queue el') = written fd i ++ queued fd (write_queue el).
Proof.
  intros (Hm & Hc & Hnd & Hok & Hw) Hmax Hs E. unfold flush_write_queue, lock in E. rewrite Hm in E.
  apply bind_Done in E as (el1 & i1 & [= <- <-] & E). apply bind_Done in E as ([q el2] & i2 & E2 & [= <- <-]).
  apply flush_bufs_spec in E2 as (H1 & H2 & H3 & H4 & ->); [|done|done|done|cbn; lia].
  cbn in H1, H4. unfold queue_ok. cbn. apply sublist_length in H1 as Hlen. rewrite !length_fmap in Hlen.
  split_and!; try done; [lia|by eapply sublist_NoDup|unfold zlen; lia].
Qed.

(** C35: Data for which a socket has no room waits in the queue, and the queue keeps the streams.  In any sequence of
    flushes and of at most 2^31 - 1 calls of [event_loop_write] that return 0 - the socket took all of the data or answered EAGAIN; a
    first send that takes only a part returns -1, and the rest is lost - made only for
    descriptors for which nothing waits, from an empty queue, without an [on_write] callback (the server sets none) and while no socket breaks,
    what a socket has taken followed by what waits for it is exactly the data written to its
    descriptor, in order, whatever pieces the flushes can send; the count of the queue is its length. *)
Theorem queue_keeps_streams el i l el' i' :
  queue_ok el -> write_queue el = [] -> Forall not_broken (sends i) -> zlen l <= INT_MAX ->
  served el i l el' i' ->
  write_queue_count el' = zlen (write_queue el')
  /\ forall fd, written fd i' ++ queued fd (write_queue el') = written fd i ++ data_for fd l.
Proof.
  intros Hq He Hs Hl H.
  enough (queue_ok el' /\ zlen (write_queue el') <= zlen l /\ Forall not_broken (sends i')
          /\ forall fd, written fd i' ++ queued fd (write_queue el') = written fd i ++ data_for fd l) as (H1 & _ & _ & H2)
    by (split; [apply H1|done]).
  induction H as [el i|el i l el1 i1 m fd d el2 i2 H1 IH Hfd E|el i l el1 i1 el2 i2 H1 IH E].
  - rewrite He. by split_and!.
  - rewrite zlen_snoc in *. destruct (IH Hq He Hs) as (Hq1 & Hn & Hs1 & Hw); [lia|].
    destruct (write_step el1 i1 m fd d el2 i2 Hq1 ltac:(lia) Hfd E) as (Hq2 & Hn2 & Hs2 & Hw2).
    split_and!; [done|lia|by apply Hs2|]. intros fd'. by rewrite Hw2, app_assoc, Hw, data_for_snoc, app_assoc.
  - destruct (IH Hq He Hs Hl) as (Hq1 & Hn & Hs1 & Hw).
    destruct (flush_step el1 i1 el2 i2 Hq1 ltac:(lia) Hs1 E) as (Hq2 & Hn2 & Hs2 & Hw2).
    split_and!; [done|lia|done|]. intros fd'. by rewrite Hw2.
Qed.

(** A write does not look at the queue: data written while earlier data of the same
    descriptor still waits is sent before it, if the socket takes it. *)
Theorem write_overtakes el i malloc_ok fd d n rest :
  on_write (cbs el) = None -> sends i = Accepts n :: rest -> (length d <= n)%nat ->
  exists i', event_loop_write malloc_ok fd d el i = Done (0, el) i' /\ written fd i' = written fd i ++ d.
Proof.
  intros Hw Hs Hn. unfold event_loop_write, send, call. rewrite Hw. cbv [mbind M_bind]. rewrite Hs.
  rewrite take_ge, Z.eqb_refl by done. eexists. split; [done|]. by rewrite written_put.
Qed.
End Queue.

(** ** Witnesses *)

(** Four entries, two calls before the counters wrap. *)
Definition small_ring : io_ring :=
  mkRing 5 (replicate 4 (mkSqe 0 0 0 0)) (replicate 4 0) (2 ^ 32 - 2) 0 7 3 4 (2 ^ 32 - 2) (2 ^ 32 - 2) 0 0
    (Some SQ_RING) (Some SQES) (Some SQ_RING) 4096 4096 4096 1 false.

Lemma ring_is_bounded_queue_witness :
  (get_sqes 6 small_ring).1 = [2; 3; 0; 1] /\ pending (get_sqes 6 small_ring).2 = [2; 3; 0; 1]
  /\ (iouring_submit (get_sqes 6 small_ring).2).1 = Some 4.
Proof.
  assert (ring_wf small_ring) as H.
  { unfold ring_wf. split; [by exists 2|]. by vm_compute. }
  pose proof (ring_is_bounded_queue small_ring 6 H) as Hq.
  destruct (get_sqes 6 small_ring) as [l r] eqn:E. vm_compute in E. injection E as <- <-.
  destruct Hq as (E & _ & _ & _ & _ & _ & _ & _ & Hs). split; [done|]. split; [exact E|].
  by etrans; [apply Hs|].
Defined.

(** Two listeners, 7 and 8: the kernel is given the accept on 7 twice. *)
Lemma submissions_name_one_entry_witness :
  exists r', submit_accepts [7; 8] (set_sq 0 0 0 small_ring) 0 = Ok (2, r')
    /\ entries_read 0 (iouring_submit r').2 = [Some (accept_sqe 7); Some (accept_sqe 7)].
Proof.
  destruct (submit_accepts [7; 8] (set_sq 0 0 0 small_ring) 0) as [[n r']|] eqn:E; [|done].
  assert (ring_wf (set_sq 0 0 0 small_ring)) as H.
  { unfold ring_wf. split; [by exists 2|]. by vm_compute. }
  pose proof (submissions_name_one_entry [7; 8] _ n r' H eq_refl E) as Hq.
  vm_compute in E. injection E as <- <-. eexists. split; [done|]. exact Hq.
Defined.

(** The first attempt is refused, the second gives rings in one mapping. *)
Definition demo_params : io_uring_params := mkParams false true 1 512 1024 64 64 511 512 1023 (replicate 512 0).
Definition demo_setup : setup_env := mkSetupEnv (-1) demo_params 9 demo_params 4096 true true true.

Lemma demo_params_ok : params_ok 4096 demo_params.
Proof. split; [by exists 12|done]. Qed.

Lemma loop_resources_balanced_witness :
  exists el l l', event_loop_create (mkEventLoopConfig true true 10 100 0 false 0 512 true) true 3 4 5 demo_setup tt = (Some el, l)
    /\ use_io_uring (opts el) = true /\ event_loop_destroy el = Ok l' /\ held (l ++ l') [] = Some [].
Proof.
  pose proof (loop_resources_balanced (mkEventLoopConfig true true 10 100 0 false 0 512 true) true 3 4 5 demo_setup tt
    demo_params_ok demo_params_ok) as H.
  destruct (event_loop_create _ _ _ _ _ _ _) as [[el|] l] eqn:E; [|by vm_compute in E].
  destruct H as (l' & H1 & H2). exists el, l, l'. split_and!; [done| |done..].
  vm_compute in E. by injection E as <- <-.
Defined.

Definition bare_loop (u : bool) : EventLoop bool :=
  mkEventLoop (mkLoopOpts 3 4 u true 64 100 0 false 0 u false) (mkCallbacks None None None None None) [7] [] 0 Unlocked
    no_ring [] 0 true 0 [].

Definition no_completions : completions := mkCompletions 0 [] (fun _ => true).

Lemma accept_error_spins_witness :
  event_loop_run id (mkLoopEnv (Events [mkEpollEvent 7 1; mkEpollEvent 8 1]) (replicate 1000 Accept_failed) true
    no_completions no_completions) (bare_loop false) (mkIo [] [] (fun _ => 0) 0 ∅ [] [] false) = Waiting.
Proof.
  by apply (accept_error_spins id (bare_loop false) _ [mkEpollEvent 8 1] 7 1).
Defined.

(** The socket is full, then takes three bytes, then the rest. *)
Definition demo_io (l : list send_answer) : io := mkIo l [] (fun _ => 0) 0 ∅ [] [] false.

Definition waiting_loop : EventLoop bool :=
  Eval vm_compute in
    match event_loop_write true 8 (lit "hello") (bare_loop false) (demo_io [Would_block]) with Done (_, el) _ => el | _ => bare_loop false end.

Lemma queue_keeps_streams_witness :
  exists el' i', served (bare_loop false) (demo_io [Would_block; Accepts 3; Accepts 9; Accepts 9]) [(8, lit "hello"); (8, lit "!")] el' i'
    /\ write_queue el' = [] /\ written 8 i' = lit "hello!".
Proof.
  assert (exists el' i', served (bare_loop false) (demo_io [Would_block; Accepts 3; Accepts 9; Accepts 9])
            [(8, lit "hello"); (8, lit "!")] el' i' /\ write_queue el' = []) as (el' & i' & H & E).
  { eexists _, _. split.
    - refine (served_write _ _ [(8, lit "hello")] _ _ true 8 (lit "!") _ _ _ _ _).
      + eapply served_flush; [eapply served_flush|].
        * refine (served_write _ _ [] _ _ true 8 (lit "hello") _ _ (served_none _ _) _ _); [by apply not_elem_of_nil|by vm_compute].
        * by vm_compute.
        * by vm_compute.
      + by apply not_elem_of_nil.
      + by vm_compute.
    - done. }
  exists el', i'. split; [done|]. split; [done|].
  apply queue_keeps_streams in H as [_ Hw]; [|by split_and!; try constructor|done|by repeat constructor|done].
  specialize (Hw 8). rewrite E, app_nil_r in Hw. rewrite Hw. by vm_compute.
Defined.

Lemma write_overtakes_witness :
  queued 8 (write_queue waiting_loop) = lit "hello"
  /\ exists i', event_loop_write true 8 (lit "!") waiting_loop (demo_io [Accepts 9]) = Done (0, waiting_loop) i'
     /\ written 8 i' = lit "!".
Proof.
  split; [done|].
  destruct (write_overtakes waiting_loop (demo_io [Accepts 9]) true 8 (lit "!") 9 []) as (i' & E & H);
    [done|done|cbn; lia|].
  exists i'. by split.
Defined.
