(* ===== verification/Boot.v ===== *)
(** * Making and starting the server: [server_init], [server_start], [server_cleanup] and
    [server_process_events] of src/server.c

    [server_init] fills the server from the configuration and makes its parts in order;
    the event loop gets the callbacks of [Lifecycle].  What the outside answers to each
    step is in a [server_env]; what is asked of the kernel is recorded. *)

From S2P Require Import Prelude Io Config EventLoop Tls TlsContext Http2 Sessions.
From S2P Require Import Arena RateLimiter Cache HttpParser Firewall JsonText PromptRouter Observability Moderation.
From S2P Require Import Plugin RouteTable Stream Router Connections Server Handler Lifecycle.

Definition u16 (z : Z) : Z := z mod 2 ^ 16.

(** ** The page of what is not found *)

Definition not_found_html : list Z :=
  qlit "<!DOCTYPE html><html lang='en'><head><meta charset='UTF-8'>"
  ++ lit "<title>404 | LOST IN THE VOID</title><style>"
  ++ lit ":root{--neon:#ff0055;--bg:#050505;--card:rgba(20,20,25,0.8);}"
  ++ lit "body{margin:0;height:100vh;background:radial-gradient(circle at center,#1a1a2e 0%,#000 100%);"
  ++ lit "color:#fff;font-family:'Courier New',monospace;display:flex;align-items:center;justify-content:center;overflow:hidden;}"
  ++ lit ".container{text-align:center;z-index:2;}h1{font-size:8rem;margin:0;color:transparent;"
  ++ lit "-webkit-text-stroke:2px var(--neon);text-shadow:0 0 20px var(--neon);animation:glitch 3s infinite;}"
  ++ lit "h2{font-weight:300;letter-spacing:5px;margin-top:-20px;}p{color:#888;margin-bottom:40px;}"
  ++ lit ".btn{padding:15px 40px;background:transparent;border:1px solid var(--neon);color:var(--neon);"
  ++ lit "text-decoration:none;text-transform:uppercase;letter-spacing:2px;transition:0.3s;"
  ++ lit "box-shadow:0 0 10px rgba(255,0,85,0.2);}.btn:hover{background:var(--neon);color:#000;box-shadow:0 0 40px var(--neon);}"
  ++ lit ".scanline{position:fixed;left:0;top:0;width:100%;height:100%;"
  ++ lit "background:linear-gradient(to bottom,rgba(255,255,255,0),rgba(255,255,255,0) 50%,rgba(0,0,0,0.2) 50%,rgba(0,0,0,0.2));"
  ++ lit "background-size:100% 4px;pointer-events:none;z-index:1;}"
  ++ lit "@keyframes glitch{0%{transform:skew(0deg);}20%{transform:skew(-2deg);}21%{transform:skew(2deg);}100%{transform:skew(0deg);}}"
  ++ qlit "</style></head><body><div class='scanline'></div><div class='container'>"
  ++ lit "<h1>404</h1><h2>SIGNAL LOST // SEVER NOT FOUND</h2>"
  ++ lit "<p>The requested coordinates do not exist in this memory block.</p>"
  ++ qlit "<a href='/' class='btn'>Reboot System</a></div></body></html>".

(** ** What the configuration says *)

Definition tls_config_of (c : Config) : TLSConfig :=
  let int := Config.ints c in
  let text := Config.texts c in
  mkTLSConfig (strncpy 4095 (text tls_cert_file)) (strncpy 4095 (text tls_key_file)) (strncpy 4095 (text tls_ca_file))
    (strncpy 4095 (text tls_ca_path))
    (strncpy 255 (text_or (text tls_cipher_list) (lit "ECDHE-ECDSA-AES128-GCM-SHA256:ECDHE-RSA-AES128-GCM-SHA256")))
    (strncpy 255 (text tls_ciphersuites_tls13)) []
    (if int tls_min_version =? 2 then TLS_METHOD_TLSv1_2 else TLS_METHOD_TLSv1_3)
    (int tls_enable_ocsp) 0 (int tls_prefer_server_ciphers) (int tls_verify_client)
    (positive_or (int tls_verify_depth) 10) (positive_or (int tls_session_cache_size) 2048)
    (positive_or (int tls_ocsp_refresh_interval) 3600) (int tls_enable_renegotiation) (int tls_enable_early_data)
    (int tls_hsts_max_age) (int tls_hsts_include_subdomains)
    (strncpy 127 (text_or (text tls_alpn_protocols) (lit "h2,http/1.1"))).

Definition ratelimiter_config (c : Config) : TokenBucketConfig :=
  let rps := positive_or (Config.ints c rate_limit_rps) 100 in
  RateLimiter.mkConfig rps rps 1000 rps (Config.ints c Config.max_connections).

Definition loop_config (c : Config) : EventLoopConfig :=
  let d := event_loop_default_config in
  mkEventLoopConfig (negb (Config.ints c enable_iouring =? 0)) (cfg_use_epoll d)
    (positive_or (Config.ints c Config.max_connections) 4096) (cfg_timeout_ms d) (cfg_tcp_fastopen d) (cfg_zero_copy d)
    (cfg_busy_poll d) (positive_or (Config.ints c iouring_queue_depth) 512) (negb (Config.ints c iouring_sqpoll =? 0)).

Definition server_threads (c : Config) : Z :=
  if Config.ints c worker_threads >? 0 then Config.ints c worker_threads else Config.ints c Config.thread_count.

(** ** What the outside answers

    The descriptors of [socket] are negative when it fails.  [epoll_fds_block] is what
    [malloc] gives for the descriptors of the workers, with what is in it. *)
Record server_env := mkServerEnv {
  obs_now : Z;
  rl_ok : bool;
  memory : heap;
  tls_files : context_env;
  tls_staple : ocsp_env;
  loop_ok : bool;
  probe_fd : Z;
  new_epoll : Z;
  new_event : Z;
  rings : setup_env;
  socket_fd : Z;
  bind_ok : bool;
  listen_ok : bool;
  listener_ok : bool;
  tls_socket_fd : Z;
  tls_bind_ok : bool;
  tls_listen_ok : bool;
  tls_listener_ok : bool;
  epoll_fds_block : option (list Z);
  threads_block : bool;
  page_date : list Z;
  page_ok : bool;
  firewall_now : Z;
  entries_ok : bool;
  patterns_ok : bool;
  keys_ok : bool;
  keys_copied : nat -> bool;
  pattern_grows : nat -> bool;
  rules_ok : bool
}.

Section Boot.
Context {T H Regex : Type} `{TlsLayer T} `{H2Layer H}.
Context (crc32_asm : list Z -> Z) (regcomp : list Z -> option Regex) (regexec : Regex -> list Z -> bool).

Abbreviation Server := (Server (T := T) (H := H) (Regex := Regex)).

(** What the callbacks change: the server, and what the workers' epolls watch. *)
Definition userdata_of : Type := Server * list (Z * Z).

(** The fields of the server that are not in [Server].  Of a thread's handle it is kept whether
    [pthread_create] wrote it. *)
Record ServerObject := mkServerObject {
  server : Server;
  port_number : Z;
  connection_limit : Z;
  use_iouring : Z;
  use_zero_copy : Z;
  tls_ctx : option TLSCtx;
  tls_library : lib;
  event_loop : option (EventLoop userdata_of);
  thread_pool : option (list bool);
  worker_epolls : option (list Z);
  watched : list (Z * Z);
  server_memory : heap;
  shutdown_phase : Z;
  reaper_thread : bool
}.

Definition set_server (s : Server) (o : ServerObject) : ServerObject :=
  mkServerObject s (port_number o) (connection_limit o) (use_iouring o) (use_zero_copy o) (tls_ctx o) (tls_library o) (event_loop o)
    (thread_pool o) (worker_epolls o) (watched o) (server_memory o) (shutdown_phase o) (reaper_thread o).
Definition set_loop (l : option (EventLoop userdata_of)) (o : ServerObject) : ServerObject :=
  mkServerObject (server o) (port_number o) (connection_limit o) (use_iouring o) (use_zero_copy o) (tls_ctx o) (tls_library o) l
    (thread_pool o) (worker_epolls o) (watched o) (server_memory o) (shutdown_phase o) (reaper_thread o).
Definition set_tls_ctx (t : option TLSCtx) (lb : lib) (o : ServerObject) : ServerObject :=
  mkServerObject (server o) (port_number o) (connection_limit o) (use_iouring o) (use_zero_copy o) t lb (event_loop o)
    (thread_pool o) (worker_epolls o) (watched o) (server_memory o) (shutdown_phase o) (reaper_thread o).
Definition set_memory (h : heap) (o : ServerObject) : ServerObject :=
  mkServerObject (server o) (port_number o) (connection_limit o) (use_iouring o) (use_zero_copy o) (tls_ctx o) (tls_library o) (event_loop o)
    (thread_pool o) (worker_epolls o) (watched o) h (shutdown_phase o) (reaper_thread o).
Definition set_threads (t : option (list bool)) (e : option (list Z)) (o : ServerObject) : ServerObject :=
  mkServerObject (server o) (port_number o) (connection_limit o) (use_iouring o) (use_zero_copy o) (tls_ctx o) (tls_library o) (event_loop o)
    t e (watched o) (server_memory o) (shutdown_phase o) (reaper_thread o).
Definition set_watched (w : list (Z * Z)) (o : ServerObject) : ServerObject :=
  mkServerObject (server o) (port_number o) (connection_limit o) (use_iouring o) (use_zero_copy o) (tls_ctx o) (tls_library o) (event_loop o)
    (thread_pool o) (worker_epolls o) w (server_memory o) (shutdown_phase o) (reaper_thread o).

Definition on_settings (f : ServerSettings -> ServerSettings) (s : Server) : Server :=
  mkServer (running s) (f (settings s)) (stats s) (ratelimiter s) (arenapool s) (table s) (firewall s) (moderation s)
    (manager s) (app s).
Definition set_sockets (fd tls_fd : Z) (x : ServerSettings) : ServerSettings :=
  mkServerSettings (thread_count x) (epoll_fds x) (use_streaming x) (keepalive_timeout x) (enable_tls x) (tls_port x)
    (enable_http2 x) (middlewares x) (shutdown_timeout x) fd tls_fd.
Definition set_epoll_fds (l : list Z) (x : ServerSettings) : ServerSettings :=
  mkServerSettings (thread_count x) l (use_streaming x) (keepalive_timeout x) (enable_tls x) (tls_port x)
    (enable_http2 x) (middlewares x) (shutdown_timeout x) (server_fd x) (tls_server_fd x).

(** ** The callbacks *)

(** What an epoll of a worker watches, for each of them. *)
Definition worker_add_fd (epoll_fd client_fd : Z) (w : list (Z * Z)) : list (Z * Z) := w ++ [(epoll_fd, client_fd)].

Definition server_callbacks (a : nat -> accept_env) (v : nat -> call_env) : callbacks userdata_of :=
  mkCallbacks
    (Some (fun n fd '(s, w) =>
       '(s, epoll) ← of_res (Lifecycle.on_accept (a n) fd s);
       mret (s, match epoll with Some e => worker_add_fd e fd w | None => w end)))
    (Some (fun n fd '(s, w) => '(r, s) ← Lifecycle.on_read crc32_asm regexec (v n) fd s; mret (r, (s, w))))
    None
    (Some (fun n fd '(s, w) => mret (Lifecycle.on_close fd (index_ok (v n)) s, w)))
    (Some (fun n fd error u => mret u)).

(** ** [server_init] *)

(** The structure is filled with zeros; the globals of the parts stay. *)
Definition fresh_server (c : Config) (s : Server) : Server :=
  let int := Config.ints c in
  set_active 0
    (mkServer false
       (mkServerSettings (server_threads c) [] (negb (int enable_streaming =? 0)) (positive_or (int Config.keepalive_timeout) 30)
          (negb (int Config.enable_tls =? 0)) (u16 (int Config.tls_port)) (negb (int Config.enable_http2 =? 0))
          (middlewares (settings s)) (positive_or (int graceful_shutdown_timeout) 30) 0 0)
       (mkServerStats 0 0 0 0) None None (table s) (firewall s) (moderation s) (manager s) (app s)).

Definition on_app (f : Router.world -> Router.world) (s : Server) : Server := set_app (f (app s)) s.
Definition start_metrics (now : Z) (w : Router.world) : Router.world :=
  mkWorld (Router.cache w) (Router.router w) (obs_init now (Router.metrics w)) (Router.active w) (Router.not_found w)
    (Router.root w).

Definition init_cached_responses (e : server_env) (w : Router.world) : res Router.world :=
  '(_, r) ← create_http_response (page_date e) (page_ok e) (Some not_found_html) (lit "text/html") 404 (lit "Not Found") (Router.not_found w);
  Ok (mkWorld (Router.cache w) (Router.router w) (Router.metrics w) (Router.active w) r (Router.root w)).

Definition start_patterns : list (string * Z) :=
  [("<script", 9); ("javascript:", 8); ("onload=", 8); ("onerror=", 8); ("alert(", 8); ("document.cookie", 8);
   ("eval(", 9); ("iframe", 7)]%string.

Fixpoint add_patterns (l : list (string * Z)) (grows : nat -> bool) (n : nat) (fw : Firewall.Firewall) : res Firewall.Firewall :=
  match l with
  | [] => Ok fw
  | (p, severity) :: l' =>
      '(_, fw) ← firewall_add_attack_pattern (Some (lit p)) severity (grows n) fw;
      add_patterns l' grows (S n) fw
  end.

(** A listening socket: the call's code if it fails, and what is then asked. *)
Definition open_listener (fd : Z) (bind_ok listen_ok : bool) : bool * list kernel_call :=
  if fd <? 0 then (false, [])
  else if negb bind_ok then (false, [Opened fd; Closed fd])
  else if negb listen_ok then (false, [Opened fd; Closed fd])
  else (true, [Opened fd]).

(** The parts that are made last; none of their failures is looked at. *)
Definition init_parts (e : server_env) (c : Config) (s : Server) : res Server :=
  w ← init_cached_responses e (app s);
  let s := set_app w s in
  fw ← (if Config.ints c enable_firewall =? 0 then Ok (firewall s)
        else
          '(_, fw) ← firewall_init (Some (api_keys c)) (firewall_now e) (entries_ok e) (patterns_ok e) (keys_ok e) (keys_copied e) (firewall s);
          add_patterns start_patterns (pattern_grows e) 0 fw);
  let s := set_firewall fw s in
  '(_, m) ← moderation_init regcomp (rules_ok e) (moderation s);
  Ok (set_moderation m s).

(** The sockets, once there is a loop. *)
Definition init_sockets (e : server_env) (c : Config) (o : ServerObject) (el : EventLoop userdata_of)
  : Z * ServerObject * list kernel_call :=
  let '(ok, l1) := open_listener (socket_fd e) (bind_ok e) (listen_ok e) in
  let o := set_server (on_settings (set_sockets (socket_fd e) 0) (server o)) o in
  if negb ok then (-1, set_loop (Some el) o, l1)
  else
    let '(_, el) := event_loop_add_listener (listener_ok e) (socket_fd e) el in
    if negb (enable_tls (settings (server o))) then (0, set_loop (Some el) o, l1)
    else
      let '(ok, l2) := open_listener (tls_socket_fd e) (tls_bind_ok e) (tls_listen_ok e) in
      let o := set_server (on_settings (set_sockets (socket_fd e) (tls_socket_fd e)) (server o)) o in
      if negb ok then (-1, set_loop (Some el) o, l1 ++ l2)
      else
        let '(_, el) := event_loop_add_listener (tls_listener_ok e) (tls_socket_fd e) el in
        (0, set_loop (Some el) o, l1 ++ l2).

Definition start_limiter (e : server_env) (c : Config) (s : Server) : Server :=
  if Config.ints c Config.enable_ratelimiter =? 0 then s
  else set_ratelimiter (ratelimiter_create (ratelimiter_config c) (rl_ok e)) s.

(** The first staple is fetched at once; whether that works is not looked at. *)
Definition start_tls (e : server_env) (c : Config) (o : ServerObject) : res (bool * ServerObject) :=
  if negb (enable_tls (settings (server o))) then Ok (true, o)
  else
    let cfg := tls_config_of c in
    '(ctx, lb) ← tls_ctx_create (tls_files e) cfg (tls_library o);
    match ctx with
    | None => Ok (false, set_tls_ctx None lb o)
    | Some _ =>
        if enable_ocsp_stapling cfg =? 0 then Ok (true, set_tls_ctx ctx lb o)
        else '(_, ctx, lb) ← tls_ctx_ocsp_update (tls_staple e) ctx lb; Ok (true, set_tls_ctx ctx lb o)
    end.

(** The value, the server, and what was asked of the kernel. *)
Definition server_init (a : nat -> accept_env) (v : nat -> call_env) (e : server_env) (c : Config) (s : Server)
  : res (Z * ServerObject * list kernel_call) :=
  let int := Config.ints c in
  let s := fresh_server c s in
  let s := if int enable_observability =? 0 then s else on_app (start_metrics (obs_now e)) s in
  let s := start_limiter e c s in
  '(pool, h) ← arenapool_create 1048576 (positive_or (thread_count (settings s)) 4) (memory e);
  let s := set_arenapool pool s in
  let o := mkServerObject s (u16 (int Config.port)) (int Config.max_connections) (int enable_iouring) (int enable_zero_copy)
             None no_objects None None None [] h 0 false in
  '(ok, o) ← start_tls e c o;
  if negb ok then Ok (-1, o, [])
  else
    let '(loop, l0) := event_loop_create (loop_config c) (loop_ok e) (probe_fd e) (new_epoll e) (new_event e) (rings e) (s, []) in
    match loop with
    | None => Ok (-1, o, l0)
    | Some el =>
        let el := event_loop_set_callbacks (server_callbacks a v) (s, []) el in
        let '(code, o, l1) := init_sockets e c o el in
        if negb (code =? 0) then Ok (code, o, l0 ++ l1)
        else
          let o := set_threads (if threads_block e then Some (replicate (Z.to_nat (thread_count (settings s))) false) else None)
                     (epoll_fds_block e) o in
          s ← init_parts e c (server o);
          Ok (0, set_server s o, l0 ++ l1)
    end.

(** ** [server_start] *)

(** What starting one worker is answered.  After the workers the reaper is started. *)
Record thread_env := mkThreadEnv { data_ok : bool; create_ok : bool }.

(** The descriptor of each worker is set to -1 and its thread started, unless there is
    no memory for its data; [threads] is which of them run. *)
Fixpoint start_threads (l : list thread_env) (i : Z) (epolls : list Z) (threads : list bool) : res (list Z * list bool) :=
  match l with
  | [] => Ok (epolls, threads)
  | t :: l' =>
      if negb (data_ok t) then start_threads l' (i + 1) epolls threads
      else if (i <? zlen epolls) && (i <? zlen threads) then
        start_threads l' (i + 1) (zset epolls i (-1)) (if create_ok t then zset threads i true else threads)
      else Fault OutOfBounds
  end.

Definition server_start (threads : nat -> thread_env) (o : ServerObject) : res (Z * ServerObject) :=
  let s := set_running true (server o) in
  let l := threads <$> seq 0 (Z.to_nat (thread_count (settings s))) in
  '(epolls, started) ← match worker_epolls o, thread_pool o with
                        | Some e, Some t => start_threads l 0 e t
                        | _, _ => if existsb data_ok l then Fault NullDeref else Ok ([], [])
                        end;
  let s := on_settings (set_epoll_fds epolls) s in
  Ok (0, mkServerObject s (port_number o) (connection_limit o) (use_iouring o) (use_zero_copy o) (tls_ctx o) (tls_library o) (event_loop o)
           ((fun _ => started) <$> thread_pool o) ((fun _ => epolls) <$> worker_epolls o) (watched o) (server_memory o) 0
           (create_ok (threads (length l)))).

(** A worker that has started makes its epoll; [fd] is negative when that fails. *)
Definition worker_started (id fd : Z) (o : ServerObject) : ServerObject :=
  if fd <? 0 then o
  else
    let s := server o in
    set_threads (thread_pool o) ((fun l => zset l id fd) <$> worker_epolls o)
      (set_server (on_settings (fun x => set_epoll_fds (zset (epoll_fds x) id fd) x) s) o).

(** ** Events, and the end *)

(** The loop works on the server itself. *)
Definition server_process_events (e : loop_env) (o : ServerObject) : M (Z * ServerObject) :=
  match event_loop o with
  | None => mret (-1, o)
  | Some el =>
      '(r, el) ← event_loop_run (fun u => running u.1) e (set_cbs (cbs el) (server o, watched o) el);
      mret (r, set_watched (userdata el).2 (set_server (userdata el).1 (set_loop (Some el) o)))
  end.

(** The rate limiter is freed with the rest. *)
Definition server_cleanup (o : ServerObject) : res (ServerObject * list kernel_call) :=
  l ← match event_loop o with Some el => event_loop_destroy el | None => Ok [] end;
  h ← arenapool_destroy (arenapool (server o)) (server_memory o);
  '(_, lb) ← tls_ctx_destroy (tls_ctx o) (tls_library o);
  let s := on_app (fun w => mkWorld (Router.cache w) (Router.router w) (obs_cleanup (Router.metrics w)) (Router.active w)
                              (Router.not_found w) (Router.root w)) (server o) in
  Ok (set_tls_ctx (tls_ctx o) lb (set_memory h (set_server s o)), l).
End Boot.

Arguments ServerObject : clear implicits.

Section BootFacts.
Context {T H Regex : Type} `{TlsLayer T} `{H2Layer H}.
Context (crc32_asm : list Z -> Z) (regcomp : list Z -> option Regex) (regexec : Regex -> list Z -> bool).

Abbreviation Server := (Server (T := T) (H := H) (Regex := Regex)).
Abbreviation server_init := (server_init crc32_asm regcomp regexec).

(** ** Lemmas: what [server_init] leaves *)

Lemma create_opts {U} cfg calloc_ok probe ep ev r (nobody : U) el l :
  event_loop_create cfg calloc_ok probe ep ev r nobody = (Some el, l) ->
  event_fd (opts el) = ev /\ listener_fds el = []
  /\ (cfg_use_io_uring cfg = false -> EventLoop.use_io_uring (opts el) = false)
  /\ write_mutex el = Unlocked.
Proof.
  unfold event_loop_create, iouring_available. destruct calloc_ok; [|done].
  destruct (cfg_use_io_uring cfg); [destruct (probe >=? 0)|]; destruct (ep <? 0), (ev <? 0); try done;
    try destruct (iouring_ring_setup r _) as [[?|] ?]; intros [= <- <-]; done.
Qed.

Lemma init_parts_settings e c (s s' : Server) :
  init_parts regcomp e c s = Ok s' -> settings s' = settings s /\ running s' = running s /\ arenapool s' = arenapool s /\ table s' = table s.
Proof.
  unfold init_parts. destruct (init_cached_responses e (app s)) as [w|]; [|done]. cbn [mbind res_bind].
  destruct (if Config.ints c enable_firewall =? 0 then _ else _) as [fw|]; [|done]. cbn [mbind res_bind].
  destruct (moderation_init _ _ _) as [[z m]|]; [|done]. cbn [mbind res_bind]. by intros [= <-].
Qed.

(** The listening sockets of a server that is up. *)
Definition listeners (e : server_env) (c : Config) : list Z :=
  (if listener_ok e then [socket_fd e] else [])
  ++ (if Config.ints c Config.enable_tls =? 0 then [] else if tls_listener_ok e then [tls_socket_fd e] else []).

Lemma add_listener_spec {U} ok fd (el : EventLoop U) :
  zlen (listener_fds el) < 64 ->
  exists r el', event_loop_add_listener ok fd el = (r, el') /\ cbs el' = cbs el /\ opts el' = opts el
    /\ write_mutex el' = write_mutex el /\ listener_fds el' = listener_fds el ++ (if ok then [fd] else []).
Proof.
  intros Hl. unfold event_loop_add_listener. destruct ok; cbn [negb]; eexists _, _; split; try done.
  - cbn. rewrite (proj2 (Z.ltb_lt _ _)) by done. done.
  - cbn. by rewrite app_nil_r.
Qed.

Lemma init_sockets_ok e c o (el : EventLoop (userdata_of (T := T) (H := H) (Regex := Regex))) o' l :
  listener_fds el = [] ->
  enable_tls (settings (server o)) = negb (Config.ints c Config.enable_tls =? 0) ->
  init_sockets e c o el = (0, o', l) ->
  exists el', event_loop o' = Some el' /\ cbs el' = cbs el /\ opts el' = opts el /\ listener_fds el' = listeners e c
    /\ write_mutex el' = write_mutex el
    /\ server o' = on_settings (set_sockets (socket_fd e) (if Config.ints c Config.enable_tls =? 0 then 0 else tls_socket_fd e)) (server o).
Proof.
  intros Hl He. unfold init_sockets, listeners. destruct (open_listener (socket_fd e) _ _) as [[] l1]; [|done].
  cbn [negb server set_server on_settings settings set_sockets enable_tls].
  destruct (add_listener_spec (listener_ok e) (socket_fd e) el) as (r & el1 & -> & C1 & O1 & M1 & L1); [by rewrite Hl|].
  rewrite Hl in L1. rewrite He. destruct (Config.ints c Config.enable_tls =? 0); cbn [negb].
  - intros [= <- <-]. exists el1. by rewrite app_nil_r.
  - destruct (open_listener (tls_socket_fd e) _ _) as [[] l2]; [|done]. cbn [negb].
    destruct (add_listener_spec (tls_listener_ok e) (tls_socket_fd e) el1) as (r2 & el2 & -> & C2 & O2 & M2 & L2).
    { rewrite L1. by destruct (listener_ok e). }
    intros [= <- <-]. exists el2. rewrite C2, O2, L2, L1, M2. done.
Qed.

Lemma start_tls_server e c (o : ServerObject T H Regex) ok o' : start_tls e c o = Ok (ok, o') -> server o' = server o.
Proof.
  unfold start_tls. destruct (negb _); [by intros [= <- <-]|]. cbn zeta.
  destruct (tls_ctx_create _ _ _) as [[[ctx|] lb]|]; [|by intros [= <- <-]|done]. cbn [mbind res_bind].
  destruct (enable_ocsp_stapling _ =? 0); [by intros [= <- <-]|].
  destruct (tls_ctx_ocsp_update _ _ _) as [[[r ctx'] lb']|]; [|done]. by intros [= <- <-].
Qed.

Record up (a : nat -> accept_env) (v : nat -> call_env) (e : server_env) (c : Config) (s : Server) (o : ServerObject T H Regex)
    (el : EventLoop (userdata_of (T := T) (H := H) (Regex := Regex))) : Prop := mkUp {
  up_loop : event_loop o = Some el;
  up_cbs : cbs el = server_callbacks crc32_asm regexec a v;
  up_listeners : listener_fds el = listeners e c;
  up_event_fd : event_fd (opts el) = new_event e;
  up_epoll : Config.ints c enable_iouring = 0 -> EventLoop.use_io_uring (opts el) = false;
  up_threads : thread_count (settings (server o)) = server_threads c;
  up_fd : server_fd (settings (server o)) = socket_fd e;
  up_tls_fd : tls_server_fd (settings (server o)) = (if Config.ints c Config.enable_tls =? 0 then 0 else tls_socket_fd e);
  up_table : table (server o) = table s;
  up_mutex : write_mutex el = Unlocked;
  up_epolls : worker_epolls o = epoll_fds_block e;
  up_pool : thread_pool o = if threads_block e then Some (replicate (Z.to_nat (server_threads c)) false) else None
}.

Lemma server_init_up a v e c (s : Server) o l :
  server_init a v e c s = Ok (0, o, l) -> exists el, up a v e c s o el.
Proof.
  unfold Boot.server_init. set (s1 := start_limiter _ _ _).
  destruct (arenapool_create _ _ _) as [[pool h]|]; [|done]. cbn [mbind res_bind].
  set (s2 := set_arenapool pool s1).
  assert (settings s2 = settings (fresh_server c s) /\ table s2 = table s) as [Hs Ht].
  { unfold s2, s1, start_limiter. by destruct (Config.ints c enable_observability =? 0), (Config.ints c Config.enable_ratelimiter =? 0). }
  destruct (start_tls e c _) as [[ok o1]|] eqn:Et; [|done]. cbn [mbind res_bind].
  apply start_tls_server in Et as Ho1. cbn [server] in Ho1. destruct ok; cbn [negb]; [|done].
  destruct (event_loop_create _ _ _ _ _ _ _) as [[el|] l0] eqn:El; [|done].
  apply create_opts in El as (He & Hl & Hu & Hmu).
  destruct (init_sockets e c o1 _) as [[code o2] l1] eqn:Es.
  destruct (Z.eqb_spec code 0) as [->|Hne]; cbn [negb]; [|by intros [= -> _ _]].
  apply init_sockets_ok in Es as (el' & E1 & E2 & E3 & E4 & Em & E5); [|done|by rewrite Ho1, Hs].
  cbn [server set_threads]. destruct (init_parts _ _ _ _) as [s3|] eqn:Ep; [|done]. cbn [mbind res_bind].
  apply init_parts_settings in Ep as (P1 & P2 & _ & P4). intros [= <- <-]. exists el'.
  split; cbn [event_loop set_server set_threads server]; try done.
  - by rewrite E3.
  - intros Hc. rewrite E3. apply Hu. unfold loop_config. cbn. by rewrite Hc.
  - rewrite P1, E5, Ho1. change (thread_count (settings s2) = server_threads c). by rewrite Hs.
  - by rewrite P1, E5.
  - by rewrite P1, E5.
  - by rewrite P4, E5, Ho1.
  - by rewrite Em.
  - cbn [thread_pool]. change (settings s1) with (settings s2). by rewrite Hs.
Qed.

(** ** Lemmas: what [server_init] spares, and what can be given back *)

(** The firewall works, and a second [firewall_init] does nothing. *)
Definition firewall_up (fw : Firewall.Firewall) : Prop := firewall_ok fw /\ is_initialized fw = true.

Lemma lock_initialized fw fw' : Firewall.lock fw = Ok fw' -> is_initialized fw' = is_initialized fw.
Proof. unfold Firewall.lock. destruct (Firewall.mutex fw); [done|]. by intros [= <-]. Qed.

Lemma add_pattern_initialized p n ok fw r fw' :
  firewall_add_attack_pattern p n ok fw = Ok (r, fw') -> is_initialized fw' = is_initialized fw.
Proof.
  unfold firewall_add_attack_pattern. destruct p as [p|]; [|by intros [= <- <-]].
  destruct ((n <? 1) || (n >? 10)); [by intros [= <- <-]|].
  destruct (Firewall.lock fw) as [fw1|] eqn:E; [|done]. apply lock_initialized in E. cbn [mbind res_bind].
  destruct (row_of _ _ _); [by intros [= <- <-]|]. destruct (attack_patterns fw1), ok; try done; by intros [= <- <-].
Qed.

Lemma add_patterns_up l grows : forall n fw fw', firewall_up fw -> add_patterns l grows n fw = Ok fw' -> firewall_up fw'.
Proof.
  induction l as [|[p k] l IH]; intros n fw fw' [Hok Hi]; [by intros [= <-]|]. cbn [add_patterns].
  pose proof (add_pattern_ok (Some (lit p)) k (grows n) fw Hok) as Hp.
  destruct (firewall_add_attack_pattern _ _ _ fw) as [[r fw1]|] eqn:E; [|done]. cbn [mbind res_bind].
  apply IH. split; [done|]. by rewrite (add_pattern_initialized _ _ _ _ _ _ E).
Qed.

(** What the other parts own. *)
Record spared (s s' : Server) : Prop := mkSpared {
  sp_manager : manager s' = manager s;
  sp_cache : Router.cache (app s') = Router.cache (app s);
  sp_table : connections (Server.table s') = connections (Server.table s);
  sp_firewall : firewall_up (firewall s) -> firewall_up (firewall s')
}.

Lemma spared_trans s1 s2 s3 : spared s1 s2 -> spared s2 s3 -> spared s1 s3.
Proof. intros [M1 C1 T1 F1] [M2 C2 T2 F2]. split; [congruence..|auto]. Qed.

Lemma spared_same s s' :
  manager s' = manager s -> app s' = app s -> table s' = table s -> firewall s' = firewall s -> spared s s'.
Proof. intros HM HA HT HF. split; [done|by rewrite HA|by rewrite HT|by rewrite HF]. Qed.

(** A firewall that works is left as it is. *)
Lemma init_again_up keys now a b c d fw r fw' :
  firewall_up fw -> firewall_init keys now a b c d fw = Ok (r, fw') -> firewall_up fw'.
Proof. intros [Hok Hi]. unfold firewall_init. rewrite Hi. by intros [= _ <-]. Qed.

Lemma init_parts_spared e c (s s' : Server) : init_parts regcomp e c s = Ok s' -> spared s s'.
Proof.
  unfold init_parts, init_cached_responses. destruct (create_http_response _ _ _ _ _ _ _) as [[z w]|]; [|done]. cbn [mbind res_bind].
  cbn [firewall set_app]. destruct (if Config.ints c enable_firewall =? 0 then _ else _) as [fw|] eqn:Ef; [|done]. cbn [mbind res_bind].
  destruct (moderation_init _ _ _) as [[z' m]|]; [|done]. cbn [mbind res_bind]. intros [= <-]. split; [done..|].
  intros Hu. change (firewall_up fw). destruct (Config.ints c enable_firewall =? 0); [by injection Ef as <-|].
  destruct (firewall_init _ _ _ _ _ _ _) as [[r fw1]|] eqn:E; [|done]. cbn [mbind res_bind] in Ef.
  eapply add_patterns_up; [|exact Ef]. by eapply init_again_up.
Qed.

Lemma init_sockets_spared e c o (el : EventLoop (userdata_of (T := T) (H := H) (Regex := Regex))) code o' l :
  init_sockets e c o el = (code, o', l) ->
  spared (server o) (server o') /\ arenapool (server o') = arenapool (server o) /\ server_memory o' = server_memory o
  /\ tls_ctx o' = tls_ctx o /\ tls_library o' = tls_library o /\ moderation (server o') = moderation (server o).
Proof.
  unfold init_sockets. intros Es. repeat match type of Es with context [let '(_, _) := ?x in _] => destruct x end.
  repeat case_match; simplify_eq; cbn; (split; [by apply spared_same|done]).
Qed.

Lemma server_init_spared a v e c (s : Server) code o l : server_init a v e c s = Ok (code, o, l) -> spared s (server o).
Proof.
  unfold Boot.server_init. set (s1 := start_limiter _ _ _).
  destruct (arenapool_create _ _ _) as [[pool h]|]; [|done]. cbn [mbind res_bind].
  set (s2 := set_arenapool pool s1).
  assert (spared s s2) as Hs.
  { unfold s2, s1, start_limiter. by destruct (Config.ints c enable_observability =? 0), (Config.ints c Config.enable_ratelimiter =? 0). }
  destruct (start_tls e c _) as [[ok o1]|] eqn:Et; [|done]. cbn [mbind res_bind].
  apply start_tls_server in Et as Ho1. cbn [server] in Ho1. rewrite <- Ho1 in Hs.
  destruct ok; cbn [negb]; [|by intros [= _ <- _]].
  destruct (event_loop_create _ _ _ _ _ _ _) as [[el|] l0]; [|by intros [= _ <- _]].
  destruct (init_sockets e c o1 _) as [[z o2] l1] eqn:Es. apply init_sockets_spared in Es as [Ho2 _].
  destruct (Z.eqb_spec z 0) as [->|Hz]; cbn [negb]; [|intros [= _ <- _]; by eapply spared_trans].
  cbn [server set_threads]. destruct (init_parts _ _ _ _) as [s3|] eqn:Ep; [|done]. cbn [mbind res_bind].
  apply init_parts_spared in Ep. intros [= _ <- _]. cbn [server set_server]. eauto using spared_trans.
Qed.

(** What can be given back: the loop's mutex is free, destroying the arenas leaves the
    blocks that were there before ([m]), and the objects of the library that are held are
    those of the context. *)
Record stoppable (m : list Z) (o : ServerObject T H Regex) : Prop := mkStoppable {
  so_loop : exists el, event_loop o = Some el /\ write_mutex el = Unlocked;
  so_arenas : exists h, arenapool_destroy (arenapool (server o)) (server_memory o) = Ok h /\ live h ≡ₚ m;
  so_tls : exactly (tls_ctx o) (tls_library o);
  so_nobody : connections (Server.table (server o)) = []
}.

(** Without a responder the staple is not there, and nothing changes. *)
Lemma start_tls_exactly e c (o : ServerObject T H Regex) o' :
  tls_ctx o = None -> tls_library o = no_objects -> start_tls e c o = Ok (true, o') ->
  exactly (tls_ctx o') (tls_library o') /\ server_memory o' = server_memory o.
Proof.
  intros Hn Hl. unfold start_tls. destruct (negb _); [intros [= <-]; by rewrite Hn, Hl|]. cbn zeta. rewrite Hl.
  pose proof (life_exactly (tls_files e) (tls_config_of c) []) as HA.
  pose proof (life_exactly (tls_files e) (tls_config_of c) [Update (tls_staple e)]) as HB. revert HA HB.
  unfold life. cbv [mbind Lib_bind res_bind mret Lib_ret]. cbn [run_ops].
  destruct (tls_ctx_create _ _ _) as [[[ctx|] lb]|]; [|done|done]. cbv [mret Lib_ret mbind Lib_bind res_bind].
  destruct (enable_ocsp_stapling _ =? 0); [by intros HA _ [= <-]|].
  destruct (tls_ctx_ocsp_update _ _ _) as [[[r ctx'] lb']|]; [|done]. by intros _ HB [= <-].
Qed.

Definition no_null (h : heap) : Prop := forall i, Prelude.answers h i <> Some 0.

Lemma server_init_stoppable a v e c (s : Server) o l :
  connections (Server.table s) = [] -> no_null (memory e) ->
  server_init a v e c s = Ok (0, o, l) -> stoppable (Prelude.live (memory e)) o.
Proof.
  intros Hc Hm E. pose proof E as Hup. apply server_init_up in Hup as [el U]. revert E.
  unfold Boot.server_init. set (s1 := start_limiter _ _ _).
  destruct (arenapool_no_leak 1048576 (positive_or (thread_count (settings s1)) 4) (memory e) Hm) as (pool & h & -> & Hp).
  cbn [mbind res_bind].
  destruct (start_tls e c _) as [[ok o1]|] eqn:Et; [|done]. cbn [mbind res_bind].
  apply start_tls_server in Et as Ho1. cbn [server] in Ho1. destruct ok; cbn [negb]; [|done].
  apply start_tls_exactly in Et as [Hx Hh]; [|done..]. cbn [server_memory] in Hh.
  destruct (event_loop_create _ _ _ _ _ _ _) as [[el1|] l0]; [|done].
  destruct (init_sockets e c o1 _) as [[z o2] l1] eqn:Es. apply init_sockets_spared in Es as (_ & Ha & Hm2 & Ht & Hb & _).
  destruct (Z.eqb_spec z 0) as [->|Hz]; cbn [negb]; [|by intros [= -> _ _]].
  cbn [server set_threads]. destruct (init_parts _ _ _ _) as [s3|] eqn:Ep; [|done]. cbn [mbind res_bind].
  apply init_parts_settings in Ep as (_ & _ & P3 & _). intros [= <- _].
  split.
  - exists el. split; [apply U|]. apply (up_mutex _ _ _ _ _ _ _ U).
  - cbn [server set_server arenapool server_memory set_threads]. rewrite P3, Ha, Ho1, Hm2, Hh.
    change (arenapool (set_arenapool pool s1)) with pool. destruct pool as [pl|]; [|by exists h].
    destruct Hp as (_ & _ & h' & -> & Hl). by exists h'.
  - cbn [tls_ctx tls_library set_server set_threads]. by rewrite Ht, Hb.
  - by rewrite (up_table _ _ _ _ _ _ _ U).
Qed.

(** ** Lemmas: no fault in a start *)

(** What is asked of the outside: [malloc] gives no block at 0, there is a block for the
    descriptors of the workers and one for their threads, and the certificate names no
    responder. *)
Record answers_ok (e : server_env) (c : Config) : Prop := mkAnswersOk {
  ao_heap : no_null (memory e);
  ao_staple : unnamed (Update (tls_staple e));
  ao_epolls : exists l, epoll_fds_block e = Some l /\ (Z.to_nat (server_threads c) <= length l)%nat;
  ao_threads : threads_block e = true
}.

Lemma start_tls_safe e c (o : ServerObject T H Regex) :
  tls_library o = no_objects -> unnamed (Update (tls_staple e)) -> safe (start_tls e c o).
Proof.
  intros Hl Hu. unfold start_tls. destruct (negb _); [by eexists|]. cbn zeta. rewrite Hl.
  pose proof (life_exactly (tls_files e) (tls_config_of c) []) as HA.
  pose proof (life_exactly (tls_files e) (tls_config_of c) [Update (tls_staple e)]) as HB. revert HA HB.
  unfold life. cbv [mbind Lib_bind res_bind mret Lib_ret]. cbn [run_ops].
  destruct (tls_ctx_create _ _ _) as [[[ctx|] lb]|].
  - intros _. cbv [mret Lib_ret mbind Lib_bind res_bind]. destruct (enable_ocsp_stapling _ =? 0); [by eexists|].
    destruct (tls_ctx_ocsp_update _ _ _) as [[[r ctx'] lb']|]; [by eexists|]. intros [_ HB]. destruct HB. by constructor.
  - by eexists.
  - intros [_ HA]. by destruct HA.
Qed.

Lemma init_cached_safe e w : safe (init_cached_responses e w).
Proof.
  unfold init_cached_responses. destruct (page_ok e); [|by eexists]. rewrite create_http_response_spec by lia.
  assert (fits not_found_html (lit "Not Found") = true) as -> by (by vm_compute). by eexists.
Qed.

Lemma add_patterns_safe l grows : forall n fw, firewall_ok fw -> safe (add_patterns l grows n fw).
Proof.
  induction l as [|[p k] l IH]; intros n fw Hok; [by eexists|]. cbn [add_patterns].
  pose proof (add_pattern_ok (Some (lit p)) k (grows n) fw Hok) as Hp.
  destruct (firewall_add_attack_pattern _ _ _ fw) as [[r fw1]|]; [|done]. by apply IH.
Qed.

Lemma init_parts_safe e c (s : Server) :
  (Config.ints c enable_firewall <> 0 -> firewall_up (firewall s)) -> moderation s = engine -> safe (init_parts regcomp e c s).
Proof.
  intros Hf Hm. unfold init_parts. destruct (init_cached_safe e (app s)) as [w ->]. cbn [mbind res_bind firewall set_app].
  destruct (Z.eqb_spec (Config.ints c enable_firewall) 0) as [_|Hc]; cbn [mbind res_bind].
  - cbn [moderation set_app set_firewall]. rewrite Hm. destruct (rules_ok e); [|by eexists].
    destruct (init_holds regcomp) as (e0 & -> & _). by eexists.
  - destruct (Hf Hc) as [Hok Hi]. unfold firewall_init. rewrite Hi. cbn [mbind res_bind].
    destruct (add_patterns_safe start_patterns (pattern_grows e) 0 (firewall s) Hok) as [fw ->]. cbn [mbind res_bind].
    cbn [moderation set_app set_firewall]. rewrite Hm. destruct (rules_ok e); [|by eexists].
    destruct (init_holds regcomp) as (e0 & -> & _). by eexists.
Qed.

Lemma server_init_safe a v e c (s : Server) :
  answers_ok e c -> (Config.ints c enable_firewall <> 0 -> firewall_up (firewall s)) -> moderation s = engine ->
  safe (server_init a v e c s).
Proof.
  intros [Hm Hu _ _] Hf Hmod. unfold Boot.server_init. set (s1 := start_limiter _ _ _).
  assert (firewall s1 = firewall s /\ moderation s1 = engine) as [Hs1 Hs2].
  { unfold s1, start_limiter. by destruct (Config.ints c enable_observability =? 0), (Config.ints c Config.enable_ratelimiter =? 0). }
  destruct (arenapool_no_leak 1048576 (positive_or (thread_count (settings s1)) 4) (memory e) Hm) as (pool & h & -> & _).
  cbn [mbind res_bind]. edestruct (start_tls_safe e c) as [[ok o1] Et]; [|done|rewrite Et]; [done|]. cbn [mbind res_bind].
  apply start_tls_server in Et as Ho1. cbn [server] in Ho1. destruct ok; cbn [negb]; [|by eexists].
  destruct (event_loop_create _ _ _ _ _ _ _) as [[el1|] l0]; [|by eexists].
  destruct (init_sockets e c o1 _) as [[z o2] l1] eqn:Es. apply init_sockets_spared in Es as ([_ _ _ Hfw] & _ & _ & _ & _ & Hmo).
  destruct (negb (z =? 0)); [by eexists|]. cbn [server set_threads].
  destruct (init_parts_safe e c (server o2)) as [s3 ->]; [..|by eexists].
  - intros Hc. apply Hfw. rewrite Ho1. change (firewall_up (firewall s1)). rewrite Hs1. by apply Hf.
  - rewrite Hmo, Ho1. exact Hs2.
Qed.

Lemma start_threads_safe l : forall i epolls started,
  0 <= i -> i + zlen l <= zlen epolls -> i + zlen l <= zlen started -> safe (start_threads l i epolls started).
Proof.
  induction l as [|t l IH]; intros i epolls started Hi He Hs; [by eexists|]. rewrite zlen_cons in *. pose proof (zlen_nonneg l).
  cbn [start_threads]. destruct (data_ok t); cbn [negb]; [|apply IH; lia].
  rewrite !(proj2 (Z.ltb_lt _ _)) by lia. cbn [andb].
  apply IH; [lia|rewrite zlen_zset; lia|destruct (create_ok t); rewrite ?zlen_zset; lia].
Qed.

Lemma server_start_safe threads a v e c (s : Server) o l :
  answers_ok e c -> server_init a v e c s = Ok (0, o, l) -> safe (server_start threads o).
Proof.
  intros [_ _ (es & He & Hl) Ht] Hi. apply server_init_up in Hi as [el U]. unfold server_start.
  rewrite (up_epolls _ _ _ _ _ _ _ U), (up_pool _ _ _ _ _ _ _ U), He, Ht. cbn [settings set_running].
  rewrite (up_threads _ _ _ _ _ _ _ U).
  destruct (start_threads_safe (threads <$> seq 0 (Z.to_nat (server_threads c))) 0 es (replicate (Z.to_nat (server_threads c)) false))
    as [[ep st] E]; [lia|unfold zlen; rewrite length_fmap, length_seq..|].
  - lia.
  - rewrite length_replicate. lia.
  - rewrite E. by eexists.
Qed.

(** ** Lemmas: the threads *)

(** Every thread could be created. *)
Definition all_start (threads : nat -> thread_env) : Prop := forall k, data_ok (threads k) = true /\ create_ok (threads k) = true.

(** A server whose threads can all be joined. *)
Record joinable (o : ServerObject T H Regex) : Prop := mkJoinable {
  jo_reaper : reaper_thread o = true;
  jo_threads : thread_pool o = Some (replicate (Z.to_nat (thread_count (settings (server o)))) true);
  jo_epolls : epolls_fit (server o)
}.

Lemma start_threads_all l : forall k epolls epolls' threads',
  Forall (fun t => data_ok t = true /\ create_ok t = true) l ->
  start_threads l (Z.of_nat k) epolls (replicate k true ++ replicate (length l) false) = Ok (epolls', threads') ->
  length epolls' = length epolls /\ threads' = replicate (k + length l) true.
Proof.
  induction l as [|t l IH]; intros k epolls epolls' threads' Hl.
  { cbn. intros [= <- <-]. by rewrite app_nil_r, Nat.add_0_r. }
  apply Forall_cons in Hl as [[Hd Hc] Hl]. cbn [start_threads length]. rewrite Hd, Hc. cbn [negb].
  destruct (_ && _); [|done].
  assert (zset (replicate k true ++ replicate (S (length l)) false) (Z.of_nat k) true
          = replicate (S k) true ++ replicate (length l) false) as ->.
  { unfold zset. rewrite (proj2 (Z.ltb_ge _ _)), Nat2Z.id by lia.
    rewrite insert_app_r_alt by (rewrite length_replicate; lia).
    rewrite length_replicate, Nat.sub_diag, (replicate_S_end k true), <- app_assoc. done. }
  replace (Z.of_nat k + 1) with (Z.of_nat (S k)) by lia. intros E. apply IH in E as [E1 ->]; [|done].
  split; [|f_equal; lia]. rewrite E1. unfold zset. destruct (_ <? 0); [done|]. apply length_insert.
Qed.

Lemma server_start_joinable threads a v e c (s : Server) o l r o' :
  answers_ok e c -> all_start threads -> server_init a v e c s = Ok (0, o, l) -> server_start threads o = Ok (r, o') -> joinable o'.
Proof.
  intros [_ _ (es & He & Hl) Ht] Hall Hi. apply server_init_up in Hi as [el U]. unfold server_start.
  rewrite (up_epolls _ _ _ _ _ _ _ U), (up_pool _ _ _ _ _ _ _ U), He, Ht. cbn [settings set_running].
  rewrite (up_threads _ _ _ _ _ _ _ U). set (n := Z.to_nat (server_threads c)) in *.
  destruct (start_threads _ 0 es _) as [[ep st]|] eqn:E; [|done]. cbn [mbind res_bind]. intros [= _ <-].
  assert (length (threads <$> seq 0 n) = n) as Hn by (by rewrite length_fmap, length_seq).
  pose proof (start_threads_all (threads <$> seq 0 n) 0 es ep st) as Hs. rewrite Hn in Hs. cbn [replicate List.app Nat.add] in Hs.
  destruct Hs as [E1 ->]; [apply Forall_fmap, Forall_true; intros k; apply Hall|exact E|].
  split; cbn; rewrite ?(up_pool _ _ _ _ _ _ _ U), ?Ht, ?(up_threads _ _ _ _ _ _ _ U); [apply Hall|done|].
  unfold epolls_fit. cbn. rewrite (up_threads _ _ _ _ _ _ _ U), E1. exact Hl.
Qed.

Lemma server_start_stoppable threads m (o o' : ServerObject T H Regex) r :
  stoppable m o -> server_start threads o = Ok (r, o') -> stoppable m o'.
Proof.
  intros [Hl Ha Ht Hn]. unfold server_start.
  destruct (match worker_epolls o with Some _ => _ | None => _ end) as [[ep th]|]; [|done].
  cbn [mbind res_bind]. intros [= _ <-]. by split.
Qed.

Lemma server_start_spared threads (o o' : ServerObject T H Regex) r :
  server_start threads o = Ok (r, o') -> r = 0 /\ spared (server o) (server o').
Proof.
  unfold server_start. destruct (match worker_epolls o with Some _ => _ | None => _ end) as [[ep th]|]; [|done].
  cbn [mbind res_bind]. intros [= <- <-]. split; [done|by apply spared_same].
Qed.

(** Nothing happens. *)
Definition quiet (e : loop_env) : Prop := match waited e with Events l => l = [] | _ => True end.

(** The loop of the server is that of epoll. *)
Definition polls (o : ServerObject T H Regex) : Prop :=
  exists el, event_loop o = Some el /\ EventLoop.use_io_uring (opts el) = false.

Lemma process_quiet m ev (o : ServerObject T H Regex) i :
  polls o -> quiet ev -> stoppable m o ->
  exists r o', server_process_events ev o i = Done (r, o') i /\ stoppable m o' /\ polls o' /\ server o' = server o
    /\ (joinable o -> joinable o').
Proof.
  intros (el & He & Hu) Hq [Hl Ha Ht Hn]. unfold server_process_events, event_loop_run. rewrite He. cbn [opts set_cbs]. rewrite Hu.
  assert (write_mutex el = Unlocked) as Hmu by (destruct Hl as (el' & He' & Hmu); by rewrite He in He'; injection He' as ->).
  set (o' := set_watched (watched o) (set_server (server o) (set_loop (Some (set_cbs (cbs el) (server o, watched o) el)) o))).
  assert (stoppable m o' /\ polls o' /\ server o' = server o /\ (joinable o -> joinable o')) as Hs
    by (split_and!; [split; [by eexists|done..]|by eexists|done|by intros []]).
  unfold quiet in Hq. destruct (events_ok ev); cbn [negb]; [|by exists (-1), o'].
  destruct (waited ev) as [l| |]; [subst l; by exists 0, o'|by exists 0, o'|by exists (-1), o'].
Qed.

(** A staple that is fetched changes nothing that matters. *)
Lemma set_tls_stoppable m ctx lb (o : ServerObject T H Regex) : stoppable m o -> exactly ctx lb -> stoppable m (set_tls_ctx ctx lb o).
Proof. by intros [Hl Ha _ Hn] Hx. Qed.

(** Stopping closes descriptors, and leaves what can be given back. *)
Lemma stopped_stoppable m (o : ServerObject T H Regex) : stoppable m o -> stoppable m (set_server (stopped (server o)) o).
Proof. by intros [Hl Ha Ht Hn]. Qed.

Lemma stopped_spared (s : Server) : connections (Server.table s) = [] -> spared s (stopped s).
Proof. intros Hc. split; [done..|by rewrite Hc|done]. Qed.

(** Everything is given back, and nothing twice. *)
Lemma server_cleanup_gives m (o : ServerObject T H Regex) :
  stoppable m o ->
  exists o' l, server_cleanup o = Ok (o', l) /\ live (server_memory o') ≡ₚ m /\ (forall x, held (tls_library o') x = 0)
    /\ spared (server o) (server o').
Proof.
  intros [(el & He & Hmu) (h & Hh & Hl) [Hi Hx] Hn]. unfold server_cleanup. rewrite He, Hh.
  unfold event_loop_destroy, EventLoop.lock. rewrite Hmu. cbn [mutex_lock mbind res_bind].
  pose proof (destroy_moves (tls_ctx o) Hi (tls_library o) ltac:(intros x; rewrite Hx; lia)) as Hd. unfold lib_post in Hd.
  destruct (tls_ctx_destroy (tls_ctx o) (tls_library o)) as [[u lb]|]; [|done]. cbn [mbind res_bind].
  eexists _, _. split; [done|]. split_and!; [done| |done].
  intros x. cbn [tls_library set_tls_ctx]. rewrite Hd, Hx. unfold nothing. lia.
Qed.

Lemma server_start_keeps threads (o o' : ServerObject T H Regex) r :
  server_start threads o = Ok (r, o') ->
  event_loop o' = event_loop o /\ thread_count (settings (server o')) = thread_count (settings (server o))
  /\ running (server o') = true /\ server_fd (settings (server o')) = server_fd (settings (server o))
  /\ tls_server_fd (settings (server o')) = tls_server_fd (settings (server o)) /\ table (server o') = table (server o).
Proof.
  unfold server_start. destruct (match worker_epolls o with Some _ => _ | None => _ end) as [[ep th]|]; [|done].
  cbn [mbind res_bind]. by intros [= <- <-].
Qed.

Lemma on_accept_no_threads a fd (s : Server) :
  thread_count (settings s) = 0 -> Lifecycle.on_accept a fd s = Fault DivideByZero.
Proof. unfold Lifecycle.on_accept. by intros ->. Qed.

(** C40: A configuration of zeros - what is left when no configuration file exists -
    asks for no workers, and nothing objects: the server starts and listens.  The first
    client then ends the process: [on_accept] divides by the number of workers. *)
Theorem unconfigured_server_crashes a v e c (s : Server) o l threads r o1 ev fd ok bits rest more i :
  (forall n, Config.ints c n = 0) ->
  server_init a v e c s = Ok (0, o, l) -> server_start threads o = Ok (r, o1) ->
  listener_ok e = true -> socket_fd e <> new_event e ->
  waited ev = Events (mkEpollEvent (socket_fd e) bits :: rest) -> answers ev = Accepted fd ok :: more -> events_ok ev = true ->
  server_process_events ev o1 i = Crashed DivideByZero.
Proof.
  intros Hc Hi Hs Hl Hne Hw Ha Hok. apply server_init_up in Hi as [el U].
  apply server_start_keeps in Hs as (E1 & E2 & E3 & _).
  unfold server_process_events. rewrite E1, (up_loop _ _ _ _ _ _ _ U).
  unfold event_loop_run. cbn [opts set_cbs]. rewrite (up_epoll _ _ _ _ _ _ _ U) by done. rewrite Hok, Hw. cbn [negb EventLoop.run_events EventLoop.ev_fd].
  cbn [opts set_cbs]. rewrite (up_event_fd _ _ _ _ _ _ _ U), (proj2 (Z.eqb_neq _ _) Hne).
  erewrite is_listener_first.
  2:{ cbn [listener_fds set_cbs]. rewrite (up_listeners _ _ _ _ _ _ _ U). unfold listeners. by rewrite Hl. }
  rewrite Ha. cbn [accept_running userdata set_cbs fst]. rewrite E3.
  unfold take_in, call, event_loop_add_conn. cbv [mbind M_bind].
  cbn [cbs epoll_ctl set_cbs conn_fds conn_capacity].
  assert (thread_count (settings (server o1)) = 0) as Hz.
  { rewrite E2, (up_threads _ _ _ _ _ _ _ U). unfold server_threads. by rewrite !Hc. }
  destruct (_ >=? _); [destruct ok|]; cbn [negb snd cbs set_conns epoll_ctl set_cbs];
    rewrite (up_cbs _ _ _ _ _ _ _ U);
    cbn [EventLoop.on_accept server_callbacks set_conns epoll_ctl set_cbs userdata calls];
    cbv [mbind M_bind of_res]; by rewrite on_accept_no_threads.
Qed.

(** Without TLS there is no second listening socket, and the field for it holds the
    zero that the structure was filled with.  [server_stop] closes every descriptor
    that is not negative: the last one it closes is 0, the standard input. *)
Theorem stop_closes_stdin a v e c (s : Server) o l threads r o1 others joins i :
  Config.ints c Config.enable_tls = 0 -> connections (Server.table s) = [] ->
  server_init a v e c s = Ok (0, o, l) -> server_start threads o = Ok (r, o1) -> joinable o1 -> idle_joins joins ->
  returns (server_stop others joins (reaper_thread o1) (thread_pool o1) (server o1)) i
    (fun _ i' => exists before, closed i' = closed i ++ before ++ [0]).
Proof.
  intros Hc Hn Hi Hs [Hj1 Hj2 Hj3] Hj. apply server_init_up in Hi as [el U]. apply server_start_keeps in Hs as (_ & _ & _ & Hfd & Ht & Htab).
  rewrite Hj1, Hj2. destruct (stop_nobody others joins (server o1) i) as (i1 & E & Hcl); [by rewrite Htab, (up_table _ _ _ _ _ _ _ U)|done..|].
  destruct (closes_zero_last (server o1)) as [before Hb]; [by rewrite Ht, (up_tls_fd _ _ _ _ _ _ _ U), Hc|].
  eexists _, _. split; [exact E|]. exists before. by rewrite Hcl, Hb.
Qed.
End BootFacts.

(** ** Witnesses: a server without any configuration *)

#[local] Instance demo_tls : TlsLayer (TLSConn (SSL := unit)) := tls_openssl (Some (Some tt)) true true.
#[local] Instance demo_h2_layer : H2Layer (H2Session (S := list Z)) := h2_nghttp2 true true.

(** The globals before anything runs. *)
Definition idle_server : Server (T := TLSConn (SSL := unit)) (H := H2Session (S := list Z)) (Regex := list Z) :=
  mkServer false (mkServerSettings 0 [] false 0 false 0 false [] 0 0 0) (mkServerStats 0 0 0 0) None None
    (mkConnTable [] 0 (fun _ => [])) global_firewall engine global_plugin_manager
    (mkWorld (mkCache [] 0 0 0 0 0 0) (mkPromptRouter [] 0 None false) zero_state 0 empty_response empty_response).

Definition no_config : Config := Config.mkConfig (fun _ => 0) (fun _ => []) None [] [].

Definition demo_env : server_env :=
  mkServerEnv 0 true demo_heap demo_loads (demo_responder None) true 3 4 5 demo_setup 6 true true true (-1) true true true (Some []) true
    (lit "Thu, 01 Jan 1970 00:00:00 GMT") true 0 true true true (fun _ => true) (fun _ => true) true.

Definition demo_accept : nat -> accept_env := fun _ => mkAcceptEnv (lit "10.0.0.1") None 0 (lit "a") true true.

Abbreviation demo_start :=
  (server_init (fun _ => 7) Some (fun _ _ => false) demo_accept (fun _ => demo_call) demo_env no_config idle_server).

(** Both calls succeed. *)
Lemma demo_starts :
  exists o l o1, demo_start = Ok (0, o, l) /\ server_start (fun _ => mkThreadEnv true true) o = Ok (0, o1).
Proof.
  assert (match demo_start with
          | Ok (z, o, _) => match server_start (fun _ => mkThreadEnv true true) o with Ok (r, _) => Some (z, r) | _ => None end
          | _ => None
          end = Some (0, 0)) as Hc by (by vm_compute).
  destruct demo_start as [[[z o] l]|]; [|done].
  destruct (server_start (fun _ => mkThreadEnv true true) o) as [[r o1]|] eqn:Es; [|done].
  injection Hc as -> ->. by exists o, l, o1.
Qed.

Lemma unconfigured_server_crashes_witness :
  exists o l o1, demo_start = Ok (0, o, l) /\ server_start (fun _ => mkThreadEnv true true) o = Ok (0, o1)
    /\ server_process_events (mkLoopEnv (Events [mkEpollEvent 6 1]) [Accepted 9 true] true no_completions no_completions)
         o1 (EventLoop.demo_io []) = Crashed DivideByZero.
Proof.
  destruct demo_starts as (o & l & o1 & E & Es). exists o, l, o1. split; [exact E|]. split; [exact Es|].
  refine (unconfigured_server_crashes (fun _ => 7) Some (fun _ _ => false) demo_accept (fun _ => demo_call) demo_env no_config
           idle_server o l (fun _ => mkThreadEnv true true) 0 o1
           (mkLoopEnv (Events [mkEpollEvent 6 1]) [Accepted 9 true] true no_completions no_completions) 9 true 1 [] []
           (EventLoop.demo_io []) _ E Es eq_refl _ eq_refl eq_refl eq_refl); [intros n; reflexivity|cbn; lia].
Defined.

Lemma stop_closes_stdin_witness :
  exists o l o1, demo_start = Ok (0, o, l) /\ server_start (fun _ => mkThreadEnv true true) o = Ok (0, o1)
    /\ returns (server_stop (fun _ s => s) (fun _ => Some (fun s => s)) (reaper_thread o1) (thread_pool o1) (server o1)) (EventLoop.demo_io [])
         (fun _ i' => exists before, closed i' = closed (EventLoop.demo_io []) ++ before ++ [0]).
Proof.
  destruct demo_starts as (o & l & o1 & E & Es). exists o, l, o1. split; [exact E|]. split; [exact Es|].
  refine (stop_closes_stdin (fun _ => 7) Some (fun _ _ => false) demo_accept (fun _ => demo_call) demo_env no_config
           idle_server o l (fun _ => mkThreadEnv true true) 0 o1 (fun _ s => s) (fun _ => Some (fun s => s)) (EventLoop.demo_io []) eq_refl eq_refl E Es _ _).
  - refine (server_start_joinable (fun _ => 7) Some (fun _ _ => false) _ _ _ _ _ _ _ _ _ _ _ _ E Es).
    + split; [intros k; discriminate|reflexivity|exists []; split; [reflexivity|apply Nat.leb_le; vm_compute; reflexivity]|reflexivity].
    + intros k. split; reflexivity.
  - intros k. exists (fun s => s). split; reflexivity.
Defined.
