(* ===== verification/Main.v ===== *)
(** * The process: src/main.c

    The configuration files and their reload, the signals, the order in which the parts
    are started and stopped, and the main loop.  The files, the environment, the clock
    and every allocation are arguments. *)

From S2P Require Import Prelude Io Config EventLoop Optimizer Tokenizer Stats Tls TlsContext Http2 Sessions.
From S2P Require Import Arena RateLimiter Cache HttpParser Firewall JsonText PromptRouter Observability Moderation.
From S2P Require Import Plugin RouteTable Stream Router Connections Server Handler Lifecycle Boot.

(** ** Logging *)

Inductive LogLevel : Set := LOG_LEVEL_DEBUG | LOG_LEVEL_INFO | LOG_LEVEL_WARNING | LOG_LEVEL_ERROR | LOG_LEVEL_FATAL.

Record Logger := mkLogger { level : Z; use_colors : bool }.

Definition level_number (l : LogLevel) : Z :=
  match l with
  | LOG_LEVEL_DEBUG => 0 | LOG_LEVEL_INFO => 1 | LOG_LEVEL_WARNING => 2 | LOG_LEVEL_ERROR => 3 | LOG_LEVEL_FATAL => 4
  end.

Definition level_name (l : LogLevel) : list Z :=
  match l with
  | LOG_LEVEL_DEBUG => lit "DEBUG" | LOG_LEVEL_INFO => lit "INFO" | LOG_LEVEL_WARNING => lit "WARNING"
  | LOG_LEVEL_ERROR => lit "ERROR" | LOG_LEVEL_FATAL => lit "FATAL"
  end.

Definition level_color (l : LogLevel) : list Z :=
  [27] ++ match l with
          | LOG_LEVEL_DEBUG => lit "[36m" | LOG_LEVEL_INFO => lit "[32m" | LOG_LEVEL_WARNING => lit "[33m"
          | LOG_LEVEL_ERROR => lit "[31m" | LOG_LEVEL_FATAL => lit "[35m"
          end.

Definition logger_init (l : LogLevel) (colors : bool) : Logger := mkLogger (level_number l) colors.

(** [time] is what [strftime] gives, [message] the formatted text. *)
Definition logger_log (g : Logger) (l : LogLevel) (time message : list Z) : list Z :=
  if level_number l <? level g then []
  else
    let start := if use_colors g then level_color l else [] in
    let stop := if use_colors g then [27] ++ lit "[0m" else [] in
    time ++ lit " [" ++ level_name l ++ lit "] " ++ start ++ stop ++ lit ": " ++ message ++ stop ++ [c_LF].

Inductive AionicErrorCode : Set :=
| AIONIC_SUCCESS | AIONIC_ERROR_CONFIG | AIONIC_ERROR_CACHE | AIONIC_ERROR_FIREWALL | AIONIC_ERROR_OPTIMIZER
| AIONIC_ERROR_AI_ROUTER | AIONIC_ERROR_TOKENIZER | AIONIC_ERROR_STATS | AIONIC_ERROR_PLUGIN | AIONIC_ERROR_SERVER
| AIONIC_ERROR_MEMORY | AIONIC_ERROR_SYSTEM.

Definition error_text (code : AionicErrorCode) : list Z :=
  match code with
  | AIONIC_SUCCESS => lit "Success"
  | AIONIC_ERROR_CONFIG => lit "Configuration Error"
  | AIONIC_ERROR_CACHE => lit "Cache Error"
  | AIONIC_ERROR_FIREWALL => lit "Firewall Error"
  | AIONIC_ERROR_OPTIMIZER => lit "Optimizer Error"
  | AIONIC_ERROR_AI_ROUTER => lit "AI Router Error"
  | AIONIC_ERROR_TOKENIZER => lit "Tokenizer Error"
  | AIONIC_ERROR_STATS => lit "Stats Error"
  | AIONIC_ERROR_PLUGIN => lit "Plugin Error"
  | AIONIC_ERROR_SERVER => lit "Server Error"
  | AIONIC_ERROR_MEMORY => lit "Memory Error"
  | AIONIC_ERROR_SYSTEM => lit "System Error"
  end.

(** What goes to the standard error. *)
Definition handle_error (code : AionicErrorCode) (message file line function : list Z) : list Z :=
  lit "[ERROR] " ++ error_text code ++ lit ": " ++ message ++ lit " at " ++ file ++ lit ":" ++ line
  ++ lit " in " ++ function ++ lit "()" ++ [c_LF].

(** ** Signals *)

(** The flags and the pipe that the handler writes to, [None] when there is none. *)
Record Signals := mkSignals { running : bool; iouring_global_stop : bool; signal_pipe : option (list Z) }.

Inductive signal : Set := SIGINT | SIGTERM | SIGHUP | SIGUSR1 | Other.

Definition setup_signal_handling (pipe_ok : bool) (g : Signals) : Signals :=
  mkSignals (running g) (iouring_global_stop g) (if pipe_ok then Some [] else None).

(** [room]: whether the pipe takes another byte. *)
Definition handle_signal (room : bool) (sig : signal) (g : Signals) : Signals :=
  let note c := (fun l => if room then l ++ [c] else l) <$> signal_pipe g in
  match sig with
  | SIGINT | SIGTERM => mkSignals false true (note 1)
  | SIGHUP => mkSignals (running g) (iouring_global_stop g) (note 2)
  | SIGUSR1 => mkSignals (running g) (iouring_global_stop g) (note 3)
  | Other => g
  end.

(** One byte, if there is one. *)
Definition read_pipe (g : Signals) : option Z * Signals :=
  match signal_pipe g with
  | Some (c :: l) => (Some c, mkSignals (running g) (iouring_global_stop g) (Some l))
  | _ => (None, g)
  end.

(** ** The configuration files *)

Definition PATH_MAX : nat := Z.to_nat 4096.

(** [None]: not a regular file; [Some None]: a file that cannot be read. *)
Definition files : Type := list Z -> option (option (list Z)).

Definition safe_file_exists (fs : files) (path : list Z) : bool := match fs path with Some _ => true | None => false end.

Definition path_of (base name : list Z) : list Z := take (PATH_MAX - 1) (base ++ lit "/" ++ name).

(** The files that are looked for, in order. *)
Definition config_files (base : list Z) (env : option (list Z)) : list (list Z) :=
  path_of base (lit "aionic.conf")
  :: (match env with Some e => [path_of base (e ++ lit ".conf")] | None => [] end)
  ++ [path_of base (lit "local.conf")].

Definition load_one (al : nat -> line_allocs) (fs : files) (path : list Z) (c : Config) : Z * Config :=
  match fs path with Some content => load_config al (Some content) c | None => (0, c) end.

Fixpoint load_files (al : nat -> nat -> line_allocs) (n : nat) (fs : files) (l : list (list Z)) (c : Config) : Z * Config :=
  match l with
  | [] => (0, c)
  | path :: l' =>
      let '(code, c) := load_one (al n) fs path c in
      if negb (code =? 0) then (-1, c) else load_files al (S n) fs l' c
  end.

Definition load_hierarchical_config (al : nat -> nat -> line_allocs) (fs : files) (env : option (list Z)) (base : list Z) (c : Config)
  : Z * Config := load_files al 0 fs (config_files base env) c.

(** A [Config] of zeros. *)
Definition no_settings : Config := free_config Config.default_config.

Record ConfigPaths := mkConfigPaths { config_paths : ptr (list (list Z)); config_capacity : Z }.

Definition config_paths_init (malloc_ok : bool) : Z * ConfigPaths :=
  if malloc_ok then (0, mkConfigPaths (PLive []) 4) else (-1, mkConfigPaths PNull 4).
Definition config_paths_cleanup (p : ConfigPaths) : ConfigPaths := mkConfigPaths PNull 0.

(** The descriptor of the watch, -1 when there is none: on the second failure the
    descriptor that was closed is still in the field. *)
Definition setup_inotify (init_fd watch : Z) : Z * Z :=
  if init_fd =? -1 then (-1, -1) else if watch =? -1 then (-1, init_fd) else (0, init_fd).

(** The pool has no threads. *)
Record ThreadPool := mkThreadPool { threads : ptr unit; pool_threads : Z }.
Definition thread_pool_init (thread_count : Z) : Z * ThreadPool := (0, mkThreadPool PNull 0).
Definition thread_pool_cleanup (p : ThreadPool) : ThreadPool := mkThreadPool PNull 0.

(** ** The parts *)

Record SystemState := mkSystemState {
  cache_initialized : bool;
  firewall_initialized : bool;
  optimizer_initialized : bool;
  ai_router_initialized : bool;
  tokenizer_initialized : bool;
  stats_initialized : bool;
  plugin_initialized : bool;
  server_initialized : bool;
  server_started : bool
}.

Definition nothing_started : SystemState := mkSystemState false false false false false false false false false.

(** What the prompt router keeps beside its table: its threads and its mutexes. *)
Record RouterLife := mkRouterLife {
  models_block : ptr unit;
  router_mutex : mutex_state;
  work_mutex : mutex_state;
  workers_running : bool;
  worker_count : Z;
  global_initialized : bool
}.

Definition AI_WORKER_THREADS : Z := 4.

Definition router_started (l : RouterLife) : RouterLife := mkRouterLife (PLive tt) Unlocked Unlocked true AI_WORKER_THREADS true.

(** The pointers keep their values. *)
Definition prompt_router_cleanup (l : RouterLife) : res RouterLife :=
  m ← mutex_lock (router_mutex l);
  match models_block l with
  | PFreed => Fault UseAfterFree
  | p => Ok (mkRouterLife (match p with PLive _ => PFreed | p => p end) Destroyed Destroyed false (worker_count l) false)
  end.

Section System.
Context {T H Regex : Type} `{TlsLayer T} `{H2Layer H}.
Context (crc32_asm : list Z -> Z) (regcomp : list Z -> option Regex) (regexec : Regex -> list Z -> bool).
Context (dlopen : list Z -> option (Dso (Ctx := PluginContext))) (readdir : list Z -> option (list (list Z))).
Context (getenv : list Z -> option (list Z)).

Abbreviation Server := (Server (T := T) (H := H) (Regex := Regex)).
Abbreviation ServerObject := (ServerObject T H Regex).

(** [system] of [main], with the static variables of the parts that are not in the
    server. *)
Record AionicSystem := mkSystem {
  config : Config;
  object : ServerObject;
  state : SystemState;
  config_paths_of : ConfigPaths;
  pool : ThreadPool;
  inotify_fd : Z;
  optimizer : Optimizer;
  tokenizer : Tokenizer;
  blocks : Tokenizer.mem;
  collector : StatsCollector;
  router_life : RouterLife;
  prev_usage : usage;
  last_ocsp_update : Z;
  openssl : tls_global
}.

Definition set_config (c : Config) (y : AionicSystem) : AionicSystem :=
  mkSystem c (object y) (state y) (config_paths_of y) (pool y) (inotify_fd y) (optimizer y) (tokenizer y) (blocks y)
    (collector y) (router_life y) (prev_usage y) (last_ocsp_update y) (openssl y).
Definition set_object (o : ServerObject) (y : AionicSystem) : AionicSystem :=
  mkSystem (config y) o (state y) (config_paths_of y) (pool y) (inotify_fd y) (optimizer y) (tokenizer y) (blocks y)
    (collector y) (router_life y) (prev_usage y) (last_ocsp_update y) (openssl y).
Definition set_state (s : SystemState) (y : AionicSystem) : AionicSystem :=
  mkSystem (config y) (object y) s (config_paths_of y) (pool y) (inotify_fd y) (optimizer y) (tokenizer y) (blocks y)
    (collector y) (router_life y) (prev_usage y) (last_ocsp_update y) (openssl y).
Definition set_paths (p : ConfigPaths) (t : ThreadPool) (fd : Z) (y : AionicSystem) : AionicSystem :=
  mkSystem (config y) (object y) (state y) p t fd (optimizer y) (tokenizer y) (blocks y)
    (collector y) (router_life y) (prev_usage y) (last_ocsp_update y) (openssl y).
Definition set_optimizer (o : Optimizer) (u : usage) (y : AionicSystem) : AionicSystem :=
  mkSystem (config y) (object y) (state y) (config_paths_of y) (pool y) (inotify_fd y) o (tokenizer y) (blocks y)
    (collector y) (router_life y) u (last_ocsp_update y) (openssl y).
Definition set_tokenizer (t : Tokenizer) (m : Tokenizer.mem) (y : AionicSystem) : AionicSystem :=
  mkSystem (config y) (object y) (state y) (config_paths_of y) (pool y) (inotify_fd y) (optimizer y) t m
    (collector y) (router_life y) (prev_usage y) (last_ocsp_update y) (openssl y).
Definition set_collector (g : StatsCollector) (y : AionicSystem) : AionicSystem :=
  mkSystem (config y) (object y) (state y) (config_paths_of y) (pool y) (inotify_fd y) (optimizer y) (tokenizer y) (blocks y)
    g (router_life y) (prev_usage y) (last_ocsp_update y) (openssl y).
Definition set_router_life (l : RouterLife) (y : AionicSystem) : AionicSystem :=
  mkSystem (config y) (object y) (state y) (config_paths_of y) (pool y) (inotify_fd y) (optimizer y) (tokenizer y) (blocks y)
    (collector y) l (prev_usage y) (last_ocsp_update y) (openssl y).
Definition set_ocsp_time (t : Z) (y : AionicSystem) : AionicSystem :=
  mkSystem (config y) (object y) (state y) (config_paths_of y) (pool y) (inotify_fd y) (optimizer y) (tokenizer y) (blocks y)
    (collector y) (router_life y) (prev_usage y) t (openssl y).
Definition set_openssl (g : tls_global) (y : AionicSystem) : AionicSystem :=
  mkSystem (config y) (object y) (state y) (config_paths_of y) (pool y) (inotify_fd y) (optimizer y) (tokenizer y) (blocks y)
    (collector y) (router_life y) (prev_usage y) (last_ocsp_update y) g.

Definition the_server (y : AionicSystem) : Server := server (object y).
Definition on_server (f : Server -> Server) (y : AionicSystem) : AionicSystem := set_object (set_server (f (the_server y)) (object y)) y.
Definition set_world_cache (c : Cache.Cache) (y : AionicSystem) : AionicSystem := on_server (on_app (Router.set_cache c)) y.

Definition with_flags (f : SystemState -> SystemState) (y : AionicSystem) : AionicSystem := set_state (f (state y)) y.
Definition set_cache_flag (b : bool) (s : SystemState) : SystemState :=
  mkSystemState b (firewall_initialized s) (optimizer_initialized s) (ai_router_initialized s) (tokenizer_initialized s)
    (stats_initialized s) (plugin_initialized s) (server_initialized s) (server_started s).
Definition set_firewall_flag (b : bool) (s : SystemState) : SystemState :=
  mkSystemState (cache_initialized s) b (optimizer_initialized s) (ai_router_initialized s) (tokenizer_initialized s)
    (stats_initialized s) (plugin_initialized s) (server_initialized s) (server_started s).
Definition set_optimizer_flag (b : bool) (s : SystemState) : SystemState :=
  mkSystemState (cache_initialized s) (firewall_initialized s) b (ai_router_initialized s) (tokenizer_initialized s)
    (stats_initialized s) (plugin_initialized s) (server_initialized s) (server_started s).
Definition set_router_flag (b : bool) (s : SystemState) : SystemState :=
  mkSystemState (cache_initialized s) (firewall_initialized s) (optimizer_initialized s) b (tokenizer_initialized s)
    (stats_initialized s) (plugin_initialized s) (server_initialized s) (server_started s).
Definition set_tokenizer_flag (b : bool) (s : SystemState) : SystemState :=
  mkSystemState (cache_initialized s) (firewall_initialized s) (optimizer_initialized s) (ai_router_initialized s) b
    (stats_initialized s) (plugin_initialized s) (server_initialized s) (server_started s).
Definition set_stats_flag (b : bool) (s : SystemState) : SystemState :=
  mkSystemState (cache_initialized s) (firewall_initialized s) (optimizer_initialized s) (ai_router_initialized s)
    (tokenizer_initialized s) b (plugin_initialized s) (server_initialized s) (server_started s).
Definition set_plugin_flag (b : bool) (s : SystemState) : SystemState :=
  mkSystemState (cache_initialized s) (firewall_initialized s) (optimizer_initialized s) (ai_router_initialized s)
    (tokenizer_initialized s) (stats_initialized s) b (server_initialized s) (server_started s).
Definition set_server_flag (b : bool) (s : SystemState) : SystemState :=
  mkSystemState (cache_initialized s) (firewall_initialized s) (optimizer_initialized s) (ai_router_initialized s)
    (tokenizer_initialized s) (stats_initialized s) (plugin_initialized s) b (server_started s).
Definition set_started_flag (b : bool) (s : SystemState) : SystemState :=
  mkSystemState (cache_initialized s) (firewall_initialized s) (optimizer_initialized s) (ai_router_initialized s)
    (tokenizer_initialized s) (stats_initialized s) (plugin_initialized s) (server_initialized s) b.

(** ** Starting *)

Definition on (c : Config) (o : int_option) : bool := negb (Config.ints c o =? 0).

(** What the outside answers to each part. *)
Record boot_env := mkBootEnv {
  cache_alloc : bool;
  cache_mutex : bool;
  fw_now : Z;
  fw_entries : bool;
  fw_patterns : bool;
  fw_keys : bool;
  fw_copies : nat -> bool;
  core_count : Z;
  opt_alloc : bool;
  opt_mutex : bool;
  ai_alloc : bool;
  ai_mutex : bool;
  stats_env : Stats.init_env;
  plugin_alloc : bool;
  plugin_dir_ok : bool;
  plugin_mutex : bool;
  plugin_loads : nat -> bool * bool;
  obs_time : Z;
  accepts : nat -> accept_env;
  requests : nat -> call_env;
  server_answers : server_env;
  thread_answers : nat -> thread_env
}.

Definition step : Type := boot_env -> AionicSystem -> res (Z * AionicSystem).

Definition start_openssl : step := fun e y =>
  Ok (0, if on (config y) Config.enable_tls then set_openssl (tls_global_init (openssl y)) y else y).

Definition start_cache : step := fun e y =>
  if on (config y) Config.enable_cache then
    match cache_init (Config.ints (config y) cache_size) (Config.ints (config y) cache_ttl) (cache_alloc e) (cache_mutex e) with
    | Some c => Ok (0, with_flags (set_cache_flag true) (set_world_cache c y))
    | None => Ok (-1, y)
    end
  else Ok (0, with_flags (set_cache_flag false) y).

Definition start_firewall : step := fun e y =>
  if on (config y) Config.enable_firewall then
    '(code, fw) ← firewall_init (Some (api_keys (config y))) (fw_now e) (fw_entries e) (fw_patterns e) (fw_keys e) (fw_copies e)
                    (firewall (the_server y));
    let y := on_server (set_firewall fw) y in
    Ok (if code =? 0 then (0, with_flags (set_firewall_flag true) y) else (-1, y))
  else Ok (0, with_flags (set_firewall_flag false) y).

Definition start_optimizer : step := fun e y =>
  if on (config y) enable_optimization then
    let '(code, o) := optimizer_init (core_count e) (opt_alloc e) (opt_mutex e) (optimizer y) in
    let y := set_optimizer o (prev_usage y) y in
    Ok (if code =? 0 then (0, with_flags (set_optimizer_flag true) y) else (-1, y))
  else Ok (0, with_flags (set_optimizer_flag false) y).

(** A model without a name or an address is not added. *)
Definition model_configs (c : Config) : option (list model_config) :=
  match ai_models c with
  | [] => None
  | l =>
      Some (omap (fun m =>
              match Config.model_name m, Config.api_endpoint m with
              | Some n, Some url => Some (n, url, Config.api_key_env m, Config.max_tokens m, Config.temperature m, Config.tier m)
              | _, _ => None
              end) l)
  end.

Definition start_router : step := fun e y =>
  match prompt_router_init_with_config getenv (model_configs (config y)) (on (config y) enable_smart_routing)
          (ai_alloc e) (ai_mutex e) with
  | Some r =>
      Ok (0, with_flags (set_router_flag true)
               (set_router_life (router_started (router_life y)) (on_server (on_app (Router.set_router r)) y)))
  | None => Ok (-1, y)
  end.

Definition start_tokenizer : step := fun e y =>
  let '(code, t, m) := tokenizer_init (blocks y) in
  let y := set_tokenizer t m y in
  Ok (if code =? 0 then (0, with_flags (set_tokenizer_flag true) y) else (-1, y)).

Definition start_stats : step := fun e y =>
  '(code, g) ← stats_init (stats_env e) (Some (lit "stats.json")) 300 (collector y);
  let y := set_collector g y in
  Ok (if code =? 0 then (0, with_flags (set_stats_flag true) y) else (-1, y)).

Definition start_plugins : step := fun e y =>
  '(code, pm) ← plugin_init dlopen readdir (Some (lit "plugins")) (plugin_alloc e) (plugin_dir_ok e) (plugin_mutex e) (plugin_loads e)
                  (manager (the_server y));
  let y := on_server (set_manager pm) y in
  Ok (if code =? 0 then (0, with_flags (set_plugin_flag true) y) else (-1, y)).

Definition start_observability : step := fun e y =>
  Ok (0, if on (config y) enable_observability then on_server (on_app (start_metrics (obs_time e))) y else y).

Definition make_server : step := fun e y =>
  '(code, o, _) ← server_init crc32_asm regcomp regexec (accepts e) (requests e) (server_answers e) (config y) (the_server y);
  let y := set_object o y in
  Ok (if code =? 0 then (0, with_flags (set_server_flag true) y) else (-1, y)).

Definition start_server : step := fun e y =>
  '(code, o) ← server_start (thread_answers e) (object y);
  let y := set_object o y in
  Ok (if code =? 0 then (0, with_flags (set_started_flag true) y) else (-1, y)).

(** The first that fails is the last. *)
Fixpoint run_steps (l : list step) : step := fun e y =>
  match l with
  | [] => Ok (0, y)
  | f :: l' => '(code, y) ← f e y; if code =? 0 then run_steps l' e y else Ok (-1, y)
  end.

Definition initialize_components : step :=
  run_steps [start_openssl; start_cache; start_firewall; start_optimizer; start_router; start_tokenizer; start_stats;
             start_plugins; start_observability; make_server; start_server].

(** ** Stopping *)

Record stop_env := mkStopEnv { others : nat -> Server -> Server; joins : nat -> option (Server -> Server); stats_file_ok : bool }.

Definition cleanup_of (flag : bool) (f : AionicSystem -> res AionicSystem) (clear : SystemState -> SystemState) (y : AionicSystem)
  : res AionicSystem := if flag then y ← f y; Ok (with_flags clear y) else Ok y.

Definition stop_server (e : stop_env) (y : AionicSystem) : M AionicSystem :=
  if server_started (state y) then
    '(_, s) ← server_stop (others e) (joins e) (reaper_thread (object y)) (thread_pool (object y)) (the_server y);
    mret (with_flags (set_started_flag false) (on_server (fun _ => s) y))
  else mret y.

Definition cleanup_parts (e : stop_env) (y : AionicSystem) : res AionicSystem :=
  y ← cleanup_of (server_initialized (state y)) (fun y => '(o, _) ← server_cleanup (object y); Ok (set_object o y)) (set_server_flag false) y;
  y ← cleanup_of (plugin_initialized (state y)) (fun y => pm ← plugin_cleanup (manager (the_server y)); Ok (on_server (set_manager pm) y))
        (set_plugin_flag false) y;
  y ← cleanup_of (stats_initialized (state y)) (fun y => '(_, g) ← stats_cleanup (stats_file_ok e) (collector y); Ok (set_collector g y))
        (set_stats_flag false) y;
  y ← cleanup_of (tokenizer_initialized (state y)) (fun y => '(t, m) ← tokenizer_cleanup (tokenizer y) (blocks y); Ok (set_tokenizer t m y))
        (set_tokenizer_flag false) y;
  y ← cleanup_of (ai_router_initialized (state y)) (fun y => l ← prompt_router_cleanup (router_life y); Ok (set_router_life l y))
        (set_router_flag false) y;
  y ← cleanup_of (optimizer_initialized (state y)) (fun y => o ← optimizer_cleanup (optimizer y); Ok (set_optimizer o (prev_usage y) y))
        (set_optimizer_flag false) y;
  y ← cleanup_of (firewall_initialized (state y)) (fun y => fw ← firewall_cleanup (firewall (the_server y)); Ok (on_server (set_firewall fw) y))
        (set_firewall_flag false) y;
  y ← cleanup_of (cache_initialized (state y)) (fun y => _ ← cache_cleanup (Router.cache (app (the_server y))); Ok y)
        (set_cache_flag false) y;
  let y := if on (config y) Config.enable_tls then set_openssl (tls_global_cleanup (openssl y)) y else y in
  Ok (set_config (free_config (config y)) y).

Definition cleanup_components (e : stop_env) (y : AionicSystem) : M AionicSystem :=
  y ← stop_server e y; of_res (cleanup_parts e y).

Definition recover_from_error (e : stop_env) (y : AionicSystem) : M AionicSystem :=
  y ← cleanup_components e y;
  mret (set_paths (config_paths_cleanup (config_paths_of y)) (thread_pool_cleanup (pool y)) (-1) y).

(** ** Reloading the configuration *)

(** [changed]: there is an event to read.  The old configuration is put back when the
    new one cannot be loaded, and lost otherwise. *)
Definition check_config_reload (al : nat -> nat -> line_allocs) (fs : files) (env : option (list Z)) (changed : bool)
    (y : AionicSystem) : AionicSystem :=
  if inotify_fd y =? -1 then y
  else if changed then
    let '(code, c) := load_hierarchical_config al fs env (lit "config") no_settings in
    if code =? 0 then set_config c y else y
  else y.

(** The staple of the server's context is fetched; whether it was there only decides what is
    logged. *)
Definition update_staple (v : ocsp_env) (y : AionicSystem) : res AionicSystem :=
  '(_, ctx, lb) ← tls_ctx_ocsp_update v (tls_ctx (object y)) (tls_library (object y));
  Ok (set_object (set_tls_ctx ctx lb (object y)) y).

Definition handle_ocsp_refresh (v : ocsp_env) (now : Z) (y : AionicSystem) : res AionicSystem :=
  if negb (on (config y) Config.enable_tls) || negb (on (config y) tls_enable_ocsp) then Ok y
  else
    let interval := positive_or (Config.ints (config y) Config.tls_ocsp_refresh_interval) 3600 in
    if now - last_ocsp_update y >=? interval then y ← update_staple v y; Ok (set_ocsp_time now y) else Ok y.

Definition ocsp_signal (v : ocsp_env) (y : AionicSystem) : res AionicSystem :=
  match on (config y) tls_enable_ocsp, tls_ctx (object y) with
  | true, Some _ => update_staple v y
  | _, _ => Ok y
  end.

(** ** The main loop *)

(** What one round is answered, and the signals that arrive in it. *)
Record round_env := mkRoundEnv {
  events : loop_env;
  arrived : list signal;
  room : bool;
  opt_env : run_env;
  stats_now : Z;
  stats_open : bool;
  reload_allocs : nat -> nat -> line_allocs;
  reload_files : files;
  reload_env : option (list Z);
  config_changed : bool;
  ocsp_asked : ocsp_env;
  ocsp_due : ocsp_env;
  ocsp_time : Z
}.

(** The average response time of the server is a field that nothing writes. *)
Definition run_optimizer (e : round_env) (y : AionicSystem) : res AionicSystem :=
  if on (config y) enable_optimization then
    '(o, u, c, _) ← optimizer_run (opt_env e) (Some (Router.active (app (the_server y)), zero)) (prev_usage y) (optimizer y)
                      (Router.cache (app (the_server y)));
    Ok (set_world_cache c (set_optimizer o u y))
  else Ok y.

(** The signals arrive while the events are handled. *)
Definition main_round (e : round_env) (g : Signals) (y : AionicSystem) : M (bool * Signals * AionicSystem) :=
  '(_, o) ← server_process_events (events e) (object y);
  let y := set_object o y in
  let g := fold_left (fun g sig => handle_signal (room e) sig g) (arrived e) g in
  let '(c, g) := read_pipe g in
  if bool_decide (c = Some 1) && negb (running g) then mret (false, g, y)
  else
    let y := if bool_decide (c = Some 2) then on_server (on_app (fun w => Router.set_router (prompt_router_hot_reload getenv (Router.router w)).2 w)) y else y in
    y ← of_res (if bool_decide (c = Some 3) then ocsp_signal (ocsp_asked e) y else Ok y);
    y ← of_res (run_optimizer e y);
    '(_, _, st) ← of_res (stats_auto_save (stats_now e) (stats_open e) (collector y));
    let y := set_collector st y in
    let y := check_config_reload (reload_allocs e) (reload_files e) (reload_env e) (config_changed e) y in
    y ← of_res (handle_ocsp_refresh (ocsp_due e) (ocsp_time e) y);
    mret (true, g, y).

(** As many rounds as the outside answers. *)
Fixpoint main_loop (l : list round_env) (g : Signals) (y : AionicSystem) : M (Signals * AionicSystem) :=
  if running g && negb (iouring_global_stop g) then
    match l with
    | [] => fun _ => Waiting
    | e :: l' =>
        '(go_on, g, y) ← main_round e g y;
        if go_on : bool then main_loop l' g y else mret (g, y)
    end
  else mret (g, y).

(** ** [main] *)

Record main_env := mkMainEnv {
  pipe_ok : bool;
  paths_ok : bool;
  first_allocs : nat -> nat -> line_allocs;
  first_files : files;
  aionic_env : option (list Z);
  inotify_answer : Z;
  watch_answer : Z;
  boot : boot_env;
  start_time : Z;
  rounds : list round_env;
  stopping : stop_env
}.

(** The exit code. *)
Definition main (e : main_env) (y : AionicSystem) : M (Z * AionicSystem) :=
  let g := setup_signal_handling (pipe_ok e) (mkSignals true false None) in
  let '(code, p) := config_paths_init (paths_ok e) in
  let y := set_paths p (pool y) (-1) y in
  if negb (code =? 0) then y ← recover_from_error (stopping e) y; mret (1, y)
  else
    let '(code, c) := load_hierarchical_config (first_allocs e) (first_files e) (aionic_env e) (lit "config") (config y) in
    let y := set_config c y in
    if negb (code =? 0) then y ← recover_from_error (stopping e) y; mret (1, y)
    else
      let '(_, t) := thread_pool_init (Config.ints c Config.thread_count) in
      let '(code, fd) := setup_inotify (inotify_answer e) (watch_answer e) in
      let y := set_paths p t (if code =? 0 then fd else -1) y in
      '(code, y) ← of_res (initialize_components (boot e) y);
      if negb (code =? 0) then y ← recover_from_error (stopping e) y; mret (1, y)
      else
        '(_, y) ← main_loop (rounds e) g (set_ocsp_time (start_time e) y);
        y ← cleanup_components (stopping e) y;
        mret (0, set_paths (config_paths_cleanup (config_paths_of y)) (thread_pool_cleanup (pool y)) (inotify_fd y) y).
End System.

Arguments AionicSystem : clear implicits.

(** ** Lemmas: the configuration files *)

Lemma load_files_last a fs l : forall n c,
  (forall p, p ∈ l -> fs p <> Some None) ->
  load_files (fun _ => a) n fs l c
  = (0, match last (List.filter (safe_file_exists fs) l) with
        | Some p => (load_one a fs p no_settings).2
        | None => c
        end).
Proof.
  induction l as [|p l IH]; intros n c Hr; [done|]. cbn [load_files List.filter].
  assert (fs p <> Some None) as Hp by (apply Hr; by left).
  assert (forall q, q ∈ l -> fs q <> Some None) as Hl by (intros q Hq; apply Hr; by right).
  unfold load_one at 1, safe_file_exists at 1. destruct (fs p) as [[s|]|] eqn:E; [|done|].
  - cbn [load_config Z.eqb negb]. rewrite (IH _ _ Hl).
    destruct (last (List.filter _ l)) as [q|] eqn:El.
    + by rewrite last_cons, El.
    + rewrite last_cons, El. unfold load_one. by rewrite E.
  - cbn [Z.eqb negb]. by rewrite (IH _ _ Hl).
Qed.

(** The configuration is meant to be hierarchical: [aionic.conf], then the file of the
    environment, then [local.conf].  Each load starts from the default values, so the
    result is that of the last file that exists alone, whatever the others say; and
    without any file the configuration keeps the zeros it had, not the defaults. *)
Theorem last_file_wins a fs env base c :
  (forall p, p ∈ config_files base env -> fs p <> Some None) ->
  load_hierarchical_config (fun _ => a) fs env base c
  = (0, match last (List.filter (safe_file_exists fs) (config_files base env)) with
        | Some p => (load_one a fs p no_settings).2
        | None => c
        end).
Proof. apply load_files_last. Qed.

(** ** Witness *)

(** Two files, of which the second does not name the port of the first. *)
Definition demo_files : files := fun p =>
  if bool_decide (p = path_of (lit "config") (lit "aionic.conf")) then Some (Some (lit "port=9000"))
  else if bool_decide (p = path_of (lit "config") (lit "local.conf")) then Some (Some (lit "thread_count=3"))
  else None.

Lemma last_file_wins_witness :
  exists c, load_hierarchical_config (fun _ _ => all_allocs) demo_files None (lit "config") no_settings = (0, c)
    /\ Config.ints c Config.port = Config.ints Config.default_config Config.port /\ Config.ints c Config.thread_count = 3.
Proof.
  eexists. split.
  - refine (last_file_wins (fun _ => all_allocs) demo_files None (lit "config") no_settings _).
    intros p _. unfold demo_files. do 2 (destruct (bool_decide _); [discriminate|]). discriminate.
  - split; vm_compute; reflexivity.
Defined.
