(* ===== verification/Recovery.v ===== *)
(** * What a start leaves, and that it can be stopped: src/main.c

    Every part that the start of [Main] marks as started can be stopped, whatever the part
    that failed; no step of a start faults; and stopping gives back what the server had. *)

From S2P Require Import Prelude Io Config EventLoop Optimizer Tokenizer Stats Tls TlsContext Http2 Sessions.
From S2P Require Import Arena RateLimiter Cache HttpParser Firewall JsonText PromptRouter Observability Moderation.
From S2P Require Import Plugin RouteTable Stream Router Connections Server Handler Lifecycle Boot Main.

Section Recovery.
Context {T H Regex : Type} `{TlsLayer T} `{H2Layer H}.
Context (crc32_asm : list Z -> Z) (regcomp : list Z -> option Regex) (regexec : Regex -> list Z -> bool).
Context (dlopen : list Z -> option (Dso (Ctx := PluginContext))) (readdir : list Z -> option (list (list Z))).
Context (getenv : list Z -> option (list Z)).

Abbreviation System := (AionicSystem T H Regex).
(** ** Lemmas: what was started can be stopped *)

(** Statistics that nothing was recorded in. *)
Definition empty_stats (g : StatsCollector) : Prop :=
  Stats.mutex g = Unlocked /\ model_count g = 0 /\ model_stats g = PLive [] /\ stats_file g <> PFreed.

Lemma empty_stats_cleanup ok g : empty_stats g -> safe (stats_cleanup ok g).
Proof.
  intros (Hm & Hn & Hl & Hf). unfold stats_cleanup, Stats.lock, Stats.entries. rewrite Hm. cbn [mutex_lock mbind res_bind].
  cbn [model_count model_stats Stats.set_mutex stats_file]. rewrite Hn, Hl. cbn.
  destruct (stats_file g), ok; try done; by eexists.
Qed.

Lemma empty_stats_save now ok g : empty_stats g -> exists r text g', stats_auto_save now ok g = Ok (r, text, g') /\ empty_stats g'.
Proof.
  intros Hg. pose proof Hg as (Hm & Hn & _ & Hf). unfold stats_auto_save.
  destruct (_ >=? _); [|eexists _, _, _; by split]. unfold save_stats_to_file.
  destruct (stats_file g) eqn:Ef; [by eexists _, _, _| |done]. destruct ok; cbn [negb]; [|by eexists _, _, _].
  unfold Stats.lock, Stats.entries. rewrite Hm. cbn [mutex_lock mbind res_bind model_count Stats.set_mutex]. rewrite Hn. cbn.
  eexists _, _, _. split; [done|]. destruct Hg as (_ & _ & Hl & _). split_and!; try done. cbn. by rewrite Ef.
Qed.

Lemma optimizer_ok_cleanup o : optimizer_ok o -> safe (optimizer_cleanup o).
Proof. intros (Hm & Hb & _). unfold optimizer_cleanup, Optimizer.lock. rewrite Hm. cbn. rewrite Hb. by eexists. Qed.

(** What of every part whose flag is set lets its clean-up succeed. *)
Record cleanable (y : System) : Prop := mkCleanable {
  cl_cache : clearable (Router.cache (app (the_server y)));
  cl_firewall : firewall_initialized (state y) = true -> firewall_up (firewall (the_server y));
  cl_optimizer : optimizer_initialized (state y) = true -> optimizer_ok (optimizer y);
  cl_router : ai_router_initialized (state y) = true -> safe (prompt_router_cleanup (router_life y));
  cl_tokenizer : tokenizer_initialized (state y) = true -> safe (tokenizer_cleanup (tokenizer y) (blocks y));
  cl_stats : stats_initialized (state y) = true -> empty_stats (collector y);
  cl_plugin : plugin_initialized (state y) = true -> safe (plugin_cleanup (manager (the_server y)))
}.

Record no_server (y : System) : Prop := mkNoServer {
  ns_made : server_initialized (state y) = false;
  ns_started : server_started (state y) = false;
  ns_nobody : connections (Server.table (the_server y)) = []
}.

(** The parts that are still as the program starts with them. *)
Definition same_firewall (y y' : System) : Prop := firewall (the_server y') = firewall (the_server y).
Definition same_plugins (y y' : System) : Prop := manager (the_server y') = manager (the_server y).

Definition kept (y y' : System) : Prop := cleanable y' /\ no_server y'.

(** A step changes one flag. *)
Definition flagged (set : bool -> SystemState -> SystemState) (y y' : System) : Prop := exists b, state y' = set b (state y).

(** One field at a time. *)
Ltac cleanable :=
  match goal with Hc : cleanable ?y, Hn : no_server ?y |- _ =>
    destruct Hc, Hn; split; [split; cbn in *; try done; try (by intros ->)|by split]
  end.

Ltac same_flag := match goal with Hf : _ (state ?y) = false |- _ => exists false; cbn in *; rewrite <- Hf; by destruct (state y) end.

Lemma init_cache_clearable size t a m c : cache_init size t a m = Some c -> clearable c.
Proof. intros E. unfold clearable. unfold cache_init in E. destruct a, m; try done. injection E as <-. by apply Forall_replicate. Qed.

Lemma start_cache_kept e y code y' :
  cleanable y -> no_server y -> cache_initialized (state y) = false -> start_cache e y = Ok (code, y') ->
  kept y y' /\ flagged set_cache_flag y y' /\ same_firewall y y' /\ same_plugins y y'.
Proof.
  intros Hc Hn Hf. unfold start_cache. destruct (on _ _); [destruct (cache_init _ _ _ _) as [c|] eqn:E|]; intros [= <- <-].
  - apply init_cache_clearable in E. split; [|split; [by exists true|done]]. cleanable.
  - split; [by split|]. split; [same_flag|done].
  - split; [cleanable|split; [by exists false|done]].
Qed.

Lemma firewall_up_cleanup fw : firewall_up fw -> safe (firewall_cleanup fw).
Proof.
  intros [(Hm & (l & He & _) & _ & (k & Hk & _) & _) _]. unfold firewall_cleanup, Firewall.lock. rewrite Hm. cbn [mbind res_bind].
  cbn [Firewall.entries attack_patterns Firewall.set_mutex]. rewrite He, Hk. by eexists.
Qed.

Lemma init_firewall_up keys now a b c copies fw :
  (forall i, copies i = true) -> firewall_init keys now a b c copies global_firewall = Ok (0, fw) -> firewall_up fw.
Proof.
  intros Hk E. assert (firewall_init keys now true true true copies global_firewall = Ok (0, fw)) as Ht.
  { revert E. unfold firewall_init. destruct a, b; simpl; try discriminate. rewrite andb_false_r. destruct (_ && negb c); [discriminate|exact (fun h => h)]. }
  split; [by eapply Firewall.init_ok|]. revert Ht. unfold firewall_init. simpl. rewrite andb_false_r. intros [= <-]. reflexivity.
Qed.

Lemma start_firewall_kept e y code y' :
  cleanable y -> no_server y -> firewall_initialized (state y) = false -> firewall (the_server y) = global_firewall ->
  (forall i, fw_copies e i = true) -> start_firewall e y = Ok (code, y') ->
  kept y y' /\ flagged set_firewall_flag y y' /\ same_plugins y y'.
Proof.
  intros Hc Hn Hflag Hf Hk. unfold start_firewall.
  destruct (on _ _); [|intros [= <- <-]; split; [cleanable|split; [by exists false|done]]].
  rewrite Hf. destruct (firewall_init _ _ _ _ _ _ _) as [[z fw]|] eqn:E; [|done]. cbn [mbind res_bind].
  destruct (Z.eqb_spec z 0) as [->|Hz]; intros [= <- <-].
  - apply init_firewall_up in E; [|done]. split; [|split; [by exists true|done]]. by cleanable.
  - clear E. split; [|split; [same_flag|done]]. cleanable. by rewrite Hflag.
Qed.

Lemma start_optimizer_kept e y code y' :
  cleanable y -> no_server y -> optimizer_initialized (state y) = false -> start_optimizer e y = Ok (code, y') ->
  kept y y' /\ flagged set_optimizer_flag y y' /\ same_firewall y y' /\ same_plugins y y'.
Proof.
  intros Hc Hn Hflag. unfold start_optimizer.
  destruct (on _ _); [|intros [= <- <-]; split; [cleanable|split; [by exists false|done]]].
  unfold optimizer_init. destruct (opt_alloc e); [destruct (opt_mutex e)|]; cbn [negb Z.eqb]; intros [= <- <-].
  - split; [|split; [by exists true|done]]. by cleanable.
  - split; [|split; [same_flag|done]]. cleanable. by rewrite Hflag.
  - split; [|split; [same_flag|done]]. cleanable. by rewrite Hflag.
Qed.

Lemma start_router_kept e y code y' :
  cleanable y -> no_server y -> ai_router_initialized (state y) = false -> start_router getenv e y = Ok (code, y') ->
  kept y y' /\ flagged set_router_flag y y' /\ same_firewall y y' /\ same_plugins y y'.
Proof.
  intros Hc Hn Hflag. unfold start_router.
  destruct (prompt_router_init_with_config _ _ _ _ _) as [r|]; intros [= <- <-].
  - split; [|split; [by exists true|done]]. cleanable. intros _. by eexists.
  - split; [by split|split; [same_flag|done]].
Qed.

Lemma start_tokenizer_kept e y code y' :
  cleanable y -> no_server y -> tokenizer_initialized (state y) = false -> start_tokenizer e y = Ok (code, y') ->
  kept y y' /\ flagged set_tokenizer_flag y y' /\ same_firewall y y' /\ same_plugins y y'.
Proof.
  intros Hc Hn Hflag. unfold start_tokenizer, tokenizer_init. destruct (new (blocks y)) as [[] m]; cbn [Z.eqb]; intros [= <- <-].
  - split; [|split; [by exists true|done]]. cleanable. intros _. by eexists.
  - split; [|split; [same_flag|done]]. cleanable. by rewrite Hflag.
Qed.

Lemma start_stats_kept e y code y' :
  cleanable y -> no_server y -> stats_initialized (state y) = false -> content (stats_env e) = None ->
  start_stats e y = Ok (code, y') ->
  kept y y' /\ flagged set_stats_flag y y' /\ same_firewall y y' /\ same_plugins y y'.
Proof.
  intros Hc Hn Hflag Hno. unfold start_stats, stats_init. rewrite Hno.
  destruct (Stats.calloc_ok (stats_env e)); [destruct (Stats.mutex_ok (stats_env e))|]; cbn [negb mbind res_bind].
  - unfold load_stats_from_file, dup. destruct (file_name_ok (stats_env e)); cbn [mbind res_bind Z.eqb]; intros [= <- <-].
    all: split; [|split; [by exists true|done]]; cleanable; by split_and!.
  - cbn [Z.eqb]. intros [= <- <-]. split; [|split; [same_flag|done]]. cleanable. by rewrite Hflag.
  - cbn [Z.eqb]. intros [= <- <-]. split; [|split; [same_flag|done]]. cleanable. by rewrite Hflag.
Qed.

Lemma live_plugins_cleanup (pm : PluginManager (Ctx := PluginContext)) l :
  Plugin.mutex pm = Unlocked -> plugins pm = PLive l -> safe (plugin_cleanup pm).
Proof. destruct pm as [p cap m dir hs]. cbn [Plugin.mutex plugins]. intros -> ->. by eexists. Qed.

(** A directory of plugins that is not too large. *)
Definition plugins_fit : Prop := match readdir (lit "plugins") with Some entries => zlen entries < 2 ^ 27 | None => True end.

Lemma init_plugins_spec a m ok :
  plugins_fit -> (forall j, (ok j).2 = true) ->
  exists z pm, plugin_init dlopen readdir (Some (lit "plugins")) a true m ok global_plugin_manager = Ok (z, pm)
    /\ (z = 0 -> safe (plugin_cleanup pm)).
Proof.
  intros Hdir Hdup. unfold plugin_init. destruct a; [destruct m|]; cbn [negb]; [|by eexists _, _..].
  change (default (lit "plugins") (Some (lit "plugins"))) with (lit "plugins").
  unfold load_plugins_from_directory, plugins_fit in *. set (pm0 := Plugin.set_mutex Unlocked _).
  assert (manager_ok pm0) as Hpm by (by apply (holds_table [] 16 _ [])).
  destruct (readdir (lit "plugins")) as [entries|]; cbn [mbind res_bind].
  - pose proof (zlen_nonneg entries).
    destruct (load_entries_ok dlopen (lit "plugins") ok (zlen entries) entries 0 0 pm0 [])
      as (r & pm' & l' & -> & [Hmu _] & Hl); [done|done|cbn; lia|change (zlen (@nil Plugin)) with 0; lia|lia|done|].
    cbn [mbind res_bind]. eexists _, _. split; [done|]. intros _. by eapply live_plugins_cleanup.
  - eexists _, _. split; [done|]. intros _. by eexists.
Qed.

Lemma start_plugins_kept e y code y' :
  cleanable y -> no_server y -> plugin_initialized (state y) = false -> manager (the_server y) = global_plugin_manager ->
  plugins_fit -> (forall j, (plugin_loads e j).2 = true) -> plugin_dir_ok e = true ->
  start_plugins dlopen readdir e y = Ok (code, y') ->
  kept y y' /\ flagged set_plugin_flag y y'.
Proof.
  intros Hc Hn Hflag Hm Hdir Hdup Hok. unfold start_plugins. rewrite Hm, Hok.
  destruct (init_plugins_spec (plugin_alloc e) (plugin_mutex e) (plugin_loads e) Hdir Hdup) as (z & pm & -> & Hz). cbn [mbind res_bind].
  destruct (Z.eqb_spec z 0) as [->|Hne]; intros [= <- <-].
  - specialize (Hz eq_refl). split; [|by exists true]. by cleanable.
  - clear Hz. split; [|same_flag]. cleanable. by rewrite Hflag.
Qed.

(** A server's parts are its own. *)
Lemma spared_cleanable (y y' : System) :
  spared (the_server y) (the_server y') ->
  optimizer y' = optimizer y -> router_life y' = router_life y -> tokenizer y' = tokenizer y -> blocks y' = blocks y ->
  collector y' = collector y -> (exists b1 b2, state y' = set_server_flag b1 (set_started_flag b2 (state y))) ->
  cleanable y -> cleanable y'.
Proof.
  intros [HM HC _ HF] Ho Hr Ht Hb Hg (b1 & b2 & Hs) [C1 C2 C3 C4 C5 C6 C7].
  split; rewrite ?Hs, ?HM, ?HC, ?Ho, ?Hr, ?Ht, ?Hb, ?Hg; cbn; auto.
Qed.

Lemma make_server_kept e y code y' :
  cleanable y -> no_server y -> make_server crc32_asm regcomp regexec e y = Ok (code, y') -> code <> 0 -> kept y y'.
Proof.
  intros Hc Hn. unfold make_server. destruct (server_init _ _ _ _ _ _ _ _) as [[[z o] l]|] eqn:E; [|done]. cbn [mbind res_bind].
  apply server_init_spared in E as Hsp.
  destruct (Z.eqb_spec z 0) as [->|Hz]; intros [= <- <-] Hne; [done|].
  destruct Hn as [N1 N2 N3]. split.
  - eapply spared_cleanable; [exact Hsp|done..| |done]. exists (server_initialized (state y)), (server_started (state y)). cbn. by destruct (state y).
  - split; [done..|]. unfold the_server. cbn [object set_object]. by rewrite (sp_table _ _ Hsp).
Qed.

(** The heap as the server finds it; [malloc] gives no block at 0. *)
Definition memory_of (e : boot_env) : heap := Boot.memory (server_answers e).

(** A server that could be made can be stopped. *)
Lemma make_server_made e y y' :
  cleanable y -> no_server y -> make_server crc32_asm regcomp regexec e y = Ok (0, y') ->
  cleanable y' /\ server_initialized (state y') = true
  /\ (no_null (memory_of e) ->
      stoppable (Prelude.live (memory_of e)) (object y')).
Proof.
  intros Hc Hn. unfold make_server. destruct (server_init _ _ _ _ _ _ _ _) as [[[z o] l]|] eqn:E; [|done]. cbn [mbind res_bind].
  apply server_init_spared in E as Hsp.
  destruct (Z.eqb_spec z 0) as [->|Hz]; intros [= <-]. destruct Hn as [N1 N2 N3]. split_and!; [|done|].
  - eapply spared_cleanable; [exact Hsp|done..| |done]. exists true, (server_started (state y)). cbn. by destruct (state y).
  - intros Hm. by eapply server_init_stoppable.
Qed.

Lemma run_steps_cons (f : step) (l : list step) e (y : System) r :
  run_steps (f :: l) e y = Ok r ->
  exists code y1, f e y = Ok (code, y1) /\ (code = 0 /\ run_steps l e y1 = Ok r \/ code <> 0 /\ r = (-1, y1)).
Proof.
  cbn [run_steps]. destruct (f e y) as [[code y1]|]; [|done]. cbn [mbind res_bind]. intros E. exists code, y1. split; [done|].
  destruct (Z.eqb_spec code 0); [by left|right]. split; [done|]. by injection E as <-.
Qed.

Abbreviation initialize := (initialize_components crc32_asm regcomp regexec dlopen readdir getenv).

(** The process before its parts are started. *)
Record unstarted (y : System) : Prop := mkUnstarted {
  un_state : state y = nothing_started;
  un_firewall : firewall (the_server y) = global_firewall;
  un_plugins : manager (the_server y) = global_plugin_manager;
  un_nobody : connections (Server.table (the_server y)) = [];
  un_moderation : moderation (the_server y) = engine;
  un_optimizer : optimizer y = global_optimizer;
  un_cache : clearable (Router.cache (app (the_server y)))
}.

(** There is no file of statistics, the directory of plugins fits, its path and its names can
    be copied, and so can the API keys. *)
Record boot_ok (e : boot_env) : Prop := mkBootOk {
  bo_stats : content (stats_env e) = None;
  bo_fit : plugins_fit;
  bo_names : forall j, (plugin_loads e j).2 = true;
  bo_dir : plugin_dir_ok e = true;
  bo_keys : forall i, fw_copies e i = true
}.

(** The parts that are started before the server. *)
Definition parts : list (step (T := T) (H := H) (Regex := Regex)) :=
  [start_openssl; start_cache; start_firewall; start_optimizer; start_router getenv; start_tokenizer; start_stats;
   start_plugins dlopen readdir; start_observability].

Lemma parts_kept e y code y' : unstarted y -> boot_ok e -> run_steps parts e y = Ok (code, y') -> cleanable y' /\ no_server y'.
Proof.
  intros [Hs Hf Hp Ht _ _ Hca] [Hst Hfit Hnames Hdir Hkeys] E. unfold parts in E.
  assert (cleanable y) as Hc by (split; rewrite ?Hs; done).
  assert (no_server y) as Hn by (split; [by rewrite Hs..|done]).
  apply run_steps_cons in E as (c0 & y0 & E0 & E).
  assert (c0 = 0 /\ state y0 = state y /\ the_server y0 = the_server y /\ kept y y0) as (-> & Hs0 & Hf0 & Hc0 & Hn0).
  { unfold start_openssl in E0. destruct (on _ _); injection E0 as <- <-; [|done]. split_and!; [done..|].
    destruct Hc, Hn. split; by split. }
  destruct E as [[_ E]|[? _]]; [|done]. clear Hc Hn E0. rewrite <- Hs0 in Hs. rewrite <- Hf0 in Hf, Hp. clear Hs0 Hf0.
  apply run_steps_cons in E as (c1 & y1 & E1 & E).
  apply start_cache_kept in E1 as ((Hc1 & Hn1) & (b1 & F1) & P1 & Q1); [|done|done|by rewrite Hs].
  destruct E as [[_ E]|[_ [= _ ->]]]; [|done].
  apply run_steps_cons in E as (c2 & y2 & E2 & E).
  apply start_firewall_kept in E2 as ((Hc2 & Hn2) & (b2 & F2) & Q2); [|done|done|by rewrite F1, Hs|by rewrite P1|done].
  destruct E as [[_ E]|[_ [= _ ->]]]; [|done].
  apply run_steps_cons in E as (c3 & y3 & E3 & E).
  apply start_optimizer_kept in E3 as ((Hc3 & Hn3) & (b3 & F3) & _ & Q3); [|done|done|by rewrite F2, F1, Hs].
  destruct E as [[_ E]|[_ [= _ ->]]]; [|done].
  apply run_steps_cons in E as (c4 & y4 & E4 & E).
  apply start_router_kept in E4 as ((Hc4 & Hn4) & (b4 & F4) & _ & Q4); [|done|done|by rewrite F3, F2, F1, Hs].
  destruct E as [[_ E]|[_ [= _ ->]]]; [|done].
  apply run_steps_cons in E as (c5 & y5 & E5 & E).
  apply start_tokenizer_kept in E5 as ((Hc5 & Hn5) & (b5 & F5) & _ & Q5); [|done|done|by rewrite F4, F3, F2, F1, Hs].
  destruct E as [[_ E]|[_ [= _ ->]]]; [|done].
  apply run_steps_cons in E as (c6 & y6 & E6 & E).
  apply start_stats_kept in E6 as ((Hc6 & Hn6) & (b6 & F6) & _ & Q6); [|done|done|by rewrite F5, F4, F3, F2, F1, Hs|done].
  destruct E as [[_ E]|[_ [= _ ->]]]; [|done].
  apply run_steps_cons in E as (c7 & y7 & E7 & E).
  apply start_plugins_kept in E7 as ((Hc7 & Hn7) & (b7 & F7));
    [|done|done|by rewrite F6, F5, F4, F3, F2, F1, Hs|by rewrite Q6, Q5, Q4, Q3, Q2, Q1|done..].
  destruct E as [[_ E]|[_ [= _ ->]]]; [|done].
  apply run_steps_cons in E as (c8 & y8 & E8 & E).
  assert (cleanable y8 /\ no_server y8) as [Hc8 Hn8].
  { unfold start_observability in E8. destruct (on _ _); injection E8 as <- <-; [|done].
    destruct Hc7, Hn7. split; [by split|by split]. }
  destruct E as [[_ E]|[_ [= _ ->]]]; [|done]. by injection E as _ <-.
Qed.

Lemma run_steps_app (l l' : list (step (T := T) (H := H) (Regex := Regex))) e : forall (y : System) r,
  run_steps (l ++ l') e y = Ok r ->
  exists code y1, run_steps l e y = Ok (code, y1) /\ (code = 0 /\ run_steps l' e y1 = Ok r \/ code <> 0 /\ r = (-1, y1)).
Proof.
  induction l as [|f l IH]; intros y r E; [exists 0, y; auto|]. cbn [app] in E.
  apply run_steps_cons in E as (code & y1 & E1 & [[-> E]|[Hne ->]]); cbn [run_steps]; rewrite E1; cbn [mbind res_bind].
  - by apply IH.
  - rewrite (proj2 (Z.eqb_neq _ _) Hne). exists (-1), y1. split; [done|]. by right.
Qed.

(** What a start leaves: nothing of a server when it fails, and one that can be stopped
    when it does not. *)
Lemma initialize_kept e y code y' :
  unstarted y -> boot_ok e -> initialize e y = Ok (code, y') ->
  cleanable y'
  /\ (code = -1 /\ no_server y'
      \/ code = 0 /\ server_initialized (state y') = true /\ server_started (state y') = true
         /\ (no_null (memory_of e) ->
             stoppable (Prelude.live (memory_of e)) (object y'))).
Proof.
  intros Hy He E. unfold initialize_components in E.
  apply (run_steps_app parts [make_server crc32_asm regcomp regexec; start_server]) in E as (c1 & y1 & E1 & E).
  apply parts_kept in E1 as [Hc Hn]; [|done..].
  destruct E as [[_ E]|[_ [= -> ->]]]; [|by auto].
  apply run_steps_cons in E as (c9 & y9 & E9 & E).
  destruct E as [[-> E]|[Hne [= -> ->]]]; [|eapply make_server_kept in E9 as [? ?]; by auto].
  apply run_steps_cons in E as (c10 & y10 & E10 & E).
  apply make_server_made in E9 as (Hc9 & Hi9 & Hst9); [|done..].
  unfold start_server in E10. destruct (server_start _ _) as [[z o]|] eqn:Es; [|done]. cbn [mbind res_bind] in E10.
  apply server_start_spared in Es as Hz. destruct Hz as [-> Hsp].
  cbn [Z.eqb] in E10. injection E10 as <- <-. destruct E as [[_ [= <- <-]]|[? _]]; [|done].
  split.
  - apply (spared_cleanable y9); [exact Hsp|done..| |done].
    exists (server_initialized (state y9)), true. cbn. by destruct (state y9).
  - right. split_and!; [done..|]. intros Hm. eapply server_start_stoppable; [by apply Hst9|exact Es].
Qed.

(** ** Lemmas: no fault in a start *)

(** The step ends, and when it works the system satisfies [J]. *)
Definition starts (e : boot_env) (I : System -> Prop) (f : step) (J : System -> Prop) : Prop :=
  forall y, I y -> exists code y', f e y = Ok (code, y') /\ (code = 0 -> J y').

Lemma starts_none e I : starts e I (run_steps []) I.
Proof. intros y Hy. by exists 0, y. Qed.

Lemma starts_cons e I J K f l : starts e I f J -> starts e J (run_steps l) K -> starts e I (run_steps (f :: l)) K.
Proof.
  intros Hf Hl y Hy. destruct (Hf y Hy) as (code & y1 & E & H1'). cbn [run_steps]. rewrite E. cbn [mbind res_bind].
  destruct (Z.eqb_spec code 0) as [->|Hne]; [by apply Hl, H1'|]. by exists (-1), y1.
Qed.

(** What the steps before the server need, and keep: the configuration, the moderation,
    and properties of the firewall, the plugins, the optimizer and the statistics. *)
Record ready (c : Config) (F : Firewall.Firewall -> Prop) (P : PluginManager (Ctx := PluginContext) -> Prop)
    (O : Optimizer -> Prop) (S : StatsCollector -> Prop) (y : System) : Prop := mkReady {
  re_config : config y = c;
  re_moderation : moderation (the_server y) = engine;
  re_firewall : F (firewall (the_server y));
  re_plugins : P (manager (the_server y));
  re_optimizer : O (optimizer y);
  re_stats : S (collector y)
}.

Definition guarded (c : Config) (fw : Firewall.Firewall) : Prop := on c Config.enable_firewall = true -> firewall_up fw.

(** An optimizer that a run does not harm. *)
Definition fine (o : Optimizer) : Prop := optimizer_ok o \/ enable_auto_optimization o = false.

Ltac stays := intros y [<- Hm Hf Hp Ho Hg]; repeat case_match; eexists _, _; split; done.

Section Steps.
Variables (c : Config) (F : Firewall.Firewall -> Prop) (P : PluginManager (Ctx := PluginContext) -> Prop)
  (O : Optimizer -> Prop) (S : StatsCollector -> Prop) (e : boot_env).

Lemma openssl_starts : starts e (ready c F P O S) start_openssl (ready c F P O S).
Proof. unfold start_openssl. stays. Qed.
Lemma cache_starts : starts e (ready c F P O S) start_cache (ready c F P O S).
Proof. unfold start_cache. stays. Qed.
Lemma router_starts : starts e (ready c F P O S) (start_router getenv) (ready c F P O S).
Proof. unfold start_router. stays. Qed.
Lemma tokenizer_starts : starts e (ready c F P O S) start_tokenizer (ready c F P O S).
Proof. unfold start_tokenizer. stays. Qed.
Lemma observability_starts : starts e (ready c F P O S) start_observability (ready c F P O S).
Proof. unfold start_observability. stays. Qed.

Lemma optimizer_starts : starts e (ready c F P (fun o => o = global_optimizer) S) start_optimizer (ready c F P fine S).
Proof.
  intros y [<- Hm Hf Hp Ho Hg]. unfold start_optimizer, optimizer_init. destruct (on _ _).
  - destruct (opt_alloc e), (opt_mutex e); cbn [negb Z.eqb]; eexists _, _; (split; [done|]); try done.
    intros _. split; try done. by left.
  - eexists _, _. split; [done|]. intros _. split; try done. right.
    change (enable_auto_optimization (optimizer y) = false). by rewrite Ho.
Qed.

Lemma stats_starts : content (stats_env e) = None -> starts e (ready c F P O S) start_stats (ready c F P O empty_stats).
Proof.
  intros Hno y [<- Hm Hf Hp Ho Hg]. unfold start_stats, stats_init. rewrite Hno.
  destruct (Stats.calloc_ok (stats_env e)); [destruct (Stats.mutex_ok (stats_env e))|]; cbn [negb mbind res_bind];
    [|by eexists _, _..].
  unfold load_stats_from_file, dup. destruct (file_name_ok (stats_env e)); by eexists _, _.
Qed.

(** A firewall that could be made works. *)
Lemma firewall_starts : (forall i, fw_copies e i = true) -> starts e (ready c (fun fw => fw = global_firewall) P O S) start_firewall (ready c (guarded c) P O S).
Proof.
  intros Hk y [<- Hm Hf Hp Ho Hg]. unfold start_firewall, guarded. destruct (on _ _) eqn:Eo.
  - rewrite Hf. destruct (firewall_init _ _ _ _ _ _ global_firewall) as [[z fw]|] eqn:E.
    + cbn [mbind res_bind]. destruct (Z.eqb_spec z 0) as [->|Hz]; (eexists _, _; split; [done|]); [|done].
      intros _. apply init_firewall_up in E; [|done]. by split.
    + exfalso. revert E. unfold firewall_init. cbn [is_initialized global_firewall]. unfold Firewall.lock.
      cbn [Firewall.mutex global_firewall mbind res_bind]. destruct (fw_entries e); cbn [negb]; [|discriminate].
      destruct (fw_patterns e); cbn [negb]; [|discriminate]. by destruct (_ && _).
  - eexists _, _. split; [done|]. intros _. by split.
Qed.

Lemma plugins_start :
  boot_ok e -> starts e (ready c F (fun pm => pm = global_plugin_manager) O S) (start_plugins dlopen readdir) (ready c F (fun _ => True) O S).
Proof.
  intros [_ Hfit Hn Hd _] y [<- Hm Hf Hp Ho Hg]. unfold start_plugins. rewrite Hp, Hd.
  destruct (init_plugins_spec (plugin_alloc e) (plugin_mutex e) (plugin_loads e) Hfit Hn) as (z & pm & -> & _).
  cbn [mbind res_bind]. destruct (z =? 0); (eexists _, _; split; [done|]); done.
Qed.
End Steps.

(** What the main loop finds. *)
Record up_and_ready (e : boot_env) (c : Config) (y : System) : Prop := mkUpAndReady {
  ur_loop : Config.ints c enable_iouring = 0 -> polls (object y);
  ur_joinable : all_start (thread_answers e) -> joinable (object y);
  ur_optimizer : fine (optimizer y);
  ur_stats : empty_stats (collector y)
}.

(** Whatever fails, the start ends. *)
Lemma initialize_safe e y :
  unstarted y -> boot_ok e -> answers_ok (server_answers e) (config y) ->
  exists code y', initialize e y = Ok (code, y') /\ (code = 0 -> up_and_ready e (config y) y').
Proof.
  intros [_ Hf Hp _ Hm Ho _] He Ha.
  assert (starts e (ready (config y) (fun fw => fw = global_firewall) (fun pm => pm = global_plugin_manager)
                      (fun o => o = global_optimizer) (fun _ => True))
            initialize (up_and_ready e (config y))) as Hi; [|by apply Hi].
  unfold initialize_components.
  eapply starts_cons; [apply openssl_starts|]. eapply starts_cons; [apply cache_starts|].
  eapply starts_cons; [by apply firewall_starts, He|]. eapply starts_cons; [apply optimizer_starts|].
  eapply starts_cons; [apply router_starts|]. eapply starts_cons; [apply tokenizer_starts|].
  eapply starts_cons; [by apply stats_starts, He|]. eapply starts_cons; [by apply plugins_start|].
  eapply starts_cons; [apply observability_starts|].
  intros y1 [Hc Hm1 Hf1 _ Ho1 Hg1]. cbn [run_steps]. unfold make_server. rewrite Hc.
  destruct (server_init_safe crc32_asm regcomp regexec (accepts e) (requests e) (server_answers e) (config y) (the_server y1) Ha)
    as [[[z o] l] E]; [|done|].
  { intros Hon. apply Hf1. unfold on. by destruct (Z.eqb_spec (Config.ints (config y) Config.enable_firewall) 0). }
  rewrite E. cbn [mbind res_bind]. destruct (Z.eqb_spec z 0) as [->|Hz]; cbn [Z.eqb]; [|by eexists _, _].
  unfold start_server. cbn [object set_object with_flags set_state].
  destruct (server_start_safe crc32_asm regcomp regexec (thread_answers e) _ _ _ _ _ _ _ Ha E) as [[r o1] Es].
  pose proof E as Hup. apply server_init_up in Hup as [el U]. apply server_start_keeps in Es as Hk. destruct Hk as (Hel & _).
  rewrite Es. cbn [mbind res_bind]. destruct (r =? 0); cbn [Z.eqb]; (eexists _, _; split; [done|]); [|done].
  intros _. split; [|intros Hall; by eapply server_start_joinable|done..]. intros Hu. exists el. cbn [object with_flags set_state set_object].
  rewrite Hel. split; [apply U|by eapply up_epoll].
Qed.

(** ** Lemmas: stopping *)

(** The server's memory and what it holds of the library, which only its own clean-up
    changes. *)
Definition outer (y : System) : heap * lib := (server_memory (object y), tls_library (object y)).
Definition given_back (m : list Z) (x : heap * lib) : Prop := Prelude.live x.1 ≡ₚ m /\ forall k, TlsContext.held x.2 k = 0.

Lemma cleanup_step flag f set (y : System) :
  cleanable y ->
  (flag = true -> exists y', f y = Ok y' /\ cleanable (with_flags (set false) y') /\ state y' = state y /\ outer y' = outer y) ->
  (flag = false -> set false (state y) = state y) ->
  exists y', cleanup_of flag f (set false) y = Ok y' /\ cleanable y' /\ state y' = set false (state y) /\ outer y' = outer y.
Proof.
  intros Hc Ht Hf. unfold cleanup_of. destruct flag.
  - destruct (Ht eq_refl) as (y' & -> & Hc' & Hs & Ho). eexists. split; [done|]. split; [done|]. cbn. by rewrite Hs.
  - exists y. by rewrite Hf.
Qed.

Ltac destruct_pair p := lazymatch type of p with (_ * _)%type => destruct p | _ => idtac end.

(** The part's clean-up succeeds and changes that part alone. *)
Ltac part cl :=
  match goal with Hc : cleanable ?y |- context [cleanup_of ?flag ?f (?set false) ?y] =>
    let E := fresh in let y' := fresh "y" in let H1 := fresh in let H2 := fresh in
    destruct (cleanup_step flag f set y Hc) as (y' & E & H1 & H2);
    [intros E; let p := fresh in destruct (cl y Hc E) as [p ->]; destruct_pair p; eexists; split; [reflexivity|]; split; [destruct Hc; by split|done]
    |intros E; rewrite <- E; by destruct (state y)
    |rewrite E; clear E Hc; rename H1 into Hc; destruct H2; cbn [mbind res_bind]]
  end.

Lemma cleanup_server m (y : System) :
  cleanable y -> (server_initialized (state y) = true -> stoppable m (object y)) ->
  exists y', cleanup_of (server_initialized (state y)) (fun y => '(o, _) ← server_cleanup (object y); Ok (set_object o y)) (set_server_flag false) y = Ok y'
    /\ cleanable y' /\ state y' = set_server_flag false (state y)
    /\ (server_initialized (state y) = true -> given_back m (outer y')).
Proof.
  intros Hc Hs. unfold cleanup_of. destruct (server_initialized (state y)) eqn:Ei.
  - destruct (server_cleanup_gives m (object y) (Hs eq_refl)) as (o & l & -> & Hl & Hh & Hsp). cbn [mbind res_bind].
    eexists. split; [done|]. split; [|done]. apply (spared_cleanable y); [exact Hsp|done..| |done].
    exists false, (server_started (state y)). cbn. by destruct (state y).
  - exists y. split; [done|]. split; [done|]. split; [|done]. rewrite <- Ei. by destruct (state y).
Qed.

(** Whatever is started is stopped, every flag is then cleared, and a server has given
    back what it had. *)
Lemma cleanup_parts_safe m e (y : System) :
  cleanable y -> server_started (state y) = false -> (server_initialized (state y) = true -> stoppable m (object y)) ->
  exists y', cleanup_parts e y = Ok y' /\ state y' = nothing_started /\ config y' = no_settings
    /\ (server_initialized (state y) = true -> given_back m (outer y')).
Proof.
  intros Hc Hst Hm. unfold cleanup_parts. destruct (cleanup_server m y Hc Hm) as (y0 & -> & Hc0 & Hs0 & Hg). clear Hc Hm. cbn [mbind res_bind].
  part cl_plugin. part (fun y Hc E => empty_stats_cleanup (stats_file_ok e) _ (cl_stats y Hc E)). part cl_tokenizer. part cl_router.
  part (fun y Hc E => optimizer_ok_cleanup _ (cl_optimizer y Hc E)). part (fun y Hc E => firewall_up_cleanup _ (cl_firewall y Hc E)). part (fun y Hc (_ : cache_initialized (state y) = true) => ex_intro _ tt (clearable_cleanup _ (cl_cache y Hc)) : safe _).
  eexists. split; [done|]. split; [|split; [done|]].
  - cbn [state set_config].
    match goal with |- state (if ?b then _ else ?y) = _ => transitivity (state y); [by destruct b|] end.
    repeat match goal with E : state ?y = _ |- context [state ?y] => rewrite E end.
    unfold set_cache_flag, set_firewall_flag, set_optimizer_flag, set_router_flag, set_tokenizer_flag, set_stats_flag, set_plugin_flag.
    cbn. by rewrite Hst.
  - intros Hi. specialize (Hg Hi).
    match goal with |- given_back m (outer (set_config _ (if ?b then _ else ?y))) =>
      assert (outer (set_config (free_config (config (if b then set_openssl (tls_global_cleanup (openssl y)) y else y)))
                      (if b then set_openssl (tls_global_cleanup (openssl y)) y else y)) = outer y) as -> by (by destruct b) end.
    repeat match goal with E : outer ?y = _ |- context [outer ?y] => rewrite E end. done.
Qed.

(** A server that runs is stopped, and then everything is. *)
Lemma stop_and_clean m st (y : System) i :
  cleanable y -> server_initialized (state y) = true -> server_started (state y) = true -> stoppable m (object y) ->
  joinable (object y) -> idle_joins (joins st) ->
  exists y' i', cleanup_components st y i = Done y' i' /\ state y' = nothing_started /\ config y' = no_settings
    /\ given_back m (outer y') /\ closed i' = closed i ++ closed_by_stop (the_server y).
Proof.
  intros Hc Hi Hst Hm [Hj1 Hj2 Hj3] Hj. unfold cleanup_components, stop_server. rewrite Hst, Hj1, Hj2.
  destruct (stop_nobody (others st) (joins st) (the_server y) i (so_nobody _ _ Hm) Hj Hj3) as (i1 & E & Hcl).
  set (y1 := with_flags (set_started_flag false) (on_server (fun _ => stopped (the_server y)) y)).
  destruct (cleanup_parts_safe m st y1) as (y2 & E2 & Hs2 & Hc2 & Hg).
  - apply (spared_cleanable y); [apply stopped_spared, (so_nobody _ _ Hm)|done..| |done].
    exists (server_initialized (state y)), false. cbn. by destruct (state y).
  - done.
  - intros _. by apply stopped_stoppable.
  - exists y2, i1. split; [|by auto]. rewrite (bind_step _ _ i y1 i1); [unfold of_res; by rewrite E2|].
    by rewrite (bind_step _ _ i _ _ E).
Qed.

Lemma recover_clean st (y : System) i :
  cleanable y -> server_initialized (state y) = false -> server_started (state y) = false ->
  exists y2, recover_from_error st y i = Done y2 i /\ state y2 = nothing_started /\ config y2 = no_settings
    /\ config_paths (config_paths_of y2) = PNull /\ inotify_fd y2 = -1.
Proof.
  intros Hc Hi Hst. destruct (cleanup_parts_safe [] st y Hc Hst) as (y2 & E2 & Hs & Hcfg & _); [by rewrite Hi|].
  unfold recover_from_error, cleanup_components, stop_server. rewrite Hst. cbv [mbind M_bind mret M_ret of_res].
  rewrite E2. by eexists.
Qed.

(** C3: A start that fails is recovered from without a fault, under the conditions of [boot_ok]: there is no
    file of statistics (with one the clean-up reads freed memory: [Stats.cleanup_reads_freed]), the directory of plugins has
    fewer than 2^27 entries, the names of the plugins and their directory are copied, and so are the
    API keys of the firewall.  All other answers are arbitrary.  When [initialize] fails in such a
    start, [recover_from_error] returns: every part that is marked as started is cleaned up, nothing is freed twice or
    used after it was freed, no mutex is locked that is not there; afterwards no flag
    is set, the configuration and its paths are freed and the watch of the files is closed.  Nothing is said of what
    a part that failed had opened itself: [server_init] leaves its loop and sockets open. *)
Theorem failed_start_recovers e st y y1 i :
  unstarted y -> boot_ok e -> initialize e y = Ok (-1, y1) ->
  exists y2, recover_from_error st y1 i = Done y2 i /\ state y2 = nothing_started /\ config y2 = no_settings
    /\ config_paths (config_paths_of y2) = PNull /\ inotify_fd y2 = -1.
Proof.
  intros Hy He E. apply initialize_kept in E as (Hc & [[_ Hn]|[? _]]); [|done..]. destruct Hn as [Hi Hst _].
  by apply recover_clean.
Qed.
End Recovery.

(** ** Witness: a port that is taken *)

#[local] Existing Instance demo_tls.
#[local] Existing Instance demo_h2_layer.

Abbreviation demo_system := (AionicSystem (TLSConn (SSL := unit)) (H2Session (S := list Z)) (list Z)).

(** Everything is asked for that needs no file. *)
Definition demo_settings : Config :=
  Config.mkConfig (fun o => match o with
                            | enable_cache | Config.enable_firewall | enable_optimization | enable_observability => 1
                            | cache_size => 4
                            | _ => 0
                            end) (fun _ => []) None [] [].

Definition demo_object : ServerObject (TLSConn (SSL := unit)) (H2Session (S := list Z)) (list Z) :=
  mkServerObject idle_server 0 0 0 0 None no_objects None None None [] demo_heap 0 false.

Definition demo_main : demo_system :=
  mkSystem demo_settings demo_object nothing_started (mkConfigPaths (PLive []) 4) (mkThreadPool PNull 0) 7 global_optimizer
    (mkTokenizer PNull 0) all_granted global_stats (mkRouterLife PNull Unlocked Unlocked false 0 false) no_usage 0 (mkTlsGlobal false false).

(** [bind] fails. *)
Definition taken_port : server_env :=
  mkServerEnv 0 true demo_heap demo_loads (demo_responder None) true 3 4 5 demo_setup 6 false true true (-1) true true true (Some []) true
    (lit "Thu, 01 Jan 1970 00:00:00 GMT") true 0 true true true (fun _ => true) (fun _ => true) true.

Definition demo_boot : boot_env :=
  mkBootEnv true true 0 true true true (fun _ => true) 4 true true true true first_init true true true (fun _ => (true, true)) 0
    demo_accept (fun _ => demo_call) taken_port (fun _ => mkThreadEnv true true).

Abbreviation demo_initialize :=
  (initialize_components (fun _ => 7) Some (fun _ _ => false) (fun _ => None) (fun _ => None) (fun _ => None)).

Lemma demo_fails : exists y, demo_initialize demo_boot demo_main = Ok (-1, y).
Proof.
  assert (match demo_initialize demo_boot demo_main with Ok (z, y) => Some (z, optimizer_initialized (state y)) | _ => None end
          = Some (-1, true)) as Hc by (by vm_compute).
  destruct (demo_initialize _ _) as [[z y]|]; [|done]. injection Hc as -> _. by exists y.
Qed.

Lemma failed_start_recovers_witness :
  exists y, demo_initialize demo_boot demo_main = Ok (-1, y)
    /\ exists y2, recover_from_error (mkStopEnv (fun _ s => s) (fun _ => None) true) y (EventLoop.demo_io []) = Done y2 (EventLoop.demo_io [])
         /\ state y2 = nothing_started /\ config y2 = no_settings
         /\ config_paths (config_paths_of y2) = PNull /\ inotify_fd y2 = -1.
Proof.
  destruct demo_fails as [y E]. exists y. split; [exact E|].
  refine (failed_start_recovers (fun _ => 7) Some (fun _ _ => false) (fun _ => None) (fun _ => None) (fun _ => None) demo_boot
            (mkStopEnv (fun _ s => s) (fun _ => None) true) demo_main y (EventLoop.demo_io []) _ _ E).
  - split; [reflexivity..|by apply Forall_nil].
  - split; [reflexivity|exact I|intros j; reflexivity|reflexivity|intros j; reflexivity].
Defined.
