(* ===== verification/Run.v ===== *)
(** * A whole run of [main]: src/main.c

    The signals and the main loop, and what [main] leaves from its first state to its exit
    code. *)

From S2P Require Import Prelude Io Config EventLoop Optimizer Tokenizer Stats Tls TlsContext Http2 Sessions.
From S2P Require Import Arena RateLimiter Cache HttpParser Firewall JsonText PromptRouter Observability Moderation.
From S2P Require Import Plugin RouteTable Stream Router Connections Server Handler Lifecycle Boot Main Recovery.

Section Run.
Context {T H Regex : Type} `{TlsLayer T} `{H2Layer H}.
Context (crc32_asm : list Z -> Z) (regcomp : list Z -> option Regex) (regexec : Regex -> list Z -> bool).
Context (dlopen : list Z -> option (Dso (Ctx := PluginContext))) (readdir : list Z -> option (list (list Z))).
Context (getenv : list Z -> option (list Z)).

Abbreviation System := (AionicSystem T H Regex).
(** ** Lemmas: the signals *)

Lemma handle_stays room sig g :
  running g = false /\ iouring_global_stop g = true ->
  running (handle_signal room sig g) = false /\ iouring_global_stop (handle_signal room sig g) = true.
Proof. by destruct sig. Qed.

Lemma handle_all_stays room l : forall g,
  running g = false /\ iouring_global_stop g = true ->
  let g' := fold_left (fun g sig => handle_signal room sig g) l g in
  running g' = false /\ iouring_global_stop g' = true.
Proof. induction l as [|sig l IH]; intros g Hg; [done|]. cbn [fold_left]. by apply IH, handle_stays. Qed.

Lemma stop_signal_flags room l : forall g,
  SIGINT ∈ l \/ SIGTERM ∈ l ->
  let g' := fold_left (fun g sig => handle_signal room sig g) l g in
  running g' = false /\ iouring_global_stop g' = true.
Proof.
  induction l as [|sig l IH]; intros g Hl; [by destruct Hl as [Hl|Hl]; apply elem_of_nil in Hl|]. cbn [fold_left].
  destruct sig; try (by apply handle_all_stays); apply IH; destruct Hl as [Hl|Hl];
    apply elem_of_cons in Hl as [Hl|Hl]; by auto.
Qed.

Lemma read_pipe_flags g : running (read_pipe g).2 = running g /\ iouring_global_stop (read_pipe g).2 = iouring_global_stop g.
Proof. unfold read_pipe. by destruct (signal_pipe g) as [[|]|]. Qed.

Abbreviation round := (main_round getenv).

Lemma main_round_flags e g (y : System) i b g' y' i' :
  round e g y i = Done (b, g', y') i' ->
  let g0 := fold_left (fun g sig => handle_signal (room e) sig g) (arrived e) g in
  running g' = running g0 /\ iouring_global_stop g' = iouring_global_stop g0.
Proof.
  intros E g0. unfold main_round in E. apply bind_Done in E as ([r o] & i1 & _ & E). fold g0 in E.
  pose proof (read_pipe_flags g0) as Hf. destruct (read_pipe g0) as [c g1]. cbn [snd] in Hf.
  destruct (_ && _); [by injection E as _ <- _ _|].
  apply bind_Done in E as (y1 & i2 & _ & E). apply bind_Done in E as (y2 & i3 & _ & E).
  apply bind_Done in E as ([[r1 t1] st1] & i4 & _ & E). apply bind_Done in E as (y3 & i5 & _ & E). by injection E as _ <- _ _.
Qed.

(** C10: A SIGINT or SIGTERM that arrives while the events are handled ends the main loop with
    the round in which it arrives, whether or not the byte of the signal's pipe could
    be written and is the one that is read, whatever other signals arrive before or
    after it, and whatever the loop would be answered later. *)
Theorem stop_signal_ends_loop e l g (y : System) i b g' y' i' :
  SIGINT ∈ arrived e \/ SIGTERM ∈ arrived e ->
  running g = true -> iouring_global_stop g = false ->
  round e g y i = Done (b, g', y') i' ->
  main_loop getenv (e :: l) g y i = Done (g', y') i'.
Proof.
  intros Hs Hr Hn E. cbn [main_loop]. rewrite Hr, Hn. cbn [andb negb]. cbv [mbind M_bind]. rewrite E.
  apply main_round_flags in E as [Hf _]. rewrite (proj1 (stop_signal_flags _ _ g Hs)) in Hf.
  destruct b; [|done]. destruct l; cbn [main_loop]; by rewrite Hf.
Qed.

(** ** Lemmas: a run *)

(** The system while the main loop runs without connections. *)
Record steady (m : list Z) (y : System) : Prop := mkSteady {
  st_clean : cleanable y;
  st_made : server_initialized (state y) = true;
  st_started : server_started (state y) = true;
  st_stop : stoppable m (object y);
  st_joinable : joinable (object y);
  st_polls : polls (object y);
  st_optimizer : fine (optimizer y);
  st_stats : empty_stats (collector y)
}.

(** A round without connections in which no certificate names a responder.  Any signals
    arrive, any time passes, the configuration changes in any way. *)
Record calm (e : round_env) : Prop := mkCalm {
  ca_quiet : quiet (events e);
  ca_asked : unnamed (Update (ocsp_asked e));
  ca_due : unnamed (Update (ocsp_due e))
}.

Lemma steady_object m o (y : System) :
  steady m y -> stoppable m o -> joinable o -> polls o -> server o = the_server y -> steady m (set_object o y).
Proof.
  intros [Hc Hi Hst _ _ _ Ho Hg] Hm Hj Hp Hs. split; try done. apply (spared_cleanable y); [|done..| |done].
  - unfold the_server at 2. cbn [object set_object]. rewrite Hs. by apply spared_same.
  - exists (server_initialized (state y)), (server_started (state y)). cbn. by destruct (state y).
Qed.

Lemma steady_router m r (y : System) : steady m y -> steady m (on_server (on_app (Router.set_router r)) y).
Proof. intros [[] Hi Hst [] [] Hp Ho Hg]. split; try done; by split. Qed.

Lemma steady_staple m v (y : System) :
  steady m y -> unnamed (Update v) -> exists y', update_staple v y = Ok y' /\ steady m y'.
Proof.
  intros Hy Hu. unfold update_staple.
  destruct (update_exactly v _ _ Hu (so_tls _ _ (st_stop _ _ Hy))) as (r & ctx & lb & -> & Hx). cbn [mbind res_bind].
  eexists. split; [done|]. apply steady_object; [done|by apply set_tls_stoppable, Hx; apply Hy|by destruct (st_joinable _ _ Hy)|apply Hy|done].
Qed.

Lemma steady_optimizer m e (y : System) : steady m y -> exists y', run_optimizer e y = Ok y' /\ steady m y'.
Proof.
  intros Hy. unfold run_optimizer. destruct (on _ _); [|by exists y]. destruct Hy as [Hc Hi Hst Hm Hj Hp [Ho|Ho] Hg].
  - pose proof (run_ok _ cache_clear_clearable (opt_env e) (Some (Router.active (app (the_server y)), zero)) (prev_usage y) _ _ Ho (cl_cache _ Hc)) as Hr.
    destruct (optimizer_run _ _ _ _ _) as [[[[o u] c] acts]|]; [|done]. destruct Hr as [Ho' Hc']. cbn [mbind res_bind].
    eexists. split; [done|]. destruct Hc, Hm, Hj. split; try done; [by split..|by left].
  - unfold optimizer_run. rewrite Ho. cbn [negb mbind res_bind]. eexists. split; [done|].
    destruct Hc, Hm, Hj. split; try done; [by split..|by right].
Qed.

Lemma calm_round m e g (y : System) i :
  steady m y -> calm e -> exists b g' y', round e g y i = Done (b, g', y') i /\ steady m y'.
Proof.
  intros Hy [Hq Ha Hd]. unfold main_round.
  destruct (process_quiet m (events e) (object y) i (st_polls _ _ Hy) Hq (st_stop _ _ Hy)) as (r & o & E & Hm & Hp & Hs & Hj). specialize (Hj (st_joinable _ _ Hy)).
  apply (steady_object m o) in Hy as Hy1; [|done..]. rewrite (bind_step _ _ _ _ _ E). clear Hy E Hm Hp Hs Hj. set (y1 := set_object o y) in *.
  destruct (read_pipe _) as [c g1]. destruct (_ && _); [by eexists false, g1, y1|].
  set (y2 := if bool_decide (c = Some 2) then _ else y1).
  assert (steady m y2) as Hy2 by (unfold y2; case_bool_decide; [by apply steady_router|done]).
  assert (exists y3, (if bool_decide (c = Some 3) then ocsp_signal (ocsp_asked e) y2 else Ok y2) = Ok y3 /\ steady m y3) as (y3 & E3 & Hy3).
  { case_bool_decide; [|by exists y2]. unfold ocsp_signal.
    destruct (on _ _), (tls_ctx (object y2)); try (by exists y2). by apply steady_staple. }
  rewrite (bind_step _ _ i y3 i) by (unfold of_res; by rewrite E3).
  destruct (steady_optimizer m e y3 Hy3) as (y4 & E4 & Hy4). rewrite (bind_step _ _ i y4 i) by (unfold of_res; by rewrite E4).
  destruct (empty_stats_save (stats_now e) (stats_open e) _ (st_stats _ _ Hy4)) as (r5 & text & st & E5 & Hg5).
  rewrite (bind_step _ _ i (r5, text, st) i) by (unfold of_res; by rewrite E5).
  set (y5 := check_config_reload _ _ _ _ _).
  assert (steady m y5) as Hy5.
  { assert (steady m (set_collector st y4)) as Hy5 by (destruct Hy4 as [[] ? ? [] [] ? ? ?]; by split; [split|..]).
    unfold y5, check_config_reload. destruct (_ =? _); [done|]. destruct (config_changed e); [|done].
    destruct (load_hierarchical_config _ _ _ _ _) as [z c']. destruct (z =? 0); [|done].
    destruct Hy5 as [[] ? ? [] [] ? ? ?]; by split; [split|..]. }
  assert (exists y6, handle_ocsp_refresh (ocsp_due e) (ocsp_time e) y5 = Ok y6 /\ steady m y6) as (y6 & E6 & Hy6).
  { unfold handle_ocsp_refresh. destruct (_ || _); [by exists y5|]. destruct (_ >=? _); [|by exists y5].
    destruct (steady_staple m (ocsp_due e) y5 Hy5 Hd) as (y6 & -> & Hy6). cbn [mbind res_bind]. eexists. split; [done|].
    destruct Hy6 as [[] ? ? [] [] ? ? ?]; by split; [split|..]. }
  rewrite (bind_step _ _ i y6 i) by (unfold of_res; by rewrite E6). by eexists true, _, y6.
Qed.

(** The loop ends at the latest with the round in which a signal to stop arrives. *)
Lemma calm_loop_ends m l r l' : forall g (y : System) i,
  steady m y -> Forall calm l -> calm r -> (SIGINT ∈ arrived r \/ SIGTERM ∈ arrived r) ->
  exists g' y', main_loop getenv (l ++ r :: l') g y i = Done (g', y') i /\ steady m y'.
Proof.
  induction l as [|e l IH]; intros g y i Hy Hl Hr Hs; cbn [main_loop List.app]; (destruct (running g && negb (iouring_global_stop g)); [|eexists g, y; split; [reflexivity|exact Hy]]).
  - destruct (calm_round m r g y i Hy Hr) as (b & g' & y' & E & Hy').
    rewrite (bind_step _ _ _ _ _ E). apply main_round_flags in E as [Hf _]. rewrite (proj1 (stop_signal_flags _ _ g Hs)) in Hf.
    destruct b; [|by eexists g', y']. destruct l'; cbn [main_loop]; rewrite Hf; by eexists g', y'.
  - apply Forall_cons in Hl as [He Hl]. destruct (calm_round m e g y i Hy He) as (b & g' & y' & E & Hy').
    rewrite (bind_step _ _ _ _ _ E). destruct b; [|by eexists g', y']. by apply IH.
Qed.

(** What is asked of the outside in a whole run: of the parts and the server what no fault
    needs, no io_uring, threads that are created and end, and rounds without connections up to one in which a signal to
    stop arrives. *)
Record run_ok (e : main_env (T := T) (H := H) (Regex := Regex)) (c : Config) : Prop := mkRunOk {
  ro_boot : boot_ok readdir (boot e);
  ro_server : answers_ok (server_answers (boot e)) c;
  ro_epoll : Config.ints c enable_iouring = 0;
  ro_threads : all_start (thread_answers (boot e));
  ro_joins : idle_joins (joins (stopping e));
  ro_rounds : exists l r l', rounds e = l ++ r :: l' /\ Forall calm l /\ calm r /\ (SIGINT ∈ arrived r \/ SIGTERM ∈ arrived r)
}.

(** What a run leaves: the exit code, the parts, and after a run of the server what it had. *)
Definition ended (i : io) (m : list Z) (x : Z * System) (i' : io) : Prop :=
  let '(z, y') := x in
  state y' = nothing_started /\ config y' = no_settings /\ config_paths (config_paths_of y') = PNull
  /\ (z = 1 /\ i' = i \/ z = 0 /\ given_back m (outer y')).

Lemma recover_returns st m (y : System) i :
  cleanable y -> server_initialized (state y) = false -> server_started (state y) = false ->
  returns (y ← recover_from_error st y; mret (1, y)) i (ended i m).
Proof.
  intros Hc Hi Hs. destruct (recover_clean st y i Hc Hi Hs) as (y2 & E & H1' & H2' & H3' & _).
  eapply returns_step; [exact E|]. apply returns_ret. split_and!; try done. by left.
Qed.

Lemma recover_unstarted st m (y : System) i :
  unstarted y -> returns (y ← recover_from_error st y; mret (1, y)) i (ended i m).
Proof. intros [Hs _ _ _ _ _ Hc]. apply recover_returns; [split|..]; by rewrite ?Hs. Qed.

(** C2: A whole run ends and cleans up after itself, under the conditions of [run_ok].  From the state in which the
    process begins, with any configuration files and any answers that [run_ok] leaves open, [main] returns 0 or 1,
    no fault happens on the way, no part is left marked as started, the configuration is
    freed, and when the server was up it has given back every block of its arenas and
    every object of the library of TLS.  What [run_ok] asks: no file of statistics (with one the clean-up reads freed
    memory), a directory of plugins of fewer than 2^27 entries whose names can be copied, and copies of the API keys;
    of the server, no block of its arenas at address 0, the two blocks of server.c:1136 with room for the workers, certificates
    that name no responder, io_uring off in the configuration, and threads that are created and can be joined; of the
    main loop, rounds in which no connection comes.  Within this, parts may still fail to start - the
    cache, the optimizer, the sockets ... - and then the exit code is 1; the
    blocks and objects are counted only for a server that was up.  The main loop runs for any number of rounds,
    in which the configuration is reloaded, the optimizer and the statistics run
    and any signals arrive, until one of them says stop. *)
Theorem run_ends_clean e y i :
  unstarted y ->
  run_ok e (load_hierarchical_config (first_allocs e) (first_files e) (aionic_env e) (lit "config") (config y)).2 ->
  returns (main crc32_asm regcomp regexec dlopen readdir getenv e y) i (ended i (Prelude.live (memory_of (boot e)))).
Proof.
  intros Hy Hok. unfold main. destruct (config_paths_init (paths_ok e)) as [z0 p].
  set (y1 := set_paths p (pool y) (-1) y). assert (unstarted y1) as Hy1 by (by destruct Hy).
  destruct (z0 =? 0); cbn [negb]; [|by apply recover_unstarted].
  change (config y1) with (config y). destruct (load_hierarchical_config _ _ _ _ _) as [z1 c]. cbn [snd] in Hok.
  set (y2 := set_config c y1). assert (unstarted y2) as Hy2 by (by destruct Hy1).
  destruct (z1 =? 0); cbn [negb]; [|by apply recover_unstarted].
  unfold thread_pool_init. destruct (setup_inotify _ _) as [z2 fd]. set (y3 := set_paths _ _ _ y2).
  assert (unstarted y3) as Hy3 by (by destruct Hy2). destruct Hok as [Hb Ha Hu Hth Hjo (l & r & l' & Hr & Hl & Hcr & Hs)].
  destruct (initialize_safe crc32_asm regcomp regexec dlopen readdir getenv (boot e) y3 Hy3 Hb Ha) as (z & y4 & E & Hready).
  pose proof (initialize_kept _ _ _ _ _ _ _ _ _ _ Hy3 Hb E) as (Hc & [(-> & Hn)|(-> & Hi & Hst & Hm)]);
    (eapply returns_step; [unfold of_res; by rewrite E|]); cbn [Z.eqb negb].
  - apply recover_returns; [done|apply Hn..].
  - set (m := Prelude.live _) in *. rewrite Hr. destruct (Hready eq_refl) as [Hpl Hjn Ho Hg].
    assert (steady m (set_ocsp_time (start_time e) y4)) as Hy4.
    { specialize (Hm (ao_heap _ _ Ha)). specialize (Hjn Hth). destruct Hc, Hm, Hjn. split; try done; [by split..|by apply Hpl]. }
    destruct (calm_loop_ends m l r l' (setup_signal_handling (pipe_ok e) (mkSignals true false None)) _ i Hy4 Hl Hcr Hs) as (g & y5 & El & Hy5).
    eapply returns_step; [exact El|]. destruct Hy5 as [Hc5 Hi5 Hst5 Hm5 Hj5 _ _ _].
    destruct (stop_and_clean m (stopping e) y5 i Hc5 Hi5 Hst5 Hm5 Hj5 Hjo) as (y6 & i6 & E6 & Hs6 & Hc6 & Hg6 & _).
    eapply returns_step; [exact E6|]. apply returns_ret. split_and!; try done. right. by split.
Qed.
End Run.

(** ** Witnesses *)

#[local] Existing Instance demo_tls.
#[local] Existing Instance demo_h2_layer.

(** A round in which nothing happens but the signals. *)
Definition demo_round : round_env :=
  mkRoundEnv (mkLoopEnv (Events []) [] true no_completions no_completions) [SIGHUP; SIGTERM] false
    (demo_run 0 0).1 0 true (fun _ _ => all_allocs) (fun _ => None) None false (demo_responder None) (demo_responder None) 0.

Definition demo_signals : Signals := setup_signal_handling true (mkSignals true false None).

Lemma stop_signal_ends_loop_witness :
  exists b g y i, main_round (fun _ => None) demo_round demo_signals demo_main (EventLoop.demo_io []) = Done (b, g, y) i
    /\ forall l, main_loop (fun _ => None) (demo_round :: l) demo_signals demo_main (EventLoop.demo_io []) = Done (g, y) i.
Proof.
  eexists _, _, _, _. split; [vm_compute; reflexivity|]. intros l.
  eapply (stop_signal_ends_loop (fun _ => None) demo_round l demo_signals demo_main); [right; right; left|reflexivity|reflexivity|].
  vm_compute. reflexivity.
Defined.

(** A configuration file, a socket, and two rounds. *)
Definition demo_conf : files := fun p =>
  if bool_decide (p = path_of (lit "config") (lit "aionic.conf"))
  then Some (Some (lit "thread_count=2" ++ [c_LF] ++ lit "worker_threads=0" ++ [c_LF] ++ lit "enable_iouring=0" ++ [c_LF] ++ lit "enable_tls=0")) else None.

Definition free_port : server_env :=
  mkServerEnv 0 true demo_heap demo_loads (demo_responder None) true 3 4 5 demo_setup 6 true true true (-1) true true true
    (Some [0; 0]) true (lit "Thu, 01 Jan 1970 00:00:00 GMT") true 0 true true true (fun _ => true) (fun _ => true) true.

(** The configuration is reloaded in every round. *)
Definition demo_calm (t : Z) (l : list signal) : round_env :=
  mkRoundEnv (mkLoopEnv (Events []) [] true no_completions no_completions) l true
    (demo_run t 0).1 t true (fun _ _ => all_allocs) demo_conf None true (demo_responder None) (demo_responder None) t.

Definition demo_run_env : main_env (T := TLSConn (SSL := unit)) (H := H2Session (S := list Z)) (Regex := list Z) :=
  mkMainEnv true true (fun _ _ => all_allocs) demo_conf None 7 1
    (mkBootEnv true true 0 true true true (fun _ => true) 4 true true true true first_init true true true (fun _ => (true, true)) 0
       demo_accept (fun _ => demo_call) free_port (fun _ => mkThreadEnv true true))
    0 [demo_calm 3 [SIGHUP; SIGUSR1]; demo_calm 9 [SIGUSR1; SIGTERM]]
    (mkStopEnv (fun _ s => s) (fun _ => Some (fun s => s)) true).

Abbreviation demo_whole_run :=
  (main (fun _ => 7) Some (fun _ _ => false) (fun _ => None) (fun _ => None) (fun _ => None) demo_run_env demo_main).

Lemma demo_exits : exists y i, demo_whole_run (EventLoop.demo_io []) = Done (0, y) i.
Proof.
  assert (match demo_whole_run (EventLoop.demo_io []) with Done (z, _) _ => z | _ => 2 end = 0) as Hc by (by vm_compute).
  destruct (demo_whole_run _) as [[z y] i| |]; [|done..]. subst z. by exists y, i.
Qed.

Lemma run_ends_clean_witness :
  exists y i, demo_whole_run (EventLoop.demo_io []) = Done (0, y) i
    /\ ended (EventLoop.demo_io []) (Prelude.live (memory_of (boot demo_run_env))) (0, y) i.
Proof.
  destruct demo_exits as (y & i & E). exists y, i. split; [exact E|].
  destruct (run_ends_clean (fun _ => 7) Some (fun _ _ => false) (fun _ => None) (fun _ => None) (fun _ => None) demo_run_env
              demo_main (EventLoop.demo_io [])) as (x & i' & E' & Hx).
  - split; [reflexivity..|by apply Forall_nil].
  - split.
    + split; [reflexivity|exact I|intros j; reflexivity|reflexivity|intros j; reflexivity].
    + split; [intros k; discriminate|reflexivity|exists [0; 0]; split; [reflexivity|apply Nat.leb_le; vm_compute; reflexivity]|reflexivity].
    + vm_compute. reflexivity.
    + intros k. split; reflexivity.
    + intros k. exists (fun s => s). split; reflexivity.
    + exists [demo_calm 3 [SIGHUP; SIGUSR1]], (demo_calm 9 [SIGUSR1; SIGTERM]), []. split; [reflexivity|].
      split; [constructor; [by split|constructor]|]. split; [by split|]. right. right. left.
  - rewrite E in E'. injection E' as <- <-. exact Hx.
Defined.
